(** * FoxyTrailz23 funnel planner

    A shallow embedding of [src/assets/main.js] (and its TypeScript twin):
    the form reader, the local-storage codec, the snapshot renderer and the
    growth-brief exporter, together with the parts of the JavaScript
    platform they call ([Number], [String.prototype.trim], [JSON.stringify],
    [JSON.parse], [Number.prototype.toFixed], ...).

    Strings are sequences of UTF-16 code units, numbers are IEEE 754
    binary64 values (the [spec_float] of the standard library with
    [prec = 53] and [emax = 1024]), objects are finite maps from property
    names to values. *)

From Stdlib Require Import ZArith NArith List Bool Lia String Ascii.
From Stdlib Require Import Floats.SpecFloat.
From stdpp Require Import gmap.
Import ListNotations.

(* ===================================================================== *)
(** * JavaScript strings *)
(* ===================================================================== *)

(** A JavaScript string: its UTF-16 code units. *)
Abbreviation jsstring := (list N) (only parsing).

(** The code units of an ASCII literal of the source. *)
Definition lit (s : string) : jsstring :=
  map N_of_ascii (list_ascii_of_string s).

Definition jsstring_eqb (a b : jsstring) : bool :=
  bool_decide (a = b).

(** [WhiteSpace] and [LineTerminator] code points of ECMAScript, the set
    stripped by [String.prototype.trim] and skipped by [Number(string)]. *)
Definition isWhiteSpace (c : N) : bool :=
  (existsb (N.eqb c)
     [9; 10; 11; 12; 13; 32; 160; 5760; 8232; 8233; 8239; 8287; 12288; 65279]
   || ((8192 <=? c) && (c <=? 8202)))%N.

Fixpoint trimStart (s : jsstring) : jsstring :=
  match s with
  | [] => []
  | c :: r => if isWhiteSpace c then trimStart r else s
  end.

Definition trimEnd (s : jsstring) : jsstring :=
  rev (trimStart (rev s)).

(** [String.prototype.trim]. *)
Definition trim (s : jsstring) : jsstring :=
  trimEnd (trimStart s).

Fixpoint span (p : N -> bool) (s : jsstring) : jsstring * jsstring :=
  match s with
  | [] => ([], [])
  | c :: r =>
      if p c then let '(a, b) := span p r in (c :: a, b) else ([], s)
  end.

(* ===================================================================== *)
(** * JavaScript numbers *)
(* ===================================================================== *)

(** Binary64. *)
Definition prec : Z := 53.
Definition emax : Z := 1024.

Abbreviation number := spec_float (only parsing).

Definition NaN : number := S754_nan.
Definition posZero : number := S754_zero false.

(** A finite binary64 value in canonical form (or a zero, an infinity,
    NaN): the values a JavaScript number can take. *)
Definition isDouble (x : number) : bool :=
  valid_binary prec emax x.

(** [x >= 0] of JavaScript: false on NaN, true on both zeros. *)
Definition nonNegative (x : number) : bool :=
  match x with
  | S754_zero _ => true
  | S754_infinity s => negb s
  | S754_finite s _ _ => negb s
  | S754_nan => false
  end.

(** [Number.isFinite]. *)
Definition isFiniteNumber (x : number) : bool :=
  match x with
  | S754_zero _ | S754_finite _ _ _ => true
  | _ => false
  end.

Definition isDigit (c : N) : bool := ((48 <=? c) && (c <=? 57))%N.

Definition digitVal (c : N) : Z := Z.of_N (c - 48).

(** The mathematical value of a run of decimal digits. *)
Definition digitsValue (ds : jsstring) : Z :=
  fold_left (fun acc c => acc * 10 + digitVal c)%Z ds 0%Z.

(** The binary64 value nearest to [m * 10 ^ e] for [m >= 0] (ties to
    even), with sign [neg]: the rounding every conversion from a decimal
    literal ends with.  A non-negative decimal exponent gives an integer,
    rounded by [binary_normalize]; a negative one a quotient of two
    integers, rounded from the quotient and the position of the remainder.
    (ECMAScript allows an engine to drop the digits after the twentieth;
    this is the exact rounding the engines implement.) *)
Definition round_decimal (neg : bool) (m e : Z) : number :=
  if (m =? 0)%Z then S754_zero neg
  else if (0 <=? e)%Z then
    binary_normalize prec emax (cond_Zopp neg (m * 10 ^ e)) 0 neg
  else
    let '(q, e', l) := SFdiv_core_binary prec emax m 0 (10 ^ (- e)) 0 in
    binary_round_aux prec emax neg q e' l.

(** [ExponentPart], optional: the exponent and the rest of the input. *)
Definition scanExponent (s : jsstring) : option (Z * jsstring) :=
  match s with
  | c :: r =>
      if ((c =? 101) || (c =? 69))%N then
        let '(neg, r1) :=
          match r with
          | 43%N :: r' => (false, r')
          | 45%N :: r' => (true, r')
          | _ => (false, r)
          end in
        let '(ds, r2) := span isDigit r1 in
        match ds with
        | [] => None
        | _ => Some (if neg then (- digitsValue ds)%Z else digitsValue ds, r2)
        end
      else Some (0%Z, s)
  | [] => Some (0%Z, [])
  end.

(** [StrUnsignedDecimalLiteral], which has to match the whole input. *)
Definition strUnsignedDecimalLiteral (neg : bool) (s : jsstring)
  : option number :=
  if jsstring_eqb s (lit "Infinity") then Some (S754_infinity neg)
  else
    let '(ip, r1) := span isDigit s in
    let '(fp, r2) :=
      match r1 with
      | 46%N :: r => span isDigit r
      | _ => ([], r1)
      end in
    match ip ++ fp with
    | [] => None
    | ds =>
        match scanExponent r2 with
        | Some (e, []) =>
            Some (round_decimal neg (digitsValue ds)
                    (e - Z.of_nat (length fp)))
        | _ => None
        end
    end.

(** The value of a digit in a radix up to 16, if it is one. *)
Definition radixDigit (radix : Z) (c : N) : option Z :=
  let v :=
    if isDigit c then Some (digitVal c)
    else if ((97 <=? c) && (c <=? 102))%N then Some (Z.of_N (c - 87))
    else if ((65 <=? c) && (c <=? 70))%N then Some (Z.of_N (c - 55))
    else None in
  match v with
  | Some d => if (d <? radix)%Z then Some d else None
  | None => None
  end.

Fixpoint radixValue (radix : Z) (acc : Z) (s : jsstring) : option Z :=
  match s with
  | [] => Some acc
  | c :: r =>
      match radixDigit radix c with
      | Some d => radixValue radix (acc * radix + d)%Z r
      | None => None
      end
  end.

(** [NonDecimalIntegerLiteral]: [0x], [0o] and [0b] literals. *)
Definition nonDecimalIntegerLiteral (s : jsstring) : option number :=
  match s with
  | 48%N :: p :: (_ :: _) as ds =>
      let radix :=
        if ((p =? 120) || (p =? 88))%N then Some 16%Z
        else if ((p =? 111) || (p =? 79))%N then Some 8%Z
        else if ((p =? 98) || (p =? 66))%N then Some 2%Z
        else None in
      match radix with
      | Some b =>
          match radixValue b 0 ds with
          | Some v => Some (binary_normalize prec emax v 0 false)
          | None => None
          end
      | None => None
      end
  | _ => None
  end.

(** [StrNumericLiteral]. *)
Definition strNumericLiteral (s : jsstring) : option number :=
  match nonDecimalIntegerLiteral s with
  | Some x => Some x
  | None =>
      match s with
      | 43%N :: r => strUnsignedDecimalLiteral false r
      | 45%N :: r => strUnsignedDecimalLiteral true r
      | _ => strUnsignedDecimalLiteral false s
      end
  end.

(** [StringToNumber]: what [Number] does with a string.  Blank text is
    [+0]; text that is not a numeric literal is [NaN]. *)
Definition StringToNumber (s : jsstring) : number :=
  match trim s with
  | [] => posZero
  | t =>
      match strNumericLiteral t with
      | Some x => x
      | None => NaN
      end
  end.

(* ===================================================================== *)
(** * The form reader *)
(* ===================================================================== *)

(** A [FormDataEntryValue] is a string or a [File]. *)
Inductive FormDataEntryValue : Type :=
| EntryString (s : jsstring)
| EntryFile (name : jsstring).

(** The entry list [new FormData(form)] builds from the form's controls:
    the state of the named fields, in tree order. *)
Definition FormData : Type := list (jsstring * FormDataEntryValue).

Record HTMLFormElement : Type := mkForm { entryList : FormData }.

Definition newFormData (form : HTMLFormElement) : FormData :=
  entryList form.

(** [value.toString()] on an entry. *)
Definition entryToString (v : FormDataEntryValue) : jsstring :=
  match v with
  | EntryString s => s
  | EntryFile _ => lit "[object File]"
  end.

(** [formData.get(name)]: the first entry of that name, or [null]. *)
Fixpoint formDataGet (name : jsstring) (fd : FormData)
  : option FormDataEntryValue :=
  match fd with
  | [] => None
  | (k, v) :: r => if jsstring_eqb k name then Some v else formDataGet name r
  end.

(** [formData.getAll(name)]: every entry of that name, in list order. *)
Fixpoint formDataGetAll (name : jsstring) (fd : FormData)
  : list FormDataEntryValue :=
  match fd with
  | [] => []
  | (k, v) :: r =>
      if jsstring_eqb k name then v :: formDataGetAll name r
      else formDataGetAll name r
  end.

(** [Number(entry ?? 0)]. *)
Definition numberOfEntry (o : option FormDataEntryValue) : number :=
  match o with
  | None => posZero
  | Some v => StringToNumber (entryToString v)
  end.

(** [entry?.toString().trim() ?? '']. *)
Definition textOfEntry (o : option FormDataEntryValue) : jsstring :=
  match o with
  | None => []
  | Some v => trim (entryToString v)
  end.

Record FunnelConfig : Type := mkConfig {
  business : jsstring;
  industry : jsstring;
  sessions : number;
  cpa : number;
  stages : list jsstring;
  newsletter : bool
}.

Definition defaultStages : list jsstring :=
  [lit "awareness"; lit "consideration"; lit "conversion"].

(** [formData.get('newsletter') === 'on']. *)
Definition entryIsOn (o : option FormDataEntryValue) : bool :=
  match o with
  | Some (EntryString s) => jsstring_eqb s (lit "on")
  | _ => false
  end.

Definition readFunnelConfig (form : HTMLFormElement) : FunnelConfig :=
  let formData := newFormData form in
  let stages := map entryToString (formDataGetAll (lit "stage") formData) in
  {| business := textOfEntry (formDataGet (lit "business") formData);
     industry := textOfEntry (formDataGet (lit "industry") formData);
     sessions := numberOfEntry (formDataGet (lit "sessions") formData);
     cpa := numberOfEntry (formDataGet (lit "cpa") formData);
     stages := if (0 <? length stages)%nat then stages else defaultStages;
     newsletter := entryIsOn (formDataGet (lit "newsletter") formData) |}.

(* ===================================================================== *)
(** * Printing numbers *)
(* ===================================================================== *)

(** Same-value test on numbers (it tells the zeros apart and equates NaN
    with itself). *)
Definition number_eqb (a b : number) : bool :=
  match a, b with
  | S754_zero s, S754_zero t => Bool.eqb s t
  | S754_infinity s, S754_infinity t => Bool.eqb s t
  | S754_nan, S754_nan => true
  | S754_finite s m e, S754_finite t n f =>
      Bool.eqb s t && Pos.eqb m n && Z.eqb e f
  | _, _ => false
  end.

Definition digitChar (d : Z) : N := Z.to_N (48 + d).

Fixpoint digitsAux (fuel : nat) (z : Z) (acc : jsstring) : jsstring :=
  match fuel with
  | O => acc
  | S f =>
      if (z <? 10)%Z then digitChar z :: acc
      else digitsAux f (z / 10)%Z (digitChar (z mod 10) :: acc)
  end.

(** The decimal digits of a non-negative integer, most significant first. *)
Definition decimalDigits (z : Z) : jsstring :=
  digitsAux (S (Z.to_nat (Z.log2 z))) z [].

Definition numDigits (z : Z) : Z := Z.of_nat (length (decimalDigits z)).

(** The integer nearest to [n / d], ties to even. *)
Definition roundHalfEven (n d : Z) : Z :=
  let q := (n / d)%Z in
  match (2 * (n mod d) ?= d)%Z with
  | Lt => q
  | Gt => (q + 1)%Z
  | Eq => if Z.even q then q else (q + 1)%Z
  end.

(** The integer nearest to [n / d], ties upwards. *)
Definition roundHalfUp (n d : Z) : Z :=
  ((2 * n + d) / (2 * d))%Z.

(** Drop the trailing zeros of [s], counting them into the exponent. *)
Fixpoint stripZeros (fuel : nat) (s e : Z) : Z * Z :=
  match fuel with
  | O => (s, e)
  | S f =>
      if ((0 <? s) && (s mod 10 =? 0))%Z then stripZeros f (s / 10)%Z (e + 1)%Z
      else (s, e)
  end.

(** The positive rational [m * 2 ^ e] as numerator and denominator. *)
Definition ratioOf (m : positive) (e : Z) : Z * Z :=
  if (0 <=? e)%Z then (Zpos m * 2 ^ e, 1)%Z else (Zpos m, 2 ^ (- e))%Z.

(** The [n] with [10 ^ (n - 1) <= num / den < 10 ^ n]. *)
Definition decimalExponent (num den : Z) : Z :=
  if (den <=? num)%Z then numDigits (num / den)
  else (1 - numDigits ((den - 1) / num))%Z.

(** The two integers around [n / d], the nearer one first (the even one
    on a tie). *)
Definition neighbours (n d : Z) : Z * Z :=
  let q := (n / d)%Z in
  if (roundHalfEven n d =? q)%Z then (q, (q + 1)%Z) else ((q + 1)%Z, q).

(** The two decimals with [k] significant digits around [num / den],
    the nearer one first, each as an integer without trailing zeros and
    a power of ten. *)
Definition candidates (num den n0 k : Z) : (Z * Z) * (Z * Z) :=
  let e := (n0 - k)%Z in
  let '(a, b) :=
    if (0 <=? e)%Z then neighbours num (den * 10 ^ e)
    else neighbours (num * 10 ^ (- e)) den in
  (stripZeros (Z.to_nat k) a e, stripZeros (Z.to_nat k) b e).

(** The decimal [fst c * 10 ^ snd c] converts to [x]. *)
Definition readsAs (x : number) (c : Z * Z) : bool :=
  (0 <? fst c)%Z && number_eqb (round_decimal false (fst c) (snd c)) x.

(** Search for the least number of significant digits with which a
    decimal reads back as [x]; of two such decimals, the nearer. *)
Fixpoint shortestFrom (x : number) (num den n0 : Z) (fuel : nat) (k : Z)
  : option (Z * Z) :=
  match fuel with
  | O => None
  | S f =>
      let '(c1, c2) := candidates num den n0 k in
      if readsAs x c1 then Some c1
      else if readsAs x c2 then Some c2
      else shortestFrom x num den n0 f (k + 1)%Z
  end.

(** The digits [s] and exponent [e] of [Number::toString]: [s * 10 ^ e]
    is the shortest decimal that converts to the positive double
    [m * 2 ^ e2], and the nearest to it among those.  The search stops
    at the latest at the number of digits with which the decimal
    expansion of the double is exact. *)
Definition shortestDecimal (m : positive) (e2 : Z) : Z * Z :=
  let '(num, den) := ratioOf m e2 in
  let n0 := decimalExponent num den in
  let bound := Z.to_nat (Z.max 1 (n0 + Z.max 0 (- e2))) in
  match shortestFrom (S754_finite false m e2) num den n0 bound 1 with
  | Some r => r
  | None => (0, 0)%Z
  end.

(** The layout of [Number::toString] for digits [ds] and decimal point
    position [n]. *)
Definition formatDecimal (ds : jsstring) (n : Z) : jsstring :=
  let k := Z.of_nat (length ds) in
  if ((k <=? n) && (n <=? 21))%Z then ds ++ repeat 48%N (Z.to_nat (n - k))
  else if ((0 <? n) && (n <=? 21))%Z then
    firstn (Z.to_nat n) ds ++ 46%N :: skipn (Z.to_nat n) ds
  else if ((-6 <? n) && (n <=? 0))%Z then
    48%N :: 46%N :: repeat 48%N (Z.to_nat (- n)) ++ ds
  else
    let e := (n - 1)%Z in
    let expo :=
      101%N :: (if (0 <=? e)%Z then 43%N else 45%N)
            :: decimalDigits (Z.abs e) in
    match ds with
    | [] => []
    | [d] => d :: expo
    | d :: r => d :: 46%N :: r ++ expo
    end.

(** [Number::toString] in radix 10. *)
Definition NumberToString (x : number) : jsstring :=
  match x with
  | S754_nan => lit "NaN"
  | S754_zero _ => lit "0"
  | S754_infinity s => (if s then [45%N] else []) ++ lit "Infinity"
  | S754_finite s m e2 =>
      let '(d, e) := shortestDecimal m e2 in
      let ds := decimalDigits d in
      (if s then [45%N] else [])
        ++ formatDecimal ds (e + Z.of_nat (length ds))
  end.

(** [Number.prototype.toFixed(0)]: the nearest integer, ties upwards in
    magnitude; from [1e21] on, and for NaN, the text of [toString]. *)
Definition toFixed0 (x : number) : jsstring :=
  match x with
  | S754_finite s m e =>
      if ((0 <=? e) && (10 ^ 21 <=? Zpos m * 2 ^ e))%Z then NumberToString x
      else
        let n :=
          if (0 <=? e)%Z then (Zpos m * 2 ^ e)%Z
          else roundHalfUp (Zpos m) (2 ^ (- e)) in
        (if s then [45%N] else []) ++ decimalDigits n
  | S754_zero _ => lit "0"
  | _ => NumberToString x
  end.

(** Thousands separators. *)
Fixpoint groupAux (rev_digits : jsstring) (i : nat) : jsstring :=
  match rev_digits with
  | [] => []
  | d :: r =>
      match i with
      | 3%nat => 44%N :: d :: groupAux r 1
      | _ => d :: groupAux r (S i)
      end
  end.

Definition groupThousands (ds : jsstring) : jsstring :=
  rev (groupAux (rev ds) 0).

Fixpoint dropTrailingZeros (rev_digits : jsstring) : jsstring :=
  match rev_digits with
  | 48%N :: r => dropTrailingZeros r
  | _ => rev_digits
  end.

(** [Number.prototype.toLocaleString()] in the [en-US] locale with the
    default options of ECMA-402: grouping by three, at most three
    fraction digits, rounding half away from zero.  The engines round
    the shortest decimal that reads back as the number (the digits of
    [Number::toString]), not its binary expansion. *)
Definition toLocaleString_enUS (x : number) : jsstring :=
  match x with
  | S754_nan => lit "NaN"
  | S754_infinity s => (if s then [45%N] else []) ++ [8734%N]
  | S754_zero s => (if s then [45%N] else []) ++ lit "0"
  | S754_finite s m e =>
      let '(d, e10) := shortestDecimal m e in
      let n :=
        if (0 <=? e10 + 3)%Z then (d * 10 ^ (e10 + 3))%Z
        else roundHalfUp d (10 ^ (- (e10 + 3))) in
      let ip := groupThousands (decimalDigits (n / 1000)) in
      let f := (n mod 1000)%Z in
      let fp :=
        rev (dropTrailingZeros
               (rev (skipn 1 (decimalDigits (1000 + f))))) in
      (if s then [45%N] else [])
        ++ ip ++ match fp with [] => [] | _ => 46%N :: fp end
  end.

(** [String.prototype.toUpperCase] maps code points one by one, so it
    splits over the ASCII code units of a string, where it is the
    ASCII mapping, and the runs between them, where it is the Unicode
    table [table] of the host. *)
Definition asciiUpper (c : N) : N :=
  if ((97 <=? c) && (c <=? 122))%N then (c - 32)%N else c.

Definition flushRun (table : jsstring -> jsstring) (run : jsstring)
  : jsstring :=
  match run with
  | [] => []
  | _ => table run
  end.

Fixpoint upperAux (table : jsstring -> jsstring) (run s : jsstring)
  : jsstring :=
  match s with
  | [] => flushRun table run
  | c :: r =>
      if (c <? 128)%N then
        flushRun table run ++ asciiUpper c :: upperAux table [] r
      else upperAux table (run ++ [c]) r
  end.

(** What the program takes from its host: the number format of the
    locale, the case mapping of the Unicode version, and the text a
    template literal shows for each property an object literal inherits
    from [Object.prototype] ([None] for a name that is not inherited). *)
Record Host : Type := mkHost {
  numberToLocaleString : number -> jsstring;
  unicodeUpperCase : jsstring -> jsstring;
  objectPrototypeText : jsstring -> option jsstring
}.

Definition toUpperCase (H : Host) (s : jsstring) : jsstring :=
  upperAux (unicodeUpperCase H) [] s.

(** The text a template literal shows for a built-in function. *)
Definition nativeFunctionText (name : string) : jsstring :=
  lit "function " ++ lit name ++ lit "() { [native code] }".

Definition objectPrototype_enUS (k : jsstring) : option jsstring :=
  if jsstring_eqb k (lit "constructor") then Some (nativeFunctionText "Object")
  else if jsstring_eqb k (lit "__proto__") then Some (lit "[object Object]")
  else
    match
      find (fun n => jsstring_eqb k (lit n))
        ["hasOwnProperty"; "isPrototypeOf"; "propertyIsEnumerable";
         "toLocaleString"; "toString"; "valueOf"; "__defineGetter__";
         "__defineSetter__"; "__lookupGetter__"; "__lookupSetter__"]%string
    with
    | Some n => Some (nativeFunctionText n)
    | None => None
    end.

(** A browser in the [en-US] locale.  Its case mapping stands in for
    the Unicode table: it leaves text outside ASCII as it is. *)
Definition enUS : Host :=
  {| numberToLocaleString := toLocaleString_enUS;
     unicodeUpperCase := fun run => run;
     objectPrototypeText := objectPrototype_enUS |}.

(* ===================================================================== *)
(** * JSON *)
(* ===================================================================== *)

(** The values [JSON.parse] builds, and [undefined]. *)
#[warnings="-register-all"]
Inductive value : Type :=
| VUndefined
| VNull
| VBool (b : bool)
| VNum (x : number)
| VStr (s : jsstring)
| VArr (items : list value)
| VObj (props : gmap jsstring value).

Definition isLeadSurrogate (c : N) : bool :=
  ((55296 <=? c) && (c <=? 56319))%N.

Definition isTrailSurrogate (c : N) : bool :=
  ((56320 <=? c) && (c <=? 57343))%N.

Definition hexDigit (d : N) : N :=
  if (d <? 10)%N then (48 + d)%N else (87 + d)%N.

(** The escape [\uXXXX] of a code unit. *)
Definition unicodeEscape (c : N) : jsstring :=
  [92; 117; hexDigit (c / 4096 mod 16); hexDigit (c / 256 mod 16);
   hexDigit (c / 16 mod 16); hexDigit (c mod 16)]%N.

(** [QuoteJSONString] on a code unit that is not half of a surrogate
    pair. *)
Definition quoteUnit (c : N) : jsstring :=
  if (c =? 8)%N then [92; 98]%N
  else if (c =? 9)%N then [92; 116]%N
  else if (c =? 10)%N then [92; 110]%N
  else if (c =? 12)%N then [92; 102]%N
  else if (c =? 13)%N then [92; 114]%N
  else if (c =? 34)%N then [92; 34]%N
  else if (c =? 92)%N then [92; 92]%N
  else if (c <? 32)%N || isLeadSurrogate c || isTrailSurrogate c
       then unicodeEscape c
  else [c].

Fixpoint quoteBody (s : jsstring) : jsstring :=
  match s with
  | [] => []
  | c :: r =>
      match r with
      | t :: r' =>
          if isLeadSurrogate c && isTrailSurrogate t
          then c :: t :: quoteBody r'
          else quoteUnit c ++ quoteBody r
      | [] => quoteUnit c
      end
  end.

(** [QuoteJSONString]. *)
Definition quoteJSONString (s : jsstring) : jsstring :=
  34%N :: quoteBody s ++ [34%N].

(** [array.join(sep)] on strings. *)
Fixpoint join (sep : jsstring) (l : list jsstring) : jsstring :=
  match l with
  | [] => []
  | [a] => a
  | a :: r => a ++ sep ++ join sep r
  end.

(** [JSON.stringify] on a number: NaN and the infinities become [null]. *)
Definition stringifyNumber (x : number) : jsstring :=
  if isFiniteNumber x then NumberToString x else lit "null".

(** [JSON.stringify(config)] for the object literal [readFunnelConfig]
    builds: its six properties in creation order, no white space. *)
Definition JSON_stringify (config : FunnelConfig) : jsstring :=
  lit "{" ++ quoteJSONString (lit "business") ++ lit ":"
    ++ quoteJSONString (business config)
    ++ lit "," ++ quoteJSONString (lit "industry") ++ lit ":"
    ++ quoteJSONString (industry config)
    ++ lit "," ++ quoteJSONString (lit "sessions") ++ lit ":"
    ++ stringifyNumber (sessions config)
    ++ lit "," ++ quoteJSONString (lit "cpa") ++ lit ":"
    ++ stringifyNumber (cpa config)
    ++ lit "," ++ quoteJSONString (lit "stages") ++ lit ":"
    ++ lit "[" ++ join (lit ",") (map quoteJSONString (stages config))
    ++ lit "]"
    ++ lit "," ++ quoteJSONString (lit "newsletter") ++ lit ":"
    ++ (if newsletter config then lit "true" else lit "false")
    ++ lit "}".

(** The object that literal evaluates to. *)
Definition toValue (config : FunnelConfig) : value :=
  VObj (<[lit "newsletter" := VBool (newsletter config)]>
       (<[lit "stages" := VArr (map VStr (stages config))]>
       (<[lit "cpa" := VNum (cpa config)]>
       (<[lit "sessions" := VNum (sessions config)]>
       (<[lit "industry" := VStr (industry config)]>
       (<[lit "business" := VStr (business config)]> ∅)))))).

Fixpoint allStrings (l : list value) : option (list jsstring) :=
  match l with
  | [] => Some []
  | VStr s :: r =>
      match allStrings r with
      | Some t => Some (s :: t)
      | None => None
      end
  | _ => None
  end.

(** The values of type [FunnelConfig]: what the cast [as FunnelConfig]
    takes for granted. *)
Definition asFunnelConfig (v : value) : option FunnelConfig :=
  match v with
  | VObj m =>
      match m !! lit "business", m !! lit "industry", m !! lit "sessions",
            m !! lit "cpa", m !! lit "stages", m !! lit "newsletter" with
      | Some (VStr b), Some (VStr i), Some (VNum s), Some (VNum c),
        Some (VArr l), Some (VBool n) =>
          match allStrings l with
          | Some st => Some (mkConfig b i s c st n)
          | None => None
          end
      | _, _, _, _, _, _ => None
      end
  | _ => None
  end.

(** The objects [persistConfig] can have stored.  [JSON.stringify]
    writes [null] for a number that is [NaN] or infinite, so [sessions]
    and [cpa] can come back as [null] where the type says [number]. *)
Record StoredConfig : Type := mkStored {
  storedBusiness : jsstring;
  storedIndustry : jsstring;
  storedSessions : option number;
  storedCpa : option number;
  storedStages : list jsstring;
  storedNewsletter : bool
}.

Definition numberOrNull (v : value) : option (option number) :=
  match v with
  | VNum x => Some (Some x)
  | VNull => Some None
  | _ => None
  end.

Definition asStoredConfig (v : value) : option StoredConfig :=
  match v with
  | VObj m =>
      match m !! lit "business", m !! lit "industry", m !! lit "sessions",
            m !! lit "cpa", m !! lit "stages", m !! lit "newsletter" with
      | Some (VStr b), Some (VStr i), Some s, Some c,
        Some (VArr l), Some (VBool n) =>
          match numberOrNull s, numberOrNull c, allStrings l with
          | Some s', Some c', Some st => Some (mkStored b i s' c' st n)
          | _, _, _ => None
          end
      | _, _, _, _, _, _ => None
      end
  | _ => None
  end.

Definition hexVal (c : N) : option N :=
  if isDigit c then Some (c - 48)%N
  else if ((97 <=? c) && (c <=? 102))%N then Some (c - 87)%N
  else if ((65 <=? c) && (c <=? 70))%N then Some (c - 55)%N
  else None.

Definition hex4 (a b c d : N) : option N :=
  match hexVal a, hexVal b, hexVal c, hexVal d with
  | Some x, Some y, Some z, Some w => Some (((x * 16 + y) * 16 + z) * 16 + w)%N
  | _, _, _, _ => None
  end.

Definition simpleEscape (e : N) : option N :=
  if ((e =? 34) || (e =? 92) || (e =? 47))%N then Some e
  else if (e =? 98)%N then Some 8%N
  else if (e =? 102)%N then Some 12%N
  else if (e =? 110)%N then Some 10%N
  else if (e =? 114)%N then Some 13%N
  else if (e =? 116)%N then Some 9%N
  else None.

Definition consResult (u : N) (o : option (jsstring * jsstring))
  : option (jsstring * jsstring) :=
  match o with
  | Some (t, rest) => Some (u :: t, rest)
  | None => None
  end.

(** A JSON string after its opening quote: the string and what follows
    the closing quote. *)
Fixpoint parseStringBody (s : jsstring) : option (jsstring * jsstring) :=
  match s with
  | [] => None
  | c :: r =>
      if (c =? 34)%N then Some ([], r)
      else if (c =? 92)%N then
        match r with
        | [] => None
        | e :: r1 =>
            if (e =? 117)%N then
              match r1 with
              | h1 :: h2 :: h3 :: h4 :: r2 =>
                  match hex4 h1 h2 h3 h4 with
                  | Some u => consResult u (parseStringBody r2)
                  | None => None
                  end
              | _ => None
              end
            else
              match simpleEscape e with
              | Some u => consResult u (parseStringBody r1)
              | None => None
              end
        end
      else if (c <? 32)%N then None
      else consResult c (parseStringBody r)
  end.

Definition leadingZero (ip : jsstring) : bool :=
  match ip with
  | c :: _ :: _ => (c =? 48)%N
  | _ => false
  end.

(** The optional fraction of a JSON number: a point and at least one
    digit. *)
Definition scanFraction (s : jsstring) : option (jsstring * jsstring) :=
  match s with
  | 46%N :: r =>
      let '(fp, r2) := span isDigit r in
      match fp with
      | [] => None
      | _ => Some (fp, r2)
      end
  | _ => Some ([], s)
  end.

(** A JSON number after its sign: [int frac? exp?], no leading zeros. *)
Definition parseUnsigned (neg : bool) (s : jsstring)
  : option (number * jsstring) :=
  let '(ip, r1) := span isDigit s in
  if (length ip =? 0)%nat || leadingZero ip then None
  else
    match scanFraction r1 with
    | None => None
    | Some (fp, r2) =>
        match scanExponent r2 with
        | Some (e, r3) =>
            Some (round_decimal neg (digitsValue (ip ++ fp))
                    (e - Z.of_nat (length fp)), r3)
        | None => None
        end
    end.

(** A JSON number: [-? int frac? exp?]. *)
Definition parseNumber (s : jsstring) : option (number * jsstring) :=
  match s with
  | c :: r => if (c =? 45)%N then parseUnsigned true r else parseUnsigned false s
  | [] => None
  end.

Fixpoint stripPrefix (p s : jsstring) : option jsstring :=
  match p, s with
  | [], _ => Some s
  | a :: p', b :: s' => if (a =? b)%N then stripPrefix p' s' else None
  | _ :: _, [] => None
  end.

Fixpoint skipWs (s : jsstring) : jsstring :=
  match s with
  | c :: r =>
      if ((c =? 32) || (c =? 9) || (c =? 10) || (c =? 13))%N then skipWs r
      else s
  | [] => []
  end.

(** Recursive descent over the JSON grammar, structural on [fuel].  A
    unit of fuel is spent on an opening bracket or brace (which has a
    closing one in a text that parses), on an element with its separator
    and on a member with its key, so a text that parses does so within
    fuel equal to its length, which is what [JSON_parse] gives. *)
Fixpoint parseValue (fuel : nat) (s : jsstring) : option (value * jsstring) :=
  match fuel with
  | O => None
  | S f =>
      match skipWs s with
      | [] => None
      | c :: r =>
          if (c =? 123)%N then
            match skipWs r with
            | 125%N :: r' => Some (VObj ∅, r')
            | _ => parseMembers f ∅ r
            end
          else if (c =? 91)%N then
            match skipWs r with
            | 93%N :: r' => Some (VArr [], r')
            | _ => parseElements f [] r
            end
          else if (c =? 34)%N then
            match parseStringBody r with
            | Some (t, r') => Some (VStr t, r')
            | None => None
            end
          else if (c =? 116)%N then
            match stripPrefix (lit "rue") r with
            | Some r' => Some (VBool true, r')
            | None => None
            end
          else if (c =? 102)%N then
            match stripPrefix (lit "alse") r with
            | Some r' => Some (VBool false, r')
            | None => None
            end
          else if (c =? 110)%N then
            match stripPrefix (lit "ull") r with
            | Some r' => Some (VNull, r')
            | None => None
            end
          else
            match parseNumber (c :: r) with
            | Some (x, r') => Some (VNum x, r')
            | None => None
            end
      end
  end
with parseElements (fuel : nat) (acc : list value) (s : jsstring)
  : option (value * jsstring) :=
  match fuel with
  | O => None
  | S f =>
      match parseValue f s with
      | Some (v, r) =>
          match skipWs r with
          | 44%N :: r' => parseElements f (acc ++ [v]) r'
          | 93%N :: r' => Some (VArr (acc ++ [v]), r')
          | _ => None
          end
      | None => None
      end
  end
with parseMembers (fuel : nat) (acc : gmap jsstring value) (s : jsstring)
  : option (value * jsstring) :=
  match fuel with
  | O => None
  | S f =>
      match skipWs s with
      | 34%N :: r =>
          match parseStringBody r with
          | Some (k, r1) =>
              match skipWs r1 with
              | 58%N :: r2 =>
                  match parseValue f r2 with
                  | Some (v, r3) =>
                      match skipWs r3 with
                      | 44%N :: r4 => parseMembers f (<[k := v]> acc) r4
                      | 125%N :: r4 => Some (VObj (<[k := v]> acc), r4)
                      | _ => None
                      end
                  | None => None
                  end
              | _ => None
              end
          | None => None
          end
      | _ => None
      end
  end.

(** What a JavaScript operation throws.  (The message of a [SyntaxError]
    or a [TypeError] is the engine's own.) *)
Inductive exn : Type :=
| Error (message : jsstring)
| SyntaxError
| TypeError
| DOMException (name : jsstring).

(** How an operation completes.  [Untyped] marks the one place where the
    program leaves its declared types: a stored JSON value that is not a
    [FunnelConfig] passes the unchecked cast of [loadConfig].  What the
    code does with an object [persistConfig] wrote is modelled (see
    [StoredConfig]); what it does with any other such value is not. *)
Inductive completion (A : Type) : Type :=
| Normal (a : A)
| Throw (e : exn)
| Untyped.

Arguments Normal {A} a.
Arguments Throw {A} e.
Arguments Untyped {A}.

(** [JSON.parse]. *)
Definition JSON_parse (text : jsstring) : completion value :=
  match parseValue (S (length text)) text with
  | Some (v, rest) =>
      match skipWs rest with
      | [] => Normal v
      | _ => Throw SyntaxError
      end
  | None => Throw SyntaxError
  end.

(* ===================================================================== *)
(** * The page: storage, console, document *)
(* ===================================================================== *)

(** [localStorage].  Access can be denied (every use then throws a
    [SecurityError]); a write that would take the stored code units past
    the quota throws a [QuotaExceededError] and stores nothing. *)
Record Storage : Type := mkStorage {
  accessible : bool;
  quota : option nat;
  items : gmap jsstring jsstring
}.

Definition usage (m : gmap jsstring jsstring) : nat :=
  map_fold (fun k v acc => length k + length v + acc)%nat 0%nat m.

Definition withinQuota (q : option nat) (m : gmap jsstring jsstring) : bool :=
  match q with
  | None => true
  | Some n => (usage m <=? n)%nat
  end.

(** A child of the description list: a [dt] or [dd] element and its
    [textContent]. *)
Record Element : Type := mkElement {
  tagName : jsstring;
  textContent : jsstring
}.

(** The document, by selector: the children of each description list it
    holds and the state of each form. *)
Record Page : Type := mkPage {
  lists : gmap jsstring (list Element);
  forms : gmap jsstring HTMLFormElement
}.

Record World : Type := mkWorld {
  localStorage : Storage;
  console : list (jsstring * exn);
  document : Page
}.

(** Computations: a completion and the world it leaves. *)
Definition M (A : Type) : Type := World -> completion A * World.

Definition ret {A} (a : A) : M A := fun w => (Normal a, w).

Definition throw {A} (e : exn) : M A := fun w => (Throw e, w).

Definition untyped {A} : M A := fun w => (Untyped, w).

Definition bind {A B} (m : M A) (k : A -> M B) : M B :=
  fun w =>
    match m w with
    | (Normal a, w') => k a w'
    | (Throw e, w') => (Throw e, w')
    | (Untyped, w') => (Untyped, w')
    end.

Notation "x <- m ;; k" := (bind m (fun x => k))
  (at level 100, m at next level, right associativity).
Notation "m ;;; k" := (bind m (fun _ => k))
  (at level 100, right associativity).

(** [try { body } catch (error) { handler }]. *)
Definition tryCatch {A} (body : M A) (handler : exn -> M A) : M A :=
  fun w =>
    match body w with
    | (Throw e, w') => handler e w'
    | r => r
    end.

(** [array.forEach(f)]. *)
Fixpoint forEach {A} (l : list A) (f : A -> M unit) : M unit :=
  match l with
  | [] => ret tt
  | a :: r => f a ;;; forEach r f
  end.

Definition securityError : exn := DOMException (lit "SecurityError").
Definition quotaExceededError : exn := DOMException (lit "QuotaExceededError").

(** [localStorage.getItem(key)]: the stored string, or [null]. *)
Definition getItem (key : jsstring) : M (option jsstring) :=
  fun w =>
    if accessible (localStorage w)
    then (Normal (items (localStorage w) !! key), w)
    else (Throw securityError, w).

(** [localStorage.setItem(key, text)]. *)
Definition setItem (key text : jsstring) : M unit :=
  fun w =>
    let st := localStorage w in
    if accessible st then
      let items' := <[key := text]> (items st) in
      if withinQuota (quota st) items' then
        (Normal tt,
         mkWorld (mkStorage true (quota st) items') (console w) (document w))
      else (Throw quotaExceededError, w)
    else (Throw securityError, w).

(** [console.warn(message, error)]. *)
Definition consoleWarn (message : jsstring) (error : exn) : M unit :=
  fun w =>
    (Normal tt,
     mkWorld (localStorage w) (console w ++ [(message, error)]) (document w)).

(** [document.querySelector(selector)] for a description list: a handle
    on it, here its selector. *)
Definition querySelectorList (selector : jsstring) (w : World)
  : option jsstring :=
  match lists (document w) !! selector with
  | Some _ => Some selector
  | None => None
  end.

(** [document.querySelector(selector)] for a form. *)
Definition querySelectorForm (selector : jsstring) (w : World)
  : option HTMLFormElement :=
  forms (document w) !! selector.

Definition queryElement {A} (querySelector : jsstring -> World -> option A)
  (selector : jsstring) : M A :=
  fun w =>
    match querySelector selector w with
    | Some element => ret element w
    | None =>
        throw (Error (lit "Element not found for selector: " ++ selector)) w
    end.

Definition setChildren (f : list Element -> list Element)
  (container : jsstring) : M unit :=
  fun w =>
    (Normal tt,
     mkWorld (localStorage w) (console w)
       (mkPage (alter f container (lists (document w)))
               (forms (document w)))).

(** [container.replaceChildren()]. *)
Definition replaceChildren (container : jsstring) : M unit :=
  setChildren (fun _ => []) container.

(** [container.append(element)]. *)
Definition append (container : jsstring) (element : Element) : M unit :=
  setChildren (fun children => children ++ [element]) container.

(** [document.createElement(tag)] with its [textContent] set. *)
Definition createElement (tag : string) (text : jsstring) : Element :=
  mkElement (lit tag) text.

(* ===================================================================== *)
(** * The program *)
(* ===================================================================== *)

Definition stageDescriptions : list (jsstring * jsstring) :=
  [(lit "awareness",
    lit "Build omnichannel reach with paid social, influencer partnerships, and hero content hubs.");
   (lit "consideration",
    lit "Drive mid-funnel intent with progressive profiling, comparison guides, and nurture sequences.");
   (lit "conversion",
    lit "Optimize acquisition moments with CRO testing, sales enablement, and automated onboarding.");
   (lit "retention",
    lit "Expand lifetime value through loyalty programs, lifecycle messaging, and advocacy campaigns.")].

Definition stageKpis : list (jsstring * jsstring) :=
  [(lit "awareness",
    lit "Primary KPIs: reach, CPM efficiency, and top-of-funnel CTR.");
   (lit "consideration",
    lit "Primary KPIs: MQL velocity, content engagement depth, and remarketing lift.");
   (lit "conversion",
    lit "Primary KPIs: CAC trendline, pipeline velocity, and on-site conversion rate.");
   (lit "retention",
    lit "Primary KPIs: repeat purchase rate, churn reduction, and NPS elevation.")].

Fixpoint ownProperty (table : list (jsstring * jsstring)) (k : jsstring)
  : option jsstring :=
  match table with
  | [] => None
  | (k', t) :: r => if jsstring_eqb k' k then Some t else ownProperty r k
  end.

(** [`${table[stage]}`]: an own property of the literal, else what it
    inherits, else the text [undefined]. *)
Definition lookupText (H : Host) (table : list (jsstring * jsstring))
  (stage : jsstring) : jsstring :=
  match ownProperty table stage with
  | Some t => t
  | None =>
      match objectPrototypeText H stage with
      | Some t => t
      | None => lit "undefined"
      end
  end.

(** [text || placeholder]. *)
Definition orElse (text placeholder : jsstring) : jsstring :=
  match text with
  | [] => placeholder
  | _ => text
  end.

Definition storageKey : jsstring := lit "foxytrailz23:funnel".

Definition persistConfig (config : FunnelConfig) : M unit :=
  tryCatch
    (setItem storageKey (JSON_stringify config))
    (fun error =>
       consoleWarn (lit "Unable to persist funnel configuration") error).

Definition loadConfig : M value :=
  tryCatch
    (raw <- getItem storageKey ;;
     match raw with
     | Some ((_ :: _) as text) =>
         fun w => (JSON_parse text, w)
     | _ => ret VUndefined
     end)
    (fun error =>
       consoleWarn (lit "Unable to load funnel configuration") error ;;;
       ret VUndefined).

(** [stage.charAt(0).toUpperCase() + stage.slice(1)]. *)
Definition capitalize (H : Host) (stage : jsstring) : jsstring :=
  toUpperCase H (firstn 1 stage) ++ skipn 1 stage.

Definition headingText (config : FunnelConfig) : jsstring :=
  orElse (business config) (lit "Your brand") ++ lit " funnel overview".

Definition summaryText (H : Host) (config : FunnelConfig) : jsstring :=
  lit "Industry focus: " ++ orElse (industry config) (lit "General")
    ++ lit " | Monthly sessions: " ++ numberToLocaleString H (sessions config)
    ++ lit " | Target CPA: $" ++ toFixed0 (cpa config).

Definition stageDetailText (H : Host) (stage : jsstring) : jsstring :=
  lookupText H stageDescriptions stage ++ lit " "
    ++ lookupText H stageKpis stage.

Definition nurtureText (config : FunnelConfig) : jsstring :=
  if newsletter config
  then lit "Weekly insight digest activated. You will receive optimization briefs straight to your inbox."
  else lit "Newsletter insights skipped. Add email sync to stay aligned with funnel experiments.".

Definition renderFunnelSnapshot (H : Host) (config : FunnelConfig) : M unit :=
  container <- queryElement querySelectorList (lit "#funnel-plan-output") ;;
  replaceChildren container ;;;
  append container (createElement "dt" (headingText config)) ;;;
  append container (createElement "dd" (summaryText H config)) ;;;
  forEach (stages config)
    (fun stage =>
       append container (createElement "dt" (capitalize H stage)) ;;;
       append container (createElement "dd" (stageDetailText H stage))) ;;;
  append container (createElement "dd" (nurtureText config)).

(** The [lines] array of the download handler. *)
Definition briefLines (H : Host) (config : FunnelConfig) : list jsstring :=
  [lit "FoxyTrailz23 Growth Brief";
   lit "Business: " ++ orElse (business config) (lit "Not specified");
   lit "Industry: " ++ orElse (industry config) (lit "Not specified");
   lit "Monthly Sessions: " ++ numberToLocaleString H (sessions config);
   lit "Target CPA: $" ++ toFixed0 (cpa config);
   lit "Stages: " ++ join (lit ", ") (stages config);
   lit "Newsletter Sync: "
     ++ (if newsletter config then lit "Enabled" else lit "Disabled");
   [];
   lit "Stage Strategy:"]
  ++ map (fun stage =>
            toUpperCase H stage ++ lit ": "
              ++ lookupText H stageDescriptions stage)
       (stages config)
  ++ [[]; lit "KPIs:"]
  ++ map (fun stage =>
            toUpperCase H stage ++ lit ": " ++ lookupText H stageKpis stage)
       (stages config).

(** The file the click hands to the browser. *)
Record Download : Type := mkDownload {
  filename : jsstring;
  mimeType : jsstring;
  content : jsstring
}.

(** [loadConfig() ?? readFunnelConfig(queryElement('#analysis-form'))],
    as the click listener goes on to use it.  On a stored object with a
    [null] number the listener calls [config.sessions.toLocaleString()]
    or [config.cpa.toFixed(0)] on [null] while it builds the lines,
    before it does anything else: a [TypeError]. *)
Definition briefConfig : M FunnelConfig :=
  stored <- loadConfig ;;
  match stored with
  | VUndefined | VNull =>
      form <- queryElement querySelectorForm (lit "#analysis-form") ;;
      ret (readFunnelConfig form)
  | v =>
      match asFunnelConfig v with
      | Some config => ret config
      | None =>
          match asStoredConfig v with
          | Some _ => throw TypeError
          | None => untyped
          end
      end
  end.

(** The click listener of [setupDownloadBrief]. *)
Definition downloadBrief (H : Host) : M Download :=
  config <- briefConfig ;;
  ret (mkDownload (lit "foxytrailz23-growth-brief.txt") (lit "text/plain")
         (join [10%N] (briefLines H config))).

(* ===================================================================== *)
(** * Sample inputs *)
(* ===================================================================== *)

Definition textEntry (name text : string) : jsstring * FormDataEntryValue :=
  (lit name, EntryString (lit text)).

(** The form of the specification's example: business "Acme", an empty
    industry, 1000 sessions, a target CPA of 42.7, no stage checked, the
    newsletter box unchecked. *)
Definition acmeForm : HTMLFormElement :=
  mkForm [textEntry "business" "Acme"; (lit "industry", EntryString []);
          textEntry "sessions" "1000"; textEntry "cpa" "42.7"].

(** A form with a negative session count. *)
Definition negativeForm : HTMLFormElement :=
  mkForm [textEntry "business" "Acme"; textEntry "sessions" "-5";
          textEntry "cpa" "42.7"].

(** A form with text in the session count. *)
Definition wordForm : HTMLFormElement :=
  mkForm [textEntry "business" "Acme"; textEntry "sessions" "abc";
          textEntry "cpa" "42.7"].

(** A form with two stages checked and the newsletter box checked. *)
Definition checkedForm : HTMLFormElement :=
  mkForm [textEntry "business" "Acme"; textEntry "stage" "retention";
          textEntry "sessions" "1000"; textEntry "stage" "awareness";
          textEntry "newsletter" "on"].

(** A page with the description list and the analysis form, and a
    working, empty store. *)
Definition samplePage (form : HTMLFormElement) : Page :=
  mkPage (<[lit "#funnel-plan-output" := [createElement "dd" (lit "stale")]]> ∅)
         (<[lit "#analysis-form" := form]> ∅).

Definition sampleWorld (form : HTMLFormElement) : World :=
  mkWorld (mkStorage true None ∅) [] (samplePage form).

(** The same page with a value already stored under the key. *)
Definition storedWorld (text : jsstring) (form : HTMLFormElement) : World :=
  mkWorld (mkStorage true None (<[storageKey := text]> ∅)) []
          (samplePage form).

(** A configuration with the single stage [retention]. *)
Definition retentionConfig : FunnelConfig :=
  mkConfig (lit "Acme") [] (StringToNumber (lit "1000"))
           (StringToNumber (lit "42.7")) [lit "retention"] false.

(* ===================================================================== *)
(** * Vocabulary of the statements *)
(* ===================================================================== *)

(** What [readFunnelConfig] computes for a numeric field from the first
    entry of its name. *)
Definition numericFieldSpec (o : option FormDataEntryValue) (x : number)
  : Prop :=
  match o with
  | None => x = posZero
  | Some v =>
      x = StringToNumber (entryToString v)
      /\ (trim (entryToString v) = [] -> x = posZero)
      /\ (hd_error (trim (entryToString v)) <> Some 45%N ->
          x = NaN \/ nonNegative x = true)
  end.

(** The world after [console.warn(message, e)]. *)
Definition warned (w : World) (message : string) (e : exn) : World :=
  mkWorld (localStorage w) (console w ++ [(lit message, e)]) (document w).

(** The world with the key removed from the store. *)
Definition unsetKey (w : World) : World :=
  mkWorld (mkStorage (accessible (localStorage w)) (quota (localStorage w))
             (delete storageKey (items (localStorage w))))
          (console w) (document w).

Definition outputSelector : jsstring := lit "#funnel-plan-output".

(** The children a snapshot consists of: heading, summary, a label and a
    detail entry per stage, closing line. *)
Definition snapshotChildren (H : Host) (config : FunnelConfig)
  : list Element :=
  createElement "dt" (headingText config)
    :: createElement "dd" (summaryText H config)
    :: flat_map (fun stage =>
                   [createElement "dt" (capitalize H stage);
                    createElement "dd" (stageDetailText H stage)])
                (stages config)
    ++ [createElement "dd" (nurtureText config)].

(** The world with the description list showing [children]. *)
Definition showing (w : World) (children : list Element) : World :=
  mkWorld (localStorage w) (console w)
    (mkPage (<[outputSelector := children]> (lists (document w)))
            (forms (document w))).

(** The file of the export for a list of lines. *)
Definition briefFile (lines : list jsstring) : Download :=
  mkDownload (lit "foxytrailz23-growth-brief.txt") (lit "text/plain")
             (join [10%N] lines).

Definition formSelector : jsstring := lit "#analysis-form".

Local Open Scope Z_scope.

(** [v = m * 2 ^ e] for an integer [v]. *)
Definition dyadicInteger (v : Z) (m : positive) (e : Z) : Prop :=
  (0 <= e /\ v = Zpos m * 2 ^ e) \/ (e < 0 /\ v * 2 ^ (- e) = Zpos m).

(** [mq * 10 ^ eq = m * 2 ^ e], with the negative powers moved across. *)
Definition decimalIs (mq eq : Z) (m : positive) (e : Z) : Prop :=
  mq * 10 ^ Z.max 0 eq * 2 ^ Z.max 0 (- e)
  = Zpos m * 2 ^ Z.max 0 e * 10 ^ Z.max 0 (- eq).

(** One step of reading a run of digits. *)
Definition digitStep (acc : Z) (c : N) : Z := acc * 10 + digitVal c.

(** The digits of [z]: they spell [z], there is at least one, and the
    first is not a zero unless [z] is 0. *)
Definition spells (l : list N) (z : Z) : Prop :=
  digitsValue l = z
  /\ Forall (fun c => isDigit c = true) l
  /\ l <> []
  /\ (0 < z -> hd 0%N l <> 48%N).

Local Close Scope Z_scope.

(** The numbers [JSON.stringify] writes without loss: the finite
    doubles other than [-0]. *)
Definition jsonSafeNumber (x : spec_float) : bool :=
  match x with
  | S754_zero s => negb s
  | S754_finite _ _ _ => isDouble x
  | _ => false
  end.

(** The configurations [JSON.stringify] writes without loss: both
    numbers are finite doubles other than [-0]. *)
Definition stringSafe (config : FunnelConfig) : bool :=
  jsonSafeNumber (sessions config) && jsonSafeNumber (cpa config).

(** The world after a successful [setItem(storageKey, text)]. *)
Definition stored (w : World) (text : list N) : World :=
  mkWorld
    (mkStorage true (quota (localStorage w))
       (<[storageKey := text]> (items (localStorage w))))
    (console w) (document w).

(** A store that takes the write: access is granted and the text fits
    the quota. *)
Definition storeAccepts (w : World) (text : list N) : Prop :=
  accessible (localStorage w) = true
  /\ withinQuota (quota (localStorage w))
       (<[storageKey := text]> (items (localStorage w))) = true.


(* ===================================================================== *)
(** * Vocabulary of the further statements *)
(* ===================================================================== *)

(** What [readFunnelConfig] computes for a text field from the first
    entry of its name: the text with the white space at both ends
    removed, the empty string when there is no entry. *)
Definition textFieldSpec (o : option FormDataEntryValue) (t : jsstring)
  : Prop :=
  trim t = t
  /\ (forall c, head t = Some c \/ last t = Some c -> isWhiteSpace c = false)
  /\ match o with
     | None => t = []
     | Some v =>
         t = trim (entryToString v)
         /\ (forallb isWhiteSpace (entryToString v) = true -> t = [])
     end.

(** What [JSON.stringify] followed by [JSON.parse] makes of a number:
    NaN and the infinities come back as [null], [-0] as [0]. *)
Definition jsonNumber (x : number) : value :=
  match x with
  | S754_zero _ => VNum posZero
  | S754_finite _ _ _ => VNum x
  | _ => VNull
  end.

(** The object [JSON.parse] builds from the text of a configuration. *)
Definition storedValue (config : FunnelConfig) : value :=
  VObj (<[lit "newsletter" := VBool (newsletter config)]>
       (<[lit "stages" := VArr (map VStr (stages config))]>
       (<[lit "cpa" := jsonNumber (cpa config)]>
       (<[lit "sessions" := jsonNumber (sessions config)]>
       (<[lit "industry" := VStr (industry config)]>
       (<[lit "business" := VStr (business config)]> ∅)))))).



(** The message of the error [queryElement] throws. *)
Definition notFound (selector : jsstring) : exn :=
  Error (lit "Element not found for selector: " ++ selector).

(* ===================================================================== *)
(** * The rest of the page: elements, events, timers *)
(* ===================================================================== *)

(** The functions below are the set-up functions of the program and the
    listeners they add.  They run in a browser whose state holds, beside
    the store, the console and the description lists of the part above,
    the input elements of the forms, the elements the program finds by
    selector, the listeners, the timers and what has left the page.
    Elements are told apart by the selector the program finds them with;
    a form owns the input elements inside it. *)

(** ** Input elements *)

(** Single-line text fields, number fields and check boxes. *)
Inductive InputType : Type := TextInput | NumberInput | CheckboxInput.

Record HTMLInputElement : Type := mkInput {
  inputId : jsstring;                (* the [id] attribute *)
  formOwner : jsstring;              (* the selector of its form *)
  inputName : jsstring;              (* the [name] attribute, empty if none *)
  inputType : InputType;
  valueAttribute : option jsstring;  (* the [value] attribute *)
  checkedAttribute : bool;           (* the [checked] attribute *)
  disabled : bool;
  inputValue : jsstring;             (* the value the field shows *)
  checkedness : bool
}.

(** A valid floating-point number of HTML: an optional minus sign,
    digits or digits with a fraction or a fraction alone, an optional
    exponent. *)
Definition validExponent (s : jsstring) : bool :=
  match s with
  | [] => true
  | c :: r =>
      if ((c =? 101) || (c =? 69))%N then
        let r1 :=
          match r with
          | 43%N :: r' => r'
          | 45%N :: r' => r'
          | _ => r
          end in
        match span isDigit r1 with
        | (_ :: _, []) => true
        | _ => false
        end
      else false
  end.

Definition validFloatingPointNumber (s : jsstring) : bool :=
  let s1 := match s with 45%N :: r => r | _ => s end in
  let '(ip, r1) := span isDigit s1 in
  match r1 with
  | 46%N :: r =>
      let '(fp, r2) := span isDigit r in
      match fp with
      | [] => false
      | _ => validExponent r2
      end
  | _ =>
      match ip with
      | [] => false
      | _ => validExponent r1
      end
  end.

Definition stripNewlines (s : jsstring) : jsstring :=
  List.filter (fun c => negb ((c =? 10) || (c =? 13))%N) s.

(** The value sanitization algorithm of each type. *)
Definition sanitize (type : InputType) (s : jsstring) : jsstring :=
  match type with
  | TextInput => stripNewlines s
  | NumberInput => if validFloatingPointNumber s then s else []
  | CheckboxInput => s
  end.

(** [input.value = s]: a text or number field takes the sanitized
    string as its value, a check box takes it as its [value]
    attribute. *)
Definition assignValue (s : jsstring) (i : HTMLInputElement)
  : HTMLInputElement :=
  match inputType i with
  | CheckboxInput =>
      mkInput (inputId i) (formOwner i) (inputName i) (inputType i)
        (Some s) (checkedAttribute i) (disabled i) (inputValue i)
        (checkedness i)
  | type =>
      mkInput (inputId i) (formOwner i) (inputName i) (inputType i)
        (valueAttribute i) (checkedAttribute i) (disabled i)
        (sanitize type s) (checkedness i)
  end.

(** [input.value]: for a check box the [value] attribute, or [on]. *)
Definition valueOf (i : HTMLInputElement) : jsstring :=
  match inputType i with
  | CheckboxInput => default (lit "on") (valueAttribute i)
  | _ => inputValue i
  end.

(** [input.checked = c]. *)
Definition assignChecked (c : bool) (i : HTMLInputElement)
  : HTMLInputElement :=
  mkInput (inputId i) (formOwner i) (inputName i) (inputType i)
    (valueAttribute i) (checkedAttribute i) (disabled i) (inputValue i) c.

(** The reset algorithm of an input element: back to its attributes. *)
Definition resetInput (i : HTMLInputElement) : HTMLInputElement :=
  mkInput (inputId i) (formOwner i) (inputName i) (inputType i)
    (valueAttribute i) (checkedAttribute i) (disabled i)
    (sanitize (inputType i) (default [] (valueAttribute i)))
    (checkedAttribute i).

(** Conversion to a scalar value string: a surrogate that is not half
    of a pair becomes U+FFFD. *)
Fixpoint toUSVString (s : jsstring) : jsstring :=
  match s with
  | [] => []
  | c :: r =>
      if isLeadSurrogate c then
        match r with
        | d :: r' =>
            if isTrailSurrogate d then c :: d :: toUSVString r'
            else 65533%N :: toUSVString r
        | [] => [65533%N]
        end
      else if isTrailSurrogate c then 65533%N :: toUSVString r
      else c :: toUSVString r
  end.

(** The entry an input element contributes to the entry list of its
    form: none when it is disabled, an unchecked box or without a name. *)
Definition entriesOf (i : HTMLInputElement) : FormData :=
  if disabled i then []
  else if match inputType i with
          | CheckboxInput => negb (checkedness i)
          | _ => false
          end then []
  else
    match inputName i with
    | [] => []
    | name => [(toUSVString name, EntryString (toUSVString (valueOf i)))]
    end.

Definition ownedBy (form : jsstring) (i : HTMLInputElement) : bool :=
  bool_decide (formOwner i = form).

(** Constructing the entry list of a form. *)
Definition entryListOf (form : jsstring) (inputs : list HTMLInputElement)
  : FormData :=
  flat_map entriesOf (List.filter (ownedBy form) inputs).

(** ** The browser *)

(** An element found by selector, with its attributes and its text. *)
Record HTMLElement : Type := mkHTMLElement {
  attributes : gmap jsstring jsstring;
  elementText : jsstring
}.

Inductive ReadyState : Type := Loading | Interactive | Complete.

Inductive EventType : Type := Click | InputEvent | Submit | DOMContentLoaded.

Inductive EventTarget : Type :=
| Document
| Node (selector : jsstring)
| NavAnchor (index : nat).

(** The functions the program passes to [addEventListener], with the
    elements they close over. *)
Inductive Listener : Type :=
| NavToggle (toggle links : jsstring)
| NavClose (toggle links : jsstring)
| AnalysisInput (form : jsstring)
| AnalysisSubmit (form feedback : jsstring)
| CallSubmit (callForm feedback : jsstring)
| DownloadClick
| Bootstrap.

(** The function the program passes to [setTimeout]. *)
Inductive TimerTask : Type :=
| ClearFeedback (feedback : jsstring).

#[global] Instance EventType_eq_dec : EqDecision EventType.
Proof. solve_decision. Defined.

#[global] Instance EventTarget_eq_dec : EqDecision EventTarget.
Proof. solve_decision. Defined.

Record Browser : Type := mkBrowser {
  storageArea : Storage;
  consoleLog : list (jsstring * exn);
  descriptionLists : gmap jsstring (list Element);
  formElements : list jsstring;
  inputElements : list HTMLInputElement;
  htmlElements : gmap jsstring HTMLElement;
  navAnchors : nat;
  readyState : ReadyState;
  eventListeners : list (EventTarget * EventType * Listener);
  currentTime : N;
  timers : list (N * TimerTask);
  canceled : bool;
  submissions : list jsstring;
  downloads : list Download;
  reportedErrors : list exn;
  localYear : Z
}.

(** Field updates. *)
Definition withStorageArea (x : Storage) (b : Browser) : Browser :=
  mkBrowser x (consoleLog b) (descriptionLists b) (formElements b)
    (inputElements b) (htmlElements b) (navAnchors b) (readyState b)
    (eventListeners b) (currentTime b) (timers b) (canceled b)
    (submissions b) (downloads b) (reportedErrors b) (localYear b).

Definition withConsoleLog (x : list (jsstring * exn))
  (b : Browser) : Browser :=
  mkBrowser (storageArea b) x (descriptionLists b) (formElements b)
    (inputElements b) (htmlElements b) (navAnchors b) (readyState b)
    (eventListeners b) (currentTime b) (timers b) (canceled b)
    (submissions b) (downloads b) (reportedErrors b) (localYear b).

Definition withDescriptionLists (x : gmap jsstring (list Element))
  (b : Browser) : Browser :=
  mkBrowser (storageArea b) (consoleLog b) x (formElements b)
    (inputElements b) (htmlElements b) (navAnchors b) (readyState b)
    (eventListeners b) (currentTime b) (timers b) (canceled b)
    (submissions b) (downloads b) (reportedErrors b) (localYear b).

Definition withInputElements (x : list HTMLInputElement)
  (b : Browser) : Browser :=
  mkBrowser (storageArea b) (consoleLog b) (descriptionLists b)
    (formElements b) x (htmlElements b) (navAnchors b) (readyState b)
    (eventListeners b) (currentTime b) (timers b) (canceled b)
    (submissions b) (downloads b) (reportedErrors b) (localYear b).

Definition withHtmlElements (x : gmap jsstring HTMLElement)
  (b : Browser) : Browser :=
  mkBrowser (storageArea b) (consoleLog b) (descriptionLists b)
    (formElements b) (inputElements b) x (navAnchors b) (readyState b)
    (eventListeners b) (currentTime b) (timers b) (canceled b)
    (submissions b) (downloads b) (reportedErrors b) (localYear b).

Definition withReadyState (x : ReadyState) (b : Browser) : Browser :=
  mkBrowser (storageArea b) (consoleLog b) (descriptionLists b)
    (formElements b) (inputElements b) (htmlElements b) (navAnchors b) x
    (eventListeners b) (currentTime b) (timers b) (canceled b)
    (submissions b) (downloads b) (reportedErrors b) (localYear b).

Definition withEventListeners (x : list (EventTarget * EventType * Listener))
  (b : Browser) : Browser :=
  mkBrowser (storageArea b) (consoleLog b) (descriptionLists b)
    (formElements b) (inputElements b) (htmlElements b) (navAnchors b)
    (readyState b) x (currentTime b) (timers b) (canceled b) (submissions b)
    (downloads b) (reportedErrors b) (localYear b).

Definition withCurrentTime (x : N) (b : Browser) : Browser :=
  mkBrowser (storageArea b) (consoleLog b) (descriptionLists b)
    (formElements b) (inputElements b) (htmlElements b) (navAnchors b)
    (readyState b) (eventListeners b) x (timers b) (canceled b)
    (submissions b) (downloads b) (reportedErrors b) (localYear b).

Definition withTimers (x : list (N * TimerTask)) (b : Browser) : Browser :=
  mkBrowser (storageArea b) (consoleLog b) (descriptionLists b)
    (formElements b) (inputElements b) (htmlElements b) (navAnchors b)
    (readyState b) (eventListeners b) (currentTime b) x (canceled b)
    (submissions b) (downloads b) (reportedErrors b) (localYear b).

Definition withCanceled (x : bool) (b : Browser) : Browser :=
  mkBrowser (storageArea b) (consoleLog b) (descriptionLists b)
    (formElements b) (inputElements b) (htmlElements b) (navAnchors b)
    (readyState b) (eventListeners b) (currentTime b) (timers b) x
    (submissions b) (downloads b) (reportedErrors b) (localYear b).

Definition withSubmissions (x : list jsstring) (b : Browser) : Browser :=
  mkBrowser (storageArea b) (consoleLog b) (descriptionLists b)
    (formElements b) (inputElements b) (htmlElements b) (navAnchors b)
    (readyState b) (eventListeners b) (currentTime b) (timers b)
    (canceled b) x (downloads b) (reportedErrors b) (localYear b).

Definition withDownloads (x : list Download) (b : Browser) : Browser :=
  mkBrowser (storageArea b) (consoleLog b) (descriptionLists b)
    (formElements b) (inputElements b) (htmlElements b) (navAnchors b)
    (readyState b) (eventListeners b) (currentTime b) (timers b)
    (canceled b) (submissions b) x (reportedErrors b) (localYear b).

Definition withReportedErrors (x : list exn) (b : Browser) : Browser :=
  mkBrowser (storageArea b) (consoleLog b) (descriptionLists b)
    (formElements b) (inputElements b) (htmlElements b) (navAnchors b)
    (readyState b) (eventListeners b) (currentTime b) (timers b)
    (canceled b) (submissions b) (downloads b) x (localYear b).
(** The part of the browser that the reader, the codec, the renderer and
    the exporter see: each form is the entry list of its inputs. *)
Definition formsOf (b : Browser) : gmap jsstring HTMLFormElement :=
  list_to_map
    (map (fun form => (form, mkForm (entryListOf form (inputElements b))))
         (formElements b)).

Definition view (b : Browser) : World :=
  mkWorld (storageArea b) (consoleLog b)
          (mkPage (descriptionLists b) (formsOf b)).

(** Computations in the browser. *)
Definition JS (A : Type) : Type := Browser -> completion A * Browser.

Definition retJS {A} (a : A) : JS A := fun b => (Normal a, b).

Definition throwJS {A} (e : exn) : JS A := fun b => (Throw e, b).

Definition untypedJS {A} : JS A := fun b => (Untyped, b).

Definition bindJS {A B} (m : JS A) (k : A -> JS B) : JS B :=
  fun b =>
    match m b with
    | (Normal a, b') => k a b'
    | (Throw e, b') => (Throw e, b')
    | (Untyped, b') => (Untyped, b')
    end.

Declare Scope js_scope.
Delimit Scope js_scope with js.
Notation "x <- m ;; k" := (bindJS m (fun x => k))
  (at level 100, m at next level, right associativity) : js_scope.
Notation "m ;;; k" := (bindJS m (fun _ => k))
  (at level 100, right associativity) : js_scope.
Local Open Scope js_scope.

Definition tryCatchJS {A} (body : JS A) (handler : exn -> JS A) : JS A :=
  fun b =>
    match body b with
    | (Throw e, b') => handler e b'
    | r => r
    end.

Fixpoint forEachJS {A} (l : list A) (f : A -> JS unit) : JS unit :=
  match l with
  | [] => retJS tt
  | a :: r => f a ;;; forEachJS r f
  end.

(** A function of the part above, run in the browser: it works on the
    store, the console and the description lists. *)
Definition inPage {A} (m : M A) : JS A :=
  fun b =>
    let '(r, w) := m (view b) in
    (r, withDescriptionLists (lists (document w))
          (withConsoleLog (console w)
             (withStorageArea (localStorage w) b))).

(** [document.querySelector(selector)], by the kind of element looked
    for: a handle on the element. *)
Definition querySelectorHTML (selector : jsstring) (b : Browser)
  : option jsstring :=
  match htmlElements b !! selector with
  | Some _ => Some selector
  | None => None
  end.

Definition querySelectorForms (selector : jsstring) (b : Browser)
  : option jsstring :=
  if bool_decide (selector ∈ formElements b) then Some selector else None.

(** The first input element with the id, as its place in tree order. *)
Definition querySelectorInput (selector : jsstring) (b : Browser)
  : option nat :=
  fst <$> list_find (fun i => selector = 35%N :: inputId i) (inputElements b).

Definition queryElementJS {A}
  (querySelector : jsstring -> Browser -> option A) (selector : jsstring)
  : JS A :=
  fun b =>
    match querySelector selector b with
    | Some element => retJS element b
    | None =>
        throwJS (Error (lit "Element not found for selector: " ++ selector)) b
    end.

(** [form.querySelectorAll('input[name="stage"]')]. *)
Definition querySelectorAllStage (form : jsstring) : JS (list nat) :=
  fun b =>
    (Normal
       (map fst
          (List.filter
             (fun p => ownedBy form (snd p)
                       && bool_decide (inputName (snd p) = lit "stage"))
             (imap (fun k i => (k, i)) (inputElements b)))),
     b).

(** [links.querySelectorAll('a')]. *)
Definition querySelectorAllAnchors (links : jsstring) : JS (list nat) :=
  fun b => (Normal (seq 0 (navAnchors b)), b).

Definition updateInput (f : HTMLInputElement -> HTMLInputElement)
  (input : nat) : JS unit :=
  fun b => (Normal tt, withInputElements (alter f input (inputElements b)) b).

Definition setValue (input : nat) (s : jsstring) : JS unit :=
  updateInput (assignValue s) input.

Definition setChecked (input : nat) (c : bool) : JS unit :=
  updateInput (assignChecked c) input.

Definition getValue (input : nat) : JS jsstring :=
  fun b =>
    (Normal (match inputElements b !! input with
             | Some i => valueOf i
             | None => []
             end), b).

Definition updateElement (f : HTMLElement -> HTMLElement)
  (element : jsstring) : JS unit :=
  fun b => (Normal tt, withHtmlElements (alter f element (htmlElements b)) b).

(** [element.setAttribute(name, text)]; [element.dataset.open = text] is
    [setAttribute('data-open', text)]. *)
Definition setAttribute (element name text : jsstring) : JS unit :=
  updateElement
    (fun e => mkHTMLElement (<[name := text]> (attributes e)) (elementText e))
    element.

(** [element.getAttribute(name)]. *)
Definition getAttribute (element name : jsstring) : JS (option jsstring) :=
  fun b =>
    (Normal (match htmlElements b !! element with
             | Some e => attributes e !! name
             | None => None
             end), b).

(** [element.textContent = text]. *)
Definition setTextContent (element text : jsstring) : JS unit :=
  updateElement (fun e => mkHTMLElement (attributes e) text) element.

Definition addEventListener (target : EventTarget) (type : EventType)
  (listener : Listener) : JS unit :=
  fun b =>
    (Normal tt,
     withEventListeners (eventListeners b ++ [(target, type, listener)]) b).

(** [event.preventDefault()]. *)
Definition preventDefault : JS unit :=
  fun b => (Normal tt, withCanceled true b).

(** [window.setTimeout(task, delay)]. *)
Definition setTimeout (task : TimerTask) (delay : N) : JS unit :=
  fun b =>
    (Normal tt, withTimers (timers b ++ [(currentTime b + delay, task)%N]) b).

(** [new FormData(form)] on the element as it is now. *)
Definition formState (form : jsstring) : JS HTMLFormElement :=
  fun b => (Normal (mkForm (entryListOf form (inputElements b))), b).

(** [form.reset()]. *)
Definition resetForm (form : jsstring) : JS unit :=
  fun b =>
    (Normal tt,
     withInputElements
       (map (fun i => if ownedBy form i then resetInput i else i)
            (inputElements b)) b).

(** The click on the link the export builds: the browser saves the
    file.  (The object URL made for it is revoked right after.) *)
Definition saveFile (file : Download) : JS unit :=
  fun b => (Normal tt, withDownloads (downloads b ++ [file]) b).

(** ** The program *)

(** [String(expanded)] and [expanded ? 'true' : 'false']. *)
Definition booleanText (flag : bool) : jsstring :=
  if flag then lit "true" else lit "false".

Definition updateState (toggle links : jsstring) (expanded : bool)
  : JS unit :=
  setAttribute toggle (lit "aria-expanded") (booleanText expanded) ;;;
  setAttribute links (lit "data-open") (booleanText expanded).

(** The click listener of the toggle. *)
Definition toggleNavigation (toggle links : jsstring) : JS unit :=
  state <- getAttribute toggle (lit "aria-expanded") ;;
  let isExpanded := bool_decide (state = Some (lit "true")) in
  updateState toggle links (negb isExpanded).

Definition setupNavigation : JS unit :=
  toggle <- queryElementJS querySelectorHTML (lit ".nav-toggle") ;;
  links <- queryElementJS querySelectorHTML (lit ".nav-links") ;;
  addEventListener (Node toggle) Click (NavToggle toggle links) ;;;
  anchors <- querySelectorAllAnchors links ;;
  forEachJS anchors
    (fun anchor =>
       addEventListener (NavAnchor anchor) Click (NavClose toggle links)) ;;;
  updateState toggle links false.

(** [config.stages.includes(text)]. *)
Definition includes (l : list jsstring) (text : jsstring) : bool :=
  existsb (jsstring_eqb text) l.

Definition syncFormWithConfig (form : jsstring) (config : FunnelConfig)
  : JS unit :=
  (input <- queryElementJS querySelectorInput (lit "#business-name") ;;
   setValue input (business config)) ;;;
  (input <- queryElementJS querySelectorInput (lit "#industry") ;;
   setValue input (industry config)) ;;;
  (input <- queryElementJS querySelectorInput (lit "#traffic-level") ;;
   setValue input (NumberToString (sessions config))) ;;;
  (input <- queryElementJS querySelectorInput (lit "#goal-cpa") ;;
   setValue input (NumberToString (cpa config))) ;;;
  (input <- queryElementJS querySelectorInput (lit "#newsletter") ;;
   setChecked input (newsletter config)) ;;;
  stageInputs <- querySelectorAllStage form ;;
  forEachJS stageInputs
    (fun input =>
       text <- getValue input ;;
       setChecked input (includes (stages config) text)).

(** [config.sessions.toString()] where the number may be [null]. *)
Definition numberToStringJS (x : option number) : JS jsstring :=
  match x with
  | Some n => retJS (NumberToString n)
  | None => throwJS TypeError
  end.

(** [syncFormWithConfig] on a stored object: the input is looked up,
    then the right-hand side is evaluated, so a [null] number throws
    after the lookup and before the assignment. *)
Definition syncFormWithStored (form : jsstring) (config : StoredConfig)
  : JS unit :=
  (input <- queryElementJS querySelectorInput (lit "#business-name") ;;
   setValue input (storedBusiness config)) ;;;
  (input <- queryElementJS querySelectorInput (lit "#industry") ;;
   setValue input (storedIndustry config)) ;;;
  (input <- queryElementJS querySelectorInput (lit "#traffic-level") ;;
   text <- numberToStringJS (storedSessions config) ;;
   setValue input text) ;;;
  (input <- queryElementJS querySelectorInput (lit "#goal-cpa") ;;
   text <- numberToStringJS (storedCpa config) ;;
   setValue input text) ;;;
  (input <- queryElementJS querySelectorInput (lit "#newsletter") ;;
   setChecked input (storedNewsletter config)) ;;;
  stageInputs <- querySelectorAllStage form ;;
  forEachJS stageInputs
    (fun input =>
       text <- getValue input ;;
       setChecked input (includes (storedStages config) text)).

Definition updateOutput (H : Host) (form : jsstring) : JS unit :=
  state <- formState form ;;
  let config := readFunnelConfig state in
  inPage (renderFunnelSnapshot H config).

(** [if (stored)]: the values JavaScript takes for true. *)
Definition truthy (v : value) : bool :=
  match v with
  | VUndefined | VNull => false
  | VBool flag => flag
  | VNum (S754_zero _) | VNum S754_nan => false
  | VNum _ => true
  | VStr [] => false
  | VStr _ => true
  | VArr _ | VObj _ => true
  end.

(** The submit listener of the analysis form. *)
Definition submitAnalysis (H : Host) (form feedback : jsstring) : JS unit :=
  preventDefault ;;;
  state <- formState form ;;
  let config := readFunnelConfig state in
  inPage (renderFunnelSnapshot H config) ;;;
  inPage (persistConfig config) ;;;
  setTextContent feedback
    (lit "Plan summary generated and saved. We will tailor the analytics rollout for you.") ;;;
  setTimeout (ClearFeedback feedback) 6000.

Definition setupAnalysisForm (H : Host) : JS unit :=
  form <- queryElementJS querySelectorForms (lit "#analysis-form") ;;
  feedback <- queryElementJS querySelectorHTML (lit "#analysis-feedback") ;;
  stored <- inPage loadConfig ;;
  (if truthy stored then
     match asFunnelConfig stored with
     | Some config =>
         syncFormWithConfig form config ;;;
         inPage (renderFunnelSnapshot H config)
     | None =>
         match asStoredConfig stored with
         | Some nulled =>
             (* one of the numbers is [null]: [syncFormWithConfig]
                throws and [renderFunnelSnapshot] is not reached *)
             syncFormWithStored form nulled ;;; untypedJS
         | None => untypedJS
         end
     end
   else updateOutput H form) ;;;
  addEventListener (Node form) InputEvent (AnalysisInput form) ;;;
  addEventListener (Node form) Submit (AnalysisSubmit form feedback).

(** The submit listener of the call form. *)
Definition submitCall (callForm feedback : jsstring) : JS unit :=
  preventDefault ;;;
  state <- formState callForm ;;
  let name :=
    match formDataGet (lit "name") (newFormData state) with
    | Some entry => entryToString entry
    | None => lit "there"
    end in
  setTextContent feedback
    (lit "Thanks " ++ name
       ++ lit ", your strategy call request is locked in. Expect a confirmation email shortly.") ;;;
  resetForm callForm.

Definition setupCallForm : JS unit :=
  callForm <- queryElementJS querySelectorForms (lit "#call-form") ;;
  feedback <- queryElementJS querySelectorHTML (lit "#call-feedback") ;;
  addEventListener (Node callForm) Submit (CallSubmit callForm feedback).

(** The click listener of the download button. *)
Definition clickDownload (H : Host) : JS unit :=
  file <- inPage (downloadBrief H) ;;
  saveFile file.

Definition setupDownloadBrief : JS unit :=
  button <- queryElementJS querySelectorHTML (lit "#download-brief") ;;
  addEventListener (Node button) Click DownloadClick.

(** An integer as a number. *)
Definition numberOfZ (z : Z) : number :=
  binary_normalize prec emax z 0 false.

Definition setCurrentYear : JS unit :=
  yearElement <- queryElementJS querySelectorHTML (lit "#year") ;;
  year <- (fun b => (Normal (numberOfZ (localYear b)), b)) ;;
  setTextContent yearElement (NumberToString year).

Definition bootstrap (H : Host) : JS unit :=
  setupNavigation ;;;
  setupAnalysisForm H ;;;
  setupCallForm ;;;
  setupDownloadBrief ;;;
  setCurrentYear.

(** The last statement of the script. *)
Definition main (H : Host) : JS unit :=
  fun b =>
    match readyState b with
    | Loading => addEventListener Document DOMContentLoaded Bootstrap b
    | _ => bootstrap H b
    end.

(** ** Events and timers *)

Definition runListener (H : Host) (listener : Listener) : JS unit :=
  match listener with
  | NavToggle toggle links => toggleNavigation toggle links
  | NavClose toggle links => updateState toggle links false
  | AnalysisInput form => updateOutput H form
  | AnalysisSubmit form feedback => submitAnalysis H form feedback
  | CallSubmit callForm feedback => submitCall callForm feedback
  | DownloadClick => clickDownload H
  | Bootstrap => bootstrap H
  end.

Definition runTask (task : TimerTask) : JS unit :=
  match task with
  | ClearFeedback feedback => setTextContent feedback []
  end.

(** An exception that leaves a listener or a callback is reported and
    goes no further. *)
Definition reportError (e : exn) : JS unit :=
  fun b => (Normal tt, withReportedErrors (reportedErrors b ++ [e]) b).

Definition listenersFor (target : EventTarget) (type : EventType)
  (b : Browser) : list Listener :=
  map snd
    (List.filter
       (fun l => bool_decide (fst (fst l) = target)
                 && bool_decide (snd (fst l) = type))
       (eventListeners b)).

Fixpoint invokeListeners (H : Host) (l : list Listener) : JS unit :=
  match l with
  | [] => retJS tt
  | listener :: r =>
      tryCatchJS (runListener H listener) reportError ;;;
      invokeListeners H r
  end.

(** What the browser does after the listeners: a form whose [submit]
    event was not canceled is submitted. *)
Definition defaultAction (target : EventTarget) (type : EventType)
  : JS unit :=
  fun b =>
    match type, target with
    | Submit, Node form =>
        if canceled b then (Normal tt, b)
        else (Normal tt, withSubmissions (submissions b ++ [form]) b)
    | _, _ => (Normal tt, b)
    end.

(** An event of the type at the target: the listeners added for it run
    in the order they were added. *)
Definition dispatchEvent (H : Host) (target : EventTarget)
  (type : EventType) : JS unit :=
  fun b =>
    ((fun b0 => (Normal tt, withCanceled false b0)) ;;;
     invokeListeners H (listenersFor target type b) ;;;
     defaultAction target type) b.

(** The document has been parsed. *)
Definition contentLoaded (H : Host) : JS unit :=
  (fun b => (Normal tt, withReadyState Interactive b)) ;;;
  dispatchEvent H Document DOMContentLoaded.

(** The earliest due time among the pending timers. *)
Definition earliest (l : list (N * TimerTask)) : option N :=
  match l with
  | [] => None
  | (t, _) :: r => Some (fold_left N.min (map fst r) t)
  end.

(** Take out the first timer due at [t]. *)
Fixpoint takeTimer (t : N) (l : list (N * TimerTask))
  : option (TimerTask * list (N * TimerTask)) :=
  match l with
  | [] => None
  | (u, task) :: r =>
      if (u =? t)%N then Some (task, r)
      else
        match takeTimer t r with
        | Some (task', r') => Some (task', (u, task) :: r')
        | None => None
        end
  end.

(** Run the timers due by [deadline], the earliest first. *)
Fixpoint runTimers (fuel : nat) (deadline : N) : JS unit :=
  match fuel with
  | O => retJS tt
  | S f =>
      fun b =>
        match earliest (timers b) with
        | Some t =>
            if (t <=? deadline)%N then
              match takeTimer t (timers b) with
              | Some (task, rest) =>
                  (tryCatchJS (runTask task) reportError ;;;
                   runTimers f deadline)
                    (withTimers rest
                       (withCurrentTime (N.max t (currentTime b)) b))
              | None => (Normal tt, b)
              end
            else (Normal tt, b)
        | None => (Normal tt, b)
        end
  end.

(** [ms] milliseconds pass. *)
Definition elapse (ms : N) : JS unit :=
  fun b =>
    (runTimers (length (timers b)) (currentTime b + ms)%N ;;;
     (fun b' => (Normal tt, withCurrentTime (currentTime b + ms)%N b'))) b.

Local Close Scope js_scope.

(* ===================================================================== *)
(** * A sample page *)
(* ===================================================================== *)

Definition analysisForm : jsstring := lit "#analysis-form".
Definition analysisFeedback : jsstring := lit "#analysis-feedback".
Definition callFormSelector : jsstring := lit "#call-form".
Definition callFeedback : jsstring := lit "#call-feedback".
Definition navToggle : jsstring := lit ".nav-toggle".
Definition navLinks : jsstring := lit ".nav-links".
Definition downloadButton : jsstring := lit "#download-brief".
Definition yearElement : jsstring := lit "#year".

Definition textField (type : InputType) (id form name : string)
  (text : jsstring) : HTMLInputElement :=
  mkInput (lit id) (lit form) (lit name) type (Some text) false false
          text false.

Definition checkBox (id form name : string) (text : option jsstring)
  (checked : bool) : HTMLInputElement :=
  mkInput (lit id) (lit form) (lit name) CheckboxInput text checked false
          [] checked.

(** The fields of the analysis form, filled in as in the example of the
    specification, and of the call form. *)
Definition demoInputs : list HTMLInputElement :=
  [textField TextInput "business-name" "#analysis-form" "business" (lit "Acme");
   textField TextInput "industry" "#analysis-form" "industry" [];
   textField NumberInput "traffic-level" "#analysis-form" "sessions"
     (lit "1000");
   textField NumberInput "goal-cpa" "#analysis-form" "cpa" (lit "42.7");
   checkBox "stage-awareness" "#analysis-form" "stage"
     (Some (lit "awareness")) false;
   checkBox "stage-consideration" "#analysis-form" "stage"
     (Some (lit "consideration")) false;
   checkBox "stage-conversion" "#analysis-form" "stage"
     (Some (lit "conversion")) false;
   checkBox "stage-retention" "#analysis-form" "stage"
     (Some (lit "retention")) false;
   checkBox "newsletter" "#analysis-form" "newsletter" None false;
   textField TextInput "call-name" "#call-form" "name" (lit "Dana")].

Definition plainElement : HTMLElement := mkHTMLElement ∅ [].

(** A page with the elements the program looks up (of the forms, the
    ones listed), fully loaded, in a browser whose store holds
    [items]. *)
Definition demoPage (items : gmap jsstring jsstring) (forms : list jsstring)
  (inputs : list HTMLInputElement) : Browser :=
  mkBrowser (mkStorage true None items) []
    (<[lit "#funnel-plan-output" := []]> ∅)
    forms inputs
    (<[navToggle := plainElement]>
     (<[navLinks := plainElement]>
      (<[analysisFeedback := plainElement]>
       (<[callFeedback := plainElement]>
        (<[downloadButton := plainElement]>
         (<[yearElement := plainElement]> ∅))))))
    3 Complete [] 0 [] false [] [] [] 2026.

Definition demoBrowser (items : gmap jsstring jsstring) : Browser :=
  demoPage items [analysisForm; callFormSelector] demoInputs.

(** The sample page after [bootstrap]. *)
Definition demoInstalled : Browser := snd (bootstrap enUS (demoBrowser ∅)).


(* ===================================================================== *)
(** * Vocabulary of the statements about the page *)
(* ===================================================================== *)

(** What the program looks up, by the kind of element it takes it for. *)
Inductive ElementKind : Type :=
| AnyElement | FormElement | InputElement | ListElement.

Definition isSome {A} (o : option A) : bool :=
  match o with
  | Some _ => true
  | None => false
  end.

(** The element is there: the lookup the program does for it succeeds. *)
Definition present (b : Browser) (r : ElementKind * jsstring) : bool :=
  match fst r with
  | AnyElement => isSome (querySelectorHTML (snd r) b)
  | FormElement => isSome (querySelectorForms (snd r) b)
  | InputElement => isSome (querySelectorInput (snd r) b)
  | ListElement => isSome (querySelectorList (snd r) (view b))
  end.

(** The selector of the first element of the list that is not there. *)
Definition firstMissing (l : list (ElementKind * jsstring)) (b : Browser)
  : option jsstring :=
  snd <$> find (fun r => negb (present b r)) l.

(** The elements [bootstrap] looks up, in the order it does; the five
    inputs are looked up when a configuration is restored from the
    store. *)
Definition required (restored : bool) : list (ElementKind * jsstring) :=
  [(AnyElement, navToggle); (AnyElement, navLinks);
   (FormElement, analysisForm); (AnyElement, analysisFeedback)]
  ++ (if restored then
        [(InputElement, lit "#business-name"); (InputElement, lit "#industry");
         (InputElement, lit "#traffic-level"); (InputElement, lit "#goal-cpa");
         (InputElement, lit "#newsletter")]
      else [])
  ++ [(ListElement, outputSelector);
      (FormElement, callFormSelector); (AnyElement, callFeedback);
      (AnyElement, downloadButton); (AnyElement, yearElement)].

(** The listeners [bootstrap] adds on a page whose navigation list holds
    [anchors] links. *)
Definition programListeners (anchors : nat)
  : list (EventTarget * EventType * Listener) :=
  (Node navToggle, Click, NavToggle navToggle navLinks)
  :: map (fun a => (NavAnchor a, Click, NavClose navToggle navLinks))
         (seq 0 anchors)
  ++ [(Node analysisForm, InputEvent, AnalysisInput analysisForm);
      (Node analysisForm, Submit,
       AnalysisSubmit analysisForm analysisFeedback);
      (Node callFormSelector, Submit,
       CallSubmit callFormSelector callFeedback);
      (Node downloadButton, Click, DownloadClick)].

(** A page on which [bootstrap] has run: its elements are there and its
    listeners are the ones of the program (after, at most, listeners on
    the document itself). *)
Definition installed (b : Browser) : Prop :=
  firstMissing (required false) b = None
  /\ exists early,
       Forall (fun l => fst (fst l) = Document) early
       /\ eventListeners b = early ++ programListeners (navAnchors b).

(** The state of the navigation: both attributes say [open]. *)
Definition navigationShows (b : Browser) (open : bool) : Prop :=
  (exists e, htmlElements b !! navToggle = Some e
             /\ attributes e !! lit "aria-expanded" = Some (booleanText open))
  /\ (exists e, htmlElements b !! navLinks = Some e
                /\ attributes e !! lit "data-open" = Some (booleanText open)).

(** The text an element shows. *)
Definition shows (b : Browser) (element text : jsstring) : Prop :=
  exists e, htmlElements b !! element = Some e /\ elementText e = text.

(** The analysis form as the reader sees it. *)
Definition formNow (b : Browser) : HTMLFormElement :=
  mkForm (entryListOf analysisForm (inputElements b)).

(** A computation that leaves a component of the browser as it was. *)
Definition keeps {X A} (p : Browser -> X) (m : JS A) : Prop :=
  forall b, p (snd (m b)) = p b.

(** A computation of the part above that neither adds nor removes a
    description list. *)
Definition keepsLists {A} (m : M A) : Prop :=
  forall (w : World) (s : jsstring),
    isSome (querySelectorList s (snd (m w))) = isSome (querySelectorList s w).

(** Where a computation stands with the elements [l] it looks up: it
    changes none of the elements of the page, and it throws, naming the
    first of them that is not there, or else returns. *)
Definition needsAt {A} (b : Browser) (l : list (ElementKind * jsstring))
  (m : JS A) : Prop :=
  (forall r, present (snd (m b)) r = present b r)
  /\ match firstMissing l b with
     | Some s => fst (m b) = Throw (notFound s)
     | None => exists a, fst (m b) = Normal a
     end.

Definition needs {A} (l : list (ElementKind * jsstring)) (m : JS A) : Prop :=
  forall b, needsAt b l m.

(** A computation that always returns. *)
Definition returns {A} (m : JS A) : Prop :=
  forall b, exists a, fst (m b) = Normal a.

(** A computation that, when it returns, has added the listeners
    [L anchors] and no other, on a page with [anchors] navigation
    links. *)
Definition adds {A} (L : nat -> list (EventTarget * EventType * Listener))
  (m : JS A) : Prop :=
  forall b a b',
    m b = (Normal a, b') ->
    eventListeners b' = eventListeners b ++ L (navAnchors b)
    /\ navAnchors b' = navAnchors b.

(** The elements after [updateState(false)]. *)
Definition closeNavigation (elements : gmap jsstring HTMLElement)
  : gmap jsstring HTMLElement :=
  alter (fun e => mkHTMLElement
                    (<[lit "data-open" := lit "false"]> (attributes e))
                    (elementText e)) navLinks
    (alter (fun e => mkHTMLElement
                       (<[lit "aria-expanded" := lit "false"]> (attributes e))
                       (elementText e)) navToggle elements).

(** A computation that returns only where the elements [l] are there. *)
Definition finds {A} (l : list (ElementKind * jsstring)) (m : JS A) : Prop :=
  forall b a b', m b = (Normal a, b') -> firstMissing l b = None.

(** The clicks of a visitor on the navigation. *)
Inductive NavEvent : Type :=
| ClickToggle
| ClickAnchor (index : nat).

Definition navEvent (H : Host) (e : NavEvent) : JS unit :=
  match e with
  | ClickToggle => dispatchEvent H (Node navToggle) Click
  | ClickAnchor index => dispatchEvent H (NavAnchor index) Click
  end.

(** Where the clicks leave the menu: the toggle flips it, a link of the
    list closes it. *)
Fixpoint menuOpen (open : bool) (l : list NavEvent) : bool :=
  match l with
  | [] => open
  | ClickToggle :: r => menuOpen (negb open) r
  | ClickAnchor _ :: r => menuOpen false r
  end.

Definition savedMessage : jsstring :=
  lit "Plan summary generated and saved. We will tailor the analytics rollout for you.".

(** The page after a submit of the analysis form. *)
Definition afterSubmit (H : Host) (b : Browser) : Browser :=
  let config := readFunnelConfig (formNow b) in
  let w := snd (persistConfig config (view b)) in
  withTimers
    (timers b ++ [((currentTime b + 6000)%N, ClearFeedback analysisFeedback)])
    (withHtmlElements
       (alter (fun e => mkHTMLElement (attributes e) savedMessage)
              analysisFeedback (htmlElements b))
       (withConsoleLog (console w)
          (withStorageArea (localStorage w)
             (withDescriptionLists
                (<[outputSelector := snapshotChildren H config]>
                   (descriptionLists b))
                (withCanceled true b))))).

Definition submitForm (H : Host) : JS unit :=
  dispatchEvent H (Node analysisForm) Submit.

Definition clickDownloadButton (H : Host) : JS unit :=
  dispatchEvent H (Node downloadButton) Click.

(** ** The form after a restore *)

(** The characters of a decimal literal. *)
Definition numChar (c : N) : bool :=
  (isDigit c || (c =? 46) || (c =? 101) || (c =? 69) || (c =? 43)
   || (c =? 45))%N.

(** What a number field holds of a number it is given, as a number:
    the field takes the text of a finite number and reads as that
    number, but it takes neither [NaN] nor [Infinity] and then reads as
    0, and a zero reads as [+0]. *)
Definition restoredNumber (x : number) : number :=
  match x with
  | S754_finite _ _ _ => x
  | _ => posZero
  end.

(** What a text field holds of a text it is given, as the reader
    returns it: line breaks are dropped by the field, a lone surrogate
    is replaced when the entry list is built, and the reader trims. *)
Definition restoredText (s : jsstring) : jsstring :=
  trim (toUSVString (stripNewlines s)).

(** The inputs [form.querySelectorAll('input[name="stage"]')] finds. *)
Definition stageInput (form : jsstring) (i : HTMLInputElement) : bool :=
  ownedBy form i && bool_decide (inputName i = lit "stage").

(** The values of the stage boxes of a form, in tree order. *)
Definition stageValues (form : jsstring) (inputs : list HTMLInputElement)
  : list jsstring :=
  map valueOf (List.filter (stageInput form) inputs).

(** The stages read from boxes with the values [boxes] after the boxes
    whose value is in [stages] were checked. *)
Definition restoredStages (boxes stages : list jsstring) : list jsstring :=
  match List.filter (includes stages) boxes with
  | [] => defaultStages
  | chosen => map toUSVString chosen
  end.

(** The configuration read from the form after a restore of [config]. *)
Definition restored (boxes : list jsstring) (config : FunnelConfig)
  : FunnelConfig :=
  {| business := restoredText (business config);
     industry := restoredText (industry config);
     sessions := restoredNumber (sessions config);
     cpa := restoredNumber (cpa config);
     stages := restoredStages boxes (stages config);
     newsletter := newsletter config |}.

(** The input with the id [id] is a field of the form: it is there, it
    is an enabled input of the type [type] with the name [name], and no
    other input of the form has that name. *)
Record fieldOf (form : jsstring) (inputs : list HTMLInputElement)
  (id name : jsstring) (type : InputType) : Prop := mkFieldOf {
  field_there : exists i, In i inputs /\ inputId i = id;
  field_shape :
    forall i, In i inputs -> inputId i = id ->
      formOwner i = form /\ inputName i = name /\ inputType i = type
      /\ disabled i = false;
  field_alone :
    forall i, In i inputs -> formOwner i = form -> inputName i = name ->
      inputId i = id
}.

(** The markup the program expects of the analysis form: ids are not
    shared; the five fields the program finds by id are two text
    fields, two number fields and a check box whose value is [on], with
    the names the reader asks for; the inputs named [stage] are enabled
    check boxes. *)
Record analysisLayout (form : jsstring) (inputs : list HTMLInputElement)
  : Prop := mkAnalysisLayout {
  layout_ids : List.NoDup (map inputId inputs);
  layout_business :
    fieldOf form inputs (lit "business-name") (lit "business") TextInput;
  layout_industry :
    fieldOf form inputs (lit "industry") (lit "industry") TextInput;
  layout_sessions :
    fieldOf form inputs (lit "traffic-level") (lit "sessions") NumberInput;
  layout_cpa :
    fieldOf form inputs (lit "goal-cpa") (lit "cpa") NumberInput;
  layout_newsletter :
    fieldOf form inputs (lit "newsletter") (lit "newsletter") CheckboxInput;
  layout_on :
    forall i, In i inputs -> inputId i = lit "newsletter" ->
      valueOf i = lit "on";
  layout_stage :
    forall i, In i inputs -> stageInput form i = true ->
      inputType i = CheckboxInput /\ disabled i = false
}.

(** [syncFormWithConfig] on one input. *)
Definition assignField (id : jsstring)
  (f : HTMLInputElement -> HTMLInputElement) (i : HTMLInputElement)
  : HTMLInputElement :=
  if bool_decide (inputId i = id) then f i else i.

Definition checkStage (form : jsstring) (stages : list jsstring)
  (i : HTMLInputElement) : HTMLInputElement :=
  if stageInput form i then assignChecked (includes stages (valueOf i)) i
  else i.

Definition syncInput (form : jsstring) (config : FunnelConfig)
  (i : HTMLInputElement) : HTMLInputElement :=
  checkStage form (stages config)
    (assignField (lit "newsletter") (assignChecked (newsletter config))
       (assignField (lit "goal-cpa")
          (assignValue (NumberToString (cpa config)))
          (assignField (lit "traffic-level")
             (assignValue (NumberToString (sessions config)))
             (assignField (lit "industry") (assignValue (industry config))
                (assignField (lit "business-name")
                   (assignValue (business config)) i))))).

(** What [input.value = s] and [input.checked = c] leave as it was. *)
Definition sameInput (g : HTMLInputElement -> HTMLInputElement) : Prop :=
  forall i,
    inputId (g i) = inputId i /\ formOwner (g i) = formOwner i
    /\ inputName (g i) = inputName i /\ inputType (g i) = inputType i
    /\ disabled (g i) = disabled i.

(** What the input [i] gives to the entry list of the form once [S] has
    been done to it. *)
Definition entriesGiven (form : jsstring)
  (S : HTMLInputElement -> HTMLInputElement) (i : HTMLInputElement)
  : FormData :=
  if ownedBy form i then entriesOf (S i) else [].

#[global] Instance InputType_eq_dec : EqDecision InputType.
Proof. solve_decision. Defined.

(** The two conditions as tests. *)
Definition hasField (form : jsstring) (inputs : list HTMLInputElement)
  (id name : jsstring) (type : InputType) : bool :=
  existsb (fun i => bool_decide (inputId i = id)) inputs
  && forallb
       (fun i =>
          implb (bool_decide (inputId i = id))
                (bool_decide (formOwner i = form)
                 && bool_decide (inputName i = name)
                 && bool_decide (inputType i = type)
                 && negb (disabled i)))
       inputs
  && forallb
       (fun i =>
          implb (bool_decide (formOwner i = form)
                 && bool_decide (inputName i = name))
                (bool_decide (inputId i = id)))
       inputs.

Definition hasLayout (form : jsstring) (inputs : list HTMLInputElement)
  : bool :=
  bool_decide (NoDup (map inputId inputs))
  && hasField form inputs (lit "business-name") (lit "business") TextInput
  && hasField form inputs (lit "industry") (lit "industry") TextInput
  && hasField form inputs (lit "traffic-level") (lit "sessions") NumberInput
  && hasField form inputs (lit "goal-cpa") (lit "cpa") NumberInput
  && hasField form inputs (lit "newsletter") (lit "newsletter") CheckboxInput
  && forallb
       (fun i =>
          implb (bool_decide (inputId i = lit "newsletter"))
                (bool_decide (valueOf i = lit "on")))
       inputs
  && forallb
       (fun i =>
          implb (stageInput form i)
                (bool_decide (inputType i = CheckboxInput)
                 && negb (disabled i)))
       inputs.

(** ** A stored object with a [null] number *)

(** A computation that throws: it throws the error of [queryElement]
    for the first of the elements [l] that is not there, and [e] when
    all of them are; it changes none of the elements of the page. *)
Definition stopsAt {A} (b : Browser) (l : list (ElementKind * jsstring))
  (e : exn) (m : JS A) : Prop :=
  (forall r, present (snd (m b)) r = present b r)
  /\ fst (m b) = match firstMissing l b with
                 | Some s => Throw (notFound s)
                 | None => Throw e
                 end.

(** The elements [bootstrap] looks up before [syncFormWithConfig] meets
    the [null] number: [#goal-cpa] only when [sessions] is a number. *)
Definition requiredNulled (nulled : StoredConfig)
  : list (ElementKind * jsstring) :=
  [(AnyElement, navToggle); (AnyElement, navLinks);
   (FormElement, analysisForm); (AnyElement, analysisFeedback);
   (InputElement, lit "#business-name"); (InputElement, lit "#industry");
   (InputElement, lit "#traffic-level")]
  ++ match storedSessions nulled with
     | Some _ => [(InputElement, lit "#goal-cpa")]
     | None => []
     end.

(* ===================================================================== *)
(** * The platform model on known values *)
(* ===================================================================== *)

(** [Number("0.1")] is the double [0x1.999999999999ap-4]. *)
Example Number_tenth :
  StringToNumber (lit "0.1") = S754_finite false 7205759403792794 (-56).
Proof. vm_compute. reflexivity. Qed.

(** Ties go to the even mantissa: [2^53 + 1] reads as [2^53]. *)
Example Number_ties_to_even :
  StringToNumber (lit "9007199254740993")
  = S754_finite false 4503599627370496 1.
Proof. vm_compute. reflexivity. Qed.

Example Number_limits :
  StringToNumber (lit "5e-324") = S754_finite false 1 (-1074)
  /\ StringToNumber (lit "2.4703282292062327e-324") = S754_zero false
  /\ StringToNumber (lit "1.7976931348623157e308")
     = S754_finite false 9007199254740991 971
  /\ StringToNumber (lit "1.7976931348623159e308") = S754_infinity false.
Proof. repeat split; vm_compute; reflexivity. Qed.

Example Number_forms :
  StringToNumber (lit "  12 ") = StringToNumber (lit "12")
  /\ StringToNumber (lit "0x1F") = StringToNumber (lit "31")
  /\ StringToNumber (lit ".5") = StringToNumber (lit "0.5")
  /\ StringToNumber (lit "-0x1F") = NaN
  /\ StringToNumber (lit "1e") = NaN
  /\ StringToNumber (lit "12px") = NaN
  /\ StringToNumber (lit "-Infinity") = S754_infinity true
  /\ StringToNumber (lit "-0") = S754_zero true.
Proof. repeat split; vm_compute; reflexivity. Qed.

Example NumberToString_layouts :
  map (fun s => NumberToString (StringToNumber (lit s)))
      ["0.1"; "1000"; "1e21"; "123456789012345680000"; "0.000001"; "1e-7";
       "-42.70"; "5e-324"; "12345678901234567890123"; "1e23"]%string
  = map lit
      ["0.1"; "1000"; "1e+21"; "123456789012345680000"; "0.000001"; "1e-7";
       "-42.7"; "5e-324"; "1.2345678901234568e+22"; "1e+23"]%string.
Proof. vm_compute. reflexivity. Qed.

(** Next to a power of two the nearest decimal of a length can miss the
    double while its other neighbour reads back: [2^-44] and [2^-24]
    print with 16 digits. *)
Example NumberToString_power_of_two :
  NumberToString (S754_finite false 4503599627370496 (-96))
  = lit "5.684341886080802e-14"
  /\ NumberToString (S754_finite false 4503599627370496 (-76))
     = lit "5.960464477539063e-8".
Proof. split; vm_compute; reflexivity. Qed.

Example toFixed0_rounding :
  map (fun s => toFixed0 (StringToNumber (lit s)))
      ["42.7"; "0.5"; "1.5"; "2.5"; "-2.5"; "-0.4"; "0.49"; "1e21"; "x"]%string
  = map lit ["43"; "1"; "2"; "3"; "-3"; "-0"; "0"; "1e+21"; "NaN"]%string.
Proof. vm_compute. reflexivity. Qed.

Example toLocaleString_enUS_grouping :
  map (fun s => toLocaleString_enUS (StringToNumber (lit s)))
      ["1000"; "999"; "1234567.5"; "-1234.5678"; "0.0004"; "1.0005";
       "1e23"; "x"]%string
  = map lit ["1,000"; "999"; "1,234,567.5"; "-1,234.568"; "0"; "1.001";
             "100,000,000,000,000,000,000,000"; "NaN"]%string.
Proof. vm_compute. reflexivity. Qed.

(** Control characters and lone surrogates are escaped, a surrogate pair
    is not. *)
Example quoteJSONString_escapes :
  quoteJSONString [97; 34; 10; 1; 55357; 56832; 55357]%N
  = [34; 97; 92; 34]%N ++ lit "\n\u0001"
      ++ [55357; 56832]%N ++ lit "\ud83d" ++ [34%N].
Proof. vm_compute. reflexivity. Qed.

Example JSON_parse_nested :
  JSON_parse (lit " [1, [true, [null, []]], {}] ")
  = Normal
      (VArr [VNum (StringToNumber (lit "1"));
             VArr [VBool true; VArr [VNull; VArr []]];
             VObj ∅]).
Proof. vm_compute. reflexivity. Qed.

Example JSON_parse_rejects :
  map (fun s => JSON_parse (lit s))
      ["[1,]"; "01"; "1."; ".5"; "+1"; "tru"; "[1 2]"; "{"; "NaN"]%string
  = repeat (Throw SyntaxError) 9.
Proof. vm_compute. reflexivity. Qed.

(** A later duplicate of a key replaces the earlier value. *)
Example JSON_parse_duplicate_key :
  JSON_parse
    (lit "{" ++ quoteJSONString (lit "a") ++ lit ":1,"
       ++ quoteJSONString (lit "a") ++ lit ":null}")
  = Normal (VObj (<[lit "a" := VNull]> ∅)).
Proof. vm_compute. reflexivity. Qed.


(* ===================================================================== *)
(** * Facts about the form reader *)
(* ===================================================================== *)

Lemma jsstring_eqb_eq (a b : jsstring) : jsstring_eqb a b = true <-> a = b.
Proof. unfold jsstring_eqb. rewrite bool_decide_eq_true. reflexivity. Qed.

(** [getAll] keeps the entries of the name, in the order of the list. *)
Lemma formDataGetAll_filter (name : jsstring) (fd : FormData) :
  formDataGetAll name fd
  = map snd (List.filter (fun p => jsstring_eqb (fst p) name) fd).
Proof.
  induction fd as [|[k v] r IH]; simpl; [reflexivity|].
  destruct (jsstring_eqb k name); simpl; now rewrite IH.
Qed.

(** [get] is the head of [getAll]. *)
Lemma formDataGet_head (name : jsstring) (fd : FormData) :
  formDataGet name fd = hd_error (formDataGetAll name fd).
Proof.
  induction fd as [|[k v] r IH]; simpl; [reflexivity|].
  destruct (jsstring_eqb k name); [reflexivity | exact IH].
Qed.

(** The sign of what rounding returns is the sign it was given. *)
Lemma binary_round_aux_sign (mx ex : Z) (lx : location) :
  let x := binary_round_aux prec emax false mx ex lx in
  x = NaN \/ nonNegative x = true.
Proof.
  unfold binary_round_aux.
  destruct (shr_fexp prec emax mx ex lx) as [mrs' e'].
  destruct (shr_fexp prec emax _ e' loc_Exact) as [mrs'' e''].
  destruct (shr_m mrs'') as [|m|m]; simpl; auto.
  destruct (e'' <=? emax - prec)%Z; simpl; auto.
Qed.

Lemma binary_normalize_sign (v : Z) :
  (0 <= v)%Z ->
  let x := binary_normalize prec emax v 0 false in
  x = NaN \/ nonNegative x = true.
Proof.
  intros Hv. destruct v as [|p|p]; [simpl; auto| |lia]. simpl.
  unfold binary_round.
  destruct (shl_align p 0 _) as [mz ez]. apply binary_round_aux_sign.
Qed.

Lemma digitsValue_nonneg_from (ds : jsstring) (acc : Z) :
  (0 <= acc)%Z ->
  (0 <= fold_left (fun a c => a * 10 + digitVal c) ds acc)%Z.
Proof.
  revert acc. induction ds as [|c r IH]; simpl; intros acc Hacc; [exact Hacc|].
  apply IH. unfold digitVal. lia.
Qed.

Lemma digitsValue_nonneg (ds : jsstring) : (0 <= digitsValue ds)%Z.
Proof. apply digitsValue_nonneg_from. lia. Qed.

Lemma round_decimal_sign (m e : Z) :
  (0 <= m)%Z ->
  let x := round_decimal false m e in
  x = NaN \/ nonNegative x = true.
Proof.
  intros Hm. unfold round_decimal.
  destruct (m =? 0)%Z; [simpl; auto|].
  destruct (0 <=? e)%Z.
  - apply binary_normalize_sign. simpl. apply Z.mul_nonneg_nonneg; [exact Hm|].
    apply Z.pow_nonneg. lia.
  - destruct (SFdiv_core_binary _ _ _ _ _ _) as [[q e'] l].
    apply binary_round_aux_sign.
Qed.

Lemma strUnsignedDecimalLiteral_sign (s : jsstring) (x : number) :
  strUnsignedDecimalLiteral false s = Some x ->
  x = NaN \/ nonNegative x = true.
Proof.
  unfold strUnsignedDecimalLiteral.
  destruct (jsstring_eqb s (lit "Infinity")).
  - intros [= <-]. simpl. auto.
  - destruct (span isDigit s) as [ip r1].
    destruct (match r1 with 46%N :: r => span isDigit r | _ => ([], r1) end)
      as [fp r2].
    destruct (ip ++ fp) as [|d ds] eqn:E; [discriminate|].
    destruct (scanExponent r2) as [[e [|? ?]]|]; try discriminate.
    intros [= <-]. apply round_decimal_sign, digitsValue_nonneg.
Qed.

Lemma radixDigit_nonneg (radix : Z) (c : N) (d : Z) :
  radixDigit radix c = Some d -> (0 <= d)%Z.
Proof.
  unfold radixDigit, digitVal.
  destruct (isDigit c); [|destruct (_ && _)%N; [|destruct (_ && _)%N]];
    try discriminate;
    match goal with |- context [(?a <? radix)%Z] => destruct (a <? radix)%Z end;
    try discriminate; intros [= <-]; lia.
Qed.

Lemma radixValue_nonneg (radix : Z) (s : jsstring) (acc v : Z) :
  (0 <= radix)%Z -> (0 <= acc)%Z -> radixValue radix acc s = Some v ->
  (0 <= v)%Z.
Proof.
  intros Hr. revert acc. induction s as [|c r IH]; simpl; intros acc Hacc.
  - intros [= <-]. exact Hacc.
  - destruct (radixDigit radix c) as [d|] eqn:E; [|discriminate].
    apply IH. apply radixDigit_nonneg in E. nia.
Qed.

Lemma nonDecimalIntegerLiteral_sign (s : jsstring) (x : number) :
  nonDecimalIntegerLiteral s = Some x -> x = NaN \/ nonNegative x = true.
Proof.
  unfold nonDecimalIntegerLiteral. intros H.
  repeat match type of H with
         | match ?t with _ => _ end = Some _ =>
             destruct t eqn:?; try discriminate
         end;
    injection H as <-; apply binary_normalize_sign;
    repeat match goal with
           | Hq : (if ?c then _ else _) = Some _ |- _ =>
               destruct c; try discriminate; try (injection Hq as <-)
           end;
    (eapply radixValue_nonneg; [| |eassumption]; lia).
Qed.

(** Only a leading minus sign makes [Number(text)] negative. *)
Lemma StringToNumber_sign (s : jsstring) :
  hd_error (trim s) <> Some 45%N ->
  StringToNumber s = NaN \/ nonNegative (StringToNumber s) = true.
Proof.
  unfold StringToNumber. intros Hminus.
  destruct (trim s) as [|c t] eqn:Et; [simpl; auto|].
  unfold strNumericLiteral.
  destruct (nonDecimalIntegerLiteral (c :: t)) as [x|] eqn:En.
  - eapply nonDecimalIntegerLiteral_sign, En.
  - assert (Hc : c <> 45%N) by (intros ->; apply Hminus; reflexivity).
    assert (Hu : forall u x, strUnsignedDecimalLiteral false u = Some x ->
                 x = NaN \/ nonNegative x = true)
      by apply strUnsignedDecimalLiteral_sign.
    destruct (N.eq_dec c 43%N) as [->|H43].
    + destruct (strUnsignedDecimalLiteral false t) eqn:E; [eauto|auto].
    + assert (E : match c :: t with
                  | 43%N :: r => strUnsignedDecimalLiteral false r
                  | 45%N :: r => strUnsignedDecimalLiteral true r
                  | _ => strUnsignedDecimalLiteral false (c :: t)
                  end = strUnsignedDecimalLiteral false (c :: t)).
      { destruct c as [|c]; [reflexivity|].
        repeat (destruct c as [c|c|]; try reflexivity; try congruence). }
      rewrite E.
      destruct (strUnsignedDecimalLiteral false (c :: t)) eqn:E'; [eauto|auto].
Qed.

(* ===================================================================== *)
(** * The form reader: numeric fields, stages, newsletter *)
(* ===================================================================== *)

Lemma numberOfEntry_spec (o : option FormDataEntryValue) :
  numericFieldSpec o (numberOfEntry o).
Proof.
  destruct o as [v|]; simpl; [|reflexivity].
  split; [reflexivity|]. split.
  - intros E. unfold StringToNumber. now rewrite E.
  - apply StringToNumber_sign.
Qed.

(** C1, as the code has it: [sessions] and [cpa] are [Number] of the
    first field value of that name.  An absent field and blank text give
    0; text without a leading minus sign gives a non-negative number or
    NaN; nothing turns non-numeric text into 0 or a negative literal
    into a non-negative number. *)
Theorem readFunnelConfig_numeric_fields (form : HTMLFormElement) :
  numericFieldSpec (formDataGet (lit "sessions") (entryList form))
                   (sessions (readFunnelConfig form))
  /\ numericFieldSpec (formDataGet (lit "cpa") (entryList form))
                      (cpa (readFunnelConfig form)).
Proof. split; apply numberOfEntry_spec. Qed.

(** C1 on the sample form: 1000 sessions and a blank industry. *)
Lemma readFunnelConfig_numeric_fields_witness :
  sessions (readFunnelConfig acmeForm)
  = S754_finite false 8796093022208000 (-43)
  /\ nonNegative (sessions (readFunnelConfig acmeForm)) = true.
Proof.
  destruct (readFunnelConfig_numeric_fields acmeForm) as [[E _] _].
  rewrite E. split; vm_compute; reflexivity.
Defined.

(** C1 as the specification states it fails: a session count of [-5] is
    read as the negative number -5, and the text [abc] as NaN, not 0. *)
Lemma readFunnelConfig_numeric_counterexample :
  sessions (readFunnelConfig negativeForm)
  = S754_finite true 5629499534213120 (-50)
  /\ nonNegative (sessions (readFunnelConfig negativeForm)) = false
  /\ sessions (readFunnelConfig wordForm) = NaN
  /\ nonNegative (sessions (readFunnelConfig wordForm)) = false
  /\ ~ (forall form,
          nonNegative (sessions (readFunnelConfig form)) = true
          /\ nonNegative (cpa (readFunnelConfig form)) = true).
Proof.
  split; [vm_compute; reflexivity|].
  split; [vm_compute; reflexivity|].
  split; [vm_compute; reflexivity|].
  split; [vm_compute; reflexivity|].
  intros H. destruct (H negativeForm) as [Hs _].
  vm_compute in Hs. discriminate.
Qed.

(** C2: with no [stage] entry in the form data the stages are the three
    defaults in their fixed order; otherwise they are the values of the
    [stage] entries, unchanged and in the order of the entry list. *)
Theorem readFunnelConfig_stages (form : HTMLFormElement)
  (checked : list FormDataEntryValue) :
  checked
  = map snd (List.filter (fun p => jsstring_eqb (fst p) (lit "stage"))
                         (entryList form)) ->
  stages (readFunnelConfig form)
  = match checked with
    | [] => [lit "awareness"; lit "consideration"; lit "conversion"]
    | _ => map entryToString checked
    end
  /\ (forall values, checked = map EntryString values ->
      values <> [] -> stages (readFunnelConfig form) = values).
Proof.
  intros ->. rewrite <- formDataGetAll_filter.
  assert (E : stages (readFunnelConfig form)
              = match formDataGetAll (lit "stage") (entryList form) with
                | [] => [lit "awareness"; lit "consideration"; lit "conversion"]
                | _ => map entryToString
                         (formDataGetAll (lit "stage") (entryList form))
                end).
  { unfold readFunnelConfig, newFormData. simpl.
    destruct (formDataGetAll (lit "stage") (entryList form)); reflexivity. }
  split; [exact E|].
  intros values Hv Hne. rewrite E, Hv.
  destruct values as [|v vs]; [congruence|].
  simpl. f_equal. rewrite map_map. simpl. apply map_id.
Qed.

Lemma readFunnelConfig_stages_witness :
  stages (readFunnelConfig checkedForm) = [lit "retention"; lit "awareness"]
  /\ stages (readFunnelConfig acmeForm)
     = [lit "awareness"; lit "consideration"; lit "conversion"].
Proof.
  split.
  - exact (proj2 (readFunnelConfig_stages checkedForm _ eq_refl)
             [lit "retention"; lit "awareness"] eq_refl
             ltac:(discriminate)).
  - exact (proj1 (readFunnelConfig_stages acmeForm [] eq_refl)).
Defined.

(** C10: [newsletter] is true exactly when the first entry named
    [newsletter] is the string [on]. *)
Theorem readFunnelConfig_newsletter (form : HTMLFormElement) :
  newsletter (readFunnelConfig form) = true
  <-> formDataGet (lit "newsletter") (entryList form)
      = Some (EntryString (lit "on")).
Proof.
  unfold readFunnelConfig, newFormData. simpl.
  destruct (formDataGet (lit "newsletter") (entryList form)) as [[s|f]|];
    simpl; split; try discriminate.
  - intros E. apply jsstring_eqb_eq in E. now subst.
  - intros [= ->]. now apply jsstring_eqb_eq.
Qed.

Lemma readFunnelConfig_newsletter_witness :
  newsletter (readFunnelConfig checkedForm) = true
  /\ newsletter
       (readFunnelConfig (mkForm [textEntry "newsletter" "true"])) = false
  /\ newsletter
       (readFunnelConfig (mkForm [textEntry "newsletter" "yes"])) = false
  /\ newsletter (readFunnelConfig acmeForm) = false.
Proof.
  split; [exact (proj2 (readFunnelConfig_newsletter checkedForm) eq_refl)|].
  repeat split; apply not_true_is_false; intros E;
    apply readFunnelConfig_newsletter in E; vm_compute in E; discriminate.
Defined.

(* ===================================================================== *)
(** * The storage codec never throws *)
(* ===================================================================== *)

Lemma JSON_parse_completes (text : jsstring) :
  (exists v, JSON_parse text = Normal v) \/ JSON_parse text = Throw SyntaxError.
Proof.
  unfold JSON_parse.
  destruct (parseValue _ text) as [[v rest]|]; [|now right].
  destruct (skipWs rest); [left; eauto | now right].
Qed.

(** [loadConfig], case by case. *)
Lemma loadConfig_denied (w : World) :
  accessible (localStorage w) = false ->
  loadConfig w
  = (Normal VUndefined,
     warned w "Unable to load funnel configuration" securityError).
Proof.
  intros E. unfold loadConfig, tryCatch, bind, getItem. cbv beta.
  rewrite E. reflexivity.
Qed.

Lemma loadConfig_blank (w : World) :
  accessible (localStorage w) = true ->
  items (localStorage w) !! storageKey = None
  \/ items (localStorage w) !! storageKey = Some [] ->
  loadConfig w = (Normal VUndefined, w).
Proof.
  intros E H. unfold loadConfig, tryCatch, bind, getItem. cbv beta.
  rewrite E. destruct H as [-> | ->]; reflexivity.
Qed.

Lemma loadConfig_text (w : World) (c : N) (t : jsstring) :
  accessible (localStorage w) = true ->
  items (localStorage w) !! storageKey = Some (c :: t) ->
  loadConfig w
  = match JSON_parse (c :: t) with
    | Normal v => (Normal v, w)
    | Throw e =>
        (Normal VUndefined, warned w "Unable to load funnel configuration" e)
    | Untyped => (Untyped, w)
    end.
Proof.
  intros E H. unfold loadConfig, tryCatch, bind, getItem. cbv beta.
  rewrite E, H. destruct (JSON_parse (c :: t)); reflexivity.
Qed.

Lemma loadConfig_returns (w : World) :
  exists v w', loadConfig w = (Normal v, w').
Proof.
  destruct (accessible (localStorage w)) eqn:E.
  - destruct (items (localStorage w) !! storageKey) as [[|c t]|] eqn:H.
    + rewrite loadConfig_blank; eauto.
    + rewrite (loadConfig_text w c t E H).
      destruct (JSON_parse_completes (c :: t)) as [[v ->] | ->]; eauto.
    + rewrite loadConfig_blank; eauto.
  - rewrite loadConfig_denied; eauto.
Qed.

Lemma loadConfig_unparsable (w : World) (raw : jsstring) (e : exn) :
  items (localStorage w) !! storageKey = Some raw ->
  JSON_parse raw = Throw e ->
  fst (loadConfig w) = Normal VUndefined.
Proof.
  intros H P. destruct (accessible (localStorage w)) eqn:E.
  - destruct raw as [|c t].
    + rewrite loadConfig_blank; auto.
    + rewrite (loadConfig_text w c t E H), P. reflexivity.
  - rewrite loadConfig_denied; auto.
Qed.

Lemma loadConfig_unset (w : World) :
  items (localStorage w) !! storageKey = None ->
  fst (loadConfig w) = Normal VUndefined.
Proof.
  intros H. destruct (accessible (localStorage w)) eqn:E.
  - rewrite loadConfig_blank; auto.
  - rewrite loadConfig_denied; auto.
Qed.

Lemma persistConfig_cases (config : FunnelConfig) (w : World) :
  match setItem storageKey (JSON_stringify config) w with
  | (Normal _, w') => persistConfig config w = (Normal tt, w')
  | (Throw e, _) =>
      persistConfig config w
      = (Normal tt, warned w "Unable to persist funnel configuration" e)
  | (Untyped, _) => False
  end.
Proof.
  unfold persistConfig, tryCatch, setItem. cbv beta zeta.
  destruct (accessible (localStorage w)); [|reflexivity].
  destruct (withinQuota _ _); reflexivity.
Qed.

(** C4: neither [persistConfig] nor [loadConfig] hands an error to its
    caller, whatever the store does.  A write that fails is logged and
    leaves the store as it was; [loadConfig] returns [undefined] when
    the key is unset and when the stored text does not parse, the same
    value in both cases. *)
Theorem codec_never_throws (config : FunnelConfig) (w : World) :
  (exists w', persistConfig config w = (Normal tt, w'))
  /\ (forall e,
        fst (setItem storageKey (JSON_stringify config) w) = Throw e ->
        persistConfig config w
        = (Normal tt, warned w "Unable to persist funnel configuration" e))
  /\ (exists v w', loadConfig w = (Normal v, w'))
  /\ (items (localStorage w) !! storageKey = None ->
      fst (loadConfig w) = Normal VUndefined)
  /\ (forall raw e,
        items (localStorage w) !! storageKey = Some raw ->
        JSON_parse raw = Throw e ->
        fst (loadConfig w) = Normal VUndefined).
Proof.
  pose proof (persistConfig_cases config w) as P.
  destruct (setItem storageKey (JSON_stringify config) w) as [[[]|e|] w1] eqn:S;
    [| |contradiction].
  - repeat split; eauto using loadConfig_returns, loadConfig_unset,
      loadConfig_unparsable. discriminate.
  - repeat split; eauto using loadConfig_returns, loadConfig_unset,
      loadConfig_unparsable.
    simpl. intros e' [= <-]. exact P.
Qed.

(** C4 on a store whose quota is too small for the write, and on a store
    that holds text that is not JSON. *)
Lemma codec_never_throws_witness :
  let full := mkWorld (mkStorage true (Some 10%nat) ∅) [] (samplePage acmeForm) in
  persistConfig retentionConfig full
  = (Normal tt,
     warned full "Unable to persist funnel configuration" quotaExceededError)
  /\ fst (loadConfig (storedWorld (lit "{oops") acmeForm)) = Normal VUndefined
  /\ fst (loadConfig (sampleWorld acmeForm)) = Normal VUndefined.
Proof.
  intros full.
  pose proof (codec_never_throws retentionConfig full) as (_ & Hw & _).
  pose proof (codec_never_throws retentionConfig
                (storedWorld (lit "{oops") acmeForm)) as (_ & _ & _ & _ & Hp).
  pose proof (codec_never_throws retentionConfig (sampleWorld acmeForm))
    as (_ & _ & _ & Hu & _).
  split; [|split].
  - apply Hw. vm_compute. reflexivity.
  - apply (Hp (lit "{oops") SyntaxError); vm_compute; reflexivity.
  - apply Hu. vm_compute. reflexivity.
Defined.

(** C9: an empty string stored under the key is read as [undefined],
    with the same result and the same log as when the key is unset. *)
Theorem loadConfig_empty_string (w : World) :
  items (localStorage w) !! storageKey = Some [] ->
  fst (loadConfig w) = Normal VUndefined
  /\ fst (loadConfig w) = fst (loadConfig (unsetKey w))
  /\ console (snd (loadConfig w)) = console (snd (loadConfig (unsetKey w))).
Proof.
  intros H. destruct (accessible (localStorage w)) eqn:E.
  - rewrite (loadConfig_blank w E (or_intror H)).
    rewrite (loadConfig_blank (unsetKey w)); simpl; auto.
    left. apply lookup_delete_eq.
  - rewrite (loadConfig_denied w E).
    rewrite (loadConfig_denied (unsetKey w)); simpl; auto.
Qed.

Lemma loadConfig_empty_string_witness :
  fst (loadConfig (storedWorld [] acmeForm)) = Normal VUndefined
  /\ fst (loadConfig (storedWorld [] acmeForm))
     = fst (loadConfig (unsetKey (storedWorld [] acmeForm)))
  /\ console (snd (loadConfig (storedWorld [] acmeForm)))
     = console (snd (loadConfig (unsetKey (storedWorld [] acmeForm)))).
Proof.
  apply (loadConfig_empty_string (storedWorld [] acmeForm)).
  vm_compute. reflexivity.
Defined.

(* ===================================================================== *)
(** * The snapshot renderer *)
(* ===================================================================== *)

Lemma alter_present {A} (f : A -> A) (m : gmap (list N) A) (k : list N)
  (x : A) :
  m !! k = Some x -> alter f k m = <[k := f x]> m.
Proof.
  intros Hk. apply map_eq. intros j. destruct (decide (k = j)) as [<-|Hne].
  - now rewrite lookup_alter_eq, lookup_insert_eq, Hk.
  - now rewrite lookup_alter_ne, lookup_insert_ne.
Qed.

(** The loop over the stages appends its elements in order. *)
Lemma forEach_append (k : list N) (f g : list N -> Element)
  (l : list (list N)) (w : World) :
  forEach l (fun stage => append k (f stage) ;;; append k (g stage)) w
  = setChildren
      (fun children => children ++ flat_map (fun s => [f s; g s]) l) k w.
Proof.
  revert w. induction l as [|a r IH]; intros w.
  - simpl. unfold ret, setChildren. rewrite alter_id.
    + now destruct w as [? ? []].
    + intros x _. apply app_nil_r.
  - simpl. unfold bind at 1. unfold bind at 1. unfold append at 1 2.
    unfold setChildren at 1 2. cbv beta iota. rewrite IH.
    unfold setChildren. simpl. rewrite !alter_alter_eq.
    do 3 f_equal. apply alter_ext. intros x _. simpl.
    now rewrite <- !app_assoc.
Qed.

(** Run the next statement of a computation on the description list. *)
Ltac run_statement :=
  unfold bind at 1;
  first [unfold replaceChildren at 1 | unfold append at 1];
  unfold setChildren at 1; cbv beta iota.

Section Snapshot.

Variable H : Host.

Lemma renderFunnelSnapshot_missing (config : FunnelConfig) (w : World) :
  lists (document w) !! outputSelector = None ->
  renderFunnelSnapshot H config w
  = (Throw (Error (lit "Element not found for selector: " ++ outputSelector)),
     w).
Proof.
  intros Hk. unfold renderFunnelSnapshot, bind, queryElement, querySelectorList.
  fold outputSelector. now rewrite Hk.
Qed.

Lemma renderFunnelSnapshot_present (config : FunnelConfig) (w : World)
  (old : list Element) :
  lists (document w) !! outputSelector = Some old ->
  renderFunnelSnapshot H config w
  = (Normal tt, showing w (snapshotChildren H config)).
Proof.
  intros Hk. unfold renderFunnelSnapshot.
  unfold bind at 1. unfold queryElement, querySelectorList.
  fold outputSelector. rewrite Hk. unfold ret at 1. cbv beta iota.
  do 3 run_statement.
  unfold bind at 1. rewrite forEach_append.
  unfold setChildren at 1. cbv beta iota.
  unfold append, setChildren. simpl.
  unfold showing. do 3 f_equal.
  rewrite !alter_alter_eq.
  rewrite (alter_present _ _ _ _ Hk). reflexivity.
Qed.

Lemma snapshotChildren_closing (config : FunnelConfig) :
  snapshotChildren H config
  = removelast (snapshotChildren H config)
      ++ [createElement "dd" (nurtureText config)].
Proof.
  unfold snapshotChildren. now rewrite !app_comm_cons, removelast_last.
Qed.

(** C8: rendering twice with the same configuration leaves the display
    that rendering once leaves, whatever it showed before. *)
Theorem renderFunnelSnapshot_idempotent (config : FunnelConfig) (w : World) :
  (renderFunnelSnapshot H config ;;; renderFunnelSnapshot H config) w
  = renderFunnelSnapshot H config w.
Proof.
  unfold bind at 1.
  destruct (lists (document w) !! outputSelector) as [old|] eqn:Hk.
  - rewrite (renderFunnelSnapshot_present config w old Hk).
    rewrite (renderFunnelSnapshot_present config _ (snapshotChildren H config)).
    + unfold showing. simpl. now rewrite insert_insert_eq.
    + simpl. apply lookup_insert_eq.
  - now rewrite (renderFunnelSnapshot_missing config w Hk).
Qed.

(** C7: two configurations that differ only in the newsletter flag
    render to the same children up to the last one, the closing line. *)
Theorem renderFunnelSnapshot_newsletter_frame (c1 c2 : FunnelConfig)
  (w : World) (old : list Element) :
  business c1 = business c2 -> industry c1 = industry c2 ->
  sessions c1 = sessions c2 -> cpa c1 = cpa c2 -> stages c1 = stages c2 ->
  lists (document w) !! outputSelector = Some old ->
  exists common : list Element,
    renderFunnelSnapshot H c1 w
    = (Normal tt,
       showing w (common ++ [createElement "dd" (nurtureText c1)]))
    /\ renderFunnelSnapshot H c2 w
       = (Normal tt,
          showing w (common ++ [createElement "dd" (nurtureText c2)])).
Proof.
  intros Hb Hi Hs Hc Hst Hk.
  exists (removelast (snapshotChildren H c1)).
  rewrite (renderFunnelSnapshot_present c1 w old Hk).
  rewrite (renderFunnelSnapshot_present c2 w old Hk).
  split.
  - now rewrite <- snapshotChildren_closing.
  - rewrite (snapshotChildren_closing c2) at 1. do 3 f_equal.
    unfold snapshotChildren. rewrite !app_comm_cons, !removelast_last.
    unfold headingText, summaryText. now rewrite Hb, Hi, Hs, Hc, Hst.
Qed.

End Snapshot.

Lemma renderFunnelSnapshot_newsletter_frame_witness :
  exists common : list Element,
    renderFunnelSnapshot enUS (readFunnelConfig acmeForm)
      (sampleWorld acmeForm)
    = (Normal tt,
       showing (sampleWorld acmeForm)
         (common ++
          [createElement "dd"
             (lit "Newsletter insights skipped. Add email sync to stay aligned with funnel experiments.")]))
    /\ renderFunnelSnapshot enUS
         (readFunnelConfig
            (mkForm (entryList acmeForm ++ [textEntry "newsletter" "on"])))
         (sampleWorld acmeForm)
       = (Normal tt,
          showing (sampleWorld acmeForm)
            (common ++
             [createElement "dd"
                (lit "Weekly insight digest activated. You will receive optimization briefs straight to your inbox.")])).
Proof.
  apply (renderFunnelSnapshot_newsletter_frame enUS
           (readFunnelConfig acmeForm)
           (readFunnelConfig
              (mkForm (entryList acmeForm ++ [textEntry "newsletter" "on"])))
           (sampleWorld acmeForm)
           [createElement "dd" (lit "stale")]);
    vm_compute; reflexivity.
Defined.

(** C6: after the heading the snapshot shows the summary line (industry
    or [General], the formatted session count, the target CPA with no
    fraction digits), then for each stage in order its capitalized label
    and its description and KPI text joined by a space, then the closing
    line; on the form of the example, in an [en-US] browser, the summary
    is [Industry focus: General | Monthly sessions: 1,000 | Target CPA:
    $43], the stages are the three defaults and the closing line is the
    [skipped] message. *)
Theorem renderFunnelSnapshot_content :
  (forall (H : Host) (config : FunnelConfig) (w : World) (old : list Element),
     lists (document w) !! outputSelector = Some old ->
     renderFunnelSnapshot H config w
     = (Normal tt,
        showing w
          (createElement "dt"
             (orElse (business config) (lit "Your brand")
                ++ lit " funnel overview")
           :: createElement "dd"
                (lit "Industry focus: "
                   ++ orElse (industry config) (lit "General")
                   ++ lit " | Monthly sessions: "
                   ++ numberToLocaleString H (sessions config)
                   ++ lit " | Target CPA: $" ++ toFixed0 (cpa config))
           :: flat_map
                (fun stage =>
                   [createElement "dt"
                      (toUpperCase H (firstn 1 stage) ++ skipn 1 stage);
                    createElement "dd"
                      (lookupText H stageDescriptions stage ++ lit " "
                         ++ lookupText H stageKpis stage)])
                (stages config)
           ++ [createElement "dd" (nurtureText config)])))
  /\ renderFunnelSnapshot enUS (readFunnelConfig acmeForm)
       (sampleWorld acmeForm)
     = (Normal tt,
        showing (sampleWorld acmeForm)
          [createElement "dt" (lit "Acme funnel overview");
           createElement "dd"
             (lit "Industry focus: General | Monthly sessions: 1,000 | Target CPA: $43");
           createElement "dt" (lit "Awareness");
           createElement "dd"
             (lit "Build omnichannel reach with paid social, influencer partnerships, and hero content hubs. Primary KPIs: reach, CPM efficiency, and top-of-funnel CTR.");
           createElement "dt" (lit "Consideration");
           createElement "dd"
             (lit "Drive mid-funnel intent with progressive profiling, comparison guides, and nurture sequences. Primary KPIs: MQL velocity, content engagement depth, and remarketing lift.");
           createElement "dt" (lit "Conversion");
           createElement "dd"
             (lit "Optimize acquisition moments with CRO testing, sales enablement, and automated onboarding. Primary KPIs: CAC trendline, pipeline velocity, and on-site conversion rate.");
           createElement "dd"
             (lit "Newsletter insights skipped. Add email sync to stay aligned with funnel experiments.")]).
Proof.
  split.
  - intros H config w old Hk.
    exact (renderFunnelSnapshot_present H config w old Hk).
  - rewrite (renderFunnelSnapshot_present enUS _ (sampleWorld acmeForm)
               [createElement "dd" (lit "stale")]);
      [|vm_compute; reflexivity].
    do 2 f_equal.
Qed.

(* ===================================================================== *)
(** * Rounding a value that is a double *)
(* ===================================================================== *)

Local Open Scope Z_scope.

Lemma digits2_pos_log2 (p : positive) :
  Zpos (digits2_pos p) = Z.log2 (Zpos p) + 1.
Proof.
  induction p as [p IH|p IH|]; simpl; try reflexivity.
  - rewrite Pos2Z.inj_succ, IH.
    destruct p; simpl; try reflexivity; now rewrite Pos2Z.inj_succ.
  - rewrite Pos2Z.inj_succ, IH.
    destruct p; simpl; try reflexivity; now rewrite Pos2Z.inj_succ.
Qed.

Lemma Zdigits2_log2 (z : Z) : 0 < z -> Zdigits2 z = Z.log2 z + 1.
Proof.
  destruct z as [|p|p]; try lia. intros _. apply digits2_pos_log2.
Qed.

Lemma Zdigits2_mul_pow2 (p : positive) (j : Z) :
  0 <= j -> Zdigits2 (Zpos p * 2 ^ j) = Zpos (digits2_pos p) + j.
Proof.
  intros Hj. rewrite Zdigits2_log2 by (apply Z.mul_pos_pos; [lia|];
    apply Z.pow_pos_nonneg; lia).
  rewrite Z.log2_mul_pow2 by lia. rewrite digits2_pos_log2. lia.
Qed.

Lemma iter_pos_nat {A} (f : A -> A) (p : positive) (x : A) :
  SpecFloat.iter_pos f p x = Nat.iter (Pos.to_nat p) f x.
Proof.
  revert x. induction p as [p IH|p IH|]; intros x.
  - change (SpecFloat.iter_pos f p~1 x)
      with (SpecFloat.iter_pos f p (SpecFloat.iter_pos f p (f x))).
    rewrite !IH, Pos2Nat.inj_xI, Nat.iter_succ_r, <- Nat.iter_add.
    f_equal. lia.
  - change (SpecFloat.iter_pos f p~0 x)
      with (SpecFloat.iter_pos f p (SpecFloat.iter_pos f p x)).
    rewrite !IH, Pos2Nat.inj_xO, <- Nat.iter_add. f_equal. lia.
  - reflexivity.
Qed.

Lemma shr_1_even (z : Z) :
  0 < z ->
  shr_1 (Build_shr_record (2 * z) false false) = Build_shr_record z false false.
Proof. destruct z as [|p|p]; try lia. reflexivity. Qed.

Lemma shr_nat_exact (n : nat) (z : Z) :
  0 < z ->
  Nat.iter n shr_1 (Build_shr_record (z * 2 ^ Z.of_nat n) false false)
  = Build_shr_record z false false.
Proof.
  intros Hz. induction n as [|n IH].
  - simpl. now rewrite Z.mul_1_r.
  - rewrite Nat.iter_succ_r.
    replace (z * 2 ^ Z.of_nat (S n)) with (2 * (z * 2 ^ Z.of_nat n)).
    + rewrite shr_1_even; [exact IH|].
      apply Z.mul_pos_pos; [lia|]. apply Z.pow_pos_nonneg; lia.
    + rewrite Nat2Z.inj_succ, Z.pow_succ_r by lia. ring.
Qed.

(** Shifting out [j] zero bits is exact. *)
Lemma shr_exact (z e j : Z) :
  0 < z -> 0 <= j ->
  shr (Build_shr_record (z * 2 ^ j) false false) e j
  = (Build_shr_record z false false, e + j).
Proof.
  intros Hz Hj. destruct j as [|p|p]; try lia.
  - simpl. now rewrite Z.mul_1_r, Z.add_0_r.
  - unfold shr. rewrite iter_pos_nat.
    rewrite <- (positive_nat_Z p) at 1. now rewrite shr_nat_exact.
Qed.

Lemma bounded_canonical (m : positive) (e : Z) :
  bounded prec emax m e = true ->
  fexp prec emax (Zpos (digits2_pos m) + e) = e /\ e <= emax - prec.
Proof.
  unfold bounded, canonical_mantissa. intros H.
  apply andb_prop in H. destruct H as [H1 H2].
  apply Z.eqb_eq in H1. apply Z.leb_le in H2. now split.
Qed.

(** Rounding [m * 2 ^ j] at exponent [e - j], for a double [m * 2 ^ e],
    gives that double. *)
Lemma binary_round_aux_exact (s : bool) (m : positive) (e j : Z) :
  bounded prec emax m e = true -> 0 <= j ->
  binary_round_aux prec emax s (Zpos m * 2 ^ j) (e - j) loc_Exact
  = S754_finite s m e.
Proof.
  intros Hb Hj. destruct (bounded_canonical m e Hb) as [Hc He].
  unfold binary_round_aux.
  assert (S1 : shr_fexp prec emax (Zpos m * 2 ^ j) (e - j) loc_Exact
               = (Build_shr_record (Zpos m) false false, e)).
  { unfold shr_fexp. rewrite Zdigits2_mul_pow2 by exact Hj.
    replace (Zpos (digits2_pos m) + j + (e - j))
      with (Zpos (digits2_pos m) + e) by ring.
    rewrite Hc. replace (e - (e - j)) with j by ring.
    simpl shr_record_of_loc. rewrite shr_exact by lia.
    f_equal. ring. }
  rewrite S1. simpl shr_m. simpl loc_of_shr_record.
  simpl round_nearest_even.
  assert (S2 : shr_fexp prec emax (Zpos m) e loc_Exact
               = (Build_shr_record (Zpos m) false false, e)).
  { unfold shr_fexp. simpl Zdigits2. rewrite Hc, Z.sub_diag. reflexivity. }
  rewrite S2. simpl shr_m.
  apply Z.leb_le in He. now rewrite He.
Qed.

Lemma pos_iter_xO (n d : positive) :
  Zpos (Pos.iter xO n d) = Zpos n * 2 ^ Zpos d.
Proof.
  revert n. induction d as [|d IH] using Pos.peano_ind; intros n.
  - simpl. lia.
  - rewrite Pos.iter_succ, Pos2Z.inj_xO, IH, Pos2Z.inj_succ.
    rewrite Z.pow_succ_r by lia. ring.
Qed.

Lemma fexp_mono (a b : Z) : a <= b -> fexp prec emax a <= fexp prec emax b.
Proof. unfold fexp. lia. Qed.

Lemma binary_round_exact (s : bool) (v m : positive) (e : Z) :
  bounded prec emax m e = true ->
  dyadicInteger (Zpos v) m e ->
  binary_round prec emax s v 0 = S754_finite s m e.
Proof.
  intros Hb Hv. destruct (bounded_canonical m e Hb) as [Hc He].
  unfold binary_round.
  assert (Hd : Zpos (digits2_pos v) + 0 = Zpos (digits2_pos m) + e).
  { destruct Hv as [[H0 Hv]|[H0 Hv]].
    - change (Zpos (digits2_pos v)) with (Zdigits2 (Zpos v)).
      rewrite Hv, Zdigits2_mul_pow2 by exact H0. ring.
    - change (Zpos (digits2_pos m)) with (Zdigits2 (Zpos m)).
      rewrite <- Hv, Zdigits2_mul_pow2 by lia. simpl Zdigits2. ring. }
  rewrite Hd, Hc. unfold shl_align.
  destruct Hv as [[H0 Hv]|[H0 Hv]].
  - replace (e - 0) with e by ring.
    assert (E : match e with
                | Z.neg d => (Pos.iter xO v d, e)
                | _ => (v, 0)
                end = (v, 0)) by (destruct e; try reflexivity; lia).
    rewrite E, Hv.
    pose proof (binary_round_aux_exact s m e e Hb H0) as P.
    now rewrite Z.sub_diag in P.
  - destruct e as [|p|d]; try lia.
    change (Z.neg d - 0) with (Z.neg d). cbv beta iota.
    rewrite pos_iter_xO. change (- Z.neg d) with (Zpos d) in Hv.
    rewrite Hv.
    pose proof (binary_round_aux_exact s m (Z.neg d) 0 Hb (Z.le_refl 0)) as P.
    now rewrite Z.pow_0_r, Z.mul_1_r, Z.sub_0_r in P.
Qed.

Lemma new_location_zero (d : Z) : new_location d 0 = loc_Exact.
Proof.
  unfold new_location, new_location_even, new_location_odd.
  destruct (Z.even d); reflexivity.
Qed.

Lemma div_eucl_exact (q d : Z) : 0 < d -> Z.div_eucl (q * d) d = (q, 0).
Proof.
  intros Hd. destruct (Z.div_eucl (q * d) d) as [q' r'] eqn:E.
  assert (Hq : q' = q * d / d) by (unfold Z.div; now rewrite E).
  assert (Hr : r' = (q * d) mod d) by (unfold Z.modulo; now rewrite E).
  rewrite Z.div_mul in Hq by lia. rewrite Z.mod_mul in Hr by lia.
  now subst.
Qed.

(** The quotient of the division path, when the value is a double. *)
Lemma SFdiv_core_binary_exact (mq d : Z) (m : positive) (e : Z) :
  bounded prec emax m e = true -> 0 < mq -> 0 < d ->
  mq * 2 ^ Z.max 0 (- e) = Zpos m * 2 ^ Z.max 0 e * d ->
  exists j, 0 <= j /\
    SFdiv_core_binary prec emax mq 0 d 0 = (Zpos m * 2 ^ j, e - j, loc_Exact).
Proof.
  intros Hb Hm Hd Hv. destruct (bounded_canonical m e Hb) as [Hc He].
  unfold SFdiv_core_binary.
  rewrite !Z.add_0_r, Z.sub_0_r. change (0 - 0) with 0.
  set (e' := Z.min (fexp prec emax (Zdigits2 mq - Zdigits2 d)) 0).
  assert (He' : e' <= 0) by (subst e'; lia).
  assert (Hle : e' <= e).
  { destruct (Z.le_gt_cases 0 e) as [H0|H0]; [lia|].
    rewrite (Z.max_r 0 (- e)), (Z.max_l 0 e) in Hv by lia.
    rewrite Z.pow_0_r, Z.mul_1_r in Hv.
    assert (Hlog : Z.log2 (mq * 2 ^ (- e)) = - e + Z.log2 mq)
      by (apply Z.log2_mul_pow2; lia).
    assert (Hab : Z.log2 (Zpos m * d) <= Z.log2 (Zpos m) + Z.log2 d + 1)
      by (apply Z.log2_mul_above; lia).
    rewrite Hv in Hlog.
    assert (Hdig : Zdigits2 mq - Zdigits2 d <= Zpos (digits2_pos m) + e).
    { rewrite !Zdigits2_log2 by lia. rewrite digits2_pos_log2. lia. }
    apply fexp_mono in Hdig. subst e'. lia. }
  exists (e - e'). split; [lia|].
  assert (Hshift : match 0 - e' with
                   | Z.pos _ => Z.shiftl mq (0 - e')
                   | 0 => mq
                   | Z.neg _ => 0
                   end = Zpos m * 2 ^ (e - e') * d).
  { assert (Hs : match 0 - e' with
                 | Z.pos _ => Z.shiftl mq (0 - e')
                 | 0 => mq
                 | Z.neg _ => 0
                 end = mq * 2 ^ (- e')).
    { destruct (0 - e') as [|p|p] eqn:Es; try lia.
      - replace (- e') with 0 by lia. now rewrite Z.pow_0_r, Z.mul_1_r.
      - rewrite Z.shiftl_mul_pow2 by lia. f_equal. f_equal. lia. }
    rewrite Hs.
    destruct (Z.le_gt_cases 0 e) as [H0|H0].
    - rewrite (Z.max_l 0 (- e)), (Z.max_r 0 e) in Hv by lia.
      rewrite Z.pow_0_r, Z.mul_1_r in Hv. rewrite Hv.
      replace (e - e') with (e + - e') by ring.
      rewrite Z.pow_add_r by lia. ring.
    - rewrite (Z.max_r 0 (- e)), (Z.max_l 0 e) in Hv by lia.
      rewrite Z.pow_0_r, Z.mul_1_r in Hv.
      replace (- e') with (- e + (e - e')) by ring.
      rewrite Z.pow_add_r by lia. rewrite Z.mul_assoc, Hv. ring. }
  rewrite Hshift, div_eucl_exact by exact Hd.
  rewrite new_location_zero. f_equal. f_equal. ring.
Qed.

(** Converting a decimal whose value is a double gives that double. *)
Lemma round_decimal_exact (s : bool) (mq eq : Z) (m : positive) (e : Z) :
  bounded prec emax m e = true -> 0 < mq ->
  decimalIs mq eq m e ->
  round_decimal s mq eq = S754_finite s m e.
Proof.
  intros Hb Hm Hv. unfold round_decimal, decimalIs in *.
  destruct (Z.eqb_spec mq 0) as [->|_]; [lia|].
  destruct (Z.leb_spec 0 eq) as [H0|H0].
  - rewrite (Z.max_r 0 eq), (Z.max_l 0 (- eq)) in Hv by lia.
    rewrite Z.pow_0_r, Z.mul_1_r in Hv.
    assert (Hpos : 0 < mq * 10 ^ eq)
      by (apply Z.mul_pos_pos; [lia|]; apply Z.pow_pos_nonneg; lia).
    destruct (mq * 10 ^ eq) as [|v|v] eqn:Ev; try lia.
    assert (Hdy : dyadicInteger (Zpos v) m e).
    { destruct (Z.le_gt_cases 0 e) as [He|He].
      - left. split; [exact He|].
        rewrite (Z.max_l 0 (- e)), (Z.max_r 0 e) in Hv by lia.
        now rewrite Z.pow_0_r, Z.mul_1_r in Hv.
      - right. split; [exact He|].
        rewrite (Z.max_r 0 (- e)), (Z.max_l 0 e) in Hv by lia.
        now rewrite Z.pow_0_r, Z.mul_1_r in Hv. }
    destruct s; simpl; now apply binary_round_exact.
  - rewrite (Z.max_l 0 eq), (Z.max_r 0 (- eq)) in Hv by lia.
    rewrite Z.pow_0_r, Z.mul_1_r in Hv.
    destruct (SFdiv_core_binary_exact mq (10 ^ (- eq)) m e Hb Hm)
      as (j & Hj & ->); [apply Z.pow_pos_nonneg; lia | exact Hv |].
    now apply binary_round_aux_exact.
Qed.

(* ===================================================================== *)
(** * The digits of [Number::toString] read back as the number *)
(* ===================================================================== *)

Lemma number_eqb_eq (a b : spec_float) : number_eqb a b = true <-> a = b.
Proof.
  destruct a as [s|s| |s m e], b as [t|t| |t n f]; simpl;
    try (split; [discriminate|congruence]); try tauto.
  - rewrite Bool.eqb_true_iff. split; congruence.
  - rewrite Bool.eqb_true_iff. split; congruence.
  - rewrite !andb_true_iff, Bool.eqb_true_iff, Pos.eqb_eq, Z.eqb_eq.
    split; [intros [[-> ->] ->]; reflexivity | intros [= -> -> ->]; auto].
Qed.

Lemma readsAs_true (x : spec_float) (s e : Z) :
  readsAs x (s, e) = true <-> 0 < s /\ round_decimal false s e = x.
Proof.
  unfold readsAs. simpl. rewrite andb_true_iff, Z.ltb_lt, number_eqb_eq.
  reflexivity.
Qed.

Lemma shortestFrom_sound (x : spec_float) (num den n0 : Z) (fuel : nat)
  (k s e : Z) :
  shortestFrom x num den n0 fuel k = Some (s, e) ->
  0 < s /\ round_decimal false s e = x.
Proof.
  revert k. induction fuel as [|f IH]; intros k; simpl; [discriminate|].
  destruct (candidates num den n0 k) as [c1 c2].
  destruct (readsAs x c1) eqn:T1.
  - intros [= ->]. now apply readsAs_true.
  - destruct (readsAs x c2) eqn:T2.
    + intros [= ->]. now apply readsAs_true.
    + apply IH.
Qed.

Lemma shortestFrom_complete (x : spec_float) (num den n0 : Z) (fuel : nat)
  (k : Z) (j : nat) :
  (j < fuel)%nat ->
  readsAs x (fst (candidates num den n0 (k + Z.of_nat j))) = true ->
  exists r, shortestFrom x num den n0 fuel k = Some r.
Proof.
  revert k j. induction fuel as [|f IH]; intros k j Hj T; [lia|].
  simpl. destruct (candidates num den n0 k) as [c1 c2] eqn:C.
  destruct (readsAs x c1) eqn:T1; [eauto|].
  destruct (readsAs x c2) eqn:T2; [eauto|].
  destruct j as [|j].
  - rewrite Z.add_0_r, C in T. simpl in T. congruence.
  - apply (IH (k + 1) j); [lia|].
    replace (k + 1 + Z.of_nat j) with (k + Z.of_nat (S j)) by lia.
    exact T.
Qed.

Lemma roundHalfEven_exact (q d : Z) : 0 < d -> roundHalfEven (q * d) d = q.
Proof.
  intros Hd. unfold roundHalfEven.
  rewrite Z.mod_mul, Z.div_mul by lia.
  simpl. destruct d; lia.
Qed.

Lemma neighbours_exact (q d : Z) :
  0 < d -> neighbours (q * d) d = (q, q + 1).
Proof.
  intros Hd. unfold neighbours.
  rewrite roundHalfEven_exact, Z.div_mul by lia. now rewrite Z.eqb_refl.
Qed.

Lemma stripZeros_value (fuel : nat) (s e : Z) (m : positive) (e2 : Z) :
  0 < s -> decimalIs s e m e2 ->
  0 < fst (stripZeros fuel s e)
  /\ decimalIs (fst (stripZeros fuel s e)) (snd (stripZeros fuel s e)) m e2.
Proof.
  revert s e. induction fuel as [|f IH]; intros s e Hs Hv; simpl; [auto|].
  destruct (Z.ltb_spec 0 s) as [_|]; [|lia]. simpl.
  destruct (Z.eqb_spec (s mod 10) 0) as [Hmod|_]; [|auto].
  assert (Hdiv : s = 10 * (s / 10)).
  { pose proof (Z.div_mod s 10 ltac:(lia)). lia. }
  apply IH; [lia|].
  unfold decimalIs in *. set (t := s / 10) in *. rewrite Hdiv in Hv.
  destruct (Z.le_gt_cases 0 e) as [He|He].
  - rewrite (Z.max_r 0 (e + 1)), (Z.max_l 0 (- (e + 1))) by lia.
    rewrite (Z.max_r 0 e), (Z.max_l 0 (- e)) in Hv by lia.
    rewrite Z.pow_add_r by lia. rewrite <- Hv. ring.
  - rewrite (Z.max_l 0 (e + 1)), (Z.max_r 0 (- (e + 1))) by lia.
    rewrite (Z.max_l 0 e), (Z.max_r 0 (- e)) in Hv by lia.
    replace (- e) with (1 + - (e + 1)) in Hv by ring.
    rewrite Z.pow_add_r in Hv by lia.
    rewrite Z.pow_0_r in *. change (10 ^ 1) with 10 in Hv.
    generalize dependent (10 ^ (- (e + 1))).
    generalize (2 ^ Z.max 0 (- e2)) (2 ^ Z.max 0 e2). intros. nia.
Qed.

Lemma pow10_split (n : Z) : 0 <= n -> 10 ^ n = 2 ^ n * 5 ^ n.
Proof.
  intros Hn. change 10 with (2 * 5). now rewrite Z.pow_mul_l.
Qed.

(** With enough digits the nearest decimal is the value itself. *)
Lemma candidates_exact (m : positive) (e2 n0 k : Z) :
  n0 + Z.max 0 (- e2) <= k ->
  let '(num, den) := ratioOf m e2 in
  let c := fst (candidates num den n0 k) in
  0 < fst c /\ decimalIs (fst c) (snd c) m e2.
Proof.
  intros Hk. unfold ratioOf, candidates.
  assert (Hp2 : forall n, 0 <= n -> 0 < 2 ^ n)
    by (intros; apply Z.pow_pos_nonneg; lia).
  assert (Hp5 : forall n, 0 <= n -> 0 < 5 ^ n)
    by (intros; apply Z.pow_pos_nonneg; lia).
  assert (Hp10 : forall n, 0 <= n -> 0 < 10 ^ n)
    by (intros; apply Z.pow_pos_nonneg; lia).
  destruct (Z.leb_spec 0 e2) as [He|He].
  - (* an integer *)
    destruct (Z.leb_spec 0 (n0 - k)) as [Hn|Hn].
    + assert (En : n0 - k = 0) by lia. rewrite En.
      assert (Es : neighbours (Zpos m * 2 ^ e2) (1 * 10 ^ 0)
                   = (Zpos m * 2 ^ e2, Zpos m * 2 ^ e2 + 1)).
      { rewrite <- (Z.mul_1_r (Zpos m * 2 ^ e2)) at 1.
        apply neighbours_exact. simpl. lia. }
      rewrite Es. cbn [fst].
      apply stripZeros_value; [specialize (Hp2 e2); nia|].
      unfold decimalIs.
      rewrite (Z.max_l 0 0), (Z.max_l 0 (- e2)), (Z.max_r 0 e2),
        (Z.max_l 0 (- 0)) by lia.
      simpl. ring.
    + assert (Es : neighbours (Zpos m * 2 ^ e2 * 10 ^ (- (n0 - k))) 1
                   = (Zpos m * 2 ^ e2 * 10 ^ (- (n0 - k)),
                      Zpos m * 2 ^ e2 * 10 ^ (- (n0 - k)) + 1)).
      { rewrite <- (Z.mul_1_r (Zpos m * 2 ^ e2 * 10 ^ (- (n0 - k)))) at 1.
        apply neighbours_exact. lia. }
      rewrite Es. cbn [fst].
      apply stripZeros_value.
      * specialize (Hp2 e2). specialize (Hp10 (- (n0 - k))). nia.
      * unfold decimalIs.
        rewrite (Z.max_l 0 (n0 - k)), (Z.max_l 0 (- e2)), (Z.max_r 0 e2),
          (Z.max_r 0 (- (n0 - k))) by lia.
        rewrite !Z.pow_0_r. ring.
  - (* a fraction *)
    destruct (Z.leb_spec 0 (n0 - k)) as [Hn|Hn]; [lia|].
    assert (E10 : 10 ^ (- (n0 - k))
                  = 5 ^ (- e2) * 10 ^ (e2 - (n0 - k)) * 2 ^ (- e2)).
    { replace (- (n0 - k)) with (- e2 + (e2 - (n0 - k))) by ring.
      rewrite Z.pow_add_r by lia. rewrite (pow10_split (- e2)) by lia. ring. }
    assert (Es : neighbours (Zpos m * 10 ^ (- (n0 - k))) (2 ^ (- e2))
                 = (Zpos m * 5 ^ (- e2) * 10 ^ (e2 - (n0 - k)),
                    Zpos m * 5 ^ (- e2) * 10 ^ (e2 - (n0 - k)) + 1)).
    { replace (Zpos m * 10 ^ (- (n0 - k)))
        with (Zpos m * 5 ^ (- e2) * 10 ^ (e2 - (n0 - k)) * 2 ^ (- e2))
        by (rewrite E10; ring).
      apply neighbours_exact. apply Hp2. lia. }
    rewrite Es. cbn [fst].
    apply stripZeros_value.
    + specialize (Hp5 (- e2)). specialize (Hp10 (e2 - (n0 - k))). nia.
    + unfold decimalIs.
      rewrite (Z.max_l 0 (n0 - k)), (Z.max_r 0 (- e2)), (Z.max_l 0 e2),
        (Z.max_r 0 (- (n0 - k))) by lia.
      rewrite !Z.pow_0_r, E10. ring.
Qed.

(** The search of [Number::toString] succeeds on every double, and its
    result converts back to the double. *)
Lemma shortestDecimal_reads_back (m : positive) (e2 : Z) :
  bounded prec emax m e2 = true ->
  0 < fst (shortestDecimal m e2)
  /\ round_decimal false (fst (shortestDecimal m e2))
       (snd (shortestDecimal m e2))
     = S754_finite false m e2.
Proof.
  intros Hb. unfold shortestDecimal.
  pose proof (candidates_exact m e2) as Hc.
  destruct (ratioOf m e2) as [num den].
  set (n0 := decimalExponent num den) in *.
  set (K := Z.max 1 (n0 + Z.max 0 (- e2))).
  destruct (shortestFrom (S754_finite false m e2) num den n0 (Z.to_nat K) 1)
    as [[s e]|] eqn:S.
  - simpl. eapply shortestFrom_sound, S.
  - exfalso.
    destruct (shortestFrom_complete (S754_finite false m e2) num den n0
                (Z.to_nat K) 1 (Z.to_nat (K - 1))) as [r Hr];
      [lia| |congruence].
    replace (1 + Z.of_nat (Z.to_nat (K - 1))) with K by lia.
    specialize (Hc n0 K ltac:(lia)). cbv zeta in Hc.
    destruct (fst (candidates num den n0 K)) as [s e]. simpl in Hc.
    destruct Hc as [Hs Hv].
    apply readsAs_true. split; [exact Hs|].
    now apply round_decimal_exact.
Qed.

(* ===================================================================== *)
(** * Decimal digits *)
(* ===================================================================== *)

Lemma digitsValue_app (a b : list N) :
  digitsValue (a ++ b) = fold_left digitStep b (digitsValue a).
Proof. unfold digitsValue. now rewrite fold_left_app. Qed.

Lemma digitsValue_snoc (a : list N) (c : N) :
  digitsValue (a ++ [c]) = digitsValue a * 10 + digitVal c.
Proof. now rewrite digitsValue_app. Qed.

Lemma fold_zeros (n : nat) (acc : Z) :
  fold_left digitStep (repeat 48%N n) acc = acc * 10 ^ Z.of_nat n.
Proof.
  revert acc. induction n as [|n IH]; intros acc.
  - simpl. lia.
  - cbn [repeat fold_left]. rewrite IH. unfold digitStep, digitVal.
    rewrite Nat2Z.inj_succ, Z.pow_succ_r by lia. simpl. ring.
Qed.

Lemma digitsValue_zeros_r (a : list N) (n : nat) :
  digitsValue (a ++ repeat 48%N n) = digitsValue a * 10 ^ Z.of_nat n.
Proof. now rewrite digitsValue_app, fold_zeros. Qed.

Lemma digitsValue_zeros_l (a : list N) (n : nat) :
  digitsValue (48%N :: repeat 48%N n ++ a) = digitsValue a.
Proof.
  change (48%N :: repeat 48%N n ++ a) with (repeat 48%N (S n) ++ a).
  rewrite digitsValue_app.
  change (digitsValue (repeat 48%N (S n)))
    with (fold_left digitStep (repeat 48%N (S n)) 0).
  now rewrite fold_zeros.
Qed.

Lemma isDigit_digitChar (z : Z) :
  0 <= z < 10 -> isDigit (digitChar z) = true /\ digitVal (digitChar z) = z.
Proof.
  intros Hz. unfold isDigit, digitChar, digitVal.
  split.
  - apply andb_true_intro. split; apply N.leb_le; lia.
  - lia.
Qed.

Lemma digitsAux_spells (f : nat) (z : Z) (acc : list N) :
  0 <= z < 10 ^ Z.of_nat (S f) ->
  exists l, digitsAux (S f) z acc = l ++ acc /\ spells l z.
Proof.
  revert z acc. induction f as [|f IH]; intros z acc Hz.
  - change (10 ^ Z.of_nat 1) with 10 in Hz.
    exists [digitChar z]. simpl.
    destruct (Z.ltb_spec z 10) as [_|]; [|lia].
    destruct (isDigit_digitChar z Hz) as [Hd Hv].
    split; [reflexivity|]. repeat split.
    + unfold digitsValue. simpl. lia.
    + now constructor.
    + discriminate.
    + intros Hp. simpl. unfold digitChar. lia.
  - change (digitsAux (S (S f)) z acc)
      with (if z <? 10 then digitChar z :: acc
            else digitsAux (S f) (z / 10) (digitChar (z mod 10) :: acc)).
    destruct (Z.ltb_spec z 10) as [Hlt|Hge].
    + exists [digitChar z].
      destruct (isDigit_digitChar z ltac:(lia)) as [Hd Hv].
      split; [reflexivity|]. repeat split.
      * unfold digitsValue. simpl. lia.
      * now constructor.
      * discriminate.
      * intros Hp. simpl. unfold digitChar. lia.
    + assert (Hq : 0 <= z / 10 < 10 ^ Z.of_nat (S f)).
      { rewrite (Nat2Z.inj_succ (S f)), Z.pow_succ_r in Hz by lia.
        split; [apply Z.div_pos; lia|].
        apply Z.div_lt_upper_bound; lia. }
      destruct (IH (z / 10) (digitChar (z mod 10) :: acc) Hq)
        as (l & El & Hv & Hall & Hne & Hhd).
      exists (l ++ [digitChar (z mod 10)]).
      destruct (isDigit_digitChar (z mod 10)) as [Hd Hm];
        [apply Z.mod_pos_bound; lia|].
      split; [now rewrite El, <- app_assoc|]. repeat split.
      * rewrite digitsValue_snoc, Hv, Hm.
        pose proof (Z.div_mod z 10 ltac:(lia)). lia.
      * apply Forall_app. split; [exact Hall|now constructor].
      * destruct l; discriminate.
      * intros _. destruct l as [|c l]; [congruence|]. simpl.
        apply Hhd. apply Z.div_str_pos. lia.
Qed.

Lemma decimalDigits_spells (z : Z) : 0 <= z -> spells (decimalDigits z) z.
Proof.
  intros Hz. unfold decimalDigits.
  destruct (digitsAux_spells (Z.to_nat (Z.log2 z)) z []) as (l & El & Hl).
  - split; [exact Hz|].
    destruct (Z.eq_dec z 0) as [->|Hnz].
    + simpl. lia.
    + rewrite Nat2Z.inj_succ, Z2Nat.id by apply Z.log2_nonneg.
      pose proof (Z.log2_spec z ltac:(lia)) as [_ Hu].
      eapply Z.lt_le_trans; [exact Hu|].
      apply Z.pow_le_mono_l. pose proof (Z.log2_nonneg z). lia.
  - now rewrite El, app_nil_r.
Qed.

Lemma span_digits (a : list N) (c : N) (r : list N) :
  Forall (fun c => isDigit c = true) a -> isDigit c = false ->
  span isDigit (a ++ c :: r) = (a, c :: r).
Proof.
  intros Ha Hc. induction Ha as [|x a Hx Ha IH]; simpl.
  - now rewrite Hc.
  - now rewrite Hx, IH.
Qed.

Lemma Forall_digits_repeat (n : nat) :
  Forall (fun c => isDigit c = true) (repeat 48%N n).
Proof. induction n; simpl; constructor; auto. Qed.

(** Routine facts about runs of digits. *)
Create HintDb digits.
#[export] Hint Resolve Forall_digits_repeat Forall_app : digits.
#[export] Hint Extern 1 (isDigit _ = false) => reflexivity : digits.

(* ===================================================================== *)
(** * [JSON.parse] reads the text of [Number::toString] *)
(* ===================================================================== *)

Lemma round_decimal_shift (neg : bool) (d j : Z) :
  0 < d -> 0 <= j ->
  round_decimal neg (d * 10 ^ j) 0 = round_decimal neg d j.
Proof.
  intros Hd Hj. unfold round_decimal.
  assert (Hp : 0 < d * 10 ^ j)
    by (apply Z.mul_pos_pos; [lia|]; apply Z.pow_pos_nonneg; lia).
  destruct (Z.eqb_spec (d * 10 ^ j) 0); [lia|].
  destruct (Z.eqb_spec d 0); [lia|].
  destruct (Z.leb_spec 0 j); [|lia].
  simpl (0 <=? 0). cbv iota. now rewrite Z.pow_0_r, Z.mul_1_r.
Qed.

Lemma parseUnsigned_eval (neg : bool) (text ip r1 fp r2 r3 : list N) (e : Z) :
  span isDigit text = (ip, r1) ->
  ip <> [] -> leadingZero ip = false ->
  scanFraction r1 = Some (fp, r2) ->
  scanExponent r2 = Some (e, r3) ->
  parseUnsigned neg text
  = Some (round_decimal neg (digitsValue (ip ++ fp))
            (e - Z.of_nat (length fp)), r3).
Proof.
  intros Hs Hne Hz Hf He. unfold parseUnsigned. rewrite Hs, Hz, Hf, He.
  destruct ip; [congruence|reflexivity].
Qed.

Lemma leadingZero_spells (l : list N) (z : Z) (t : list N) :
  spells l z -> 0 < z -> leadingZero (l ++ t) = false.
Proof.
  intros (_ & _ & Hne & Hhd) Hz. destruct l as [|c l]; [congruence|].
  specialize (Hhd Hz). simpl in Hhd. simpl.
  destruct (l ++ t); [reflexivity|]. now apply N.eqb_neq.
Qed.

Lemma scanFraction_digits (a : list N) (c : N) (r : list N) :
  Forall (fun c => isDigit c = true) a -> a <> [] -> isDigit c = false ->
  scanFraction (46%N :: a ++ c :: r) = Some (a, c :: r).
Proof.
  intros Ha Hne Hc. unfold scanFraction. rewrite span_digits by assumption.
  destruct a; [congruence|reflexivity].
Qed.

Lemma scanExponent_text (e : Z) (r : list N) :
  scanExponent
    (101%N :: (if 0 <=? e then 43%N else 45%N)
           :: decimalDigits (Z.abs e) ++ 44%N :: r)
  = Some (e, 44%N :: r).
Proof.
  destruct (decimalDigits_spells (Z.abs e) (Z.abs_nonneg e))
    as (Hv & Hall & Hne & _).
  unfold scanExponent. simpl (101 =? 101)%N. simpl (_ || _)%bool. cbv iota.
  destruct (Z.leb_spec 0 e) as [He|He]; cbv iota beta;
    rewrite span_digits by (auto; reflexivity);
    destruct (decimalDigits (Z.abs e)) eqn:Ed; try congruence;
    rewrite Hv; do 2 f_equal; lia.
Qed.

(** The four layouts of [Number::toString], read by the number parser. *)
Lemma parseUnsigned_format (neg : bool) (d e : Z) (r : list N) :
  0 < d ->
  parseUnsigned neg
    (formatDecimal (decimalDigits d)
       (e + Z.of_nat (length (decimalDigits d))) ++ 44%N :: r)
  = Some (round_decimal neg d e, 44%N :: r).
Proof.
  intros Hd.
  pose proof (decimalDigits_spells d ltac:(lia)) as Hsp.
  destruct Hsp as (Hv & Hall & Hne & Hhd).
  assert (Hsp : spells (decimalDigits d) d) by (repeat split; assumption).
  set (ds := decimalDigits d) in *.
  set (k := Z.of_nat (length ds)).
  set (n := e + k).
  assert (Hk : 0 < k) by (subst k; destruct ds; [congruence|simpl; lia]).
  assert (Hcomma : isDigit 44%N = false) by reflexivity.
  unfold formatDecimal. fold k.
  destruct ((k <=? n) && (n <=? 21)) eqn:C1.
  - (* digits and zeros *)
    apply andb_prop in C1. destruct C1 as [C1 _]. apply Z.leb_le in C1.
    rewrite <- app_assoc.
    rewrite (parseUnsigned_eval neg _
               (ds ++ repeat 48%N (Z.to_nat (n - k))) (44%N :: r)
               [] (44%N :: r) (44%N :: r) 0).
    + rewrite app_nil_r, digitsValue_zeros_r, Hv, Z2Nat.id by lia.
      simpl length. rewrite round_decimal_shift by lia.
      do 3 f_equal. unfold n. ring.
    + rewrite app_assoc. apply span_digits; [|exact Hcomma].
      apply Forall_app. auto with digits.
    + destruct ds; [congruence|discriminate].
    + eapply leadingZero_spells; eassumption.
    + reflexivity.
    + reflexivity.
  - destruct ((0 <? n) && (n <=? 21)) eqn:C2.
    + (* a point inside the digits *)
      apply andb_prop in C2. destruct C2 as [C2 C2']. apply Z.ltb_lt in C2.
      assert (Hnk : n < k).
      { apply Z.leb_le in C2'. apply andb_false_iff in C1.
        destruct C1 as [C1|C1]; [apply Z.leb_gt in C1; lia|].
        apply Z.leb_gt in C1. lia. }
      assert (Hlen : length (skipn (Z.to_nat n) ds) = Z.to_nat (k - n)).
      { rewrite length_skipn. subst k. lia. }
      rewrite <- app_assoc. rewrite <- app_comm_cons.
      rewrite (parseUnsigned_eval neg _
                 (firstn (Z.to_nat n) ds)
                 (46%N :: skipn (Z.to_nat n) ds ++ 44%N :: r)
                 (skipn (Z.to_nat n) ds) (44%N :: r) (44%N :: r) 0).
      * rewrite firstn_skipn, Hv, Hlen. do 3 f_equal. unfold n in *. lia.
      * apply span_digits; [|reflexivity].
        rewrite <- (firstn_skipn (Z.to_nat n) ds) in Hall.
        now apply Forall_app in Hall.
      * destruct ds as [|c ds']; [congruence|].
        destruct (Z.to_nat n) eqn:En; [lia|discriminate].
      * rewrite <- (firstn_skipn (Z.to_nat n) ds) in Hsp.
        destruct ds as [|c ds']; [congruence|].
        destruct (Z.to_nat n) as [|n'] eqn:En; [lia|].
        simpl. specialize (Hhd Hd). simpl in Hhd.
        destruct (firstn n' ds'); [reflexivity|now apply N.eqb_neq].
      * apply scanFraction_digits; [| |exact Hcomma].
        -- rewrite <- (firstn_skipn (Z.to_nat n) ds) in Hall.
           now apply Forall_app in Hall.
        -- intros E. rewrite E in Hlen. simpl in Hlen. lia.
      * reflexivity.
    + destruct ((-6 <? n) && (n <=? 0)) eqn:C3.
      * (* zeros after the point *)
        apply andb_prop in C3. destruct C3 as [_ C3]. apply Z.leb_le in C3.
        rewrite <- !app_comm_cons. rewrite <- app_assoc.
        rewrite (parseUnsigned_eval neg _
                   [48%N]
                   (46%N :: (repeat 48%N (Z.to_nat (- n)) ++ ds) ++ 44%N :: r)
                   (repeat 48%N (Z.to_nat (- n)) ++ ds)
                   (44%N :: r) (44%N :: r) 0).
        -- change ([48%N] ++ repeat 48%N (Z.to_nat (- n)) ++ ds)
             with (48%N :: repeat 48%N (Z.to_nat (- n)) ++ ds).
           rewrite digitsValue_zeros_l, Hv.
           rewrite length_app, repeat_length. do 3 f_equal.
           unfold n, k in *. lia.
        -- rewrite <- app_assoc. reflexivity.
        -- discriminate.
        -- reflexivity.
        -- apply scanFraction_digits; [| |exact Hcomma].
           ++ apply Forall_app. auto with digits.
           ++ destruct (repeat 48%N (Z.to_nat (- n))); destruct ds;
                try congruence; discriminate.
        -- reflexivity.
      * (* exponent notation *)
        set (sg := if 0 <=? n - 1 then 43%N else 45%N).
        set (ed := decimalDigits (Z.abs (n - 1))).
        assert (Hexpo : scanExponent (101%N :: sg :: ed ++ 44%N :: r)
                        = Some (n - 1, 44%N :: r))
          by apply scanExponent_text.
        destruct ds as [|c [|c' ds']] eqn:Eds; [congruence| |].
        -- pose proof (Forall_inv Hall) as Hc. cbv beta in Hc.
           change ((c :: 101%N :: sg :: ed) ++ 44%N :: r)
             with ([c] ++ 101%N :: sg :: ed ++ 44%N :: r).
           rewrite (parseUnsigned_eval neg _ [c]
                      (101%N :: sg :: ed ++ 44%N :: r) []
                      (101%N :: sg :: ed ++ 44%N :: r) (44%N :: r) (n - 1)).
           ++ rewrite app_nil_r, Hv. do 3 f_equal. simpl length.
              unfold n, k. simpl. lia.
           ++ apply span_digits; [now constructor|reflexivity].
           ++ discriminate.
           ++ reflexivity.
           ++ reflexivity.
           ++ exact Hexpo.
        -- pose proof (Forall_inv Hall) as Hc. cbv beta in Hc.
           pose proof (Forall_inv_tail Hall) as Hall'.
           cbn [app]. rewrite <- app_assoc. cbn [app].
           change (c :: 46%N :: c' :: ds' ++ 101%N :: sg :: ed ++ 44%N :: r)
             with ([c] ++ 46%N :: (c' :: ds')
                     ++ 101%N :: sg :: ed ++ 44%N :: r).
           rewrite (parseUnsigned_eval neg _ [c]
                      (46%N :: (c' :: ds') ++ 101%N :: sg :: ed ++ 44%N :: r)
                      (c' :: ds') (101%N :: sg :: ed ++ 44%N :: r)
                      (44%N :: r) (n - 1)).
           ++ change ([c] ++ c' :: ds') with (c :: c' :: ds'). rewrite Hv.
              do 3 f_equal. unfold n, k. simpl length. lia.
           ++ apply span_digits; [now constructor|reflexivity].
           ++ discriminate.
           ++ reflexivity.
           ++ apply scanFraction_digits; [exact Hall'|discriminate|reflexivity].
           ++ exact Hexpo.
Qed.

Lemma binary_round_aux_negate (mx ex : Z) (l : location) (m : positive)
  (e : Z) :
  binary_round_aux prec emax false mx ex l = S754_finite false m e ->
  binary_round_aux prec emax true mx ex l = S754_finite true m e.
Proof.
  unfold binary_round_aux.
  destruct (shr_fexp prec emax mx ex l) as [mrs' e'].
  destruct (shr_fexp prec emax _ e' loc_Exact) as [mrs'' e''].
  destruct (shr_m mrs'') as [|p|p]; try discriminate.
  destruct (e'' <=? emax - prec); try discriminate.
  now intros [= -> ->].
Qed.

Lemma round_decimal_negate (d e2 : Z) (m : positive) (e : Z) :
  0 < d ->
  round_decimal false d e2 = S754_finite false m e ->
  round_decimal true d e2 = S754_finite true m e.
Proof.
  intros Hd. unfold round_decimal.
  destruct (d =? 0); [discriminate|].
  destruct (Z.leb_spec 0 e2) as [He|He].
  - assert (Hp : 0 < d * 10 ^ e2)
      by (apply Z.mul_pos_pos; [lia|]; apply Z.pow_pos_nonneg; lia).
    destruct (d * 10 ^ e2) as [|v|v]; try lia. simpl.
    unfold binary_round. destruct (shl_align v 0 _) as [mz ez].
    apply binary_round_aux_negate.
  - destruct (SFdiv_core_binary prec emax d 0 (10 ^ (- e2)) 0) as [[q e'] l].
    apply binary_round_aux_negate.
Qed.

Lemma parseUnsigned_head (neg : bool) (t : list N)
  (v : spec_float * list N) :
  parseUnsigned neg t = Some v ->
  exists c r, t = c :: r /\ isDigit c = true.
Proof.
  unfold parseUnsigned. destruct t as [|c r]; [discriminate|].
  simpl. destruct (isDigit c) eqn:Hc; [eauto|discriminate].
Qed.

Lemma isDigit_range (c : N) : isDigit c = true -> (48 <= c <= 57)%N.
Proof.
  unfold isDigit. intros H. apply andb_prop in H. destruct H as [H1 H2].
  apply N.leb_le in H1. apply N.leb_le in H2. lia.
Qed.

Lemma parseNumber_unsigned (t : list N) (v : spec_float * list N) :
  parseUnsigned false t = Some v -> parseNumber t = Some v.
Proof.
  intros H. destruct (parseUnsigned_head false t v H) as (c & r & -> & Hc).
  unfold parseNumber. apply isDigit_range in Hc.
  destruct (N.eqb_spec c 45); [lia|exact H].
Qed.

Lemma parseNumber_head (t : list N) (v : spec_float * list N) :
  parseNumber t = Some v ->
  exists c r, t = c :: r /\ (c = 45%N \/ isDigit c = true).
Proof.
  unfold parseNumber. destruct t as [|c r]; [discriminate|].
  destruct (N.eqb_spec c 45) as [->|Hc]; [eauto|].
  intros H. destruct (parseUnsigned_head false (c :: r) v H)
    as (c' & r' & [= <- <-] & Hd). eauto.
Qed.

(** A value that starts like a number is parsed as a number. *)
Lemma parseValue_number (f : nat) (t r : list N) (x : spec_float) :
  parseNumber t = Some (x, r) ->
  parseValue (S f) t = Some (VNum x, r).
Proof.
  intros H. destruct (parseNumber_head t _ H) as (c & t' & -> & Hc).
  assert (Hr : (c = 45 \/ 48 <= c <= 57)%N)
    by (destruct Hc as [->|Hc]; [now left|right; now apply isDigit_range]).
  clear Hc. cbn [parseValue skipWs].
  repeat first
    [ match goal with
      | |- context [(c =? ?k)%N] => destruct (N.eqb_spec c k); [lia|]
      end
    | progress cbn [orb] ].
  now rewrite H.
Qed.

(** [JSON.parse] reads a number written by [JSON.stringify] back as the
    same number. *)
Lemma parseNumber_stringify (x : spec_float) (r : list N) :
  jsonSafeNumber x = true ->
  parseNumber (stringifyNumber x ++ 44%N :: r) = Some (x, 44%N :: r).
Proof.
  destruct x as [[|]| | |s m e]; try discriminate; intros Hx.
  - reflexivity.
  - simpl in Hx. unfold stringifyNumber, NumberToString.
    cbn [isFiniteNumber].
    destruct (shortestDecimal_reads_back m e Hx) as [Hd Hrb].
    destruct (shortestDecimal m e) as [d e10]. simpl in Hd, Hrb.
    rewrite <- app_assoc. destruct s.
    + cbn [app]. unfold parseNumber. simpl (45 =? 45)%N. cbv iota.
      rewrite parseUnsigned_format by exact Hd.
      now rewrite (round_decimal_negate d e10 m e Hd Hrb).
    + cbn [app]. apply parseNumber_unsigned.
      rewrite parseUnsigned_format by exact Hd. now rewrite Hrb.
Qed.

Local Close Scope Z_scope.

(* ===================================================================== *)
(** * [JSON.parse] reads a quoted string back *)
(* ===================================================================== *)

Lemma hexVal_hexDigit (d : N) : (d < 16)%N -> hexVal (hexDigit d) = Some d.
Proof.
  intros Hd. destruct d as [|p]; [reflexivity|].
  do 5 (try destruct p as [p|p|]); try reflexivity; lia.
Qed.

Lemma hex4_unicodeEscape (c : N) :
  (c < 65536)%N ->
  hex4 (hexDigit (c / 4096 mod 16)) (hexDigit (c / 256 mod 16))
       (hexDigit (c / 16 mod 16)) (hexDigit (c mod 16))
  = Some c.
Proof.
  intros Hc. unfold hex4.
  rewrite !hexVal_hexDigit by (apply N.mod_lt; discriminate).
  f_equal. zify. Z.to_euclidean_division_equations. lia.
Qed.

Lemma surrogate_range (c : N) :
  isLeadSurrogate c || isTrailSurrogate c = true ->
  (55296 <= c <= 57343)%N.
Proof.
  unfold isLeadSurrogate, isTrailSurrogate. intros H.
  apply orb_prop in H.
  destruct H as [H|H]; apply andb_prop in H; destruct H as [H1 H2];
    apply N.leb_le in H1; apply N.leb_le in H2; lia.
Qed.

(** A code unit that goes through unescaped. *)
Lemma parseStringBody_plain (c : N) (tail : list N) :
  (32 <= c)%N -> c <> 34%N -> c <> 92%N ->
  parseStringBody (c :: tail) = consResult c (parseStringBody tail).
Proof.
  intros H32 H34 H92. cbn [parseStringBody].
  destruct (N.eqb_spec c 34); [congruence|].
  destruct (N.eqb_spec c 92); [congruence|].
  destruct (N.ltb_spec c 32); [lia|reflexivity].
Qed.

Lemma parseStringBody_unit (c : N) (tail s rest : list N) :
  parseStringBody tail = Some (s, rest) ->
  parseStringBody (quoteUnit c ++ tail) = Some (c :: s, rest).
Proof.
  intros Ht. unfold quoteUnit.
  repeat match goal with
         | |- context [(c =? ?k)%N] =>
             destruct (N.eqb_spec c k);
             [subst c; cbn; rewrite Ht; reflexivity|]
         end.
  destruct ((c <? 32)%N || isLeadSurrogate c || isTrailSurrogate c) eqn:E.
  - assert (Hc : (c < 65536)%N).
    { rewrite <- orb_assoc in E. apply orb_prop in E. destruct E as [E|E].
      - apply N.ltb_lt in E. lia.
      - apply surrogate_range in E. lia. }
    unfold unicodeEscape. cbn [app parseStringBody].
    simpl (92 =? 34)%N. simpl (92 =? 92)%N. simpl (117 =? 117)%N. cbv iota.
    rewrite (hex4_unicodeEscape c Hc), Ht. reflexivity.
  - apply orb_false_iff in E. destruct E as [E _].
    apply orb_false_iff in E. destruct E as [E _]. apply N.ltb_ge in E.
    cbn [app]. rewrite parseStringBody_plain by assumption.
    now rewrite Ht.
Qed.

Lemma quoteBody_cons2 (c t : N) (r : list N) :
  quoteBody (c :: t :: r)
  = if isLeadSurrogate c && isTrailSurrogate t
    then c :: t :: quoteBody r
    else quoteUnit c ++ quoteBody (t :: r).
Proof. reflexivity. Qed.

Lemma parseStringBody_quote_bounded (n : nat) (s rest : list N) :
  (length s <= n)%nat ->
  parseStringBody (quoteBody s ++ 34%N :: rest) = Some (s, rest).
Proof.
  revert s. induction n as [|n IH]; intros s Hn.
  - destruct s; [reflexivity|simpl in Hn; lia].
  - destruct s as [|c [|t r]]; [reflexivity| |].
    + cbn [quoteBody]. now apply parseStringBody_unit.
    + rewrite quoteBody_cons2.
      destruct (isLeadSurrogate c && isTrailSurrogate t) eqn:P.
      * apply andb_prop in P. destruct P as [Pc Pt].
        assert (Hc : (55296 <= c <= 57343)%N)
          by (apply surrogate_range; now rewrite Pc).
        assert (Ht : (55296 <= t <= 57343)%N)
          by (apply surrogate_range; rewrite Pt; apply orb_true_r).
        cbn [app].
        rewrite !parseStringBody_plain by lia.
        rewrite IH by (simpl in Hn; lia). reflexivity.
      * rewrite <- app_assoc.
        apply parseStringBody_unit. apply IH. simpl in Hn |- *. lia.
Qed.

Lemma parseStringBody_quote (s rest : list N) :
  parseStringBody (quoteBody s ++ 34%N :: rest) = Some (s, rest).
Proof. now apply (parseStringBody_quote_bounded (length s)). Qed.

(** A quoted string is not white space, and is parsed as a string. *)
Lemma parseValue_string (f : nat) (s rest : list N) :
  parseValue (S f) (quoteJSONString s ++ rest) = Some (VStr s, rest).
Proof.
  unfold quoteJSONString. cbn [app parseValue skipWs].
  simpl (34 =? _)%N. cbn [orb]. cbv iota.
  rewrite <- app_assoc. cbn [app]. now rewrite parseStringBody_quote.
Qed.

(* ===================================================================== *)
(** * [JSON.parse] reads a stringified configuration back *)
(* ===================================================================== *)

Lemma join_cons2 (sep a b : list N) (l : list (list N)) :
  join sep (a :: b :: l) = a ++ sep ++ join sep (b :: l).
Proof. reflexivity. Qed.

Lemma parseElements_S (f : nat) (acc : list value) (s : list N) :
  parseElements (S f) acc s
  = match parseValue f s with
    | Some (v, r) =>
        match skipWs r with
        | 44%N :: r' => parseElements f (acc ++ [v]) r'
        | 93%N :: r' => Some (VArr (acc ++ [v]), r')
        | _ => None
        end
    | None => None
    end.
Proof. reflexivity. Qed.

(** The elements of an array of strings, after the opening bracket. *)
Lemma parseElements_strings (l : list (list N)) :
  forall (a : list N) (f : nat) (acc : list value) (rest : list N),
    (length l + 2 <= f)%nat ->
    parseElements f acc
      (join [44%N] (map quoteJSONString (a :: l)) ++ 93%N :: rest)
    = Some (VArr (acc ++ map VStr (a :: l)), rest).
Proof.
  induction l as [|b l IH]; intros a f acc rest Hf.
  - destruct f as [|[|f]]; try (simpl in Hf; lia).
    rewrite parseElements_S. cbn [map join].
    rewrite parseValue_string. reflexivity.
  - destruct f as [|[|f]]; try (simpl in Hf; lia).
    rewrite parseElements_S.
    cbn [map]. rewrite join_cons2, <- !app_assoc.
    rewrite parseValue_string.
    cbn [app skipWs]. simpl (44 =? _)%N. cbn [orb]. cbv iota.
    change (quoteJSONString b :: map quoteJSONString l)
      with (map quoteJSONString (b :: l)).
    rewrite IH by (simpl in Hf |- *; lia).
    now rewrite <- app_assoc.
Qed.

Lemma parseValue_strings (l : list (list N)) (f : nat) (rest : list N) :
  (length l + 2 <= f)%nat ->
  parseValue (S f)
    (91%N :: join [44%N] (map quoteJSONString l) ++ 93%N :: rest)
  = Some (VArr (map VStr l), rest).
Proof.
  intros Hf. destruct l as [|a l].
  - reflexivity.
  - cbn [parseValue skipWs]. simpl (91 =? _)%N. cbn [orb]. cbv iota.
    assert (Hhead : exists t,
               join [44%N] (map quoteJSONString (a :: l)) ++ 93%N :: rest
               = 34%N :: t).
    { destruct l; cbn [map]; [|rewrite join_cons2];
        unfold quoteJSONString; cbn [join app]; eauto. }
    destruct Hhead as [t Ht].
    assert (Hskip : skipWs (join [44%N] (map quoteJSONString (a :: l))
                              ++ 93%N :: rest)
                    = 34%N :: t) by (rewrite Ht; reflexivity).
    rewrite Hskip.
    apply (parseElements_strings l a f [] rest). simpl in Hf. lia.
Qed.

(** Step the parser over the literal code units at the head of the
    text. *)
Ltac read_literal :=
  cbn [app parseMembers skipWs]; simpl (_ =? _)%N; cbn [orb]; cbv iota.

(** One member of an object, followed by a comma or by the closing
    brace. *)
Lemma parseMembers_more (f : nat) (acc : gmap (list N) value)
  (key t more : list N) (v : value) :
  parseValue f t = Some (v, 44%N :: more) ->
  parseMembers (S f) acc (quoteJSONString key ++ 58%N :: t)
  = parseMembers f (<[key := v]> acc) more.
Proof.
  intros Hv. unfold quoteJSONString. read_literal.
  rewrite <- app_assoc. cbn [app]. rewrite parseStringBody_quote.
  read_literal. rewrite Hv. reflexivity.
Qed.

Lemma parseMembers_last (f : nat) (acc : gmap (list N) value)
  (key t rest : list N) (v : value) :
  parseValue f t = Some (v, 125%N :: rest) ->
  parseMembers (S f) acc (quoteJSONString key ++ 58%N :: t)
  = Some (VObj (<[key := v]> acc), rest).
Proof.
  intros Hv. unfold quoteJSONString. read_literal.
  rewrite <- app_assoc. cbn [app]. rewrite parseStringBody_quote.
  read_literal. rewrite Hv. reflexivity.
Qed.

(** An opening brace followed by a key starts the members. *)
Lemma parseValue_object (f : nat) (key t : list N) :
  parseValue (S f) (123%N :: quoteJSONString key ++ t)
  = parseMembers f ∅ (quoteJSONString key ++ t).
Proof. reflexivity. Qed.

Lemma parseValue_bool (f : nat) (b : bool) (rest : list N) :
  parseValue (S f) ((if b then lit "true" else lit "false") ++ rest)
  = Some (VBool b, rest).
Proof. destruct b; reflexivity. Qed.

Lemma parseValue_config (config : FunnelConfig) (f : nat) (rest : list N) :
  stringSafe config = true ->
  (length (stages config) + 9 <= f)%nat ->
  parseValue f (JSON_stringify config ++ rest) = Some (toValue config, rest).
Proof.
  intros Hsafe Hf. apply andb_prop in Hsafe. destruct Hsafe as [Hs Hc].
  do 8 (destruct f as [|f]; [lia|]).
  assert (Hl : (length (stages config) + 2 <= S f)%nat) by lia.
  unfold JSON_stringify, toValue.
  change (lit "{") with [123%N]. change (lit ":") with [58%N].
  change (lit ",") with [44%N]. change (lit "[") with [91%N].
  change (lit "]") with [93%N]. change (lit "}") with [125%N].
  rewrite <- !app_assoc. cbn [app].
  rewrite parseValue_object.
  rewrite (parseMembers_more _ _ _ _ _ (VStr (business config))
             (parseValue_string _ _ _)).
  rewrite (parseMembers_more _ _ _ _ _ (VStr (industry config))
             (parseValue_string _ _ _)).
  rewrite (parseMembers_more _ _ _ _ _ (VNum (sessions config))
             (parseValue_number _ _ _ _
                (parseNumber_stringify _ _ Hs))).
  rewrite (parseMembers_more _ _ _ _ _ (VNum (cpa config))
             (parseValue_number _ _ _ _
                (parseNumber_stringify _ _ Hc))).
  rewrite (parseMembers_more _ _ _ _ _ (VArr (map VStr (stages config)))
             (parseValue_strings _ _ _ Hl)).
  rewrite (parseMembers_last _ _ _ _ rest (VBool (newsletter config))
             (parseValue_bool _ _ _)).
  reflexivity.
Qed.

Lemma length_quoteJSONString (a : list N) :
  (2 <= length (quoteJSONString a))%nat.
Proof.
  unfold quoteJSONString. cbn [length]. rewrite length_app. simpl. lia.
Qed.

Lemma length_join_quoted (l : list (list N)) :
  (length l <= length (join [44%N] (map quoteJSONString l)))%nat.
Proof.
  induction l as [|a l IH]; [simpl; lia|].
  destruct l as [|b l].
  - cbn [map join length]. pose proof (length_quoteJSONString a). lia.
  - cbn [map]. rewrite join_cons2. cbn [map] in IH.
    rewrite !length_app. pose proof (length_quoteJSONString a).
    cbn [length] in *. lia.
Qed.

(** [JSON.parse(JSON.stringify(config))] is the configuration, for every
    configuration with string-safe numbers. *)
Lemma JSON_parse_stringify (config : FunnelConfig) :
  stringSafe config = true ->
  JSON_parse (JSON_stringify config) = Normal (toValue config).
Proof.
  intros Hsafe. unfold JSON_parse.
  rewrite <- (app_nil_r (JSON_stringify config)) at 2.
  rewrite parseValue_config; [reflexivity|exact Hsafe|].
  unfold JSON_stringify. rewrite !length_app.
  pose proof (length_join_quoted (stages config)).
  change (lit ",") with [44%N] in *. simpl length. lia.
Qed.

(* ===================================================================== *)
(** * Persist, then load *)
(* ===================================================================== *)

Lemma allStrings_map (l : list (list N)) : allStrings (map VStr l) = Some l.
Proof. induction l as [|a l IH]; simpl; [reflexivity|now rewrite IH]. Qed.

(** The object of a configuration has the type [FunnelConfig], and is
    that configuration. *)
Lemma asFunnelConfig_toValue (config : FunnelConfig) :
  asFunnelConfig (toValue config) = Some config.
Proof.
  unfold asFunnelConfig, toValue.
  repeat (first [ rewrite lookup_insert_eq
                | rewrite lookup_insert_ne by (vm_compute; discriminate) ]).
  rewrite allStrings_map. now destruct config.
Qed.

Lemma persistConfig_stores (config : FunnelConfig) (w : World) :
  storeAccepts w (JSON_stringify config) ->
  persistConfig config w = (Normal tt, stored w (JSON_stringify config)).
Proof.
  intros [Ha Hq]. unfold persistConfig, tryCatch, setItem. cbv beta zeta.
  now rewrite Ha, Hq.
Qed.

(** C3: on a store that takes the write, [persistConfig(x)] followed by
    [loadConfig()] returns an object equal to [x], a [FunnelConfig],
    for every configuration whose two numbers are string-safe (finite
    doubles other than [-0]); strings, stage lists and the flag are
    unrestricted. *)
Theorem persist_load_roundtrip (config : FunnelConfig) (w : World) :
  stringSafe config = true ->
  storeAccepts w (JSON_stringify config) ->
  (persistConfig config ;;; loadConfig) w
  = (Normal (toValue config), stored w (JSON_stringify config))
  /\ asFunnelConfig (toValue config) = Some config.
Proof.
  intros Hsafe Hstore. split; [|apply asFunnelConfig_toValue].
  unfold bind. rewrite (persistConfig_stores config w Hstore).
  assert (Htext : exists t, JSON_stringify config = 123%N :: t)
    by (unfold JSON_stringify; cbn [lit app]; simpl; eauto).
  destruct Htext as [t Ht].
  rewrite (loadConfig_text (stored w (JSON_stringify config)) 123%N t).
  - rewrite <- Ht, (JSON_parse_stringify config Hsafe). reflexivity.
  - reflexivity.
  - simpl. rewrite lookup_insert_eq. now rewrite Ht.
Qed.

Lemma persist_load_roundtrip_witness :
  (persistConfig retentionConfig ;;; loadConfig) (sampleWorld acmeForm)
  = (Normal (toValue retentionConfig),
     stored (sampleWorld acmeForm) (JSON_stringify retentionConfig))
  /\ asFunnelConfig (toValue retentionConfig) = Some retentionConfig.
Proof.
  apply (persist_load_roundtrip retentionConfig (sampleWorld acmeForm)).
  - vm_compute. reflexivity.
  - split; vm_compute; reflexivity.
Defined.

(** Outside the string-safe configurations the law fails: NaN is written
    as [null], and what [loadConfig] returns is not a [FunnelConfig]. *)
Example persist_load_nan :
  let config := mkConfig (lit "Acme") [] NaN posZero [lit "retention"] false in
  let loaded :=
    VObj (<[lit "newsletter" := VBool false]>
         (<[lit "stages" := VArr [VStr (lit "retention")]]>
         (<[lit "cpa" := VNum posZero]>
         (<[lit "sessions" := VNull]>
         (<[lit "industry" := VStr []]>
         (<[lit "business" := VStr (lit "Acme")]> ∅)))))) in
  fst ((persistConfig config ;;; loadConfig) (sampleWorld acmeForm))
  = Normal loaded
  /\ asFunnelConfig loaded = None.
Proof. split; vm_compute; reflexivity. Qed.

(* ===================================================================== *)
(** * What [JSON.parse] reads from any stored configuration *)
(* ===================================================================== *)

(** A number written by [JSON.stringify] is read back by [JSON.parse] as
    itself, except that NaN and the infinities come back as [null] and
    [-0] as [0]. *)
Lemma parseValue_jsonNumber (x : spec_float) (f : nat) (r : list N) :
  isDouble x = true ->
  parseValue (S f) (stringifyNumber x ++ 44%N :: r)
  = Some (jsonNumber x, 44%N :: r).
Proof.
  intros Hx. destruct x as [s| s | |s m e].
  - change (stringifyNumber (S754_zero s))
      with (stringifyNumber (S754_zero false)).
    apply parseValue_number. now apply parseNumber_stringify.
  - reflexivity.
  - reflexivity.
  - apply parseValue_number. now apply parseNumber_stringify.
Qed.

Lemma parseValue_stored (config : FunnelConfig) (f : nat) (rest : list N) :
  isDouble (sessions config) = true -> isDouble (cpa config) = true ->
  (length (stages config) + 9 <= f)%nat ->
  parseValue f (JSON_stringify config ++ rest)
  = Some (storedValue config, rest).
Proof.
  intros Hs Hc Hf.
  do 8 (destruct f as [|f]; [lia|]).
  assert (Hl : (length (stages config) + 2 <= S f)%nat) by lia.
  unfold JSON_stringify, storedValue.
  change (lit "{") with [123%N]. change (lit ":") with [58%N].
  change (lit ",") with [44%N]. change (lit "[") with [91%N].
  change (lit "]") with [93%N]. change (lit "}") with [125%N].
  rewrite <- !app_assoc. cbn [app].
  rewrite parseValue_object.
  rewrite (parseMembers_more _ _ _ _ _ (VStr (business config))
             (parseValue_string _ _ _)).
  rewrite (parseMembers_more _ _ _ _ _ (VStr (industry config))
             (parseValue_string _ _ _)).
  rewrite (parseMembers_more _ _ _ _ _ (jsonNumber (sessions config))
             (parseValue_jsonNumber _ _ _ Hs)).
  rewrite (parseMembers_more _ _ _ _ _ (jsonNumber (cpa config))
             (parseValue_jsonNumber _ _ _ Hc)).
  rewrite (parseMembers_more _ _ _ _ _ (VArr (map VStr (stages config)))
             (parseValue_strings _ _ _ Hl)).
  rewrite (parseMembers_last _ _ _ _ rest (VBool (newsletter config))
             (parseValue_bool _ _ _)).
  reflexivity.
Qed.

Lemma JSON_parse_stored (config : FunnelConfig) :
  isDouble (sessions config) = true -> isDouble (cpa config) = true ->
  JSON_parse (JSON_stringify config) = Normal (storedValue config).
Proof.
  intros Hs Hc. unfold JSON_parse.
  rewrite <- (app_nil_r (JSON_stringify config)) at 2.
  rewrite parseValue_stored; [reflexivity|exact Hs|exact Hc|].
  unfold JSON_stringify. rewrite !length_app.
  pose proof (length_join_quoted (stages config)).
  change (lit ",") with [44%N] in *. simpl length. lia.
Qed.




(* ===================================================================== *)
(** * The growth brief *)
(* ===================================================================== *)

(** [loadConfig] on a store that holds a stringified configuration. *)
Lemma loadConfig_stringified (w : World) (config : FunnelConfig) :
  stringSafe config = true ->
  accessible (localStorage w) = true ->
  items (localStorage w) !! storageKey = Some (JSON_stringify config) ->
  loadConfig w = (Normal (toValue config), w).
Proof.
  intros Hsafe Ha Hk.
  assert (Htext : exists t, JSON_stringify config = 123%N :: t)
    by (unfold JSON_stringify; cbn [lit app]; simpl; eauto).
  destruct Htext as [t Ht]. rewrite Ht in Hk.
  rewrite (loadConfig_text w 123%N t Ha Hk), <- Ht.
  now rewrite (JSON_parse_stringify config Hsafe).
Qed.

(** The source of the brief: the stored configuration when [loadConfig]
    returns one, the form when it returns [undefined] or [null]. *)
Lemma briefConfig_stored (w w' : World) (stored : value)
  (config : FunnelConfig) :
  loadConfig w = (Normal stored, w') ->
  asFunnelConfig stored = Some config ->
  briefConfig w = (Normal config, w').
Proof.
  intros L A. unfold briefConfig, bind. rewrite L.
  destruct stored; try discriminate. now rewrite A.
Qed.

Lemma briefConfig_form (w w' : World) (stored : value)
  (form : HTMLFormElement) :
  loadConfig w = (Normal stored, w') ->
  stored = VUndefined \/ stored = VNull ->
  forms (document w') !! formSelector = Some form ->
  briefConfig w = (Normal (readFunnelConfig form), w').
Proof.
  intros L S F. unfold briefConfig. unfold bind at 1. rewrite L.
  assert (E : (form0 <- queryElement querySelectorForm (lit "#analysis-form") ;;
               ret (readFunnelConfig form0)) w'
              = (Normal (readFunnelConfig form), w')).
  { unfold bind, queryElement, querySelectorForm. fold formSelector.
    now rewrite F. }
  destruct S as [-> | ->]; exact E.
Qed.






(* ===================================================================== *)
(** * The text fields of the form reader *)
(* ===================================================================== *)

Lemma trimStart_head (s : list N) :
  match trimStart s with
  | [] => True
  | c :: _ => isWhiteSpace c = false
  end.
Proof.
  induction s as [|c r IH]; simpl; [exact I|].
  destruct (isWhiteSpace c) eqn:E; [exact IH|exact E].
Qed.

Lemma trimStart_fixed (s : list N) :
  match s with
  | [] => True
  | c :: _ => isWhiteSpace c = false
  end ->
  trimStart s = s.
Proof. destruct s as [|c r]; simpl; [reflexivity|]. now intros ->. Qed.

Lemma trimStart_idempotent (s : list N) : trimStart (trimStart s) = trimStart s.
Proof. apply trimStart_fixed, trimStart_head. Qed.

(** Stripping the front leaves a string that ends in a character other
    than white space as long as it was. *)
Lemma trimStart_snoc (s : list N) (c : N) :
  isWhiteSpace c = false -> trimStart (s ++ [c]) = trimStart s ++ [c].
Proof.
  intros Hc. induction s as [|d r IH]; simpl.
  - now rewrite Hc.
  - destruct (isWhiteSpace d); [exact IH|reflexivity].
Qed.

Lemma trimEnd_cons (c : N) (s : list N) :
  isWhiteSpace c = false -> trimEnd (c :: s) = c :: trimEnd s.
Proof.
  intros Hc. unfold trimEnd. simpl rev.
  rewrite (trimStart_snoc _ _ Hc), rev_app_distr. reflexivity.
Qed.

Lemma trimEnd_idempotent (s : list N) : trimEnd (trimEnd s) = trimEnd s.
Proof.
  unfold trimEnd. now rewrite rev_involutive, trimStart_idempotent.
Qed.

Lemma trimStart_trimEnd (s : list N) :
  trimStart (trimEnd (trimStart s)) = trimEnd (trimStart s).
Proof.
  pose proof (trimStart_head s) as Hh.
  destruct (trimStart s) as [|c r]; [reflexivity|].
  rewrite (trimEnd_cons c r Hh). simpl. now rewrite Hh.
Qed.

Lemma trim_idempotent (s : list N) : trim (trim s) = trim s.
Proof.
  unfold trim. now rewrite trimStart_trimEnd, trimEnd_idempotent.
Qed.

(** A string of white space trims to the empty string. *)
Lemma trimStart_blank (s : list N) :
  forallb isWhiteSpace s = true -> trimStart s = [].
Proof.
  induction s as [|c r IH]; simpl; [reflexivity|].
  intros H. apply andb_prop in H. destruct H as [-> Hr]. auto.
Qed.

Lemma trim_blank (s : list N) : forallb isWhiteSpace s = true -> trim s = [].
Proof. intros H. unfold trim. now rewrite (trimStart_blank s H). Qed.

(** The ends of a trimmed string. *)
Lemma trim_ends (s : list N) (c : N) :
  head (trim s) = Some c \/ last (trim s) = Some c -> isWhiteSpace c = false.
Proof.
  intros [Hc|Hc].
  - pose proof (trimStart_trimEnd s) as Hfix. fold (trim s) in Hfix.
    pose proof (trimStart_head (trim s)) as Hh. rewrite Hfix in Hh.
    destruct (trim s); [discriminate|]. simpl in Hc. congruence.
  - assert (Hl : match rev (trim s) with
                 | [] => True
                 | c :: _ => isWhiteSpace c = false
                 end).
    { unfold trim, trimEnd. rewrite rev_involutive. apply trimStart_head. }
    apply last_Some in Hc. destruct Hc as [l E].
    rewrite E, rev_app_distr in Hl. exact Hl.
Qed.

(** X1: The text fields of a configuration read from a form carry no white
    space at either end ([trim] leaves them as they are); a field that
    is absent or holds nothing but white space is read as the empty
    string, which the snapshot shows as its placeholder. *)
Theorem readFunnelConfig_text_fields (form : HTMLFormElement) :
  textFieldSpec (formDataGet (lit "business") (entryList form))
                (business (readFunnelConfig form))
  /\ textFieldSpec (formDataGet (lit "industry") (entryList form))
                   (industry (readFunnelConfig form))
  /\ (business (readFunnelConfig form) = [] ->
      headingText (readFunnelConfig form)
      = lit "Your brand funnel overview").
Proof.
  assert (Hspec : forall o, textFieldSpec o (textOfEntry o)).
  { intros [v|]; unfold textFieldSpec; simpl.
    - split; [apply trim_idempotent|]. split; [apply trim_ends|].
      split; [reflexivity|apply trim_blank].
    - repeat split. intros c [Hc|Hc]; discriminate. }
  split; [apply Hspec|]. split; [apply Hspec|].
  intros E. unfold headingText. now rewrite E.
Qed.

(** A business name of blanks and tabs, and a form without the field. *)
Lemma readFunnelConfig_text_fields_witness :
  business (readFunnelConfig (mkForm [textEntry "business" "  Acme Co "]))
  = lit "Acme Co"
  /\ headingText (readFunnelConfig (mkForm [textEntry "business" "   "]))
     = lit "Your brand funnel overview"
  /\ business (readFunnelConfig (mkForm [textEntry "industry" "Retail"]))
     = [].
Proof.
  pose proof (readFunnelConfig_text_fields
                (mkForm [textEntry "business" "  Acme Co "])) as ((_ & _ & E1 & _) & _).
  pose proof (readFunnelConfig_text_fields
                (mkForm [textEntry "business" "   "])) as ((_ & _ & _ & E2) & _ & P2).
  pose proof (readFunnelConfig_text_fields
                (mkForm [textEntry "industry" "Retail"])) as ((_ & _ & E3) & _).
  split; [rewrite E1; vm_compute; reflexivity|].
  split; [apply P2, E2; vm_compute; reflexivity|exact E3].
Defined.

(* ===================================================================== *)
(** * More on the storage codec *)
(* ===================================================================== *)

(** A write the store takes is taken again over any earlier write. *)
Lemma storeAccepts_stored (w : World) (t1 t2 : list N) :
  storeAccepts w t2 -> storeAccepts (stored w t1) t2.
Proof.
  intros [Ha Hq]. split; [reflexivity|]. simpl.
  now rewrite insert_insert_eq.
Qed.

Lemma stored_stored (w : World) (t1 t2 : list N) :
  stored (stored w t1) t2 = stored w t2.
Proof. unfold stored. simpl. now rewrite insert_insert_eq. Qed.

(** X2: The last write wins: on a store that takes both texts, persisting
    one configuration and then another leaves what persisting the
    second alone leaves, and [loadConfig] then returns the second. *)
Theorem persistConfig_last_write_wins (c1 c2 : FunnelConfig) (w : World) :
  storeAccepts w (JSON_stringify c1) ->
  storeAccepts w (JSON_stringify c2) ->
  (persistConfig c1 ;;; persistConfig c2) w = persistConfig c2 w
  /\ (stringSafe c2 = true ->
      (persistConfig c1 ;;; persistConfig c2 ;;; loadConfig) w
      = (Normal (toValue c2), stored w (JSON_stringify c2))).
Proof.
  intros H1 H2.
  assert (E : (persistConfig c1 ;;; persistConfig c2) w
              = (Normal tt, stored w (JSON_stringify c2))).
  { unfold bind. rewrite (persistConfig_stores c1 w H1).
    rewrite (persistConfig_stores c2 _ (storeAccepts_stored w _ _ H2)).
    now rewrite stored_stored. }
  split.
  - now rewrite E, (persistConfig_stores c2 w H2).
  - intros Hsafe. unfold bind in *. rewrite (persistConfig_stores c1 w H1) in *.
    destruct (persistConfig c2 (stored w (JSON_stringify c1))) as [r w2].
    injection E as -> ->.
    apply loadConfig_stringified; [exact Hsafe|reflexivity|].
    simpl. apply lookup_insert_eq.
Qed.

Lemma persistConfig_last_write_wins_witness :
  (persistConfig (readFunnelConfig acmeForm) ;;; persistConfig retentionConfig ;;;
   loadConfig) (sampleWorld acmeForm)
  = (Normal (toValue retentionConfig),
     stored (sampleWorld acmeForm) (JSON_stringify retentionConfig)).
Proof.
  apply (persistConfig_last_write_wins (readFunnelConfig acmeForm)
           retentionConfig (sampleWorld acmeForm));
    try split; vm_compute; reflexivity.
Defined.



(** X4: [persistConfig] writes one key and nothing else: the other keys of
    the store, its access flag and quota, and the document stay as they
    are, and the console gets at most one message. *)
Theorem persistConfig_frame (config : FunnelConfig) (w : World) :
  let w' := snd (persistConfig config w) in
  (forall k, k <> storageKey ->
     items (localStorage w') !! k = items (localStorage w) !! k)
  /\ accessible (localStorage w') = accessible (localStorage w)
  /\ quota (localStorage w') = quota (localStorage w)
  /\ document w' = document w
  /\ exists l, console w' = console w ++ l /\ (length l <= 1)%nat.
Proof.
  unfold persistConfig, tryCatch, setItem. cbv beta zeta.
  destruct (accessible (localStorage w)) eqn:Ha.
  - destruct (withinQuota _ _) eqn:Hq; simpl.
    + repeat split; auto.
      * intros k Hk. now rewrite lookup_insert_ne.
      * exists []. rewrite app_nil_r. split; [reflexivity|simpl; lia].
    + repeat split; auto. eexists. split; [reflexivity|simpl; lia].
  - simpl. repeat split; auto. eexists. split; [reflexivity|simpl; lia].
Qed.

Lemma console_warned_ne (w : World) (message : string) (e : exn) :
  console (warned w message e) <> console w.
Proof.
  simpl. intros E. apply (f_equal (@length _)) in E.
  rewrite length_app in E. simpl in E. lia.
Qed.

(** [loadConfig] leaves the store and the document as they are. *)
Lemma loadConfig_frame (w : World) :
  localStorage (snd (loadConfig w)) = localStorage w
  /\ document (snd (loadConfig w)) = document w.
Proof.
  destruct (accessible (localStorage w)) eqn:Ha.
  - destruct (items (localStorage w) !! storageKey) as [[|c t]|] eqn:Hk.
    + now rewrite (loadConfig_blank w Ha (or_intror Hk)).
    + rewrite (loadConfig_text w c t Ha Hk).
      now destruct (JSON_parse (c :: t)).
    + now rewrite (loadConfig_blank w Ha (or_introl Hk)).
  - now rewrite (loadConfig_denied w Ha).
Qed.

(** X5: [loadConfig] only reads: the store and the document are left as
    they are.  It writes to the console, one warning, exactly when
    access to the store is denied or the stored text is not empty and is
    not JSON, and it then returns [undefined]. *)
Theorem loadConfig_read_only (w : World) :
  let failed :=
    accessible (localStorage w) = false
    \/ exists raw, items (localStorage w) !! storageKey = Some raw
                   /\ raw <> [] /\ JSON_parse raw = Throw SyntaxError in
  localStorage (snd (loadConfig w)) = localStorage w
  /\ document (snd (loadConfig w)) = document w
  /\ (failed ->
      exists e, loadConfig w
                = (Normal VUndefined,
                   warned w "Unable to load funnel configuration" e))
  /\ (~ failed -> snd (loadConfig w) = w).
Proof.
  intros failed. subst failed.
  destruct (accessible (localStorage w)) eqn:Ha.
  - destruct (items (localStorage w) !! storageKey) as [[|c t]|] eqn:Hk.
    + rewrite (loadConfig_blank w Ha (or_intror Hk)).
      split; [reflexivity|]. split; [reflexivity|]. split; [|reflexivity].
      intros [?|(raw & [= <-] & Hne & _)]; [discriminate|congruence].
    + rewrite (loadConfig_text w c t Ha Hk).
      destruct (JSON_parse_completes (c :: t)) as [[v Hv] | Hv]; rewrite Hv.
      * split; [reflexivity|]. split; [reflexivity|]. split; [|reflexivity].
        intros [?|(raw & [= <-] & _ & P)]; [discriminate|congruence].
      * split; [reflexivity|]. split; [reflexivity|]. split; [eauto|].
        intros Hn. exfalso. apply Hn. right. exists (c :: t).
        split; [reflexivity|]. split; [discriminate|exact Hv].
    + rewrite (loadConfig_blank w Ha (or_introl Hk)).
      split; [reflexivity|]. split; [reflexivity|]. split; [|reflexivity].
      intros [?|(raw & ? & _)]; discriminate.
  - rewrite (loadConfig_denied w Ha).
    split; [reflexivity|]. split; [reflexivity|]. split; [eauto|].
    intros Hn. exfalso. apply Hn. now left.
Qed.

Lemma loadConfig_read_only_witness :
  (exists e, loadConfig (storedWorld (lit "{oops") acmeForm)
             = (Normal VUndefined,
                warned (storedWorld (lit "{oops") acmeForm)
                  "Unable to load funnel configuration" e))
  /\ snd (loadConfig (storedWorld (lit "[1, 2]") acmeForm))
     = storedWorld (lit "[1, 2]") acmeForm.
Proof.
  split.
  - apply (loadConfig_read_only (storedWorld (lit "{oops") acmeForm)).
    right. exists (lit "{oops"). repeat split; try discriminate;
      vm_compute; reflexivity.
  - apply (loadConfig_read_only (storedWorld (lit "[1, 2]") acmeForm)).
    intros [H|(raw & Hk & _ & P)]; [discriminate|].
    vm_compute in Hk. injection Hk as <-. vm_compute in P. discriminate.
Defined.

(* ===================================================================== *)
(** * What comes back from the store *)
(* ===================================================================== *)

(** X6: What [persistConfig] stores always loads: for every configuration,
    string-safe or not, [loadConfig] after [persistConfig] parses the
    text without a warning.  The object it returns has the strings, the
    stages and the flag of the configuration; a number that is NaN or
    infinite has become [null] (the object is then no [FunnelConfig]),
    and [-0] has become [0]. *)
Theorem persist_load_any (config : FunnelConfig) (w : World) :
  isDouble (sessions config) = true -> isDouble (cpa config) = true ->
  storeAccepts w (JSON_stringify config) ->
  (persistConfig config ;;; loadConfig) w
  = (Normal (storedValue config), stored w (JSON_stringify config))
  /\ (asFunnelConfig (storedValue config) = None
      <-> isFiniteNumber (sessions config) && isFiniteNumber (cpa config)
          = false).
Proof.
  intros Hs Hc Hstore. split.
  - unfold bind. rewrite (persistConfig_stores config w Hstore).
    assert (Htext : exists t, JSON_stringify config = 123%N :: t)
      by (unfold JSON_stringify; cbn [lit app]; simpl; eauto).
    destruct Htext as [t Ht].
    rewrite (loadConfig_text (stored w (JSON_stringify config)) 123%N t).
    + rewrite <- Ht, (JSON_parse_stored config Hs Hc). reflexivity.
    + reflexivity.
    + simpl. rewrite lookup_insert_eq. now rewrite Ht.
  - unfold asFunnelConfig, storedValue.
    repeat (first [ rewrite lookup_insert_eq
                  | rewrite lookup_insert_ne by (vm_compute; discriminate) ]).
    rewrite allStrings_map.
    destruct (sessions config), (cpa config); simpl; split; congruence.
Qed.

(** A session count that is not a number, as read from the text [abc]. *)
Lemma persist_load_any_witness :
  fst ((persistConfig (readFunnelConfig wordForm) ;;; loadConfig)
         (sampleWorld wordForm))
  = Normal (storedValue (readFunnelConfig wordForm))
  /\ asFunnelConfig (storedValue (readFunnelConfig wordForm)) = None.
Proof.
  assert (Hs : isDouble (sessions (readFunnelConfig wordForm)) = true)
    by (vm_compute; reflexivity).
  assert (Hc : isDouble (cpa (readFunnelConfig wordForm)) = true)
    by (vm_compute; reflexivity).
  assert (Hw : storeAccepts (sampleWorld wordForm)
                 (JSON_stringify (readFunnelConfig wordForm)))
    by (split; vm_compute; reflexivity).
  destruct (persist_load_any (readFunnelConfig wordForm)
              (sampleWorld wordForm) Hs Hc Hw) as [E A].
  split; [now rewrite E|]. apply A. vm_compute. reflexivity.
Defined.

(* ===================================================================== *)
(** * More on the snapshot and the brief *)
(* ===================================================================== *)

(** X7: [renderFunnelSnapshot] fails exactly when the page has no
    [#funnel-plan-output] element; the error names the selector, and the
    page is left as it was: nothing is rendered in part. *)
Theorem renderFunnelSnapshot_fails_clean (H : Host) (config : FunnelConfig)
  (w : World) :
  (lists (document w) !! outputSelector = None
   <-> renderFunnelSnapshot H config w = (Throw (notFound outputSelector), w))
  /\ (lists (document w) !! outputSelector <> None
      <-> fst (renderFunnelSnapshot H config w) = Normal tt).
Proof.
  destruct (lists (document w) !! outputSelector) as [old|] eqn:Hk.
  - rewrite (renderFunnelSnapshot_present H config w old Hk).
    split; split; try discriminate; auto.
  - rewrite (renderFunnelSnapshot_missing H config w Hk).
    split; split; try discriminate; auto. congruence.
Qed.

(** X8: The last snapshot wins: rendering one configuration and then another
    leaves the page that rendering the second alone leaves. *)
Theorem renderFunnelSnapshot_last_wins (H : Host) (c1 c2 : FunnelConfig)
  (w : World) :
  lists (document w) !! outputSelector <> None ->
  (renderFunnelSnapshot H c1 ;;; renderFunnelSnapshot H c2) w
  = renderFunnelSnapshot H c2 w.
Proof.
  intros Hk. unfold bind at 1.
  destruct (lists (document w) !! outputSelector) as [old|] eqn:Ho;
    [clear Hk|congruence].
  rewrite (renderFunnelSnapshot_present H c1 w old Ho).
  rewrite (renderFunnelSnapshot_present H c2 w old Ho).
  rewrite (renderFunnelSnapshot_present H c2 _ (snapshotChildren H c1)).
  - unfold showing. simpl. now rewrite insert_insert_eq.
  - simpl. apply lookup_insert_eq.
Qed.

Lemma renderFunnelSnapshot_last_wins_witness :
  (renderFunnelSnapshot enUS retentionConfig ;;;
   renderFunnelSnapshot enUS (readFunnelConfig acmeForm))
    (sampleWorld acmeForm)
  = renderFunnelSnapshot enUS (readFunnelConfig acmeForm)
      (sampleWorld acmeForm).
Proof.
  apply (renderFunnelSnapshot_last_wins enUS retentionConfig
           (readFunnelConfig acmeForm) (sampleWorld acmeForm)).
  vm_compute. discriminate.
Defined.

Lemma ownProperty_kpis (stage : list N) :
  ownProperty stageDescriptions stage = None ->
  ownProperty stageKpis stage = None.
Proof.
  unfold stageDescriptions, stageKpis. cbn [ownProperty].
  repeat match goal with
         | |- context [jsstring_eqb ?k stage] =>
             destruct (jsstring_eqb k stage); [discriminate|]
         end.
  reflexivity.
Qed.

(** X9: A stage that is not a key of the catalogue is not rejected: unless
    its name is a property every object inherits, the snapshot shows the
    detail [undefined undefined] for it and the brief the lines
    [NAME: undefined]. *)
Theorem unknown_stage_undefined (H : Host) (config : FunnelConfig)
  (stage : jsstring) (w : World) :
  In stage (stages config) ->
  ownProperty stageDescriptions stage = None ->
  objectPrototypeText H stage = None ->
  lists (document w) !! outputSelector <> None ->
  (exists children,
     lists (document (snd (renderFunnelSnapshot H config w))) !! outputSelector
     = Some children
     /\ In (createElement "dd" (lit "undefined undefined")) children)
  /\ In (toUpperCase H stage ++ lit ": undefined") (briefLines H config).
Proof.
  intros Hin Hd Hp Hk.
  pose proof (ownProperty_kpis stage Hd) as Hkpi.
  split.
  - destruct (lists (document w) !! outputSelector) as [old|] eqn:Ho;
      [clear Hk|congruence].
    rewrite (renderFunnelSnapshot_present H config w old Ho).
    exists (snapshotChildren H config). split.
    + simpl. apply lookup_insert_eq.
    + unfold snapshotChildren. do 2 right. apply in_or_app. left.
      apply in_flat_map. exists stage. split; [exact Hin|].
      right. left. unfold stageDetailText, lookupText.
      now rewrite Hd, Hkpi, Hp.
  - unfold briefLines. apply in_or_app. right. apply in_or_app. left.
    apply in_map_iff. exists stage. split; [|exact Hin].
    unfold lookupText. now rewrite Hd, Hp.
Qed.

Lemma unknown_stage_undefined_witness :
  let config := mkConfig (lit "Acme") [] posZero posZero [lit "loyalty"] false in
  (exists children,
     lists (document (snd (renderFunnelSnapshot enUS config
                             (sampleWorld acmeForm)))) !! outputSelector
     = Some children
     /\ In (createElement "dd" (lit "undefined undefined")) children)
  /\ In (lit "LOYALTY: undefined") (briefLines enUS config).
Proof.
  intros config.
  apply (unknown_stage_undefined enUS config (lit "loyalty")
           (sampleWorld acmeForm)).
  - now left.
  - vm_compute. reflexivity.
  - vm_compute. reflexivity.
  - vm_compute. discriminate.
Defined.

(** X10: The outcomes of the download handler.  It only reads the store and
    the document.  It hands over a file of the fixed name and type when
    [loadConfig] returns a configuration, or returns [undefined] or
    [null] on a page with the analysis form.  It throws in two cases:
    the error of [queryElement], naming the form, when [loadConfig]
    returns [undefined] or [null] and the page has no analysis form; and
    a [TypeError] when the stored object has [null] for [sessions] or
    [cpa].  Any other stored value that is no configuration leaves the
    typed program, and what the handler does with it is not modelled. *)
Theorem downloadBrief_outcomes (H : Host) (w : World) :
  localStorage (snd (downloadBrief H w)) = localStorage w
  /\ document (snd (downloadBrief H w)) = document w
  /\ match fst (downloadBrief H w) with
     | Normal file =>
         filename file = lit "foxytrailz23-growth-brief.txt"
         /\ mimeType file = lit "text/plain"
         /\ ((exists v, fst (loadConfig w) = Normal v
                        /\ asFunnelConfig v <> None)
             \/ ((fst (loadConfig w) = Normal VUndefined
                  \/ fst (loadConfig w) = Normal VNull)
                 /\ forms (document w) !! formSelector <> None))
     | Throw e =>
         (e = notFound formSelector
          /\ forms (document w) !! formSelector = None
          /\ (fst (loadConfig w) = Normal VUndefined
              \/ fst (loadConfig w) = Normal VNull))
         \/ (e = TypeError
             /\ exists v nulled,
                  fst (loadConfig w) = Normal v
                  /\ asFunnelConfig v = None
                  /\ asStoredConfig v = Some nulled)
     | Untyped =>
         exists v, fst (loadConfig w) = Normal v
                   /\ v <> VUndefined /\ v <> VNull
                   /\ asFunnelConfig v = None
                   /\ asStoredConfig v = None
     end.
Proof.
  destruct (loadConfig_frame w) as (Hs & Hd).
  destruct (loadConfig_returns w) as (v & w' & L).
  rewrite L in Hs, Hd. simpl in Hs, Hd.
  unfold downloadBrief, briefConfig, bind. rewrite L.
  assert (Hq : queryElement querySelectorForm (lit "#analysis-form") w'
               = match forms (document w) !! formSelector with
                 | Some form => (Normal form, w')
                 | None => (Throw (notFound formSelector), w')
                 end).
  { unfold queryElement, querySelectorForm. fold formSelector. rewrite Hd.
    now destruct (forms (document w) !! formSelector). }
  destruct v as [| |b|x|s|l|props]; cbv beta iota.
  - rewrite Hq.
    destruct (forms (document w) !! formSelector) as [form|] eqn:F; simpl.
    + split; [exact Hs|]. split; [exact Hd|].
      split; [reflexivity|]. split; [reflexivity|].
      right. split; [auto|discriminate].
    + split; [exact Hs|]. split; [exact Hd|]. left. auto.
  - rewrite Hq.
    destruct (forms (document w) !! formSelector) as [form|] eqn:F; simpl.
    + split; [exact Hs|]. split; [exact Hd|].
      split; [reflexivity|]. split; [reflexivity|].
      right. split; [auto|discriminate].
    + split; [exact Hs|]. split; [exact Hd|]. left. auto.
  - simpl. repeat split; auto. exists (VBool b). repeat split; auto; discriminate.
  - simpl. repeat split; auto. exists (VNum x). repeat split; auto; discriminate.
  - simpl. repeat split; auto. exists (VStr s). repeat split; auto; discriminate.
  - simpl. repeat split; auto. exists (VArr l). repeat split; auto; discriminate.
  - destruct (asFunnelConfig (VObj props)) as [config|] eqn:A.
    + unfold ret. simpl. repeat split; auto. left. exists (VObj props).
      split; [reflexivity|]. now rewrite A.
    + destruct (asStoredConfig (VObj props)) as [nulled|] eqn:S.
      * unfold throw. simpl. repeat split; auto. right.
        split; [reflexivity|]. now exists (VObj props), nulled.
      * unfold untyped. simpl. repeat split; auto.
        exists (VObj props). repeat split; auto; discriminate.
Qed.

(* ===================================================================== *)
(** * Running the page: what a computation leaves alone *)
(* ===================================================================== *)

Section Keeps.

Context {X : Type} (p : Browser -> X).

Lemma keeps_ret {A} (a : A) : keeps p (retJS a).
Proof. intros b. reflexivity. Qed.

Lemma keeps_throw {A} (e : exn) : keeps p (@throwJS A e).
Proof. intros b. reflexivity. Qed.

Lemma keeps_untyped {A} : keeps p (@untypedJS A).
Proof. intros b. reflexivity. Qed.

Lemma keeps_bind {A B} (m : JS A) (k : A -> JS B) :
  keeps p m -> (forall a, keeps p (k a)) -> keeps p (bindJS m k).
Proof.
  intros Hm Hk b. unfold bindJS. specialize (Hm b).
  destruct (m b) as [[a|e|] b1]; simpl in *; [|exact Hm|exact Hm].
  now rewrite (Hk a b1).
Qed.

Lemma keeps_tryCatch {A} (m : JS A) (h : exn -> JS A) :
  keeps p m -> (forall e, keeps p (h e)) -> keeps p (tryCatchJS m h).
Proof.
  intros Hm Hh b. unfold tryCatchJS. specialize (Hm b).
  destruct (m b) as [[a|e|] b1]; simpl in *; [exact Hm| |exact Hm].
  now rewrite (Hh e b1).
Qed.

Lemma keeps_forEach {A} (l : list A) (f : A -> JS unit) :
  (forall a, keeps p (f a)) -> keeps p (forEachJS l f).
Proof.
  intros Hf. induction l as [|a l IH]; simpl.
  - apply keeps_ret.
  - apply keeps_bind; auto.
Qed.

Lemma keeps_query {A} (q : jsstring -> Browser -> option A) (s : jsstring) :
  keeps p (queryElementJS q s).
Proof. intros b. unfold queryElementJS. now destruct (q s b). Qed.

Lemma keeps_read {A} (f : Browser -> A) : keeps p (fun b => (Normal (f b), b)).
Proof. intros b. reflexivity. Qed.

End Keeps.

(** Components a primitive does not write. *)
Ltac keeps_field :=
  let b := fresh "b" in
  intros b;
  try match goal with
      | |- context [inPage ?m b] =>
          unfold inPage; destruct (m (view b))
      end;
  destruct b; reflexivity.

Ltac keeps_step :=
  first
    [ apply keeps_ret | apply keeps_throw | apply keeps_untyped
    | apply keeps_query | apply keeps_read
    | apply keeps_bind; [|intros ?]
    | apply keeps_tryCatch; [|intros ?]
    | apply keeps_forEach; intros ?
    | match goal with
      | |- keeps _ (if ?c then _ else _) => destruct c
      | |- keeps _ (match ?c with _ => _ end) => destruct c
      | |- keeps _ (let x := _ in _) => cbv zeta
      end
    | solve [keeps_field] ].

(** The functions of the program, unfolded to their statements. *)
Ltac unfold_program :=
  unfold bootstrap, setupNavigation, setupAnalysisForm, setupCallForm,
    setupDownloadBrief, setCurrentYear, syncFormWithConfig,
    syncFormWithStored, numberToStringJS, updateOutput,
    updateState, toggleNavigation, submitAnalysis, submitCall, clickDownload,
    setAttribute, setTextContent, setValue, setChecked, runTask.

Ltac keeps_auto := unfold_program; repeat keeps_step.


(** ** The elements of the page stay *)

Lemma find_input_ids (s : list N) (l l' : list HTMLInputElement) :
  map inputId l' = map inputId l ->
  fst <$> list_find (fun i => s = 35%N :: inputId i) l'
  = fst <$> list_find (fun i => s = 35%N :: inputId i) l.
Proof.
  revert l'. induction l as [|x l IH]; intros [|x' l'] E; try discriminate.
  - reflexivity.
  - simpl in E. injection E as Ex El. cbn [list_find]. rewrite Ex.
    destruct (decide (s = 35%N :: inputId x)); [reflexivity|].
    specialize (IH l' El).
    destruct (list_find _ l') as [[k y]|], (list_find _ l) as [[j z]|];
      simpl in *; congruence.
Qed.

Lemma present_ext (b b' : Browser) (r : ElementKind * list N) :
  (forall s, isSome (htmlElements b' !! s) = isSome (htmlElements b !! s)) ->
  formElements b' = formElements b ->
  map inputId (inputElements b') = map inputId (inputElements b) ->
  (forall s, isSome (descriptionLists b' !! s)
             = isSome (descriptionLists b !! s)) ->
  present b' r = present b r.
Proof.
  intros Hh Hf Hi Hl. destruct r as [[] s]; unfold present; simpl.
  - unfold querySelectorHTML. specialize (Hh s).
    now destruct (htmlElements b' !! s), (htmlElements b !! s).
  - unfold querySelectorForms. now rewrite Hf.
  - unfold querySelectorInput. now rewrite (find_input_ids s _ _ Hi).
  - unfold querySelectorList. simpl. specialize (Hl s).
    now destruct (descriptionLists b' !! s), (descriptionLists b !! s).
Qed.

Lemma isSome_alter {A} (f : A -> A) (k s : list N) (m : gmap (list N) A) :
  isSome (alter f k m !! s) = isSome (m !! s).
Proof.
  destruct (decide (k = s)) as [->|Hne].
  - rewrite lookup_alter_eq. now destruct (m !! s).
  - now rewrite lookup_alter_ne.
Qed.

Lemma map_inputId_alter (f : HTMLInputElement -> HTMLInputElement) (k : nat)
  (l : list HTMLInputElement) :
  (forall i, inputId (f i) = inputId i) ->
  map inputId (alter f k l) = map inputId l.
Proof.
  intros Hf. revert k. induction l as [|x l IH]; intros [|k]; simpl;
    try reflexivity.
  - now rewrite Hf.
  - f_equal. apply IH.
Qed.

Lemma inputId_assignValue (s : list N) (i : HTMLInputElement) :
  inputId (assignValue s i) = inputId i.
Proof. unfold assignValue. now destruct (inputType i). Qed.

Lemma keeps_present_updateElement (f : HTMLElement -> HTMLElement)
  (e : list N) (r : ElementKind * list N) :
  keeps (fun b => present b r) (updateElement f e).
Proof.
  intros b. apply present_ext; try reflexivity.
  intros s. simpl. apply isSome_alter.
Qed.

Lemma keeps_present_updateInput (f : HTMLInputElement -> HTMLInputElement)
  (k : nat) (r : ElementKind * list N) :
  (forall i, inputId (f i) = inputId i) ->
  keeps (fun b => present b r) (updateInput f k).
Proof.
  intros Hf b. apply present_ext; try reflexivity.
  simpl. now apply map_inputId_alter.
Qed.

Lemma keeps_present_resetForm (form : list N) (r : ElementKind * list N) :
  keeps (fun b => present b r) (resetForm form).
Proof.
  intros b. apply present_ext; try reflexivity.
  simpl. rewrite map_map. apply map_ext. intros i.
  now destruct (ownedBy form i).
Qed.

Lemma keeps_present_inPage {A} (m : M A) (r : ElementKind * list N) :
  keepsLists m -> keeps (fun b => present b r) (inPage m).
Proof.
  intros Hm b. apply present_ext; unfold inPage;
    pose proof (Hm (view b)) as Hs;
    destruct (m (view b)) as [x w]; try reflexivity.
  intros s. specialize (Hs s). unfold querySelectorList in Hs. simpl in *.
  now destruct (lists (document w) !! s), (descriptionLists b !! s).
Qed.

(** The functions of the part above keep the description lists. *)
Lemma keepsLists_same {A} (m : M A) :
  (forall w, document (snd (m w)) = document w) -> keepsLists m.
Proof. intros Hm w s. unfold querySelectorList. now rewrite Hm. Qed.

Lemma persistConfig_document (config : FunnelConfig) (w : World) :
  document (snd (persistConfig config w)) = document w.
Proof.
  pose proof (persistConfig_cases config w) as P.
  unfold setItem in P. cbv zeta in P.
  destruct (accessible (localStorage w)); [|now rewrite P].
  destruct (withinQuota _ _); now rewrite P.
Qed.

Lemma keepsLists_render (H : Host) (config : FunnelConfig) :
  keepsLists (renderFunnelSnapshot H config).
Proof.
  intros w s. unfold querySelectorList.
  destruct (lists (document w) !! outputSelector) as [old|] eqn:Hk.
  - rewrite (renderFunnelSnapshot_present H config w old Hk). simpl.
    destruct (decide (outputSelector = s)) as [<-|Hne].
    + now rewrite lookup_insert_eq, Hk.
    + now rewrite lookup_insert_ne.
  - now rewrite (renderFunnelSnapshot_missing H config w Hk).
Qed.

Lemma downloadBrief_frame (H : Host) (w : World) :
  localStorage (snd (downloadBrief H w)) = localStorage w
  /\ document (snd (downloadBrief H w)) = document w.
Proof.
  destruct (loadConfig_frame w) as (Hs & Hd).
  destruct (loadConfig_returns w) as (v & w' & L).
  rewrite L in Hs, Hd. simpl in Hs, Hd.
  unfold downloadBrief, briefConfig, bind. rewrite L.
  assert (Hq : snd (queryElement querySelectorForm (lit "#analysis-form") w')
               = w').
  { unfold queryElement. now destruct (querySelectorForm _ w'). }
  destruct v; cbv beta iota;
    try (destruct (queryElement _ _ w') as [[form|e|] w2]; simpl in *;
         now subst w2);
    try (simpl; now split).
  destruct (asFunnelConfig _); [simpl; now split|].
  destruct (asStoredConfig _); simpl; now split.
Qed.

Lemma keepsLists_load : keepsLists loadConfig.
Proof. apply keepsLists_same. intros w. apply loadConfig_frame. Qed.

Lemma keepsLists_persist (config : FunnelConfig) :
  keepsLists (persistConfig config).
Proof. apply keepsLists_same. intros w. apply persistConfig_document. Qed.

Lemma keepsLists_download (H : Host) : keepsLists (downloadBrief H).
Proof. apply keepsLists_same. intros w. apply downloadBrief_frame. Qed.

Ltac keeps_present_field :=
  let b := fresh "b" in
  intros b; apply present_ext; destruct b; reflexivity.

Ltac present_step :=
  first
    [ apply keeps_ret | apply keeps_throw | apply keeps_untyped
    | apply keeps_query | apply keeps_read
    | apply keeps_bind; [|intros ?]
    | apply keeps_tryCatch; [|intros ?]
    | apply keeps_forEach; intros ?
    | apply keeps_present_updateElement
    | apply keeps_present_updateInput;
        [intros ?; first [apply inputId_assignValue | reflexivity]]
    | apply keeps_present_resetForm
    | apply keeps_present_inPage;
        first [ apply keepsLists_render | apply keepsLists_load
              | apply keepsLists_persist | apply keepsLists_download ]
    | match goal with
      | |- keeps _ (if ?c then _ else _) => destruct c
      | |- keeps _ (match ?c with _ => _ end) => destruct c
      | |- keeps _ (let x := _ in _) => cbv zeta
      end
    | solve [keeps_present_field] ].

Ltac present_auto := unfold_program; repeat present_step.

Section Present.

Variable r : ElementKind * list N.

Lemma bootstrap_present (H : Host) : keeps (fun b => present b r) (bootstrap H).
Proof. present_auto. Qed.

Lemma runListener_present (H : Host) (l : Listener) :
  keeps (fun b => present b r) (runListener H l).
Proof.
  destruct l; unfold runListener, saveFile; present_auto.
Qed.

Lemma invokeListeners_present (H : Host) (ls : list Listener) :
  keeps (fun b => present b r) (invokeListeners H ls).
Proof.
  induction ls as [|l ls IH]; simpl; present_auto;
    first [apply runListener_present | exact IH].
Qed.

Lemma defaultAction_present (t : EventTarget) (ty : EventType) :
  keeps (fun b => present b r) (defaultAction t ty).
Proof.
  intros b. unfold defaultAction. apply present_ext;
    destruct ty, t, b; simpl; try reflexivity;
    match goal with |- context [if ?c then _ else _] => destruct c end;
    reflexivity.
Qed.

Lemma dispatchEvent_present (H : Host) (t : EventTarget) (ty : EventType) :
  keeps (fun b => present b r) (dispatchEvent H t ty).
Proof.
  intros b. unfold dispatchEvent.
  set (ls := listenersFor t ty b).
  assert (K : keeps (fun b => present b r)
                (bindJS (fun b0 => (Normal tt, withCanceled false b0))
                   (fun _ => bindJS (invokeListeners H ls)
                               (fun _ => defaultAction t ty)))).
  { present_auto;
      first [apply invokeListeners_present | apply defaultAction_present]. }
  exact (K b).
Qed.

End Present.

(** ** Looking up the elements *)

Lemma firstMissing_app (l1 l2 : list (ElementKind * list N)) (b : Browser) :
  firstMissing (l1 ++ l2) b
  = match firstMissing l1 b with
    | Some s => Some s
    | None => firstMissing l2 b
    end.
Proof.
  unfold firstMissing. induction l1 as [|r l1 IH]; simpl; [reflexivity|].
  destruct (negb (present b r)); [reflexivity|exact IH].
Qed.

Lemma firstMissing_ext (l : list (ElementKind * list N)) (b b' : Browser) :
  (forall r, present b' r = present b r) ->
  firstMissing l b' = firstMissing l b.
Proof.
  intros E. unfold firstMissing. induction l as [|r l IH]; simpl;
    [reflexivity|].
  rewrite E. destruct (negb (present b r)); [reflexivity|exact IH].
Qed.

Lemma needsAt_bind {A B} (b : Browser) (l1 l2 : list (ElementKind * list N))
  (m : JS A) (k : A -> JS B) :
  needsAt b l1 m ->
  (forall a b1, m b = (Normal a, b1) -> needsAt b1 l2 (k a)) ->
  needsAt b (l1 ++ l2) (bindJS m k).
Proof.
  intros [Hp Hm] Hk. unfold needsAt, bindJS. rewrite firstMissing_app.
  destruct (m b) as [[a|e|] b1] eqn:E; simpl in *.
  - destruct (Hk a b1 eq_refl) as [Hp2 Hk2].
    split; [intros r; now rewrite Hp2|].
    destruct (firstMissing l1 b) as [s|]; [discriminate|].
    now rewrite <- (firstMissing_ext l2 b b1 Hp).
  - split; [exact Hp|].
    destruct (firstMissing l1 b) as [s|]; [now injection Hm as ->|].
    destruct Hm as [a Ha]. discriminate.
  - split; [exact Hp|].
    destruct (firstMissing l1 b) as [s|]; [discriminate|].
    destruct Hm as [a Ha]. discriminate.
Qed.

Lemma needs_bind {A B} (l1 l2 : list (ElementKind * list N))
  (m : JS A) (k : A -> JS B) :
  needs l1 m -> (forall a, needs l2 (k a)) -> needs (l1 ++ l2) (bindJS m k).
Proof. intros Hm Hk b. apply needsAt_bind; [apply Hm|]. intros. apply Hk. Qed.

(** A computation that looks nothing up and returns. *)
Lemma needs_plain {A} (m : JS A) :
  (forall r, keeps (fun b => present b r) m) -> returns m -> needs [] m.
Proof. intros Hp Hr b. split; [intros r; apply Hp|apply Hr]. Qed.

Lemma returns_ret {A} (a : A) : returns (retJS a).
Proof. intros b. now exists a. Qed.

Lemma returns_bind {A B} (m : JS A) (k : A -> JS B) :
  returns m -> (forall a, returns (k a)) -> returns (bindJS m k).
Proof.
  intros Hm Hk b. unfold bindJS. destruct (Hm b) as [a E].
  destruct (m b) as [r b1]. simpl in E. subst r. apply Hk.
Qed.

Lemma returns_forEach {A} (l : list A) (f : A -> JS unit) :
  (forall a, returns (f a)) -> returns (forEachJS l f).
Proof.
  intros Hf. induction l as [|a l IH]; simpl.
  - apply returns_ret.
  - apply returns_bind; auto.
Qed.

Lemma returns_tryCatch {A} (m : JS A) (h : exn -> JS A) :
  (forall b, fst (m b) <> Untyped) -> (forall e, returns (h e)) ->
  returns (tryCatchJS m h).
Proof.
  intros Hm Hh b. unfold tryCatchJS. specialize (Hm b).
  destruct (m b) as [[a|e|] b1]; simpl in *; [eauto|apply Hh|congruence].
Qed.

Ltac returns_step :=
  first
    [ apply returns_ret
    | apply returns_bind; [|intros ?]
    | apply returns_forEach; intros ?
    | match goal with
      | |- returns (if ?c then _ else _) => destruct c
      | |- returns (let x := _ in _) => cbv zeta
      end
    | solve [let b := fresh "b" in intros b; eexists; reflexivity] ].

Ltac returns_auto := unfold_program; repeat returns_step.

Lemma needs_query_html (s : list N) :
  needs [(AnyElement, s)] (queryElementJS querySelectorHTML s).
Proof.
  intros b. split; [intros r; apply (keeps_query (fun b => present b r))|].
  unfold firstMissing, present, queryElementJS. simpl.
  destruct (querySelectorHTML s b); simpl; eauto.
Qed.

Lemma needs_query_form (s : list N) :
  needs [(FormElement, s)] (queryElementJS querySelectorForms s).
Proof.
  intros b. split; [intros r; apply (keeps_query (fun b => present b r))|].
  unfold firstMissing, present, queryElementJS. simpl.
  destruct (querySelectorForms s b); simpl; eauto.
Qed.

Lemma needs_query_input (s : list N) :
  needs [(InputElement, s)] (queryElementJS querySelectorInput s).
Proof.
  intros b. split; [intros r; apply (keeps_query (fun b => present b r))|].
  unfold firstMissing, present, queryElementJS. simpl.
  destruct (querySelectorInput s b); simpl; eauto.
Qed.

Lemma inPage_render (H : Host) (config : FunnelConfig) (b : Browser) :
  inPage (renderFunnelSnapshot H config) b
  = match descriptionLists b !! outputSelector with
    | Some _ =>
        (Normal tt,
         withDescriptionLists
           (<[outputSelector := snapshotChildren H config]>
              (descriptionLists b)) b)
    | None => (Throw (notFound outputSelector), b)
    end.
Proof.
  unfold inPage.
  destruct (descriptionLists b !! outputSelector) as [old|] eqn:Hk.
  - rewrite (renderFunnelSnapshot_present H config (view b) old Hk).
    now destruct b.
  - rewrite (renderFunnelSnapshot_missing H config (view b) Hk).
    now destruct b.
Qed.

Lemma needs_render (H : Host) (config : FunnelConfig) :
  needs [(ListElement, outputSelector)]
        (inPage (renderFunnelSnapshot H config)).
Proof.
  intros b. split.
  - intros r. apply (keeps_present_inPage _ r), keepsLists_render.
  - rewrite inPage_render. unfold firstMissing, present, querySelectorList.
    simpl. destruct (descriptionLists b !! outputSelector); simpl; eauto.
Qed.

Lemma needs_setupNavigation :
  needs [(AnyElement, navToggle); (AnyElement, navLinks)] setupNavigation.
Proof.
  unfold setupNavigation.
  apply (needs_bind [_] [_]); [apply needs_query_html|]. intros toggle.
  apply (needs_bind [_] []); [apply needs_query_html|]. intros links.
  apply needs_plain.
  - intros r. unfold updateState. present_auto.
  - unfold updateState. returns_auto.
Qed.

Lemma needs_setupCallForm :
  needs [(FormElement, callFormSelector); (AnyElement, callFeedback)]
        setupCallForm.
Proof.
  unfold setupCallForm.
  apply (needs_bind [_] [_]); [apply needs_query_form|]. intros form.
  apply (needs_bind [_] []); [apply needs_query_html|]. intros feedback.
  apply needs_plain; [intros r; present_auto|returns_auto].
Qed.

Lemma needs_setupDownloadBrief :
  needs [(AnyElement, downloadButton)] setupDownloadBrief.
Proof.
  unfold setupDownloadBrief.
  apply (needs_bind [_] []); [apply needs_query_html|]. intros button.
  apply needs_plain; [intros r; present_auto|returns_auto].
Qed.

Lemma needs_setCurrentYear : needs [(AnyElement, yearElement)] setCurrentYear.
Proof.
  unfold setCurrentYear.
  apply (needs_bind [_] []); [apply needs_query_html|]. intros element.
  apply needs_plain; [intros r; present_auto|returns_auto].
Qed.

Lemma needs_syncFormWithConfig (form : list N) (config : FunnelConfig) :
  needs [(InputElement, lit "#business-name"); (InputElement, lit "#industry");
         (InputElement, lit "#traffic-level"); (InputElement, lit "#goal-cpa");
         (InputElement, lit "#newsletter")]
        (syncFormWithConfig form config).
Proof.
  unfold syncFormWithConfig.
  assert (Hset : forall s text,
            needs [(InputElement, s)]
              (bindJS (queryElementJS querySelectorInput s)
                 (fun input => setValue input text))).
  { intros s text. apply (needs_bind [_] []); [apply needs_query_input|].
    intros input. apply needs_plain; [intros r; present_auto|returns_auto]. }
  apply (needs_bind [_] [_; _; _; _]); [apply Hset|]. intros _.
  apply (needs_bind [_] [_; _; _]); [apply Hset|]. intros _.
  apply (needs_bind [_] [_; _]); [apply Hset|]. intros _.
  apply (needs_bind [_] [_]); [apply Hset|]. intros _.
  apply (needs_bind [_] []).
  - apply (needs_bind [_] []); [apply needs_query_input|].
    intros input. apply needs_plain; [intros r; present_auto|returns_auto].
  - intros _. apply needs_plain; [intros r; present_auto|returns_auto].
Qed.

Lemma needs_updateOutput (H : Host) (form : list N) :
  needs [(ListElement, outputSelector)] (updateOutput H form).
Proof.
  unfold updateOutput.
  apply (needs_bind [] [_]).
  - apply needs_plain; [intros r; present_auto|returns_auto].
  - intros state. apply needs_render.
Qed.

(** What [loadConfig] returns depends on the store alone. *)
Lemma loadConfig_storage (w w' : World) :
  localStorage w = localStorage w' ->
  fst (loadConfig w) = fst (loadConfig w').
Proof.
  intros E. unfold loadConfig, tryCatch, bind, getItem, consoleWarn, ret.
  cbv beta. rewrite E.
  destruct (accessible (localStorage w')); [|reflexivity].
  destruct (items (localStorage w') !! storageKey) as [[|c t]|];
    try reflexivity.
  now destruct (JSON_parse (c :: t)).
Qed.

Lemma fst_inPage {A} (m : M A) (b : Browser) :
  fst (inPage m b) = fst (m (view b)).
Proof. unfold inPage. now destruct (m (view b)). Qed.

(** A stored object with a [null] number: [setupAnalysisForm] does not
    get past [syncFormWithConfig]. *)
Lemma stored_branch_stops {A} (form : list N) (stored : value)
  (b b' : Browser) (a : A) :
  match asStoredConfig stored with
  | Some nulled => (syncFormWithStored form nulled ;;; untypedJS)%js
  | None => untypedJS
  end b = (Normal a, b') ->
  False.
Proof.
  destruct (asStoredConfig stored) as [nulled|]; [|discriminate].
  unfold bindJS at 1.
  now destruct (syncFormWithStored form nulled b) as [[u|e|] b1].
Qed.

Lemma needsAt_setupAnalysisForm (H : Host) (b : Browser) (v : value) :
  fst (loadConfig (view b)) = Normal v ->
  (truthy v = true -> asFunnelConfig v <> None) ->
  needsAt b
    ([(FormElement, analysisForm); (AnyElement, analysisFeedback)]
     ++ (if truthy v then
           [(InputElement, lit "#business-name");
            (InputElement, lit "#industry");
            (InputElement, lit "#traffic-level");
            (InputElement, lit "#goal-cpa");
            (InputElement, lit "#newsletter")]
         else [])
     ++ [(ListElement, outputSelector)])
    (setupAnalysisForm H).
Proof.
  intros Hv Ht. unfold setupAnalysisForm.
  apply (needsAt_bind b [_] (_ :: _)); [apply needs_query_form|].
  intros form b1 E1.
  assert (Eb : b1 = b).
  { unfold queryElementJS, retJS, throwJS in E1.
    destruct (querySelectorForms _ b); congruence. }
  subst b1. clear E1.
  apply (needsAt_bind b [_] _); [apply needs_query_html|].
  intros feedback b2 E2.
  assert (Eb : b2 = b).
  { unfold queryElementJS, retJS, throwJS in E2.
    destruct (querySelectorHTML _ b); congruence. }
  subst b2. clear E2.
  apply (needsAt_bind b [] _).
  { split.
    - intros r. apply (keeps_present_inPage _ r), keepsLists_load.
    - simpl. exists v. now rewrite fst_inPage. }
  intros stored b3 E3.
  assert (stored = v) as ->.
  { apply (f_equal fst) in E3. rewrite fst_inPage, Hv in E3. simpl in E3.
    congruence. }
  rewrite <- (app_nil_r (_ ++ [(ListElement, outputSelector)])).
  apply needsAt_bind.
  - destruct (truthy v) eqn:Tv.
    + destruct (asFunnelConfig v) as [config|]; [|now destruct Ht].
      apply needs_bind; [apply needs_syncFormWithConfig|].
      intros _. apply needs_render.
    + apply needs_updateOutput.
  - intros x b4 _. apply needs_plain; [intros r; present_auto|returns_auto].
Qed.


Lemma browser_ext (b b' : Browser) :
  storageArea b' = storageArea b -> consoleLog b' = consoleLog b ->
  descriptionLists b' = descriptionLists b ->
  formElements b' = formElements b -> inputElements b' = inputElements b ->
  htmlElements b' = htmlElements b -> navAnchors b' = navAnchors b ->
  readyState b' = readyState b -> eventListeners b' = eventListeners b ->
  currentTime b' = currentTime b -> timers b' = timers b ->
  canceled b' = canceled b -> submissions b' = submissions b ->
  downloads b' = downloads b -> reportedErrors b' = reportedErrors b ->
  localYear b' = localYear b ->
  b' = b.
Proof. destruct b, b'; simpl; intros; subst; reflexivity. Qed.

(** Reduce the field updates and nothing else. *)
Ltac browser_simpl :=
  cbn [storageArea consoleLog descriptionLists formElements inputElements
       htmlElements navAnchors readyState eventListeners currentTime timers
       canceled submissions downloads reportedErrors localYear
       withStorageArea withConsoleLog withDescriptionLists withInputElements
       withHtmlElements withReadyState withEventListeners withCurrentTime
       withTimers withCanceled withSubmissions withDownloads
       withReportedErrors fst snd] in *.

Lemma keeps_run {X A} (p : Browser -> X) (m : JS A) (b b' : Browser)
  (r : completion A) :
  keeps p m -> m b = (r, b') -> p b' = p b.
Proof. intros K E. specialize (K b). now rewrite E in K. Qed.

(** [b' = b] but for the components written: each of the others is kept
    by the run [E] of the computation unfolded by [unf]. *)
Ltac frame_by E unf :=
  apply browser_ext; simpl;
  first [ reflexivity
        | eapply keeps_run; [|exact E]; unf; keeps_auto ].


(** ** What the set-up functions leave *)

Lemma bindJS_normal {A B} (m : JS A) (k : A -> JS B) (b b' : Browser) (x : B) :
  bindJS m k b = (Normal x, b') ->
  exists a b1, m b = (Normal a, b1) /\ k a b1 = (Normal x, b').
Proof.
  unfold bindJS. destruct (m b) as [[a|e|] b1]; try discriminate. eauto.
Qed.

Lemma queryElementJS_normal {A} (q : list N -> Browser -> option A)
  (s : list N) (b b' : Browser) (x : A) :
  queryElementJS q s b = (Normal x, b') -> q s b = Some x /\ b' = b.
Proof.
  unfold queryElementJS, retJS, throwJS. destruct (q s b); [|discriminate].
  intros [= -> ->]. auto.
Qed.

Lemma querySelectorHTML_some (s x : list N) (b : Browser) :
  querySelectorHTML s b = Some x -> x = s /\ is_Some (htmlElements b !! s).
Proof.
  unfold querySelectorHTML. destruct (htmlElements b !! s); [|discriminate].
  intros [= <-]. eauto.
Qed.

Lemma querySelectorForms_some (s x : list N) (b : Browser) :
  querySelectorForms s b = Some x -> x = s /\ s ∈ formElements b.
Proof.
  unfold querySelectorForms. case_bool_decide; [|discriminate].
  intros [= <-]. auto.
Qed.

(** Take a run of the program apart, statement by statement. *)
Ltac run_inv H :=
  repeat match type of H with
         | bindJS _ _ _ = (Normal _, _) =>
             let a := fresh "a" in
             let b1 := fresh "b" in
             let E := fresh "E" in
             apply bindJS_normal in H; destruct H as (a & b1 & E & H)
         end.

Lemma forEachJS_addEventListener (l : list nat) (ty : EventType)
  (f : nat -> EventTarget) (g : nat -> Listener) (b : Browser) :
  forEachJS l (fun a => addEventListener (f a) ty (g a)) b
  = (Normal tt,
     withEventListeners
       (eventListeners b ++ map (fun a => (f a, ty, g a)) l) b).
Proof.
  revert b. induction l as [|a l IH]; intros b; simpl.
  - unfold retJS. rewrite app_nil_r. now destruct b.
  - unfold bindJS, addEventListener at 1. rewrite IH. destruct b. simpl.
    now rewrite <- app_assoc.
Qed.

Lemma setupNavigation_normal (b b' : Browser) (x : unit) :
  setupNavigation b = (Normal x, b') ->
  b' = withHtmlElements (closeNavigation (htmlElements b))
         (withEventListeners
            (eventListeners b
               ++ (Node navToggle, Click, NavToggle navToggle navLinks)
               :: map (fun a => (NavAnchor a, Click,
                                 NavClose navToggle navLinks))
                      (seq 0 (navAnchors b))) b).
Proof.
  unfold setupNavigation. intros R. run_inv R.
  apply queryElementJS_normal in E. destruct E as [Q ->].
  apply querySelectorHTML_some in Q. destruct Q as [-> _].
  apply queryElementJS_normal in E0. destruct E0 as [Q ->].
  apply querySelectorHTML_some in Q. destruct Q as [-> _].
  unfold addEventListener in E1. injection E1 as _ <-.
  unfold querySelectorAllAnchors in E2. injection E2 as <- <-.
  rewrite forEachJS_addEventListener in E3. injection E3 as _ <-.
  unfold updateState, bindJS, setAttribute, updateElement in R.
  injection R as _ <-. destruct b. simpl.
  unfold closeNavigation, withHtmlElements, withEventListeners. simpl.
  rewrite <- app_assoc. reflexivity.
Qed.

Lemma adds_keeps {A} (m : JS A) :
  keeps eventListeners m -> keeps navAnchors m -> adds (fun _ => []) m.
Proof.
  intros K1 K2 b a b' E. rewrite app_nil_r.
  split; eapply keeps_run; eauto.
Qed.

Lemma adds_bind {A B} (L1 L2 : nat -> list (EventTarget * EventType * Listener))
  (m : JS A) (k : A -> JS B) :
  adds L1 m -> (forall a, adds L2 (k a)) ->
  adds (fun n => L1 n ++ L2 n) (bindJS m k).
Proof.
  intros Hm Hk b x b' E. apply bindJS_normal in E.
  destruct E as (a & b1 & E1 & E2).
  destruct (Hm b a b1 E1) as [L N]. destruct (Hk a b1 x b' E2) as [L' N'].
  rewrite L', L, N, app_assoc. split; congruence.
Qed.

Lemma adds_addEventListener (t : EventTarget) (ty : EventType) (l : Listener) :
  adds (fun _ => [(t, ty, l)]) (addEventListener t ty l).
Proof. intros b a b' [= _ <-]. now destruct b. Qed.

Ltac adds_plain := apply adds_keeps; keeps_auto.

Lemma adds_setupNavigation :
  adds (fun n =>
          (Node navToggle, Click, NavToggle navToggle navLinks)
          :: map (fun a => (NavAnchor a, Click, NavClose navToggle navLinks))
                 (seq 0 n))
       setupNavigation.
Proof.
  intros b a b' E. apply setupNavigation_normal in E. subst b'.
  now destruct b.
Qed.

Lemma syncFormWithConfig_keeps {X} (p : Browser -> X) (form : list N)
  (config : FunnelConfig) :
  (forall l b, p (withInputElements l b) = p b) ->
  keeps p (syncFormWithConfig form config).
Proof.
  intros Hp. unfold syncFormWithConfig, setValue, setChecked, updateInput.
  repeat first
    [ apply keeps_query | apply keeps_read
    | apply keeps_bind; [|intros ?]
    | apply keeps_forEach; intros ?
    | (intros b; apply Hp) ].
Qed.

Lemma adds_setupAnalysisForm (H : Host) :
  adds (fun _ =>
          [(Node analysisForm, InputEvent, AnalysisInput analysisForm);
           (Node analysisForm, Submit,
            AnalysisSubmit analysisForm analysisFeedback)])
       (setupAnalysisForm H).
Proof.
  unfold setupAnalysisForm. intros b x b' R. run_inv R.
  apply queryElementJS_normal in E. destruct E as [Q ->].
  apply querySelectorForms_some in Q. destruct Q as [-> _].
  apply queryElementJS_normal in E0. destruct E0 as [Q ->].
  apply querySelectorHTML_some in Q. destruct Q as [-> _].
  assert (K : eventListeners b3 = eventListeners b
              /\ navAnchors b3 = navAnchors b).
  { assert (K1 : eventListeners b2 = eventListeners b
                 /\ navAnchors b2 = navAnchors b).
    { split; (eapply keeps_run; [|exact E1]); keeps_auto. }
    destruct K1 as [<- <-].
    destruct (truthy a1).
    - destruct (asFunnelConfig a1) as [config|];
        [|now apply stored_branch_stops in E2].
      apply bindJS_normal in E2. destruct E2 as (u & bs & Es & Er). split.
      + transitivity (eventListeners bs).
        * eapply keeps_run; [|exact Er]. keeps_auto.
        * eapply keeps_run; [|exact Es]. now apply syncFormWithConfig_keeps.
      + transitivity (navAnchors bs).
        * eapply keeps_run; [|exact Er]. keeps_auto.
        * eapply keeps_run; [|exact Es]. now apply syncFormWithConfig_keeps.
    - split; (eapply keeps_run; [|exact E2]); unfold updateOutput; keeps_auto. }
  destruct K as [K1 K2].
  unfold addEventListener in E3, R. injection E3 as _ <-. injection R as _ <-.
  simpl. rewrite K1, K2, <- app_assoc. auto.
Qed.

Lemma adds_bootstrap (H : Host) : adds programListeners (bootstrap H).
Proof.
  unfold bootstrap.
  assert (A : adds (fun n =>
                      ((Node navToggle, Click, NavToggle navToggle navLinks)
                       :: map (fun a => (NavAnchor a, Click,
                                         NavClose navToggle navLinks))
                              (seq 0 n))
                      ++ [(Node analysisForm, InputEvent,
                           AnalysisInput analysisForm);
                          (Node analysisForm, Submit,
                           AnalysisSubmit analysisForm analysisFeedback)]
                      ++ [(Node callFormSelector, Submit,
                           CallSubmit callFormSelector callFeedback)]
                      ++ [(Node downloadButton, Click, DownloadClick)] ++ [])
                   (bootstrap H)).
  { unfold bootstrap.
    apply adds_bind; [apply adds_setupNavigation|]. intros _.
    apply adds_bind; [apply adds_setupAnalysisForm|]. intros _.
    apply adds_bind.
    { unfold setupCallForm. intros b x b' R. run_inv R.
      apply queryElementJS_normal in E. destruct E as [Q ->].
      apply querySelectorForms_some in Q. destruct Q as [-> _].
      apply queryElementJS_normal in E0. destruct E0 as [Q ->].
      apply querySelectorHTML_some in Q. destruct Q as [-> _].
      injection R as _ <-. now destruct b. }
    intros _. apply adds_bind.
    { unfold setupDownloadBrief. intros b x b' R. run_inv R.
      apply queryElementJS_normal in E. destruct E as [Q ->].
      apply querySelectorHTML_some in Q. destruct Q as [-> _].
      injection R as _ <-. now destruct b. }
    intros _. unfold setCurrentYear. adds_plain. }
  intros b x b' R. destruct (A b x b' R) as [L N]. split; [|exact N].
  rewrite L. reflexivity.
Qed.

Lemma needsAt_bootstrap (H : Host) (b : Browser) (v : value) :
  fst (loadConfig (view b)) = Normal v ->
  (truthy v = true -> asFunnelConfig v <> None) ->
  needsAt b (required (truthy v)) (bootstrap H).
Proof.
  intros Hv Ht.
  unfold bootstrap, required.
  change [(AnyElement, navToggle); (AnyElement, navLinks);
          (FormElement, analysisForm); (AnyElement, analysisFeedback)]
    with ([(AnyElement, navToggle); (AnyElement, navLinks)]
          ++ [(FormElement, analysisForm); (AnyElement, analysisFeedback)]).
  rewrite <- app_assoc.
  apply needsAt_bind; [apply needs_setupNavigation|].
  intros [] b1 E1.
  change [(ListElement, outputSelector); (FormElement, callFormSelector);
          (AnyElement, callFeedback); (AnyElement, downloadButton);
          (AnyElement, yearElement)]
    with ([(ListElement, outputSelector)]
          ++ [(FormElement, callFormSelector); (AnyElement, callFeedback)]
          ++ [(AnyElement, downloadButton)] ++ [(AnyElement, yearElement)]).
  rewrite !app_assoc. rewrite <- (app_assoc _ [(AnyElement, downloadButton)]).
  rewrite <- (app_assoc _ [(FormElement, callFormSelector); _]).
  apply needsAt_bind.
  - rewrite <- !app_assoc. apply needsAt_setupAnalysisForm; [|exact Ht].
    rewrite <- Hv. apply loadConfig_storage. simpl.
    eapply (keeps_run storageArea); [|exact E1]. keeps_auto.
  - intros [] b2 _. apply needs_bind; [apply needs_setupCallForm|].
    intros _. apply needs_bind; [apply needs_setupDownloadBrief|].
    intros _. apply needs_setCurrentYear.
Qed.

(** X11: With nothing usable or a configuration in the store, [bootstrap]
    either sets the whole page up or stops at the first element that is
    not there: it looks the elements up in the order of [required] and
    throws [Element not found for selector: s] for the first selector
    [s] whose lookup fails, and returns when none does.  (A truthy
    stored value that is no configuration is not covered here.) *)
Theorem bootstrap_outcome (H : Host) (b : Browser) (v : value) :
  fst (loadConfig (view b)) = Normal v ->
  (truthy v = true -> asFunnelConfig v <> None) ->
  fst (bootstrap H b)
  = match firstMissing (required (truthy v)) b with
    | Some s => Throw (notFound s)
    | None => Normal tt
    end.
Proof.
  intros Hv Ht.
  destruct (needsAt_bootstrap H b v Hv Ht) as [_ N].
  destruct (firstMissing _ b); [exact N|].
  destruct N as [[] N]. exact N.
Qed.

Lemma bootstrap_outcome_witness :
  fst (bootstrap enUS (demoBrowser ∅)) = Normal tt
  /\ fst (bootstrap enUS (demoPage ∅ [analysisForm] demoInputs))
     = Throw (notFound callFormSelector)
  /\ fst (bootstrap enUS
            (demoPage (<[storageKey := JSON_stringify retentionConfig]> ∅)
                      [analysisForm; callFormSelector] (skipn 1 demoInputs)))
     = Throw (notFound (lit "#business-name")).
Proof.
  split; [|split].
  - rewrite (bootstrap_outcome enUS (demoBrowser ∅) VUndefined);
      [vm_compute; reflexivity | vm_compute; reflexivity | discriminate].
  - rewrite (bootstrap_outcome enUS _ VUndefined);
      [vm_compute; reflexivity | vm_compute; reflexivity | discriminate].
  - rewrite (bootstrap_outcome enUS _ (toValue retentionConfig));
      [vm_compute; reflexivity | vm_compute; reflexivity |].
    intros _. rewrite asFunnelConfig_toValue. discriminate.
Defined.

(** ** After [bootstrap] *)

Lemma finds_bind {A B} (l1 l2 : list (ElementKind * list N))
  (m : JS A) (k : A -> JS B) :
  finds l1 m -> (forall r, keeps (fun b => present b r) m) ->
  (forall a, finds l2 (k a)) ->
  finds (l1 ++ l2) (bindJS m k).
Proof.
  intros Hm Hp Hk b x b' E. apply bindJS_normal in E.
  destruct E as (a & b1 & E1 & E2). rewrite firstMissing_app.
  rewrite (Hm b a b1 E1). rewrite <- (Hk a b1 x b' E2).
  symmetry. apply firstMissing_ext. intros r.
  apply (keeps_run (fun b => present b r) m b b1 _ (Hp r) E1).
Qed.

Lemma finds_nothing {A} (m : JS A) : finds [] m.
Proof. intros b a b' _. reflexivity. Qed.

Lemma finds_query (kind : ElementKind) (s : list N) {A}
  (q : list N -> Browser -> option A) :
  (forall b, present b (kind, s) = isSome (q s b)) ->
  finds [(kind, s)] (queryElementJS q s).
Proof.
  intros Hq b a b' E. apply queryElementJS_normal in E. destruct E as [Q _].
  unfold firstMissing. simpl. now rewrite Hq, Q.
Qed.

Lemma finds_render (H : Host) (config : FunnelConfig) :
  finds [(ListElement, outputSelector)]
        (inPage (renderFunnelSnapshot H config)).
Proof.
  intros b a b' E. rewrite inPage_render in E.
  unfold firstMissing, present, querySelectorList. simpl.
  now destruct (descriptionLists b !! outputSelector).
Qed.

Ltac finds_query_step :=
  first [ apply (finds_query AnyElement _ querySelectorHTML)
        | apply (finds_query FormElement _ querySelectorForms)
        | apply (finds_query InputElement _ querySelectorInput) ];
  intros ?; reflexivity.

Lemma finds_bootstrap (H : Host) : finds (required false) (bootstrap H).
Proof.
  unfold required, bootstrap, setupNavigation, setupAnalysisForm,
    setupCallForm, setupDownloadBrief, setCurrentYear.
  apply (finds_bind [_; _] (_ :: _)); [|intros r; present_auto|intros _].
  { apply (finds_bind [_] [_]); [finds_query_step|intros r; present_auto|].
    intros toggle.
    apply (finds_bind [_] []); [finds_query_step|intros r; present_auto|].
    intros links. apply finds_nothing. }
  apply (finds_bind [_; _; _] (_ :: _)); [|intros r; present_auto|intros _].
  { apply (finds_bind [_] [_; _]); [finds_query_step|intros r; present_auto|].
    intros form.
    apply (finds_bind [_] [_]); [finds_query_step|intros r; present_auto|].
    intros feedback.
    apply (finds_bind [] [_]); [apply finds_nothing|intros r; present_auto|].
    intros stored.
    apply (finds_bind [_] []); [|intros r; present_auto|intros _;
                                 apply finds_nothing].
    destruct (truthy stored).
    - destruct (asFunnelConfig stored) as [config|].
      + apply (finds_bind [] [_]);
          [apply finds_nothing|intros r; present_auto|].
        intros _. apply finds_render.
      + intros b a b' E. now apply stored_branch_stops in E.
    - unfold updateOutput.
      apply (finds_bind [] [_]);
        [apply finds_nothing|intros r; present_auto|].
      intros state. apply finds_render. }
  apply (finds_bind [_; _] (_ :: _)); [|intros r; present_auto|intros _].
  { apply (finds_bind [_] [_]); [finds_query_step|intros r; present_auto|].
    intros form.
    apply (finds_bind [_] []); [finds_query_step|intros r; present_auto|].
    intros feedback. apply finds_nothing. }
  apply (finds_bind [_] [_]); [|intros r; present_auto|intros _].
  { apply (finds_bind [_] []); [finds_query_step|intros r; present_auto|].
    intros button. apply finds_nothing. }
  apply (finds_bind [_] []); [finds_query_step|intros r; present_auto|].
  intros element. apply finds_nothing.
Qed.

Lemma lookup_closeNavigation_toggle (m : gmap (list N) HTMLElement)
  (e : HTMLElement) :
  m !! navToggle = Some e ->
  closeNavigation m !! navToggle
  = Some (mkHTMLElement (<[lit "aria-expanded" := lit "false"]> (attributes e))
            (elementText e)).
Proof.
  intros E. unfold closeNavigation.
  rewrite lookup_alter_ne by (vm_compute; discriminate).
  now rewrite lookup_alter_eq, E.
Qed.

Lemma lookup_closeNavigation_links (m : gmap (list N) HTMLElement)
  (e : HTMLElement) :
  m !! navLinks = Some e ->
  closeNavigation m !! navLinks
  = Some (mkHTMLElement (<[lit "data-open" := lit "false"]> (attributes e))
            (elementText e)).
Proof.
  intros E. unfold closeNavigation. rewrite lookup_alter_eq.
  rewrite lookup_alter_ne by (vm_compute; discriminate).
  now rewrite E.
Qed.

Lemma present_html (b : Browser) (s : list N) :
  present b (AnyElement, s) = true -> is_Some (htmlElements b !! s).
Proof.
  unfold present, querySelectorHTML. simpl.
  destruct (htmlElements b !! s); [eauto|discriminate].
Qed.

Lemma firstMissing_none (l : list (ElementKind * list N)) (b : Browser)
  (r : ElementKind * list N) :
  firstMissing l b = None -> In r l -> present b r = true.
Proof.
  unfold firstMissing. intros F Hin.
  destruct (find _ l) as [x|] eqn:E; [discriminate|].
  pose proof (find_none _ _ E r Hin) as Hn. simpl in Hn.
  now destruct (present b r).
Qed.

Lemma keeps_storage_inPage {A} (m : M A) :
  (forall w, localStorage (snd (m w)) = localStorage w) ->
  keeps storageArea (inPage m).
Proof.
  intros Hm b. unfold inPage. specialize (Hm (view b)).
  destruct (m (view b)) as [r w]. now destruct b.
Qed.

Lemma renderFunnelSnapshot_storage (H : Host) (config : FunnelConfig)
  (w : World) :
  localStorage (snd (renderFunnelSnapshot H config w)) = localStorage w.
Proof.
  destruct (lists (document w) !! outputSelector) as [old|] eqn:Hk.
  - now rewrite (renderFunnelSnapshot_present H config w old Hk).
  - now rewrite (renderFunnelSnapshot_missing H config w Hk).
Qed.

(** X12: A successful [bootstrap] leaves the page installed, with the
    navigation closed and the year in the footer.  It adds exactly the
    listeners of the program, starts no timer, and leaves the store as
    it found it. *)
Theorem bootstrap_installs (H : Host) (b b' : Browser) :
  Forall (fun l => fst (fst l) = Document) (eventListeners b) ->
  bootstrap H b = (Normal tt, b') ->
  installed b'
  /\ eventListeners b' = eventListeners b ++ programListeners (navAnchors b)
  /\ navigationShows b' false
  /\ shows b' yearElement (NumberToString (numberOfZ (localYear b)))
  /\ storageArea b' = storageArea b
  /\ timers b' = timers b
  /\ reportedErrors b' = reportedErrors b.
Proof.
  intros Hearly R.
  destruct (adds_bootstrap H b tt b' R) as [L N].
  pose proof (finds_bootstrap H b tt b' R) as F.
  assert (F' : firstMissing (required false) b' = None).
  { rewrite <- F. apply firstMissing_ext. intros r.
    apply (keeps_run (fun b => present b r) (bootstrap H) b b' _
             (bootstrap_present r H) R). }
  split; [|split; [exact L|]].
  { split; [exact F'|]. exists (eventListeners b). now rewrite N. }
  assert (Hh : htmlElements b'
               = alter (fun e => mkHTMLElement (attributes e)
                                   (NumberToString (numberOfZ (localYear b))))
                   yearElement (closeNavigation (htmlElements b))).
  { unfold bootstrap in R. run_inv R.
    apply setupNavigation_normal in E. subst b0.
    assert (K1 : htmlElements b1 = closeNavigation (htmlElements b)
                 /\ localYear b1 = localYear b).
    { split; (etransitivity; [eapply keeps_run; [|exact E0]; keeps_auto|]);
        now destruct b. }
    assert (K2 : htmlElements b2 = htmlElements b1
                 /\ localYear b2 = localYear b1)
      by (split; (eapply keeps_run; [|exact E1]); keeps_auto).
    assert (K3 : htmlElements b3 = htmlElements b2
                 /\ localYear b3 = localYear b2)
      by (split; (eapply keeps_run; [|exact E2]); keeps_auto).
    destruct K1 as [K1 Y1], K2 as [K2 Y2], K3 as [K3 Y3].
    unfold setCurrentYear in R. run_inv R.
    apply queryElementJS_normal in E. destruct E as [Q ->].
    apply querySelectorHTML_some in Q. destruct Q as [-> _].
    injection E3 as <- <-.
    unfold setTextContent, updateElement in R. injection R as <-.
    simpl. now rewrite K3, K2, K1, Y3, Y2, Y1. }
  assert (Hp : forall s, In (AnyElement, s) (required false) ->
                         is_Some (htmlElements b !! s)).
  { intros s Hin. apply present_html. now apply (firstMissing_none _ _ _ F). }
  split; [|split].
  - destruct (Hp navToggle) as [t Ht]; [simpl; auto|].
    destruct (Hp navLinks) as [l Hl]; [simpl; auto|].
    split; eexists; rewrite Hh;
      (rewrite lookup_alter_ne by (vm_compute; discriminate)).
    + rewrite (lookup_closeNavigation_toggle _ t Ht). split; [reflexivity|].
      simpl. apply lookup_insert_eq.
    + rewrite (lookup_closeNavigation_links _ l Hl). split; [reflexivity|].
      simpl. apply lookup_insert_eq.
  - destruct (Hp yearElement) as [y Hy]; [simpl; auto 10|].
    eexists. rewrite Hh, lookup_alter_eq. unfold closeNavigation.
    rewrite !lookup_alter_ne by (vm_compute; discriminate).
    rewrite Hy. split; reflexivity.
  - repeat split; (eapply keeps_run; [|exact R]); keeps_auto;
      apply keeps_storage_inPage; intros w;
      first [apply loadConfig_frame | apply renderFunnelSnapshot_storage].
Qed.

Lemma bootstrap_installs_witness :
  installed (snd (bootstrap enUS (demoBrowser ∅)))
  /\ navigationShows (snd (bootstrap enUS (demoBrowser ∅))) false
  /\ shows (snd (bootstrap enUS (demoBrowser ∅))) yearElement (lit "2026").
Proof.
  assert (R : bootstrap enUS (demoBrowser ∅)
              = (Normal tt, snd (bootstrap enUS (demoBrowser ∅)))).
  { assert (E : fst (bootstrap enUS (demoBrowser ∅)) = Normal tt)
      by (vm_compute; reflexivity).
    destruct (bootstrap enUS (demoBrowser ∅)) as [r b']. simpl in *.
    now subst r. }
  destruct (bootstrap_installs enUS (demoBrowser ∅) _ (List.Forall_nil _) R)
    as (I & _ & Nv & Y & _).
  split; [exact I|]. split; [exact Nv|]. exact Y.
Defined.

(* ===================================================================== *)
(** * Events on the installed page *)
(* ===================================================================== *)

Lemma listenersFor_app (t : EventTarget) (ty : EventType) (b : Browser)
  (l1 l2 : list (EventTarget * EventType * Listener)) :
  eventListeners b = l1 ++ l2 ->
  listenersFor t ty b
  = map snd (List.filter
               (fun l => bool_decide (fst (fst l) = t)
                         && bool_decide (snd (fst l) = ty)) l1)
    ++ map snd (List.filter
                  (fun l => bool_decide (fst (fst l) = t)
                            && bool_decide (snd (fst l) = ty)) l2).
Proof.
  intros E. unfold listenersFor. now rewrite E, List.filter_app, map_app.
Qed.

Lemma filter_early (t : EventTarget) (ty : EventType)
  (early : list (EventTarget * EventType * Listener)) :
  Forall (fun l => fst (fst l) = Document) early -> t <> Document ->
  List.filter (fun l => bool_decide (fst (fst l) = t)
                        && bool_decide (snd (fst l) = ty)) early = [].
Proof.
  intros Hf Ht. induction Hf as [|x l Hx Hl IH]; simpl; [reflexivity|].
  rewrite Hx. rewrite bool_decide_eq_false_2 by congruence. exact IH.
Qed.

Lemma filter_anchors_node (s : list N) (ty : EventType) (l : list nat) :
  List.filter (fun l => bool_decide (fst (fst l) = Node s)
                        && bool_decide (snd (fst l) = ty))
    (map (fun a => (NavAnchor a, Click, NavClose navToggle navLinks)) l) = [].
Proof. induction l as [|a l IH]; simpl; [reflexivity|exact IH]. Qed.

Lemma filter_anchors_anchor (i : nat) (l : list nat) :
  NoDup l -> In i l ->
  List.filter (fun l => bool_decide (fst (fst l) = NavAnchor i)
                        && bool_decide (snd (fst l) = Click))
    (map (fun a => (NavAnchor a, Click, NavClose navToggle navLinks)) l)
  = [(NavAnchor i, Click, NavClose navToggle navLinks)].
Proof.
  intros Hn. induction Hn as [|a l Ha Hn IH]; intros Hin; [destruct Hin|].
  simpl. destruct (decide (a = i)) as [->|Hne].
  - rewrite bool_decide_eq_true_2 by reflexivity. simpl. f_equal.
    clear IH Hin Hn. induction l as [|c l IH]; simpl; [reflexivity|].
    rewrite bool_decide_eq_false_2.
    + apply IH. intros Hc. apply Ha. now right.
    + intros [= ->]. apply Ha. now left.
  - rewrite bool_decide_eq_false_2 by congruence. simpl.
    apply IH. destruct Hin; [contradiction|assumption].
Qed.

(** The listeners of the installed page, target by target. *)
Lemma listenersFor_node (b : Browser) (s : list N) (ty : EventType) :
  installed b ->
  listenersFor (Node s) ty b
  = map snd
      (List.filter
         (fun l => bool_decide (fst (fst l) = Node s)
                   && bool_decide (snd (fst l) = ty))
         [(Node navToggle, Click, NavToggle navToggle navLinks);
          (Node analysisForm, InputEvent, AnalysisInput analysisForm);
          (Node analysisForm, Submit,
           AnalysisSubmit analysisForm analysisFeedback);
          (Node callFormSelector, Submit,
           CallSubmit callFormSelector callFeedback);
          (Node downloadButton, Click, DownloadClick)]).
Proof.
  intros (_ & early & He & E).
  rewrite (listenersFor_app _ _ _ _ _ E).
  rewrite (filter_early _ _ _ He) by discriminate.
  unfold programListeners.
  change (?x :: map ?f ?l ++ ?r) with ([x] ++ map f l ++ r).
  rewrite !List.filter_app, filter_anchors_node. simpl.
  destruct (bool_decide (Node navToggle = Node s) && bool_decide (Click = ty));
    reflexivity.
Qed.

Lemma listenersFor_anchor (b : Browser) (i : nat) :
  installed b -> (i < navAnchors b)%nat ->
  listenersFor (NavAnchor i) Click b = [NavClose navToggle navLinks].
Proof.
  intros (_ & early & He & E) Hi.
  rewrite (listenersFor_app _ _ _ _ _ E).
  rewrite (filter_early _ _ _ He) by discriminate.
  unfold programListeners.
  change (?x :: map ?f ?l ++ ?r) with ([x] ++ map f l ++ r).
  rewrite !List.filter_app, filter_anchors_anchor.
  - reflexivity.
  - apply NoDup_seq.
  - apply in_seq. lia.
Qed.

(** Events leave the listeners and the elements of the page. *)
Lemma dispatchEvent_listeners (H : Host) (t : EventTarget) (ty : EventType)
  (b : Browser) :
  Forall (fun l => l <> Bootstrap) (listenersFor t ty b) ->
  eventListeners (snd (dispatchEvent H t ty b)) = eventListeners b
  /\ navAnchors (snd (dispatchEvent H t ty b)) = navAnchors b.
Proof.
  intros Hl. unfold dispatchEvent.
  set (ls := listenersFor t ty b) in *.
  assert (K : keeps eventListeners (invokeListeners H ls)
              /\ keeps navAnchors (invokeListeners H ls)).
  { induction Hl as [|l ls Hx Hl IH]; simpl.
    - split; apply keeps_ret.
    - destruct IH as [IH1 IH2].
      split; (apply keeps_bind; [|intros _; assumption]);
        (apply keeps_tryCatch; [|intros e; keeps_field]);
        (destruct l; [..|now destruct Hx]);
        unfold runListener, saveFile; keeps_auto. }
  destruct K as [K1 K2].
  split.
  - apply (keeps_bind eventListeners); [keeps_field|]. intros _.
    apply keeps_bind; [exact K1|]. intros _. intros b0.
    unfold defaultAction. destruct ty, t, b0; simpl; try reflexivity.
    now destruct canceled0.
  - apply (keeps_bind navAnchors); [keeps_field|]. intros _.
    apply keeps_bind; [exact K2|]. intros _. intros b0.
    unfold defaultAction. destruct ty, t, b0; simpl; try reflexivity.
    now destruct canceled0.
Qed.

Lemma dispatchEvent_single (H : Host) (t : EventTarget) (ty : EventType)
  (l : Listener) (b : Browser) :
  listenersFor t ty b = [l] ->
  dispatchEvent H t ty b
  = match runListener H l (withCanceled false b) with
    | (Normal _, b1) => defaultAction t ty b1
    | (Throw e, b1) =>
        defaultAction t ty (withReportedErrors (reportedErrors b1 ++ [e]) b1)
    | (Untyped, b1) => (Untyped, b1)
    end.
Proof.
  intros E. unfold dispatchEvent. rewrite E. unfold bindJS. simpl.
  unfold tryCatchJS, bindJS.
  destruct (runListener H l (withCanceled false b)) as [[a|e|] b1];
    reflexivity.
Qed.

Lemma dispatchEvent_installed (H : Host) (t : EventTarget) (ty : EventType)
  (b : Browser) :
  installed b -> t <> Document ->
  installed (snd (dispatchEvent H t ty b)).
Proof.
  intros I Ht.
  assert (Hl : Forall (fun l => l <> Bootstrap) (listenersFor t ty b)).
  { destruct I as (_ & early & He & E).
    rewrite (listenersFor_app _ _ _ _ _ E).
    rewrite (filter_early _ _ _ He) by exact Ht. cbn [map app].
    apply List.Forall_forall. intros l Hin. apply in_map_iff in Hin.
    destruct Hin as ([[t' ty'] l'] & <- & Hin). simpl.
    apply filter_In in Hin. destruct Hin as [Hin _].
    unfold programListeners in Hin. simpl in Hin.
    destruct Hin as [[= <- <- <-]|Hin]; [discriminate|].
    apply in_app_or in Hin. destruct Hin as [Hin|Hin].
    - apply in_map_iff in Hin. destruct Hin as (a & [= <- <- <-] & _).
      discriminate.
    - simpl in Hin.
      repeat (destruct Hin as [[= <- <- <-]|Hin]; [discriminate|]).
      destruct Hin. }
  destruct (dispatchEvent_listeners H t ty b Hl) as [L N].
  destruct I as (F & early & He & E). split.
  - rewrite <- F. apply firstMissing_ext. intros r.
    apply dispatchEvent_present.
  - exists early. split; [exact He|]. now rewrite L, N.
Qed.

(** ** The navigation *)

Lemma updateState_shows (b : Browser) (open : bool) (t l : HTMLElement) :
  htmlElements b !! navToggle = Some t ->
  htmlElements b !! navLinks = Some l ->
  exists elements,
    updateState navToggle navLinks open b
    = (Normal tt, withHtmlElements elements b)
    /\ navigationShows (withHtmlElements elements b) open.
Proof.
  intros Ht Hl. eexists. split.
  - unfold updateState, bindJS, setAttribute, updateElement. simpl.
    destruct b. reflexivity.
  - split; eexists; destruct b; simpl in *.
    + rewrite lookup_alter_ne by (vm_compute; discriminate).
      rewrite lookup_alter_eq, Ht. split; [reflexivity|].
      simpl. apply lookup_insert_eq.
    + rewrite lookup_alter_eq.
      rewrite lookup_alter_ne by (vm_compute; discriminate).
      rewrite Hl. split; [reflexivity|]. simpl. apply lookup_insert_eq.
Qed.

Lemma booleanText_true (open : bool) :
  bool_decide (Some (booleanText open) = Some (lit "true")) = open.
Proof. now destruct open. Qed.

Lemma navEvent_step (H : Host) (b : Browser) (open : bool) (e : NavEvent) :
  installed b -> navigationShows b open ->
  match e with
  | ClickAnchor i => (i < navAnchors b)%nat
  | ClickToggle => True
  end ->
  exists b',
    navEvent H e b = (Normal tt, b')
    /\ installed b' /\ navigationShows b' (menuOpen open [e])
    /\ navAnchors b' = navAnchors b.
Proof.
  intros I Nv He.
  assert (Hl : listenersFor
                 match e with
                 | ClickToggle => Node navToggle
                 | ClickAnchor i => NavAnchor i
                 end Click b
               = [match e with
                  | ClickToggle => NavToggle navToggle navLinks
                  | ClickAnchor _ => NavClose navToggle navLinks
                  end]).
  { destruct e as [|i].
    - rewrite (listenersFor_node b navToggle Click I). reflexivity.
    - now apply listenersFor_anchor. }
  assert (Hi : installed (snd (navEvent H e b)))
    by (destruct e; apply dispatchEvent_installed; auto; discriminate).
  assert (Hn : navAnchors (snd (navEvent H e b)) = navAnchors b).
  { destruct e; apply dispatchEvent_listeners; unfold navEvent in Hl |- *;
      rewrite Hl; repeat constructor; discriminate. }
  destruct Nv as ((t & Ht & At) & (l & Hlk & Al)).
  assert (Ht' : htmlElements (withCanceled false b) !! navToggle = Some t)
    by (now destruct b).
  assert (Hl' : htmlElements (withCanceled false b) !! navLinks = Some l)
    by (now destruct b).
  assert (R : exists b',
            navEvent H e b = (Normal tt, b')
            /\ navigationShows b' (menuOpen open [e])).
  { destruct e as [|i]; unfold navEvent; rewrite (dispatchEvent_single _ _ _ _ _ Hl);
      simpl runListener.
    - unfold toggleNavigation, bindJS at 1, getAttribute. cbv beta iota.
      rewrite Ht', At, booleanText_true.
      destruct (updateState_shows _ (negb open) t l Ht' Hl') as (els & -> & S).
      unfold defaultAction. eauto.
    - destruct (updateState_shows _ false t l Ht' Hl') as (els & -> & S).
      unfold defaultAction. eauto. }
  destruct R as (b' & R & S). exists b'. rewrite R in Hi, Hn. auto.
Qed.

(** X13: After [bootstrap] the menu follows the clicks: each click on the
    toggle flips it, each click on a link of the list closes it, and
    the two attributes [aria-expanded] and [data-open] always agree. *)
Theorem navigation_follows_clicks (H : Host) (l : list NavEvent)
  (b : Browser) (open : bool) :
  installed b -> navigationShows b open ->
  Forall (fun e => match e with
                   | ClickAnchor i => (i < navAnchors b)%nat
                   | ClickToggle => True
                   end) l ->
  exists b',
    forEachJS l (navEvent H) b = (Normal tt, b')
    /\ installed b' /\ navigationShows b' (menuOpen open l).
Proof.
  revert b open. induction l as [|e l IH]; intros b open I Nv Hl.
  - exists b. simpl. auto.
  - apply Forall_cons_1 in Hl. destruct Hl as [He Hl].
    destruct (navEvent_step H b open e I Nv He) as (b1 & R & I1 & N1 & A1).
    destruct (IH b1 (menuOpen open [e]) I1 N1) as (b' & R' & I' & N').
    { rewrite A1. exact Hl. }
    exists b'. simpl forEachJS. unfold bindJS. rewrite R.
    split; [exact R'|]. split; [exact I'|].
    destruct e; exact N'.
Qed.

Lemma demoInstalled_installed : installed demoInstalled.
Proof.
  split; [vm_compute; reflexivity|]. exists []. split; [constructor|].
  vm_compute. reflexivity.
Qed.

Lemma demoInstalled_closed : navigationShows demoInstalled false.
Proof. split; eexists; split; vm_compute; reflexivity. Qed.

Lemma navigation_follows_clicks_witness :
  exists b',
    forEachJS [ClickToggle; ClickAnchor 1; ClickToggle] (navEvent enUS)
      demoInstalled = (Normal tt, b')
    /\ installed b' /\ navigationShows b' true.
Proof.
  apply (navigation_follows_clicks enUS
           [ClickToggle; ClickAnchor 1; ClickToggle] demoInstalled false).
  - exact demoInstalled_installed.
  - exact demoInstalled_closed.
  - constructor; [exact I|]. constructor; [vm_compute; lia|].
    constructor; [exact I|]. constructor.
Defined.

(** ** The analysis form *)

Lemma installed_output (b : Browser) :
  installed b -> is_Some (descriptionLists b !! outputSelector).
Proof.
  intros [F _].
  pose proof (firstMissing_none _ _ (ListElement, outputSelector) F) as P.
  unfold present, querySelectorList in P. simpl in P.
  destruct (descriptionLists b !! outputSelector); [eauto|].
  discriminate P. auto 10.
Qed.

Lemma installed_html (b : Browser) (s : list N) :
  installed b -> In (AnyElement, s) (required false) ->
  is_Some (htmlElements b !! s).
Proof.
  intros [F _] Hin. apply present_html.
  now apply (firstMissing_none _ _ _ F).
Qed.

Lemma installed_form (b : Browser) (s : list N) :
  installed b -> In (FormElement, s) (required false) ->
  s ∈ formElements b.
Proof.
  intros [F _] Hin.
  pose proof (firstMissing_none _ _ _ F Hin) as P.
  unfold present, querySelectorForms in P. simpl in P.
  case_bool_decide; [assumption|discriminate].
Qed.

(** X14: An [input] event on the analysis form redraws the snapshot from the
    fields as they are, and does nothing else: the store is not
    written (only a submit saves), no message, no timer. *)
Theorem input_redraws_snapshot (H : Host) (b : Browser) :
  installed b ->
  dispatchEvent H (Node analysisForm) InputEvent b
  = (Normal tt,
     withDescriptionLists
       (<[outputSelector := snapshotChildren H (readFunnelConfig (formNow b))]>
          (descriptionLists b))
       (withCanceled false b)).
Proof.
  intros I.
  rewrite (dispatchEvent_single H _ _ (AnalysisInput analysisForm));
    [|rewrite (listenersFor_node b analysisForm InputEvent I); reflexivity].
  simpl runListener. unfold updateOutput, bindJS at 1, formState.
  cbv beta iota zeta. rewrite inPage_render.
  destruct (installed_output b I) as [old Ho].
  replace (descriptionLists (withCanceled false b)) with (descriptionLists b)
    by (now destruct b).
  rewrite Ho. unfold defaultAction. unfold formNow.
  now destruct b.
Qed.

Lemma input_redraws_snapshot_witness :
  fst (dispatchEvent enUS (Node analysisForm) InputEvent demoInstalled)
  = Normal tt
  /\ storageArea
       (snd (dispatchEvent enUS (Node analysisForm) InputEvent demoInstalled))
     = storageArea demoInstalled.
Proof.
  rewrite (input_redraws_snapshot enUS demoInstalled demoInstalled_installed).
  split; [reflexivity|]. now destruct demoInstalled.
Defined.

Lemma persistConfig_same_store (config : FunnelConfig) (w1 w2 : World) :
  localStorage w1 = localStorage w2 -> console w1 = console w2 ->
  localStorage (snd (persistConfig config w1))
  = localStorage (snd (persistConfig config w2))
  /\ console (snd (persistConfig config w1))
     = console (snd (persistConfig config w2)).
Proof.
  intros Es Ec. unfold persistConfig, tryCatch, setItem, consoleWarn.
  cbv beta zeta. rewrite Es.
  destruct (accessible (localStorage w2)); [|simpl; now rewrite Es, Ec].
  destruct (withinQuota _ _); simpl; now rewrite ?Es, ?Ec.
Qed.

Lemma submitForm_run (H : Host) (b : Browser) :
  installed b -> submitForm H b = (Normal tt, afterSubmit H b).
Proof.
  intros I. unfold submitForm.
  rewrite (dispatchEvent_single H _ _
             (AnalysisSubmit analysisForm analysisFeedback));
    [|rewrite (listenersFor_node b analysisForm Submit I); reflexivity].
  simpl runListener. unfold submitAnalysis.
  unfold bindJS at 1, preventDefault. cbv beta iota.
  unfold bindJS at 1, formState. cbv beta iota zeta.
  unfold bindJS at 1. rewrite inPage_render.
  destruct (installed_output b I) as [old Ho].
  replace (descriptionLists (withCanceled true (withCanceled false b)))
    with (descriptionLists b) by (now destruct b).
  rewrite Ho.
  unfold bindJS at 1.
  set (config := readFunnelConfig _).
  assert (Ec : config = readFunnelConfig (formNow b))
    by (unfold config, formNow; now destruct b).
  clearbody config. subst config.
  set (config := readFunnelConfig (formNow b)).
  set (b1 := withDescriptionLists _ _).
  destruct (persistConfig_same_store config (view b1) (view b)) as [Ps Pc];
    [now destruct b|now destruct b|].
  unfold inPage.
  assert (Hp : keepsLists (persistConfig config)) by apply keepsLists_persist.
  pose proof (persistConfig_document config (view b1)) as Pd.
  pose proof (persistConfig_cases config (view b1)) as Pr.
  assert (Er : fst (persistConfig config (view b1)) = Normal tt).
  { destruct (setItem _ _ (view b1)) as [[[]|e|] w0]; try contradiction;
      now rewrite Pr. }
  destruct (persistConfig config (view b1)) as [r w'] eqn:Ew.
  simpl in Er, Ps, Pc, Pd. subst r.
  unfold bindJS, setTextContent, updateElement, setTimeout, defaultAction.
  simpl. unfold afterSubmit. fold config. rewrite <- Ps, <- Pc, Pd.
  subst b1. destruct b. unfold formNow in *. simpl. reflexivity.
Qed.

Lemma installed_frame (b b' : Browser) :
  installed b ->
  (forall r, present b' r = present b r) ->
  eventListeners b' = eventListeners b -> navAnchors b' = navAnchors b ->
  installed b'.
Proof.
  intros (F & early & He & E) Hp Hl Hn. split.
  - rewrite <- F. now apply firstMissing_ext.
  - exists early. split; [exact He|]. now rewrite Hl, Hn.
Qed.

Lemma afterSubmit_installed (H : Host) (b : Browser) :
  installed b -> installed (afterSubmit H b).
Proof.
  intros I. pose proof (dispatchEvent_installed H (Node analysisForm) Submit b I)
    as I'.
  fold (submitForm H) in I'. rewrite (submitForm_run H b I) in I'.
  apply I'. discriminate.
Qed.

(** X15: A submit of the analysis form draws the snapshot of the fields,
    writes the configuration to the store, shows the message and starts
    the timer that clears it six seconds later; the form itself is not
    submitted and its fields stay as they are.  When the store refuses
    the write, a warning is logged and the store keeps what it had, but
    the message that the plan was saved is shown all the same. *)
Theorem submit_saves_and_shows (H : Host) (b : Browser) :
  installed b ->
  let config := readFunnelConfig (formNow b) in
  exists b',
    submitForm H b = (Normal tt, b')
    /\ installed b'
    /\ descriptionLists b' !! outputSelector
       = Some (snapshotChildren H config)
    /\ shows b' analysisFeedback savedMessage
    /\ timers b'
       = timers b
           ++ [((currentTime b + 6000)%N, ClearFeedback analysisFeedback)]
    /\ submissions b' = submissions b
    /\ inputElements b' = inputElements b
    /\ reportedErrors b' = reportedErrors b
    /\ (storeAccepts (view b) (JSON_stringify config) ->
        items (storageArea b') !! storageKey = Some (JSON_stringify config)
        /\ consoleLog b' = consoleLog b)
    /\ (~ storeAccepts (view b) (JSON_stringify config) ->
        storageArea b' = storageArea b
        /\ exists e,
             consoleLog b'
             = consoleLog b
                 ++ [(lit "Unable to persist funnel configuration", e)]).
Proof.
  intros I config. exists (afterSubmit H b).
  split; [apply submitForm_run, I|].
  split; [apply afterSubmit_installed, I|].
  destruct (installed_html b analysisFeedback I) as [fb Hfb]; [simpl; auto|].
  unfold afterSubmit. fold config.
  split; [destruct b; simpl; apply lookup_insert_eq|].
  split.
  { exists (mkHTMLElement (attributes fb) savedMessage).
    destruct b; simpl in *. now rewrite lookup_alter_eq, Hfb. }
  split; [now destruct b|]. split; [now destruct b|].
  split; [now destruct b|]. split; [now destruct b|].
  split.
  - intros Hs. rewrite (persistConfig_stores config (view b) Hs).
    destruct b; simpl. split; [apply lookup_insert_eq|reflexivity].
  - intros Hn. pose proof (persistConfig_cases config (view b)) as P.
    unfold setItem in P. cbv zeta in P.
    destruct (accessible (localStorage (view b))) eqn:Ha.
    + destruct (withinQuota _ _) eqn:Hq.
      * destruct Hn. now split.
      * rewrite P. destruct b; simpl. split; [reflexivity|eauto].
    + rewrite P. destruct b; simpl. split; [reflexivity|eauto].
Qed.

Lemma submit_saves_and_shows_witness :
  exists b',
    submitForm enUS demoInstalled = (Normal tt, b')
    /\ items (storageArea b') !! storageKey
       = Some (JSON_stringify (readFunnelConfig acmeForm))
    /\ shows b' analysisFeedback savedMessage
    /\ submissions b' = [].
Proof.
  destruct (submit_saves_and_shows enUS demoInstalled demoInstalled_installed)
    as (b' & R & _ & _ & S & _ & Sub & _ & _ & St & _).
  exists b'. split; [exact R|]. split; [|split; [exact S|]].
  - replace (readFunnelConfig acmeForm)
      with (readFunnelConfig (formNow demoInstalled))
      by (vm_compute; reflexivity).
    apply St. split; vm_compute; reflexivity.
  - rewrite Sub. vm_compute. reflexivity.
Defined.

(** ** The timer of the message *)

Lemma elapse_idle (ms : N) (b : Browser) :
  match earliest (timers b) with
  | Some t => (currentTime b + ms < t)%N
  | None => True
  end ->
  elapse ms b = (Normal tt, withCurrentTime (currentTime b + ms)%N b).
Proof.
  intros Hd. unfold elapse, bindJS.
  destruct (timers b) as [|[t task] r] eqn:Et; simpl.
  - reflexivity.
  - rewrite Et. simpl in Hd |- *.
    rewrite (proj2 (N.leb_gt _ _) Hd). reflexivity.
Qed.

(** The one timer of a submit, once it is due. *)
Lemma elapse_clear (ms : N) (b : Browser) (t : N) (element : list N) :
  timers b = [(t, ClearFeedback element)] ->
  (t <= currentTime b + ms)%N ->
  elapse ms b
  = (Normal tt,
     withCurrentTime (currentTime b + ms)%N
       (withHtmlElements
          (alter (fun e => mkHTMLElement (attributes e) []) element
                 (htmlElements b))
          (withTimers [] b))).
Proof.
  intros Et Hd. unfold elapse, bindJS. rewrite Et. simpl.
  rewrite Et. simpl. rewrite (proj2 (N.leb_le _ _) Hd), N.eqb_refl.
  unfold tryCatchJS, bindJS, setTextContent, updateElement. simpl.
  now destruct b.
Qed.

(** The earlier of two timers, due before the other. *)
Lemma elapse_clear_first (ms : N) (b : Browser) (t1 t2 : N)
  (element : list N) (task : TimerTask) :
  timers b = [(t1, ClearFeedback element); (t2, task)] ->
  (t1 <= currentTime b + ms < t2)%N ->
  elapse ms b
  = (Normal tt,
     withCurrentTime (currentTime b + ms)%N
       (withHtmlElements
          (alter (fun e => mkHTMLElement (attributes e) []) element
                 (htmlElements b))
          (withTimers [(t2, task)] b))).
Proof.
  intros Et Hd. destruct b; simpl in *. subst timers0.
  unfold elapse, bindJS. simpl.
  replace (N.min t1 t2) with t1 by lia.
  rewrite (proj2 (N.leb_le t1 _)) by lia. rewrite N.eqb_refl.
  unfold tryCatchJS, bindJS, setTextContent, updateElement. simpl.
  rewrite (proj2 (N.leb_gt _ _)) by lia. reflexivity.
Qed.

(** X16: The message of a submit stays for six seconds and is then cleared:
    with no other timer pending, the feedback element shows it at any
    time before 6000 ms have passed and is empty from then on. *)
Theorem feedback_cleared_after_six_seconds (H : Host) (b : Browser)
  (ms : N) :
  installed b -> timers b = [] ->
  exists b',
    (submitForm H ;;; elapse ms)%js b = (Normal tt, b')
    /\ shows b' analysisFeedback
         (if (ms <? 6000)%N then savedMessage else [])
    /\ timers b'
       = (if (ms <? 6000)%N
          then [((currentTime b + 6000)%N, ClearFeedback analysisFeedback)]
          else []).
Proof.
  intros I Ht. unfold bindJS. rewrite (submitForm_run H b I).
  destruct (installed_html b analysisFeedback I) as [fb Hfb]; [simpl; auto|].
  assert (Et : timers (afterSubmit H b)
               = [((currentTime b + 6000)%N, ClearFeedback analysisFeedback)])
    by (unfold afterSubmit; destruct b; simpl in *; now subst).
  assert (Ec : currentTime (afterSubmit H b) = currentTime b)
    by (unfold afterSubmit; now destruct b).
  assert (Eh : htmlElements (afterSubmit H b) !! analysisFeedback
               = Some (mkHTMLElement (attributes fb) savedMessage)).
  { unfold afterSubmit. destruct b; simpl in *.
    now rewrite lookup_alter_eq, Hfb. }
  destruct (N.ltb_spec ms 6000) as [Hlt|Hge].
  - rewrite elapse_idle; [|rewrite Et, Ec; simpl; lia].
    eexists. split; [reflexivity|]. split.
    + exists (mkHTMLElement (attributes fb) savedMessage).
      split; [|reflexivity].
      destruct (afterSubmit H b); simpl in *. exact Eh.
    + destruct (afterSubmit H b); simpl in *. exact Et.
  - rewrite (elapse_clear ms _ _ _ Et); [|rewrite Ec; lia].
    eexists. split; [reflexivity|]. split.
    + exists (mkHTMLElement (attributes fb) []). split; [|reflexivity].
      destruct (afterSubmit H b); simpl in *.
      rewrite lookup_alter_eq, Eh. reflexivity.
    + now destruct (afterSubmit H b).
Qed.

Lemma feedback_cleared_after_six_seconds_witness :
  (exists b',
     (submitForm enUS ;;; elapse 5999)%js demoInstalled = (Normal tt, b')
     /\ shows b' analysisFeedback savedMessage)
  /\ (exists b',
        (submitForm enUS ;;; elapse 6000)%js demoInstalled = (Normal tt, b')
        /\ shows b' analysisFeedback []).
Proof.
  assert (Ht : timers demoInstalled = []) by (vm_compute; reflexivity).
  split.
  - destruct (feedback_cleared_after_six_seconds enUS demoInstalled 5999
                demoInstalled_installed Ht) as (b' & R & S & _).
    exists b'. split; [exact R|exact S].
  - destruct (feedback_cleared_after_six_seconds enUS demoInstalled 6000
                demoInstalled_installed Ht) as (b' & R & S & _).
    exists b'. split; [exact R|exact S].
Defined.

(** X17: The timer of an earlier submit is not cancelled by a later one: a
    second submit [d] ms after the first shows the message again, and
    the timer of the first clears it [6000 - d] ms later, before its own
    six seconds are over; the timer of the second is still pending. *)
Theorem feedback_cleared_early (H : Host) (b : Browser) (d : N) :
  installed b -> timers b = [] -> (0 < d < 6000)%N ->
  exists b1 b2,
    (submitForm H ;;; elapse d ;;; submitForm H)%js b = (Normal tt, b1)
    /\ shows b1 analysisFeedback savedMessage
    /\ elapse (6000 - d) b1 = (Normal tt, b2)
    /\ shows b2 analysisFeedback []
    /\ timers b2
       = [((currentTime b + d + 6000)%N, ClearFeedback analysisFeedback)].
Proof.
  intros I Ht Hd. unfold bindJS. rewrite (submitForm_run H b I).
  pose proof (afterSubmit_installed H b I) as I1.
  assert (Et : timers (afterSubmit H b)
               = [((currentTime b + 6000)%N, ClearFeedback analysisFeedback)])
    by (unfold afterSubmit; destruct b; simpl in *; now subst).
  assert (Ec : currentTime (afterSubmit H b) = currentTime b)
    by (unfold afterSubmit; now destruct b).
  rewrite elapse_idle; [|rewrite Et, Ec; simpl; lia].
  set (bw := withCurrentTime _ _).
  assert (Iw : installed bw).
  { apply (installed_frame _ _ I1); subst bw;
      [intros r; apply present_ext|..]; now destruct (afterSubmit H b). }
  rewrite (submitForm_run H bw Iw).
  destruct (installed_html bw analysisFeedback Iw) as [fb Hfb]; [simpl; auto|].
  assert (Et2 : timers (afterSubmit H bw)
                = [((currentTime b + 6000)%N, ClearFeedback analysisFeedback);
                   ((currentTime b + d + 6000)%N,
                    ClearFeedback analysisFeedback)]).
  { unfold afterSubmit. subst bw. rewrite Ec.
    destruct (afterSubmit H b); simpl in *. now subst. }
  assert (Ec2 : currentTime (afterSubmit H bw) = (currentTime b + d)%N).
  { unfold afterSubmit. subst bw. rewrite Ec.
    now destruct (afterSubmit H b). }
  assert (Eh : htmlElements (afterSubmit H bw) !! analysisFeedback
               = Some (mkHTMLElement (attributes fb) savedMessage)).
  { unfold afterSubmit. destruct bw; simpl in *.
    now rewrite lookup_alter_eq, Hfb. }
  eexists. eexists. split; [reflexivity|]. split.
  { eexists. split; [exact Eh|reflexivity]. }
  assert (R := elapse_clear_first (6000 - d) (afterSubmit H bw) _ _ _ _ Et2).
  rewrite Ec2 in R. specialize (R ltac:(lia)).
  rewrite R. split; [reflexivity|]. split.
  - exists (mkHTMLElement (attributes fb) []). split; [|reflexivity].
    destruct (afterSubmit H bw); simpl in *.
    rewrite lookup_alter_eq, Eh. reflexivity.
  - now destruct (afterSubmit H bw).
Qed.

Lemma feedback_cleared_early_witness :
  exists b1 b2,
    (submitForm enUS ;;; elapse 2000 ;;; submitForm enUS)%js demoInstalled
    = (Normal tt, b1)
    /\ shows b1 analysisFeedback savedMessage
    /\ elapse 4000 b1 = (Normal tt, b2)
    /\ shows b2 analysisFeedback [].
Proof.
  assert (Ht : timers demoInstalled = []) by (vm_compute; reflexivity).
  destruct (feedback_cleared_early enUS demoInstalled 2000
              demoInstalled_installed Ht ltac:(lia))
    as (b1 & b2 & R1 & S1 & R2 & S2 & _).
  exists b1, b2. auto.
Defined.

(** ** The download button *)

Lemma downloadBrief_stringified (H : Host) (w : World)
  (config : FunnelConfig) :
  stringSafe config = true ->
  accessible (localStorage w) = true ->
  items (localStorage w) !! storageKey = Some (JSON_stringify config) ->
  downloadBrief H w = (Normal (briefFile (briefLines H config)), w).
Proof.
  intros Hsafe Ha Hk. unfold downloadBrief, bind.
  now rewrite (briefConfig_stored w w (toValue config) config
                 (loadConfig_stringified w config Hsafe Ha Hk)
                 (asFunnelConfig_toValue config)).
Qed.

Lemma downloadBrief_unset (H : Host) (w : World) (form : HTMLFormElement) :
  accessible (localStorage w) = true ->
  items (localStorage w) !! storageKey = None ->
  forms (document w) !! formSelector = Some form ->
  downloadBrief H w
  = (Normal (briefFile (briefLines H (readFunnelConfig form))), w).
Proof.
  intros Ha Hk Hf. unfold downloadBrief, bind.
  now rewrite (briefConfig_form w w VUndefined form
                 (loadConfig_blank w Ha (or_introl Hk)) (or_introl eq_refl) Hf).
Qed.

Lemma formsOf_lookup (b : Browser) (s : list N) :
  s ∈ formElements b ->
  formsOf b !! s = Some (mkForm (entryListOf s (inputElements b))).
Proof.
  unfold formsOf. generalize (inputElements b). intros inputs.
  induction (formElements b) as [|f l IH]; intros Hin.
  - now apply elem_of_nil in Hin.
  - simpl. destruct (decide (f = s)) as [->|Hne].
    + apply lookup_insert_eq.
    + rewrite lookup_insert_ne by exact Hne. apply IH.
      apply elem_of_cons in Hin. destruct Hin; [congruence|assumption].
Qed.

Lemma clickDownloadButton_run (H : Host) (b : Browser) (file : Download) :
  installed b ->
  downloadBrief H (view b) = (Normal file, view b) ->
  clickDownloadButton H b
  = (Normal tt, withDownloads (downloads b ++ [file]) (withCanceled false b)).
Proof.
  intros I D. unfold clickDownloadButton.
  rewrite (dispatchEvent_single H _ _ DownloadClick);
    [|rewrite (listenersFor_node b downloadButton Click I); reflexivity].
  simpl runListener. unfold clickDownload, bindJS, inPage.
  replace (view (withCanceled false b)) with (view b) by (now destruct b).
  rewrite D. unfold saveFile, defaultAction. now destruct b.
Qed.

(** X18: The download button hands over one file, the brief of what is
    stored: clicked after a submit whose configuration is string-safe
    and was taken by the store, it gives the brief of the fields as they
    were submitted; clicked while the store holds nothing, it gives the
    brief of the fields as they are. *)
Theorem download_after_submit (H : Host) (b : Browser) :
  installed b ->
  let config := readFunnelConfig (formNow b) in
  (stringSafe config = true ->
   storeAccepts (view b) (JSON_stringify config) ->
   exists b',
     (submitForm H ;;; clickDownloadButton H)%js b = (Normal tt, b')
     /\ downloads b' = downloads b ++ [briefFile (briefLines H config)])
  /\ (accessible (storageArea b) = true ->
      items (storageArea b) !! storageKey = None ->
      exists b',
        clickDownloadButton H b = (Normal tt, b')
        /\ downloads b' = downloads b ++ [briefFile (briefLines H config)]
        /\ storageArea b' = storageArea b).
Proof.
  intros I config. split.
  - intros Hsafe Hs. unfold bindJS. rewrite (submitForm_run H b I).
    pose proof (afterSubmit_installed H b I) as I1.
    rewrite (clickDownloadButton_run H _ (briefFile (briefLines H config)) I1).
    + eexists. split; [reflexivity|]. unfold afterSubmit. now destruct b.
    + apply downloadBrief_stringified; [exact Hsafe| |];
        unfold afterSubmit; fold config;
        rewrite (persistConfig_stores config (view b) Hs);
        destruct b; simpl; [reflexivity|apply lookup_insert_eq].
  - intros Ha Hk.
    rewrite (clickDownloadButton_run H _ (briefFile (briefLines H config)) I).
    + eexists. split; [reflexivity|]. now destruct b.
    + apply downloadBrief_unset; [exact Ha|exact Hk|].
      simpl. apply formsOf_lookup, (installed_form b analysisForm I).
      simpl. auto.
Qed.

Lemma download_after_submit_witness :
  exists b',
    (submitForm enUS ;;; clickDownloadButton enUS)%js demoInstalled
    = (Normal tt, b')
    /\ downloads b'
       = [briefFile (briefLines enUS (readFunnelConfig acmeForm))].
Proof.
  destruct (download_after_submit enUS demoInstalled demoInstalled_installed)
    as [Hsub _].
  destruct Hsub as (b' & R & D);
    [vm_compute; reflexivity | split; vm_compute; reflexivity|].
  exists b'. split; [exact R|]. rewrite D. vm_compute. reflexivity.
Defined.

(** ** The call form *)

(** X19: A submit of the call form thanks the caller by the text of the
    [name] field as it stands, untrimmed, even when it is empty; only a
    form without a [name] field is thanked as [there].  The fields of
    the call form then go back to their defaults, the other inputs of
    the page stay, nothing is stored, and the form is not submitted. *)
Theorem call_form_thanks (H : Host) (b : Browser) :
  installed b ->
  let entry := formDataGet (lit "name")
                 (entryListOf callFormSelector (inputElements b)) in
  let name := match entry with
              | Some v => entryToString v
              | None => lit "there"
              end in
  exists b',
    dispatchEvent H (Node callFormSelector) Submit b = (Normal tt, b')
    /\ shows b' callFeedback
         (lit "Thanks " ++ name
            ++ lit ", your strategy call request is locked in. Expect a confirmation email shortly.")
    /\ inputElements b'
       = map (fun i => if ownedBy callFormSelector i then resetInput i else i)
             (inputElements b)
    /\ formNow b' = formNow b
    /\ storageArea b' = storageArea b
    /\ submissions b' = submissions b
    /\ timers b' = timers b.
Proof.
  intros I entry name.
  destruct (installed_html b callFeedback I) as [fb Hfb]; [simpl; auto 10|].
  rewrite (dispatchEvent_single H _ _ (CallSubmit callFormSelector callFeedback));
    [|rewrite (listenersFor_node b callFormSelector Submit I); reflexivity].
  cbn [runListener]. unfold submitCall, bindJS, preventDefault, formState,
    setTextContent, updateElement, resetForm, defaultAction.
  cbv beta iota zeta. destruct b. browser_simpl. cbn [newFormData entryList].
  fold entry. fold name.
  eexists. split; [reflexivity|]. browser_simpl.
  split; [|split; [reflexivity|split]].
  - unfold shows. browser_simpl. eexists.
    rewrite lookup_alter_eq, Hfb. split; reflexivity.
  - unfold formNow, entryListOf. browser_simpl. f_equal. f_equal.
    clear. induction inputElements0 as [|i l IH]; [reflexivity|].
    cbn [map List.filter].
    destruct (ownedBy callFormSelector i) eqn:Ho.
    + unfold ownedBy in Ho. apply bool_decide_eq_true in Ho.
      assert (Hr : ownedBy analysisForm (resetInput i) = false)
        by (unfold ownedBy; cbn [resetInput formOwner]; rewrite Ho;
            apply bool_decide_eq_false_2; vm_compute; discriminate).
      assert (Hi : ownedBy analysisForm i = false)
        by (unfold ownedBy; rewrite Ho;
            apply bool_decide_eq_false_2; vm_compute; discriminate).
      rewrite Hr, Hi. exact IH.
    + destruct (ownedBy analysisForm i); [now rewrite IH|exact IH].
  - auto.
Qed.

Lemma call_form_thanks_witness :
  exists b',
    dispatchEvent enUS (Node callFormSelector) Submit demoInstalled
    = (Normal tt, b')
    /\ shows b' callFeedback
         (lit "Thanks Dana, your strategy call request is locked in. Expect a confirmation email shortly.").
Proof.
  destruct (call_form_thanks enUS demoInstalled demoInstalled_installed)
    as (b' & R & S & _).
  exists b'. split; [exact R|].
  replace (formDataGet (lit "name")
             (entryListOf callFormSelector (inputElements demoInstalled)))
    with (Some (EntryString (lit "Dana"))) in S
    by (vm_compute; reflexivity).
  exact S.
Defined.

(** ** What [bootstrap] draws *)

Lemma inPage_normal_render (H : Host) (config : FunnelConfig) (b b' : Browser)
  (x : unit) :
  inPage (renderFunnelSnapshot H config) b = (Normal x, b') ->
  b' = withDescriptionLists
         (<[outputSelector := snapshotChildren H config]> (descriptionLists b))
         b.
Proof.
  rewrite inPage_render.
  destruct (descriptionLists b !! outputSelector); [|discriminate].
  now intros [= <-].
Qed.

Lemma setupAnalysisForm_draws (H : Host) (b b' : Browser) (x : unit) :
  setupAnalysisForm H b = (Normal x, b') ->
  exists v,
    fst (loadConfig (view b)) = Normal v
    /\ descriptionLists b' !! outputSelector
       = Some (snapshotChildren H
                 match asFunnelConfig v with
                 | Some config => config
                 | None => readFunnelConfig (formNow b)
                 end)
    /\ (truthy v = false -> inputElements b' = inputElements b).
Proof.
  unfold setupAnalysisForm. intros R.
  apply bindJS_normal in R. destruct R as (form & b1 & E1 & R).
  apply queryElementJS_normal in E1. destruct E1 as [Q ->].
  apply querySelectorForms_some in Q. destruct Q as [-> _].
  apply bindJS_normal in R. destruct R as (feedback & b2 & E2 & R).
  apply queryElementJS_normal in E2. destruct E2 as [Q ->].
  apply bindJS_normal in R. destruct R as (v & b3 & E3 & R).
  apply bindJS_normal in R. destruct R as (u & b4 & E4 & R).
  apply bindJS_normal in R. destruct R as (u' & b5 & E5 & R).
  exists v. split; [now rewrite <- fst_inPage, E3|].
  assert (K3 : inputElements b3 = inputElements b
               /\ descriptionLists b3 = descriptionLists b).
  { split; [eapply keeps_run; [|exact E3]; keeps_auto|].
    unfold inPage in E3. pose proof (loadConfig_frame (view b)) as [_ Fd].
    destruct (loadConfig (view b)) as [r w]. injection E3 as _ <-.
    simpl in Fd. rewrite Fd. now destruct b. }
  destruct K3 as [Ki Kd].
  assert (K : descriptionLists b' = descriptionLists b4
              /\ inputElements b' = inputElements b4).
  { unfold addEventListener in E5, R. injection E5 as _ <-.
    injection R as _ <-. now destruct b4. }
  destruct K as [-> ->].
  destruct (truthy v) eqn:Tv.
  - destruct (asFunnelConfig v) as [config|];
      [|now apply stored_branch_stops in E4].
    apply bindJS_normal in E4. destruct E4 as (u2 & bs & Es & Er).
    apply inPage_normal_render in Er. subst b4. split; [|discriminate].
    destruct bs; simpl. apply lookup_insert_eq.
  - assert (A : asFunnelConfig v = None).
    { destruct v as [| |flag|z|s|l|m]; try reflexivity; discriminate. }
    rewrite A. unfold updateOutput, bindJS, formState in E4.
    cbv beta iota zeta in E4. apply inPage_normal_render in E4. subst b4.
    split.
    + unfold formNow. rewrite <- Ki. destruct b3; simpl.
      apply lookup_insert_eq.
    + intros _. rewrite <- Ki. now destruct b3.
Qed.

(** X20: The snapshot after [bootstrap]: when the store holds a
    configuration, it is drawn, whatever the fields of the form hold;
    when the store holds nothing usable (no entry, an empty string, text
    that is not JSON, a falsy JSON value), the fields are read and drawn
    and left as they are. *)
Theorem bootstrap_draws_stored_or_form (H : Host) (b b' : Browser) :
  bootstrap H b = (Normal tt, b') ->
  exists v,
    fst (loadConfig (view b)) = Normal v
    /\ descriptionLists b' !! outputSelector
       = Some (snapshotChildren H
                 match asFunnelConfig v with
                 | Some config => config
                 | None => readFunnelConfig (formNow b)
                 end)
    /\ (truthy v = false -> inputElements b' = inputElements b)
    /\ (forall config,
          stringSafe config = true ->
          accessible (storageArea b) = true ->
          items (storageArea b) !! storageKey = Some (JSON_stringify config) ->
          v = toValue config /\ asFunnelConfig v = Some config).
Proof.
  unfold bootstrap. intros R.
  apply bindJS_normal in R. destruct R as (u1 & b1 & E1 & R).
  apply bindJS_normal in R. destruct R as (u2 & b2 & E2 & R).
  assert (K1 : storageArea b1 = storageArea b
               /\ inputElements b1 = inputElements b)
    by (split; (eapply keeps_run; [|exact E1]); keeps_auto).
  destruct K1 as [Ks Ki].
  assert (K2 : descriptionLists b' = descriptionLists b2
               /\ inputElements b' = inputElements b2)
    by (split; (eapply keeps_run; [|exact R]); keeps_auto).
  destruct K2 as [Kd Kj].
  destruct (setupAnalysisForm_draws H b1 b2 u2 E2) as (v & L & D & I).
  exists v.
  assert (L' : fst (loadConfig (view b)) = Normal v).
  { rewrite <- L. apply loadConfig_storage. simpl. now rewrite Ks. }
  split; [exact L'|]. split; [|split].
  - rewrite Kd, D. unfold formNow. now rewrite Ki.
  - intros Tv. now rewrite Kj, (I Tv).
  - intros config Hsafe Ha Hk.
    pose proof (loadConfig_stringified (view b) config Hsafe Ha Hk) as Ls.
    rewrite Ls in L'. simpl in L'. injection L' as <-.
    split; [reflexivity|apply asFunnelConfig_toValue].
Qed.

Lemma bootstrap_draws_stored_or_form_witness :
  let b := demoBrowser (<[storageKey := JSON_stringify retentionConfig]> ∅) in
  descriptionLists (snd (bootstrap enUS b)) !! outputSelector
  = Some (snapshotChildren enUS retentionConfig).
Proof.
  intros b.
  assert (R : bootstrap enUS b = (Normal tt, snd (bootstrap enUS b))).
  { assert (E : fst (bootstrap enUS b) = Normal tt)
      by (vm_compute; reflexivity).
    destruct (bootstrap enUS b) as [r b']. simpl in *. now subst r. }
  destruct (bootstrap_draws_stored_or_form enUS b _ R) as (v & _ & D & _ & S).
  assert (Hs : stringSafe retentionConfig = true) by (vm_compute; reflexivity).
  assert (Ha : accessible (storageArea b) = true) by reflexivity.
  assert (Hk : items (storageArea b) !! storageKey
               = Some (JSON_stringify retentionConfig))
    by (vm_compute; reflexivity).
  destruct (S retentionConfig Hs Ha Hk) as [_ A].
  now rewrite A in D.
Defined.
(** ** The errors of the listeners *)

Lemma returns_inPage_persist (config : FunnelConfig) :
  returns (inPage (persistConfig config)).
Proof.
  intros b. exists tt. rewrite fst_inPage.
  pose proof (persistConfig_cases config (view b)) as P.
  destruct (setItem _ _ (view b)) as [[[]|e|] w]; try contradiction;
    now rewrite P.
Qed.

Lemma needs_submitAnalysis (H : Host) (form feedback : list N) :
  needs [(ListElement, outputSelector)] (submitAnalysis H form feedback).
Proof.
  unfold submitAnalysis.
  apply (needs_bind [] [_]);
    [apply needs_plain; [intros r; present_auto|returns_auto]|intros _].
  apply (needs_bind [] [_]);
    [apply needs_plain; [intros r; present_auto|returns_auto]|intros state].
  cbv zeta.
  apply (needs_bind [_] []); [apply needs_render|intros _].
  apply needs_plain; [intros r; present_auto|].
  apply returns_bind; [apply returns_inPage_persist|intros _].
  returns_auto.
Qed.

(** With the analysis form on the page the download handler throws
    nothing but the [TypeError] of a stored object with a [null] number. *)
Lemma downloadBrief_throws (H : Host) (w : World) (e : exn) :
  fst (downloadBrief H w) = Throw e ->
  forms (document w) !! formSelector <> None ->
  e = TypeError /\ fst (briefConfig w) = Throw TypeError.
Proof.
  intros D F. unfold downloadBrief, bind in D.
  destruct (briefConfig w) as [[config|e'|] w1] eqn:B; try discriminate.
  cbn [fst] in D. injection D as ->.
  cut (e = TypeError); [now intros ->|].
  revert B. destruct (loadConfig_frame w) as (_ & Hd).
  destruct (loadConfig_returns w) as (v & w' & L).
  rewrite L in Hd. simpl in Hd.
  unfold briefConfig, bind. rewrite L.
  assert (Hq : exists form,
                 queryElement querySelectorForm (lit "#analysis-form") w'
                 = (Normal form, w')).
  { unfold queryElement, querySelectorForm. fold formSelector. rewrite Hd.
    destruct (forms (document w) !! formSelector); [eauto|congruence]. }
  destruct Hq as [f Hq].
  destruct v; cbv beta iota; rewrite ?Hq; try discriminate.
  destruct (asFunnelConfig _); [discriminate|].
  destruct (asStoredConfig _); [|discriminate].
  unfold throw. congruence.
Qed.

Lemma downloadBrief_untyped (H : Host) (w : World) :
  fst (downloadBrief H w) = Untyped -> fst (briefConfig w) = Untyped.
Proof.
  unfold downloadBrief, bind.
  now destruct (briefConfig w) as [[c|e|] w2].
Qed.

(** No listener of the program adds or removes an element or a
    listener, and none reports an error itself. *)
Lemma runListener_installed (H : Host) (l : Listener) (b : Browser) :
  installed b ->
  In l [NavToggle navToggle navLinks; NavClose navToggle navLinks;
        AnalysisInput analysisForm;
        AnalysisSubmit analysisForm analysisFeedback;
        CallSubmit callFormSelector callFeedback; DownloadClick] ->
  installed (snd (runListener H l b))
  /\ reportedErrors (snd (runListener H l b)) = reportedErrors b.
Proof.
  intros I Hin.
  assert (Hk : keeps eventListeners (runListener H l)
               /\ keeps navAnchors (runListener H l)
               /\ keeps reportedErrors (runListener H l)).
  { cbn [In] in Hin.
    repeat (destruct Hin as [<-|Hin];
            [repeat split; unfold runListener, saveFile; keeps_auto|]).
    destruct Hin. }
  destruct Hk as (K1 & K2 & K3).
  split; [|apply K3].
  apply (installed_frame b _ I); [|apply K1|apply K2].
  intros r. apply runListener_present.
Qed.


(** Every listener of the program but the download click returns on the
    installed page. *)
Lemma runListener_returns (H : Host) (l : Listener) (b : Browser) :
  installed b ->
  In l [NavToggle navToggle navLinks; NavClose navToggle navLinks;
        AnalysisInput analysisForm;
        AnalysisSubmit analysisForm analysisFeedback;
        CallSubmit callFormSelector callFeedback] ->
  fst (runListener H l b) = Normal tt.
Proof.
  intros I Hin.
  assert (F : firstMissing [(ListElement, outputSelector)] b = None).
  { destruct (installed_output b I) as [old Ho].
    unfold firstMissing, present, querySelectorList. simpl. now rewrite Ho. }
  cbn [In] in Hin. destruct Hin as [<-|[<-|[<-|[<-|[<-|[]]]]]];
    cbn [runListener].
  - assert (R : returns (toggleNavigation navToggle navLinks))
      by returns_auto.
    destruct (R b) as [[] ->]. reflexivity.
  - assert (R : returns (updateState navToggle navLinks false))
      by returns_auto.
    destruct (R b) as [[] ->]. reflexivity.
  - destruct (needs_updateOutput H analysisForm b) as [_ Nd].
    rewrite F in Nd. destruct Nd as [[] ->]. reflexivity.
  - destruct (needs_submitAnalysis H analysisForm analysisFeedback b)
      as [_ Nd].
    rewrite F in Nd. destruct Nd as [[] ->]. reflexivity.
  - assert (R : returns (submitCall callFormSelector callFeedback))
      by returns_auto.
    destruct (R b) as [[] ->]. reflexivity.
Qed.

Lemma invokeListeners_returns (H : Host) (ls : list Listener) :
  forall b : Browser,
    (forall l, In l ls ->
       In l [NavToggle navToggle navLinks; NavClose navToggle navLinks;
             AnalysisInput analysisForm;
             AnalysisSubmit analysisForm analysisFeedback;
             CallSubmit callFormSelector callFeedback]) ->
    installed b ->
    fst (invokeListeners H ls b) = Normal tt
    /\ reportedErrors (snd (invokeListeners H ls b)) = reportedErrors b.
Proof.
  induction ls as [|l ls IH]; intros b Hl I; [now split|].
  cbn [invokeListeners]. unfold bindJS, tryCatchJS.
  pose proof (runListener_returns H l b I (Hl l (or_introl eq_refl))) as R.
  destruct (runListener_installed H l b I) as (I1 & Er).
  { specialize (Hl l (or_introl eq_refl)). cbn [In] in *.
    repeat (destruct Hl as [<-|Hl]; [auto 10|]). destruct Hl. }
  destruct (runListener H l b) as [[[]|e|] b1]; try discriminate.
  cbn [fst snd] in *. rewrite <- Er.
  apply (IH b1 (fun l' Hin => Hl l' (or_intror Hin)) I1).
Qed.

(** The listeners of an event that is not the download click. *)
Lemma listenersFor_other (b : Browser) (t : EventTarget) (ty : EventType)
  (l : Listener) :
  installed b -> t <> Document ->
  ~ (t = Node downloadButton /\ ty = Click) ->
  In l (listenersFor t ty b) ->
  In l [NavToggle navToggle navLinks; NavClose navToggle navLinks;
        AnalysisInput analysisForm;
        AnalysisSubmit analysisForm analysisFeedback;
        CallSubmit callFormSelector callFeedback].
Proof.
  intros (_ & early & He & E) Ht Hd Hin.
  rewrite (listenersFor_app _ _ _ _ _ E) in Hin.
  rewrite (filter_early _ _ _ He) in Hin by exact Ht. cbn [map app] in Hin.
  apply in_map_iff in Hin. destruct Hin as ([[t' ty'] l'] & <- & Hin).
  cbn [snd]. apply filter_In in Hin. destruct Hin as [Hin Hf].
  cbn [fst snd] in Hf. apply andb_true_iff in Hf. destruct Hf as [Hf1 Hf2].
  apply bool_decide_eq_true_1 in Hf1, Hf2. subst t' ty'.
  unfold programListeners in Hin. cbn [In] in Hin.
  destruct Hin as [[= <- <- <-]|Hin]; [cbn; auto|].
  apply in_app_or in Hin. destruct Hin as [Hin|Hin].
  - apply in_map_iff in Hin. destruct Hin as (a & [= <- <- <-] & _).
    cbn; auto.
  - cbn [In] in Hin.
    destruct Hin as [[= <- <- <-]|[[= <- <- <-]|[[= <- <- <-]|[Hin|[]]]]];
      [cbn; auto 10..|].
    injection Hin as <- <- <-. now destruct Hd.
Qed.

(** X22: On the installed page no event makes a listener of the program
    fail on a missing element.  Whatever is clicked, typed or submitted, and
    whatever the fields hold, the event runs to its end, no error is
    reported and the page stays installed.  The one exception is a click
    on the download button while the store holds a value that is neither
    null nor a funnel configuration.  When that value is an object with
    [null] for [sessions] or [cpa] (what a submit stores for a number
    that is [NaN] or infinite) the listener throws a [TypeError]: it is
    reported, nothing is downloaded and the page stays installed.  For
    any other such value the brief is built from the value as it is,
    which this model leaves untyped. *)
Theorem installed_page_events_run (H : Host) (t : EventTarget)
  (ty : EventType) (b : Browser) :
  installed b -> t <> Document ->
  (fst (dispatchEvent H t ty b) = Normal tt
   /\ reportedErrors (snd (dispatchEvent H t ty b)) = reportedErrors b
   /\ installed (snd (dispatchEvent H t ty b)))
  \/ (t = Node downloadButton /\ ty = Click
      /\ ((fst (briefConfig (view b)) = Throw TypeError
           /\ fst (dispatchEvent H t ty b) = Normal tt
           /\ reportedErrors (snd (dispatchEvent H t ty b))
              = reportedErrors b ++ [TypeError]
           /\ downloads (snd (dispatchEvent H t ty b)) = downloads b
           /\ installed (snd (dispatchEvent H t ty b)))
          \/ fst (briefConfig (view b)) = Untyped)).
Proof.
  intros I Ht.
  assert (Dd : forall b1 : Browser,
            fst (defaultAction t ty b1) = Normal tt
            /\ reportedErrors (snd (defaultAction t ty b1))
               = reportedErrors b1).
  { intros b1. unfold defaultAction. destruct ty, t; try (now split).
    destruct (canceled b1); [now split|now destruct b1]. }
  destruct (decide (t = Node downloadButton /\ ty = Click)) as [[-> ->]|Hd].
  - rewrite (dispatchEvent_single H _ _ DownloadClick);
      [|rewrite (listenersFor_node b downloadButton Click I); reflexivity].
    pose proof (dispatchEvent_installed H (Node downloadButton) Click b I Ht)
      as I1.
    rewrite (dispatchEvent_single H _ _ DownloadClick) in I1;
      [|rewrite (listenersFor_node b downloadButton Click I); reflexivity].
    revert I1. cbn [runListener]. unfold clickDownload, bindJS, inPage.
    replace (view (withCanceled false b)) with (view b) by (now destruct b).
    destruct (downloadBrief H (view b)) as [[file|e|] w1] eqn:D.
    + intros I1. left. unfold saveFile, defaultAction.
      split; [reflexivity|]. split; [now destruct b|exact I1].
    + destruct (downloadBrief_throws H (view b) e) as [-> B].
      * now rewrite D.
      * cbn [view document forms]. change formSelector with analysisForm.
        rewrite (formsOf_lookup b analysisForm); [discriminate|].
        apply (installed_form b analysisForm I). simpl. auto.
      * intros I1. right. split; [reflexivity|]. split; [reflexivity|].
        left. split; [exact B|]. unfold defaultAction.
        split; [reflexivity|]. split; [now destruct b|].
        split; [now destruct b|exact I1].
    + intros _. right. split; [reflexivity|]. split; [reflexivity|].
      right. apply (downloadBrief_untyped H). now rewrite D.
  - left. split; [|split; [|now apply dispatchEvent_installed]].
    + unfold dispatchEvent, bindJS.
      destruct (invokeListeners_returns H (listenersFor t ty b)
                  (withCanceled false b)) as [R _].
      * intros l. apply (listenersFor_other b t ty l I Ht Hd).
      * apply (installed_frame b _ I);
          [intros r; apply present_ext|..]; now destruct b.
      * destruct (invokeListeners H _ _) as [[[]|e|] b1]; try discriminate.
        apply Dd.
    + unfold dispatchEvent, bindJS.
      destruct (invokeListeners_returns H (listenersFor t ty b)
                  (withCanceled false b)) as [R Er].
      * intros l. apply (listenersFor_other b t ty l I Ht Hd).
      * apply (installed_frame b _ I);
          [intros r; apply present_ext|..]; now destruct b.
      * destruct (invokeListeners H _ _) as [[[]|e|] b1]; try discriminate.
        cbn [snd] in Er. rewrite (proj2 (Dd b1)), Er. now destruct b.
Qed.

Lemma installed_page_events_run_witness :
  fst (dispatchEvent enUS (Node analysisForm) Submit demoInstalled)
  = Normal tt
  /\ reportedErrors
       (snd (dispatchEvent enUS (Node analysisForm) Submit demoInstalled))
     = reportedErrors demoInstalled.
Proof.
  destruct (installed_page_events_run enUS (Node analysisForm) Submit
              demoInstalled demoInstalled_installed ltac:(discriminate))
    as [(R & E & _)|(_ & C & _)]; [split; [exact R|exact E]|discriminate].
Defined.
(* ===================================================================== *)
(** * Restoring the form from a configuration *)
(* ===================================================================== *)

(** ** Numbers in a number field *)

Lemma span_split (p : N -> bool) (s : list N) :
  s = fst (span p s) ++ snd (span p s)
  /\ Forall (fun c => p c = true) (fst (span p s)).
Proof.
  induction s as [|c r [IH1 IH2]]; simpl; [split; [reflexivity|constructor]|].
  destruct (p c) eqn:Pc; [|split; [reflexivity|constructor]].
  destruct (span p r) as [a b]. simpl in *. split; [now f_equal|].
  now constructor.
Qed.

Lemma span_snoc (s : list N) (c : N) :
  isDigit c = false ->
  span isDigit (s ++ [c])
  = (fst (span isDigit s), snd (span isDigit s) ++ [c]).
Proof.
  intros Hc. induction s as [|d r IH]; simpl; [now rewrite Hc|].
  destruct (isDigit d); [|reflexivity].
  rewrite IH. now destruct (span isDigit r).
Qed.

Lemma Forall_digits_numChar (l : list N) :
  Forall (fun c => isDigit c = true) l ->
  Forall (fun c => numChar c = true) l.
Proof.
  apply List.Forall_impl. intros c Hc. unfold numChar. now rewrite Hc.
Qed.

(** An exponent that ends where the text ends. *)
Lemma scanExponent_snoc (r : list N) (e : Z) :
  scanExponent (r ++ [44%N]) = Some (e, [44%N]) ->
  scanExponent r = Some (e, [])
  /\ validExponent r = true
  /\ Forall (fun c => numChar c = true) r.
Proof.
  destruct r as [|c r]; [intros [= <-]; repeat split; constructor|].
  cbn [app scanExponent validExponent].
  destruct ((c =? 101) || (c =? 69))%N eqn:Ec.
  - set (r1 := match r with
               | 43%N :: r' => r' | 45%N :: r' => r' | _ => r end).
    set (neg := match r with 45%N :: _ => true | _ => false end).
    assert (E1 : match r ++ [44%N] with
                 | 43%N :: r' => (false, r')
                 | 45%N :: r' => (true, r')
                 | _ => (false, r ++ [44%N])
                 end = (neg, r1 ++ [44%N])).
    { subst r1 neg. destruct r as [|d r]; [reflexivity|]. simpl.
      destruct d as [|p]; [reflexivity|].
      do 6 (destruct p as [p|p|]; try reflexivity). }
    assert (E2 : match r with
                 | 43%N :: r' => (false, r')
                 | 45%N :: r' => (true, r')
                 | _ => (false, r)
                 end = (neg, r1)).
    { subst r1 neg. destruct r as [|d r]; [reflexivity|].
      destruct d as [|p]; [reflexivity|].
      do 6 (destruct p as [p|p|]; try reflexivity). }
    assert (Hr : Forall (fun c => numChar c = true) r1
                 -> Forall (fun c => numChar c = true) r).
    { subst r1. destruct r as [|d r]; [auto|].
      destruct d as [|p]; [auto|].
      do 6 (destruct p as [p|p|]; auto);
        intros F; constructor; auto. }
    rewrite E1, E2. rewrite (span_snoc r1 44%N eq_refl).
    destruct (span_split isDigit r1) as [S1 S2].
    destruct (span isDigit r1) as [ds r2]. cbn [fst snd] in *.
    destruct ds as [|d ds]; [discriminate|].
    intros [= <- Hr2].
    assert (r2 = []) as ->.
    { destruct r2 as [|x r2]; [reflexivity|]. destruct r2; discriminate. }
    split; [reflexivity|]. split; [reflexivity|].
    constructor; [unfold numChar; apply orb_true_iff in Ec;
                  destruct Ec as [->| ->]; now rewrite ?orb_true_r|].
    apply Hr. rewrite S1, app_nil_r. now apply Forall_digits_numChar.
  - intros [= _ Hr]. destruct r; discriminate.
Qed.

(** A JSON number that ends where the text ends is a decimal literal of
    [Number] with the same value, and a valid floating-point number of
    HTML; it holds no other character than those of a literal. *)
Lemma numChar_radix (p : N) (l : list N) :
  numChar p = true ->
  match
    (if ((p =? 120) || (p =? 88))%N then Some 16%Z
     else if ((p =? 111) || (p =? 79))%N then Some 8%Z
     else if ((p =? 98) || (p =? 66))%N then Some 2%Z
     else None)
  with
  | Some b =>
      match radixValue b 0 l with
      | Some v => Some (binary_normalize prec emax v 0 false)
      | None => None
      end
  | None => None
  end = None.
Proof.
  unfold numChar, isDigit. intros Hp.
  destruct (N.eqb_spec p 120) as [->|_]; [discriminate|].
  destruct (N.eqb_spec p 88) as [->|_]; [discriminate|].
  destruct (N.eqb_spec p 111) as [->|_]; [discriminate|].
  destruct (N.eqb_spec p 79) as [->|_]; [discriminate|].
  destruct (N.eqb_spec p 98) as [->|_]; [discriminate|].
  destruct (N.eqb_spec p 66) as [->|_]; [discriminate|].
  reflexivity.
Qed.

Lemma nonDecimalIntegerLiteral_numChar (t : list N) :
  Forall (fun c => numChar c = true) t ->
  nonDecimalIntegerLiteral t = None.
Proof.
  intros F. destruct t as [|c [|p [|q r]]]; try reflexivity;
    unfold nonDecimalIntegerLiteral.
  - destruct c as [|c]; [reflexivity|].
    do 6 (destruct c as [c|c|]; try reflexivity).
  - destruct c as [|c]; [reflexivity|].
    do 6 (destruct c as [c|c|]; try reflexivity).
  - inversion F as [|? ? _ F1]; subst. inversion F1 as [|? ? Hp _]; subst.
    destruct c as [|c]; [reflexivity|].
    do 6 (destruct c as [c|c|]; try reflexivity).
    apply (numChar_radix p (q :: r) Hp).
Qed.

Lemma parseUnsigned_snoc (neg : bool) (t : list N) (x : number) :
  parseUnsigned neg (t ++ [44%N]) = Some (x, [44%N]) ->
  strUnsignedDecimalLiteral neg t = Some x
  /\ validFloatingPointNumber (if neg then 45%N :: t else t) = true
  /\ Forall (fun c => numChar c = true) t
  /\ exists c r, t = c :: r /\ isDigit c = true.
Proof.
  intros P.
  destruct (parseUnsigned_head _ _ _ P) as (c0 & r0 & E0 & D0).
  assert (Hh : exists c r, t = c :: r /\ isDigit c = true).
  { destruct t as [|c r]; [simpl in E0; injection E0 as <- _; discriminate|].
    simpl in E0. injection E0 as <- _. eauto. }
  revert P. unfold parseUnsigned, strUnsignedDecimalLiteral,
    validFloatingPointNumber.
  assert (S1 : (match (if neg then 45%N :: t else t) with
                | 45%N :: r => r
                | _ => if neg then 45%N :: t else t
                end) = t).
  { destruct neg; [reflexivity|]. destruct Hh as (c & r & -> & Hc).
    destruct c as [|p]; [reflexivity|].
    do 6 (destruct p as [p|p|]; try reflexivity). discriminate. }
  rewrite S1.
  assert (Ni : jsstring_eqb t (lit "Infinity") = false).
  { unfold jsstring_eqb. apply bool_decide_eq_false_2. intros ->.
    destruct Hh as (c & r & [= <- _] & Hc). discriminate. }
  rewrite Ni.
  rewrite (span_snoc t 44%N eq_refl).
  destruct (span_split isDigit t) as [T1 T2].
  destruct (span isDigit t) as [ip r1]. cbn [fst snd] in *.
  destruct ip as [|i0 ip]; [discriminate|].
  cbn [length Nat.eqb orb].
  destruct (leadingZero (i0 :: ip)); [discriminate|].
  apply Forall_digits_numChar in T2.
  assert (Fin : forall X, Forall (fun c => numChar c = true) X ->
                  t = (i0 :: ip) ++ X ->
                  Forall (fun c => numChar c = true) t).
  { intros X FX ->. apply Forall_app. split; assumption. }
  destruct r1 as [|c r].
  - cbn [app scanFraction]. intros [= <-].
    cbn [scanExponent validExponent].
    repeat split; [apply (Fin [] ltac:(constructor) T1)|exact Hh].
  - destruct (N.eqb_spec c 46) as [->|Hc].
    + cbn [app scanFraction]. rewrite (span_snoc r 44%N eq_refl).
      destruct (span_split isDigit r) as [R1 R2].
      destruct (span isDigit r) as [fp r2]. cbn [fst snd] in *.
      destruct fp as [|f0 fp]; [discriminate|].
      destruct (scanExponent (r2 ++ [44%N])) as [[e r3]|] eqn:Se;
        [|discriminate].
      intros [= <- ->].
      destruct (scanExponent_snoc r2 e Se) as (Se' & Ve & Fe).
      rewrite Se'. cbn [app].
      split; [reflexivity|]. split; [exact Ve|]. split; [|exact Hh].
      apply (Fin (46%N :: r)); [|exact T1].
      constructor; [reflexivity|]. rewrite R1. apply Forall_app.
      split; [now apply Forall_digits_numChar|exact Fe].
    + assert (Sf : scanFraction ((c :: r) ++ [44%N])
                   = Some ([], (c :: r) ++ [44%N])).
      { cbn [app scanFraction]. destruct c as [|p]; [reflexivity|].
        do 6 (destruct p as [p|p|]; try reflexivity). now destruct Hc. }
      rewrite Sf.
      destruct (scanExponent ((c :: r) ++ [44%N])) as [[e r3]|] eqn:Se;
        [|discriminate].
      intros [= <- ->].
      destruct (scanExponent_snoc (c :: r) e Se) as (Se' & Ve & Fe).
      assert (M : forall (A : Type) (k1 k2 : A),
                match c with 46%N => k1 | _ => k2 end = k2).
      { intros A k1 k2. destruct c as [|p]; [reflexivity|].
        do 6 (destruct p as [p|p|]; try reflexivity). now destruct Hc. }
      rewrite !M. cbv beta iota zeta. cbn [app]. rewrite Se'.
      rewrite ?app_nil_r.
      split; [reflexivity|]. split; [exact Ve|]. split; [|exact Hh].
      apply (Fin (c :: r) Fe T1).
Qed.

Lemma parseNumber_snoc (t : list N) (x : number) :
  parseNumber (t ++ [44%N]) = Some (x, [44%N]) ->
  strNumericLiteral t = Some x
  /\ validFloatingPointNumber t = true
  /\ Forall (fun c => numChar c = true) t
  /\ t <> [].
Proof.
  destruct t as [|c r]; [discriminate|].
  cbn [app parseNumber]. destruct (N.eqb_spec c 45) as [->|Hc]; intros P.
  - destruct (parseUnsigned_snoc true r x P) as (S & V & F & _).
    assert (F' : Forall (fun c => numChar c = true) (45%N :: r))
      by (constructor; [reflexivity|exact F]).
    unfold strNumericLiteral.
    rewrite (nonDecimalIntegerLiteral_numChar _ F').
    repeat split; [exact S|exact V|exact F'|discriminate].
  - destruct (parseUnsigned_snoc false (c :: r) x P)
      as (S & V & F & c' & r' & [= <- <-] & D).
    unfold strNumericLiteral.
    rewrite (nonDecimalIntegerLiteral_numChar _ F).
    repeat split; [|exact V|exact F|discriminate].
    destruct c as [|p]; [exact S|].
    do 6 (destruct p as [p|p|]; try exact S); discriminate.
Qed.

Lemma numChar_range (c : N) : numChar c = true -> (43 <= c <= 101)%N.
Proof.
  unfold numChar, isDigit. intros H.
  repeat (apply orb_true_iff in H; destruct H as [H|H]);
    try (apply N.eqb_eq in H; lia).
  apply andb_true_iff in H. destruct H as [H1 H2].
  apply N.leb_le in H1, H2. lia.
Qed.

Lemma isWhiteSpace_range (c : N) :
  (33 <= c < 160)%N -> isWhiteSpace c = false.
Proof.
  intros H. unfold isWhiteSpace. cbn [existsb].
  repeat match goal with
         | |- context [N.eqb c ?k] =>
             destruct (N.eqb_spec c k) as [->|_]; [lia|]
         end.
  cbn [orb]. destruct (N.leb_spec 8192 c); [lia|reflexivity].
Qed.

(** Text without white space at either end is what [trim] leaves. *)
Lemma trim_fixed (s : list N) :
  match s with [] => True | c :: _ => isWhiteSpace c = false end ->
  match rev s with [] => True | c :: _ => isWhiteSpace c = false end ->
  trim s = s.
Proof.
  intros Hh Hl. unfold trim, trimEnd.
  rewrite (trimStart_fixed s Hh), (trimStart_fixed (rev s) Hl).
  apply rev_involutive.
Qed.

Lemma toUSVString_fixed (s : list N) :
  Forall (fun c => (c < 55296)%N) s -> toUSVString s = s.
Proof.
  induction 1 as [|c r Hc _ IH]; [reflexivity|].
  cbn [toUSVString]. unfold isLeadSurrogate, isTrailSurrogate.
  destruct (N.leb_spec 55296 c); [lia|].
  destruct (N.leb_spec 56320 c); [lia|].
  cbn [andb]. now rewrite IH.
Qed.

Lemma numChar_text (t : list N) :
  Forall (fun c => numChar c = true) t ->
  trim t = t /\ toUSVString t = t.
Proof.
  intros F. split.
  - apply trim_fixed.
    + destruct F as [|c r Hc _]; [exact I|].
      apply isWhiteSpace_range. apply numChar_range in Hc. lia.
    + apply List.Forall_rev in F. destruct F as [|c r Hc _]; [exact I|].
      apply isWhiteSpace_range. apply numChar_range in Hc. lia.
  - apply toUSVString_fixed. revert F. apply List.Forall_impl.
    intros c Hc. apply numChar_range in Hc. lia.
Qed.

(** A number field given the text of a number. *)
Lemma number_field (x : number) :
  isDouble x = true ->
  let text := sanitize NumberInput (NumberToString x) in
  toUSVString text = text
  /\ StringToNumber text = restoredNumber x
  /\ (jsonSafeNumber x = true -> text = NumberToString x).
Proof.
  intros Hx. destruct x as [s|s| |s m e].
  - split; [reflexivity|]. split; [reflexivity|]. reflexivity.
  - destruct s; (split; [reflexivity|]); (split; [reflexivity|]);
      discriminate.
  - split; [reflexivity|]. split; [reflexivity|]. discriminate.
  - pose proof (parseNumber_stringify (S754_finite s m e) [] Hx) as P.
    unfold stringifyNumber in P. cbn [isFiniteNumber] in P.
    apply parseNumber_snoc in P. destruct P as (P & V & F & Ne).
    destruct (numChar_text _ F) as [Tr Us].
    cbn zeta. unfold sanitize. rewrite V.
    split; [exact Us|]. split; [|reflexivity].
    unfold StringToNumber. rewrite Tr.
    remember (NumberToString (S754_finite s m e)) as t eqn:E.
    destruct t; [now destruct Ne|]. now rewrite P.
Qed.

(** ** Restoring the form *)

Lemma sameInput_assignValue (s : list N) : sameInput (assignValue s).
Proof. intros i. unfold assignValue. now destruct (inputType i). Qed.

Lemma sameInput_assignChecked (c : bool) : sameInput (assignChecked c).
Proof. intros i. now unfold assignChecked. Qed.

Lemma sameInput_assignField (id : list N)
  (f : HTMLInputElement -> HTMLInputElement) :
  sameInput f -> sameInput (assignField id f).
Proof.
  intros Hf i. unfold assignField.
  destruct (bool_decide (inputId i = id)); [apply Hf|now repeat split].
Qed.

Lemma sameInput_checkStage (form : list N) (l : list (list N)) :
  sameInput (checkStage form l).
Proof.
  intros i. unfold checkStage.
  destruct (stageInput form i); [apply sameInput_assignChecked|].
  now repeat split.
Qed.

Lemma sameInput_syncInput (form : list N) (c : FunnelConfig) :
  sameInput (syncInput form c).
Proof.
  intros i. unfold syncInput.
  destruct (sameInput_checkStage form (stages c)
              (assignField (lit "newsletter")
                 (assignChecked (newsletter c))
                 (assignField (lit "goal-cpa")
                    (assignValue (NumberToString (cpa c)))
                    (assignField (lit "traffic-level")
                       (assignValue (NumberToString (sessions c)))
                       (assignField (lit "industry")
                          (assignValue (industry c))
                          (assignField (lit "business-name")
                             (assignValue (business c)) i))))))
    as (-> & -> & -> & -> & ->).
  repeat match goal with
         | |- context [inputId (assignField ?id ?f ?x)] =>
             destruct (sameInput_assignField id f
                         ltac:(first [apply sameInput_assignValue
                                     |apply sameInput_assignChecked]) x)
               as (-> & -> & -> & -> & ->)
         end.
  now repeat split.
Qed.

Lemma map_inputId_same (g : HTMLInputElement -> HTMLInputElement)
  (l : list HTMLInputElement) :
  sameInput g -> map inputId (map g l) = map inputId l.
Proof.
  intros Hg. rewrite map_map. apply map_ext. intros i. apply Hg.
Qed.

(** [queryElement('#id').value = ...] on a page where ids are not
    shared. *)
Lemma assign_by_id (id : list N) (f : HTMLInputElement -> HTMLInputElement)
  (b : Browser) :
  List.NoDup (map inputId (inputElements b)) ->
  (exists i, In i (inputElements b) /\ inputId i = id) ->
  (input <- queryElementJS querySelectorInput (35%N :: id) ;;
   updateInput f input)%js b
  = (Normal tt,
     withInputElements (map (assignField id f) (inputElements b)) b).
Proof.
  intros Nd (i & Hin & Hid).
  unfold bindJS, queryElementJS, querySelectorInput.
  destruct (list_find_elem_of
              (fun i => 35%N :: id = 35%N :: inputId i)
              (inputElements b) i) as [[k x] Hf];
    [now apply list_elem_of_In|now rewrite Hid|].
  rewrite Hf. cbn [fmap option_fmap option_map fst retJS].
  unfold updateInput. f_equal. f_equal.
  apply list_find_Some in Hf. destruct Hf as (Hk & [= Hx] & _).
  apply list_eq. intros j. rewrite list_lookup_fmap.
  destruct (decide (j = k)) as [->|Hj].
  - rewrite list_lookup_alter_eq, Hk. cbn. unfold assignField.
    now rewrite bool_decide_eq_true_2.
  - rewrite list_lookup_alter_ne by congruence.
    destruct (inputElements b !! j) as [y|] eqn:Hy; [|reflexivity].
    cbn. unfold assignField. rewrite bool_decide_eq_false_2; [reflexivity|].
    intros Ey. apply Hj.
    apply (NoDup_lookup (map inputId (inputElements b)) j k id).
    + now apply NoDup_ListNoDup.
    + rewrite list_lookup_fmap, Hy. cbn. now f_equal.
    + rewrite list_lookup_fmap, Hk. cbn. now f_equal.
Qed.

Lemma alter_fold_lookup (h : HTMLInputElement -> HTMLInputElement)
  (ks : list nat) :
  (forall x, h (h x) = h x) ->
  forall (l : list HTMLInputElement) (j : nat),
    fold_left (fun l k => alter h k l) ks l !! j
    = if bool_decide (j ∈ ks) then h <$> l !! j else l !! j.
Proof.
  intros Hh. induction ks as [|k ks IH]; intros l j; [reflexivity|].
  cbn [fold_left]. rewrite IH.
  destruct (decide (k = j)) as [->|Hk].
  - rewrite list_lookup_alter_eq.
    rewrite (bool_decide_eq_true_2 (j ∈ j :: ks))
      by (apply elem_of_cons; now left).
    destruct (bool_decide (j ∈ ks)); [|reflexivity].
    destruct (l !! j); [|reflexivity]. cbn. now rewrite Hh.
  - rewrite list_lookup_alter_ne by exact Hk.
    destruct (decide (j ∈ ks)) as [Hj|Hj].
    + rewrite !bool_decide_eq_true_2;
        [reflexivity|apply elem_of_cons; now right|exact Hj].
    + rewrite !bool_decide_eq_false_2; [reflexivity| |exact Hj].
      intros E. apply elem_of_cons in E.
      destruct E as [E|E]; [now apply Hk|now apply Hj].
Qed.

(** The inputs [querySelectorAll] finds are the stage inputs of the
    form. *)
Lemma stage_indices (form : list N) (b : Browser) (k : nat) :
  In k (match fst (querySelectorAllStage form b) with
        | Normal ks => ks
        | _ => []
        end)
  <-> exists i, inputElements b !! k = Some i /\ stageInput form i = true.
Proof.
  unfold querySelectorAllStage. cbn [fst]. rewrite in_map_iff. split.
  - intros ([k' i] & <- & Hin). apply filter_In in Hin.
    destruct Hin as [Hin Hs]. apply list_elem_of_In in Hin.
    apply elem_of_lookup_imap in Hin.
    destruct Hin as (j & y & [= -> ->] & Hl). now exists y.
  - intros (i & Hl & Hs). exists (k, i). split; [reflexivity|].
    apply filter_In. split; [|exact Hs].
    apply list_elem_of_In, elem_of_lookup_imap. now exists k, i.
Qed.

Lemma withInputElements_twice (x y : list HTMLInputElement) (b : Browser) :
  withInputElements x (withInputElements y b) = withInputElements x b.
Proof. reflexivity. Qed.

Lemma withInputElements_same (b : Browser) :
  withInputElements (inputElements b) b = b.
Proof. now destruct b. Qed.

(** The loop over the stage boxes. *)
Lemma forEach_stage (l : list (list N)) (ks : list nat) :
  forall b : Browser,
    forEachJS ks
      (fun input =>
         text <- getValue input ;; setChecked input (includes l text))%js b
    = (Normal tt,
       withInputElements
         (fold_left
            (fun inputs k =>
               alter (fun i => assignChecked (includes l (valueOf i)) i)
                     k inputs)
            ks (inputElements b)) b).
Proof.
  induction ks as [|k ks IH]; intros b.
  - cbn. now rewrite withInputElements_same.
  - cbn [forEachJS fold_left]. unfold bindJS at 1.
    unfold bindJS at 1. unfold getValue, setChecked, updateInput.
    rewrite IH. cbn [inputElements withInputElements].
    f_equal. rewrite withInputElements_twice. f_equal. f_equal.
    apply list_alter_ext; [|reflexivity].
    intros x Hx. now rewrite Hx.
Qed.

Lemma check_stages (form : list N) (l : list (list N)) (b : Browser) :
  (stageInputs <- querySelectorAllStage form ;;
   forEachJS stageInputs
     (fun input =>
        text <- getValue input ;; setChecked input (includes l text)))%js b
  = (Normal tt,
     withInputElements (map (checkStage form l) (inputElements b)) b).
Proof.
  unfold bindJS at 1.
  pose proof (stage_indices form b) as Hi.
  destruct (querySelectorAllStage form b) as [[ks| |] b1] eqn:Q;
    try discriminate.
  assert (b1 = b) as -> by (unfold querySelectorAllStage in Q; congruence).
  cbn [fst] in Hi. rewrite forEach_stage. f_equal. f_equal.
  apply list_eq. intros j.
  rewrite alter_fold_lookup by reflexivity.
  rewrite list_lookup_fmap. unfold checkStage.
  destruct (inputElements b !! j) as [i|] eqn:Hj.
  - destruct (stageInput form i) eqn:Hs.
    + rewrite bool_decide_eq_true_2; [cbn; now rewrite Hs|].
      apply list_elem_of_In, Hi. now exists i.
    + rewrite bool_decide_eq_false_2; [cbn; now rewrite Hs|].
      intros Hin. apply list_elem_of_In, Hi in Hin. destruct Hin as (i' & E & Hs').
      congruence.
  - now destruct (bool_decide (j ∈ ks)).
Qed.

Lemma bindJS_run {A B} (m : JS A) (k : A -> JS B) (b b1 : Browser) (a : A) :
  m b = (Normal a, b1) -> bindJS m k b = k a b1.
Proof. intros E. unfold bindJS. now rewrite E. Qed.

Lemma assign_by_id_mapped (id : list N)
  (f g : HTMLInputElement -> HTMLInputElement) (b : Browser)
  (l : list HTMLInputElement) :
  sameInput g -> List.NoDup (map inputId l) ->
  (exists i, In i l /\ inputId i = id) ->
  (input <- queryElementJS querySelectorInput (35%N :: id) ;;
   updateInput f input)%js (withInputElements (map g l) b)
  = (Normal tt,
     withInputElements (map (fun i => assignField id f (g i)) l) b).
Proof.
  intros Hg Nd (i & Hin & Hid). rewrite assign_by_id.
  - cbn [inputElements withInputElements].
    now rewrite withInputElements_twice, map_map.
  - cbn [inputElements withInputElements]. now rewrite map_inputId_same.
  - cbn [inputElements withInputElements]. exists (g i).
    split; [now apply in_map|]. now rewrite (proj1 (Hg i)).
Qed.

Lemma sameInput_id : sameInput (fun i => i).
Proof. intros i. now repeat split. Qed.

Lemma sameInput_step (id : list N)
  (f g : HTMLInputElement -> HTMLInputElement) :
  sameInput f -> sameInput g -> sameInput (fun i => assignField id f (g i)).
Proof.
  intros Hf Hg i.
  destruct (sameInput_assignField id f Hf (g i)) as (-> & -> & -> & -> & ->).
  apply Hg.
Qed.

Create HintDb same_input.
#[local] Hint Resolve sameInput_id sameInput_step sameInput_assignValue
  sameInput_assignChecked : same_input.

(** On a page with the markup of the analysis form [syncFormWithConfig]
    returns, and it has then changed every input as [syncInput] says. *)
Lemma syncFormWithConfig_run (form : list N) (c : FunnelConfig)
  (b : Browser) :
  analysisLayout form (inputElements b) ->
  syncFormWithConfig form c b
  = (Normal tt,
     withInputElements (map (syncInput form c) (inputElements b)) b).
Proof.
  intros L. unfold syncFormWithConfig, setValue.
  change (lit "#business-name") with (35%N :: lit "business-name").
  change (lit "#industry") with (35%N :: lit "industry").
  change (lit "#traffic-level") with (35%N :: lit "traffic-level").
  change (lit "#goal-cpa") with (35%N :: lit "goal-cpa").
  change (lit "#newsletter") with (35%N :: lit "newsletter").
  pose proof (layout_ids _ _ L) as Nd.
  rewrite <- (withInputElements_same b) at 1.
  rewrite <- (map_id (inputElements b)) at 1.
  erewrite bindJS_run;
    [|apply (assign_by_id_mapped _ _ (fun i => i));
      [auto with same_input|exact Nd
      |apply (field_there _ _ _ _ _ (layout_business _ _ L))]].
  erewrite bindJS_run;
    [|apply assign_by_id_mapped;
      [auto with same_input|exact Nd
      |apply (field_there _ _ _ _ _ (layout_industry _ _ L))]].
  erewrite bindJS_run;
    [|apply assign_by_id_mapped;
      [auto with same_input|exact Nd
      |apply (field_there _ _ _ _ _ (layout_sessions _ _ L))]].
  erewrite bindJS_run;
    [|apply assign_by_id_mapped;
      [auto with same_input|exact Nd
      |apply (field_there _ _ _ _ _ (layout_cpa _ _ L))]].
  erewrite bindJS_run;
    [|apply assign_by_id_mapped;
      [auto with same_input|exact Nd
      |apply (field_there _ _ _ _ _ (layout_newsletter _ _ L))]].
  rewrite check_stages. cbn [inputElements withInputElements].
  now rewrite withInputElements_twice, map_map.
Qed.

(** ** Reading the restored form *)

Lemma formDataGet_app (n : list N) (x y : FormData) :
  formDataGet n (x ++ y)
  = match formDataGet n x with
    | Some v => Some v
    | None => formDataGet n y
    end.
Proof.
  induction x as [|[k v] x IH]; [reflexivity|]. cbn.
  now destruct (jsstring_eqb k n).
Qed.

Lemma formDataGetAll_app (n : list N) (x y : FormData) :
  formDataGetAll n (x ++ y) = formDataGetAll n x ++ formDataGetAll n y.
Proof.
  induction x as [|[k v] x IH]; [reflexivity|]. cbn.
  destruct (jsstring_eqb k n); [cbn; now f_equal|exact IH].
Qed.

(** Text without surrogates and without U+FFFD is the conversion of
    itself only. *)
Lemma toUSVString_inv (s t : list N) :
  Forall (fun c => (c < 55296)%N) t -> toUSVString s = t -> s = t.
Proof.
  revert t. induction s as [|c r IH]; intros t Ft; [easy|].
  cbn [toUSVString]. unfold isLeadSurrogate, isTrailSurrogate.
  destruct (N.leb_spec 55296 c) as [H1|H1]; cbn [andb].
  - destruct (c <=? 56319)%N.
    + destruct r as [|d r'].
      * intros <-. inversion Ft; subst. lia.
      * destruct ((56320 <=? d) && (d <=? 57343))%N; intros <-;
          inversion Ft; subst; lia.
    + destruct ((56320 <=? c) && (c <=? 57343))%N; intros <-;
        inversion Ft; subst; lia.
  - destruct (N.leb_spec 56320 c) as [H2|H2]; [lia|]. cbn [andb].
    intros <-. inversion Ft; subst. f_equal. now apply IH.
Qed.

Lemma entriesOf_cases (i : HTMLInputElement) :
  entriesOf i = []
  \/ entriesOf i
     = [(toUSVString (inputName i), EntryString (toUSVString (valueOf i)))].
Proof.
  unfold entriesOf. destruct (disabled i); [now left|].
  destruct (match inputType i with
            | CheckboxInput => negb (checkedness i)
            | _ => false
            end); [now left|].
  destruct (inputName i); [now left|now right].
Qed.

(** An input of another name gives no entry of the name. *)
Lemma entriesOf_other (n : list N) (i : HTMLInputElement) :
  Forall (fun c => (c < 55296)%N) n -> inputName i <> n ->
  formDataGet n (entriesOf i) = None /\ formDataGetAll n (entriesOf i) = [].
Proof.
  intros Fn Hn. destruct (entriesOf_cases i) as [->| ->]; [now split|].
  cbn. unfold jsstring_eqb. rewrite bool_decide_eq_false_2; [now split|].
  intros E. now apply toUSVString_inv in E.
Qed.

Lemma entriesOf_field (i : HTMLInputElement) :
  disabled i = false -> inputType i <> CheckboxInput -> inputName i <> [] ->
  entriesOf i
  = [(toUSVString (inputName i), EntryString (toUSVString (valueOf i)))].
Proof.
  intros Hd Ht Hn. unfold entriesOf. rewrite Hd.
  destruct (inputType i); [| |now destruct Ht];
    now destruct (inputName i).
Qed.

Lemma entriesOf_box (i : HTMLInputElement) :
  disabled i = false -> inputType i = CheckboxInput -> inputName i <> [] ->
  entriesOf i
  = if checkedness i
    then [(toUSVString (inputName i),
           EntryString (toUSVString (valueOf i)))]
    else [].
Proof.
  intros Hd Ht Hn. unfold entriesOf. rewrite Hd, Ht.
  destruct (checkedness i); [|reflexivity]. now destruct (inputName i).
Qed.

Section Reading.

Variables (form : list N) (S : HTMLInputElement -> HTMLInputElement).
Hypothesis S_same : sameInput S.

Lemma entryListOf_given (l : list HTMLInputElement) :
  entryListOf form (map S l) = flat_map (entriesGiven form S) l.
Proof.
  unfold entryListOf, entriesGiven. induction l as [|i l IH]; [reflexivity|].
  cbn [map List.filter flat_map]. unfold ownedBy at 1.
  destruct (S_same i) as (_ & -> & _). fold (ownedBy form i).
  destruct (ownedBy form i); [cbn [flat_map]|]; now rewrite IH.
Qed.

Lemma formDataGet_none (n : list N) (l : list HTMLInputElement) :
  (forall i, In i l -> formDataGet n (entriesGiven form S i) = None) ->
  formDataGet n (flat_map (entriesGiven form S) l) = None.
Proof.
  induction l as [|i l IH]; intros Hl; [reflexivity|].
  cbn [flat_map]. rewrite formDataGet_app, (Hl i) by now left.
  apply IH. intros j Hj. apply Hl. now right.
Qed.

Lemma formDataGet_one (n : list N) (v : option FormDataEntryValue)
  (l : list HTMLInputElement) :
  (forall i, In i l ->
     formDataGet n (entriesGiven form S i) = None \/ formDataGet n (entriesGiven form S i) = v) ->
  (exists i, In i l /\ formDataGet n (entriesGiven form S i) = v) ->
  formDataGet n (flat_map (entriesGiven form S) l) = v.
Proof.
  induction l as [|i l IH]; intros Hl (a & Ha & Hv); [destruct Ha|].
  cbn [flat_map]. rewrite formDataGet_app.
  destruct (formDataGet n (entriesGiven form S i)) as [w|] eqn:Gi.
  - destruct (Hl i (or_introl eq_refl)) as [E|E]; congruence.
  - destruct Ha as [->|Ha].
    + rewrite <- Hv, Gi. apply formDataGet_none. intros j Hj.
      destruct (Hl j (or_intror Hj)) as [E|E]; [exact E|congruence].
    + apply IH; [|now exists a]. intros j Hj. apply Hl. now right.
Qed.

(** The entry of a name is the one its field gives. *)
Lemma formDataGet_field (l : list HTMLInputElement) (id n : list N)
  (type : InputType) (a : HTMLInputElement) :
  List.NoDup (map inputId l) -> fieldOf form l id n type ->
  Forall (fun c => (c < 55296)%N) n ->
  In a l -> inputId a = id ->
  formDataGet n (entryListOf form (map S l)) = formDataGet n (entriesOf (S a)).
Proof.
  intros Nd Fd Fn Ha Hid. rewrite entryListOf_given.
  assert (Ga : entriesGiven form S a = entriesOf (S a)).
  { unfold entriesGiven, ownedBy.
    destruct (field_shape _ _ _ _ _ Fd a Ha Hid) as (-> & _).
    now rewrite bool_decide_eq_true_2. }
  rewrite <- Ga. apply formDataGet_one; [|now exists a].
  intros i Hi. unfold entriesGiven at 1. unfold ownedBy.
  destruct (decide (formOwner i = form)) as [Ho|Ho];
    [|left; now rewrite bool_decide_eq_false_2].
  rewrite bool_decide_eq_true_2 by exact Ho.
  destruct (decide (inputName i = n)) as [Hn|Hn].
  - right. pose proof (field_alone _ _ _ _ _ Fd i Hi Ho Hn) as Ei.
    assert (i = a) as ->; [|now rewrite Ga].
    clear - Nd Hi Ha Ei Hid. rewrite <- Hid in Ei. clear Hid.
    induction l as [|x l IH]; [destruct Hi|].
    cbn [map] in Nd. inversion Nd as [|? ? Hx Nd']; subst.
    destruct Hi as [->|Hi], Ha as [->|Ha]; [reflexivity| | |now apply IH].
    + destruct Hx. rewrite Ei. now apply in_map.
    + destruct Hx. rewrite <- Ei. now apply in_map.
  - left. apply entriesOf_other; [exact Fn|].
    now destruct (S_same i) as (_ & _ & -> & _).
Qed.

End Reading.

Lemma assignField_same (id : list N)
  (f : HTMLInputElement -> HTMLInputElement) (i : HTMLInputElement) :
  inputId i = id -> assignField id f i = f i.
Proof. intros E. unfold assignField. now rewrite bool_decide_eq_true_2. Qed.

Lemma assignField_other (id : list N)
  (f : HTMLInputElement -> HTMLInputElement) (i : HTMLInputElement) :
  inputId i <> id -> assignField id f i = i.
Proof. intros E. unfold assignField. now rewrite bool_decide_eq_false_2. Qed.

Lemma checkStage_other (form : list N) (l : list (list N))
  (i : HTMLInputElement) :
  inputName i <> lit "stage" -> checkStage form l i = i.
Proof.
  intros E. unfold checkStage, stageInput.
  rewrite (bool_decide_eq_false_2 _ E). now rewrite andb_false_r.
Qed.

Ltac field_id Hid :=
  rewrite ?(proj1 (sameInput_assignValue _ _)),
    ?(proj1 (sameInput_assignChecked _ _)), Hid;
  first [reflexivity
        |let E := fresh in intros E; vm_compute in E; discriminate E].

Ltac field_step Hid :=
  match goal with
  | |- context [assignField ?id ?f ?x] =>
      lazymatch x with
      | context [assignField] => fail
      | _ => first [rewrite (assignField_same id f x) by field_id Hid
                   |rewrite (assignField_other id f x) by field_id Hid]
      end
  end.

(** [syncFormWithConfig] on each of the five fields and on a stage
    box. *)
Lemma syncInput_fields (form : list N) (c : FunnelConfig)
  (i : HTMLInputElement) :
  inputName i <> lit "stage" ->
  (inputId i = lit "business-name" ->
   syncInput form c i = assignValue (business c) i)
  /\ (inputId i = lit "industry" ->
      syncInput form c i = assignValue (industry c) i)
  /\ (inputId i = lit "traffic-level" ->
      syncInput form c i = assignValue (NumberToString (sessions c)) i)
  /\ (inputId i = lit "goal-cpa" ->
      syncInput form c i = assignValue (NumberToString (cpa c)) i)
  /\ (inputId i = lit "newsletter" ->
      syncInput form c i = assignChecked (newsletter c) i).
Proof.
  intros Hn. unfold syncInput.
  repeat split; intros Hid; do 5 field_step Hid;
    apply checkStage_other;
    first [now rewrite (proj1 (proj2 (proj2 (sameInput_assignValue _ _))))
          |exact Hn].
Qed.

Lemma syncInput_stage (form : list N) (c : FunnelConfig)
  (i : HTMLInputElement) :
  inputId i <> lit "business-name" -> inputId i <> lit "industry" ->
  inputId i <> lit "traffic-level" -> inputId i <> lit "goal-cpa" ->
  inputId i <> lit "newsletter" ->
  syncInput form c i = checkStage form (stages c) i.
Proof.
  intros H1 H2 H3 H4 H5. unfold syncInput.
  now rewrite (assignField_other _ _ i H1), (assignField_other _ _ i H2),
    (assignField_other _ _ i H3), (assignField_other _ _ i H4),
    (assignField_other _ _ i H5).
Qed.

(** The three kinds of field, read after a restore. *)
Section Fields.

Variables (form : list N) (S : HTMLInputElement -> HTMLInputElement)
  (l : list HTMLInputElement) (id n : list N) (a : HTMLInputElement).
Hypothesis S_same : sameInput S.
Hypothesis ids : List.NoDup (map inputId l).
Hypothesis n_text : Forall (fun c => (c < 55296)%N) n.
Hypothesis n_name : n <> [].
Hypothesis a_there : In a l.
Hypothesis a_id : inputId a = id.

Lemma entry_of_field (type : InputType) (s : list N) :
  fieldOf form l id n type -> type <> CheckboxInput ->
  S a = assignValue s a ->
  formDataGet n (entryListOf form (map S l))
  = Some (EntryString (toUSVString (sanitize type s))).
Proof.
  intros Fd Ht Sa.
  rewrite (formDataGet_field form S S_same l id n type a ids Fd n_text
             a_there a_id), Sa.
  destruct (field_shape _ _ _ _ _ Fd a a_there a_id) as (_ & Hn & Hty & Hd).
  destruct (sameInput_assignValue s a) as (_ & _ & Hn' & Hty' & Hd').
  rewrite entriesOf_field; [|congruence..].
  rewrite Hn', Hn, (toUSVString_fixed n n_text). cbn [formDataGet].
  unfold jsstring_eqb. rewrite bool_decide_eq_true_2 by reflexivity.
  do 2 f_equal. f_equal. unfold valueOf, assignValue.
  rewrite Hty. now destruct type.
Qed.

Lemma entry_of_box (c : bool) :
  fieldOf form l id n CheckboxInput ->
  S a = assignChecked c a ->
  formDataGet n (entryListOf form (map S l))
  = if c then Some (EntryString (toUSVString (valueOf a))) else None.
Proof.
  intros Fd Sa.
  rewrite (formDataGet_field form S S_same l id n _ a ids Fd n_text
             a_there a_id), Sa.
  destruct (field_shape _ _ _ _ _ Fd a a_there a_id) as (_ & Hn & Hty & Hd).
  rewrite entriesOf_box; [|assumption..|]; [|cbn; congruence].
  cbn [checkedness assignChecked]. destruct c; [|reflexivity].
  cbn [inputName assignChecked]. rewrite Hn, (toUSVString_fixed n n_text).
  cbn [formDataGet]. unfold jsstring_eqb.
  now rewrite bool_decide_eq_true_2 by reflexivity.
Qed.

End Fields.

Lemma stage_text : Forall (fun c => (c < 55296)%N) (lit "stage").
Proof. repeat constructor. Qed.

(** What a single input gives to the stages read after a restore. *)
Lemma stage_given (form : list N) (c : FunnelConfig)
  (l : list HTMLInputElement) (i : HTMLInputElement) :
  analysisLayout form l -> In i l ->
  map entryToString
    (formDataGetAll (lit "stage")
       (entriesGiven form (syncInput form c) i))
  = map toUSVString
      (List.filter (includes (stages c))
         (if stageInput form i then [valueOf i] else [])).
Proof.
  intros L Hi. unfold entriesGiven.
  destruct (stageInput form i) eqn:Hs.
  - pose proof Hs as Hs'. unfold stageInput in Hs'.
    apply andb_true_iff in Hs'. destruct Hs' as [Ho Hn].
    apply bool_decide_eq_true_1 in Hn. rewrite Ho.
    destruct (layout_stage _ _ L i Hi Hs) as [Hty Hd].
    assert (Hid : forall id n type,
              fieldOf form l id n type -> n <> lit "stage" ->
              inputId i <> id).
    { intros id n type Fd Hne E.
      destruct (field_shape _ _ _ _ _ Fd i Hi E) as (_ & En & _).
      congruence. }
    rewrite syncInput_stage;
      [|eapply Hid; [apply L|intros E; vm_compute in E; discriminate E]..].
    unfold checkStage. rewrite Hs.
    rewrite entriesOf_box; [|assumption..|]; [|cbn; rewrite Hn; discriminate].
    cbn [checkedness assignChecked List.filter].
    destruct (includes (stages c) (valueOf i)); [|reflexivity].
    cbn [inputName assignChecked]. rewrite Hn.
    rewrite (toUSVString_fixed _ stage_text). cbn [formDataGetAll].
    unfold jsstring_eqb. now rewrite bool_decide_eq_true_2 by reflexivity.
  - destruct (ownedBy form i) eqn:Ho; [|reflexivity].
    assert (Hn : inputName (syncInput form c i) <> lit "stage").
    { destruct (sameInput_syncInput form c i) as (_ & _ & -> & _).
      intros E. unfold stageInput in Hs. rewrite Ho in Hs.
      now rewrite (bool_decide_eq_true_2 _ E) in Hs. }
    now rewrite (proj2 (entriesOf_other _ _ stage_text Hn)).
Qed.

Lemma stages_read (form : list N) (c : FunnelConfig)
  (l0 l : list HTMLInputElement) :
  analysisLayout form l0 -> incl l l0 ->
  map entryToString
    (formDataGetAll (lit "stage")
       (flat_map (entriesGiven form (syncInput form c)) l))
  = map toUSVString
      (List.filter (includes (stages c)) (stageValues form l)).
Proof.
  intros L. unfold stageValues.
  induction l as [|i l IH]; intros Hl; [reflexivity|].
  cbn [flat_map List.filter]. rewrite formDataGetAll_app, map_app.
  rewrite (stage_given form c l0 i L) by (apply Hl; now left).
  rewrite IH by (intros x Hx; apply Hl; now right).
  destruct (stageInput form i); [|reflexivity].
  cbn [map List.filter]. now destruct (includes (stages c) (valueOf i)).
Qed.

(** X23: Restoring a configuration into the analysis form and reading
    the form gives back what the fields can hold of it.  On a page with
    the markup the program expects, [syncFormWithConfig] returns, and
    the form then reads as [restored]: the texts without their line
    breaks and trimmed, every finite number as it was (a zero as [+0])
    but 0 for [NaN] and the infinities, which a number field does not
    take, the stages that have a box, in the order of the boxes (the
    three default stages when none has), and the newsletter flag. *)
Theorem restore_then_read (c : FunnelConfig) (b : Browser) :
  analysisLayout analysisForm (inputElements b) ->
  isDouble (sessions c) = true -> isDouble (cpa c) = true ->
  exists b',
    syncFormWithConfig analysisForm c b = (Normal tt, b')
    /\ readFunnelConfig (formNow b')
       = restored (stageValues analysisForm (inputElements b)) c
    /\ b' = withInputElements (inputElements b') b.
Proof.
  intros L Hs Hc. eexists. split; [apply syncFormWithConfig_run, L|].
  split; [|reflexivity].
  unfold formNow. cbn [inputElements withInputElements].
  set (S := syncInput analysisForm c). set (l := inputElements b) in *.
  pose proof (sameInput_syncInput analysisForm c) as Ss. fold S in Ss.
  pose proof (layout_ids _ _ L) as Nd.
  assert (Fld : forall id n type,
            fieldOf analysisForm l id n type -> n <> lit "stage" ->
            exists a, In a l /\ inputId a = id
                      /\ inputName a <> lit "stage").
  { intros id n type Fd Hn. destruct (field_there _ _ _ _ _ Fd) as (a & Ha & E).
    exists a. repeat split; [exact Ha|exact E|].
    destruct (field_shape _ _ _ _ _ Fd a Ha E) as (_ & -> & _). exact Hn. }
  unfold readFunnelConfig, restored. cbn [newFormData entryList]. f_equal.
  - destruct (Fld _ _ _ (layout_business _ _ L)) as (a & Ha & E & Hn);
      [intros X; vm_compute in X; discriminate X|].
    rewrite (entry_of_field analysisForm S l
               (lit "business-name") (lit "business") a Ss Nd
               ltac:(repeat constructor) ltac:(discriminate) Ha E
               TextInput (business c) (layout_business _ _ L)
               ltac:(discriminate));
      [reflexivity|].
    apply (proj1 (syncInput_fields analysisForm c a Hn) E).
  - destruct (Fld _ _ _ (layout_industry _ _ L)) as (a & Ha & E & Hn);
      [intros X; vm_compute in X; discriminate X|].
    rewrite (entry_of_field analysisForm S l
               (lit "industry") (lit "industry") a Ss Nd
               ltac:(repeat constructor) ltac:(discriminate) Ha E
               TextInput (industry c) (layout_industry _ _ L)
               ltac:(discriminate));
      [reflexivity|].
    apply (syncInput_fields analysisForm c a Hn), E.
  - destruct (Fld _ _ _ (layout_sessions _ _ L)) as (a & Ha & E & Hn);
      [intros X; vm_compute in X; discriminate X|].
    rewrite (entry_of_field analysisForm S l
               (lit "traffic-level") (lit "sessions") a Ss Nd
               ltac:(repeat constructor) ltac:(discriminate) Ha E
               NumberInput (NumberToString (sessions c))
               (layout_sessions _ _ L) ltac:(discriminate)).
    + destruct (number_field (sessions c) Hs) as (U & R & _).
      cbn [numberOfEntry entryToString]. now rewrite U, R.
    + apply (syncInput_fields analysisForm c a Hn), E.
  - destruct (Fld _ _ _ (layout_cpa _ _ L)) as (a & Ha & E & Hn);
      [intros X; vm_compute in X; discriminate X|].
    rewrite (entry_of_field analysisForm S l
               (lit "goal-cpa") (lit "cpa") a Ss Nd
               ltac:(repeat constructor) ltac:(discriminate) Ha E
               NumberInput (NumberToString (cpa c))
               (layout_cpa _ _ L) ltac:(discriminate)).
    + destruct (number_field (cpa c) Hc) as (U & R & _).
      cbn [numberOfEntry entryToString]. now rewrite U, R.
    + apply (syncInput_fields analysisForm c a Hn), E.
  - rewrite (entryListOf_given analysisForm S Ss).
    unfold S. rewrite (stages_read analysisForm c l l L (incl_refl l)).
    unfold restoredStages.
    destruct (List.filter (includes (stages c)) (stageValues analysisForm l));
      reflexivity.
  - destruct (Fld _ _ _ (layout_newsletter _ _ L)) as (a & Ha & E & Hn);
      [intros X; vm_compute in X; discriminate X|].
    rewrite (entry_of_box analysisForm S l
               (lit "newsletter") (lit "newsletter") a Ss Nd
               ltac:(repeat constructor) ltac:(discriminate) Ha E
               (newsletter c) (layout_newsletter _ _ L)).
    + destruct (newsletter c); [|reflexivity].
      now rewrite (layout_on _ _ L a Ha E).
    + apply (syncInput_fields analysisForm c a Hn), E.
Qed.

Lemma hasField_spec (form : list N) (inputs : list HTMLInputElement)
  (id name : list N) (type : InputType) :
  hasField form inputs id name type = true ->
  fieldOf form inputs id name type.
Proof.
  unfold hasField. intros H.
  apply andb_true_iff in H. destruct H as [H H3].
  apply andb_true_iff in H. destruct H as [H1 H2].
  rewrite forallb_forall in H2, H3. apply existsb_exists in H1.
  constructor.
  - destruct H1 as (i & Hi & E). exists i.
    split; [exact Hi|now apply bool_decide_eq_true_1 in E].
  - intros i Hi E. specialize (H2 i Hi).
    rewrite (bool_decide_eq_true_2 _ E) in H2. cbn [implb] in H2.
    apply andb_true_iff in H2. destruct H2 as [H2 Hd].
    apply andb_true_iff in H2. destruct H2 as [H2 Ht].
    apply andb_true_iff in H2. destruct H2 as [Ho Hn].
    apply bool_decide_eq_true_1 in Ho, Hn, Ht. apply negb_true_iff in Hd.
    now repeat split.
  - intros i Hi Eo En. specialize (H3 i Hi).
    rewrite (bool_decide_eq_true_2 _ Eo), (bool_decide_eq_true_2 _ En) in H3.
    now apply bool_decide_eq_true_1 in H3.
Qed.

Lemma hasLayout_spec (form : list N) (inputs : list HTMLInputElement) :
  hasLayout form inputs = true -> analysisLayout form inputs.
Proof.
  unfold hasLayout. intros H.
  apply andb_true_iff in H. destruct H as [H Hstage].
  apply andb_true_iff in H. destruct H as [H Hon].
  apply andb_true_iff in H. destruct H as [H F5].
  apply andb_true_iff in H. destruct H as [H F4].
  apply andb_true_iff in H. destruct H as [H F3].
  apply andb_true_iff in H. destruct H as [H F2].
  apply andb_true_iff in H. destruct H as [Hids F1].
  constructor; try (now apply hasField_spec).
  - apply bool_decide_eq_true_1 in Hids. now apply NoDup_ListNoDup.
  - rewrite forallb_forall in Hon. intros i Hi E. specialize (Hon i Hi).
    rewrite (bool_decide_eq_true_2 _ E) in Hon.
    now apply bool_decide_eq_true_1 in Hon.
  - rewrite forallb_forall in Hstage. intros i Hi E.
    specialize (Hstage i Hi). rewrite E in Hstage. cbn [implb] in Hstage.
    apply andb_true_iff in Hstage. destruct Hstage as [Ht Hd].
    apply bool_decide_eq_true_1 in Ht. apply negb_true_iff in Hd.
    now split.
Qed.

Lemma restore_then_read_witness :
  exists b',
    syncFormWithConfig analysisForm retentionConfig (demoBrowser ∅)
    = (Normal tt, b')
    /\ readFunnelConfig (formNow b')
       = restored (stageValues analysisForm demoInputs) retentionConfig.
Proof.
  destruct (restore_then_read retentionConfig (demoBrowser ∅))
    as (b' & R & F & _).
  - apply hasLayout_spec. vm_compute. reflexivity.
  - vm_compute. reflexivity.
  - vm_compute. reflexivity.
  - exists b'. split; [exact R|exact F].
Defined.

(* ===================================================================== *)
(** * Restoring a stored object with a [null] number *)
(* ===================================================================== *)

(** On an object with both numbers [syncFormWithStored] is
    [syncFormWithConfig]. *)
Lemma syncFormWithStored_config (form : list N) (config : FunnelConfig) :
  syncFormWithStored form
    (mkStored (business config) (industry config) (Some (sessions config))
              (Some (cpa config)) (stages config) (newsletter config))
  = syncFormWithConfig form config.
Proof. reflexivity. Qed.

Lemma stopsAt_bind {A B} (b : Browser) (l1 l2 : list (ElementKind * list N))
  (e : exn) (m : JS A) (k : A -> JS B) :
  needsAt b l1 m ->
  (forall a b1, m b = (Normal a, b1) -> stopsAt b1 l2 e (k a)) ->
  stopsAt b (l1 ++ l2) e (bindJS m k).
Proof.
  intros [Hp Hm] Hk. unfold stopsAt, bindJS. rewrite firstMissing_app.
  destruct (m b) as [[a|e'|] b1] eqn:E; simpl in *.
  - destruct (Hk a b1 eq_refl) as [Hp2 Hk2].
    split; [intros r; now rewrite Hp2|].
    destruct (firstMissing l1 b) as [s|]; [discriminate|].
    now rewrite <- (firstMissing_ext l2 b b1 Hp).
  - split; [exact Hp|].
    destruct (firstMissing l1 b) as [s|]; [now injection Hm as ->|].
    destruct Hm as [a Ha]. discriminate.
  - split; [exact Hp|].
    destruct (firstMissing l1 b) as [s|]; [discriminate|].
    destruct Hm as [a Ha]. discriminate.
Qed.

Lemma stopsAt_first {A B} (b : Browser) (l : list (ElementKind * list N))
  (e : exn) (m : JS A) (k : A -> JS B) :
  stopsAt b l e m -> stopsAt b l e (bindJS m k).
Proof.
  intros [Hp Hm]. unfold stopsAt, bindJS.
  destruct (m b) as [[a|e'|] b1]; simpl in *.
  - destruct (firstMissing l b); discriminate.
  - split; [exact Hp|]. destruct (firstMissing l b); congruence.
  - destruct (firstMissing l b); discriminate.
Qed.

Lemma stopsAt_throw {A} (b : Browser) (e : exn) :
  stopsAt b [] e (@throwJS A e).
Proof. split; [intros r|]; reflexivity. Qed.

(** [queryElement(s).value = null.toString()]. *)
Lemma stopsAt_null_number (s : list N) (b : Browser) :
  stopsAt b [(InputElement, s)] TypeError
    (input <- queryElementJS querySelectorInput s ;;
     text <- numberToStringJS None ;;
     setValue input text)%js.
Proof.
  apply (stopsAt_bind b [_] []); [apply needs_query_input|].
  intros input b1 _. apply stopsAt_first, stopsAt_throw.
Qed.

Lemma needs_assign_number (s : list N) (x : number) :
  needs [(InputElement, s)]
    (input <- queryElementJS querySelectorInput s ;;
     text <- numberToStringJS (Some x) ;;
     setValue input text)%js.
Proof.
  apply (needs_bind [_] []); [apply needs_query_input|].
  intros input. apply needs_plain; [intros r; present_auto|returns_auto].
Qed.

Lemma needs_assign_text (s text : list N) :
  needs [(InputElement, s)]
    (input <- queryElementJS querySelectorInput s ;;
     setValue input text)%js.
Proof.
  apply (needs_bind [_] []); [apply needs_query_input|].
  intros input. apply needs_plain; [intros r; present_auto|returns_auto].
Qed.

(** One of the numbers of a stored object that is no configuration is
    [null]. *)
Lemma asStoredConfig_null (v : value) (nulled : StoredConfig) :
  asFunnelConfig v = None -> asStoredConfig v = Some nulled ->
  truthy v = true
  /\ (storedSessions nulled = None
      \/ exists x, storedSessions nulled = Some x
                   /\ storedCpa nulled = None).
Proof.
  unfold asFunnelConfig, asStoredConfig.
  destruct v as [| |flag|z|s|l|m]; try discriminate.
  destruct (m !! lit "business") as [[| | | |bu| |]|]; try discriminate.
  destruct (m !! lit "industry") as [[| | | |ind| |]|]; try discriminate.
  destruct (m !! lit "sessions") as [se|]; try discriminate.
  destruct (m !! lit "cpa") as [cp|]; try discriminate.
  destruct (m !! lit "stages") as [[| | | | |st|]|];
    try (destruct se, cp; discriminate).
  destruct (m !! lit "newsletter") as [[| |nl| | | |]|];
    try (destruct se, cp; discriminate).
  destruct (allStrings st) as [names|];
    [|destruct se, cp; discriminate].
  destruct se as [| |f1|x| | |], cp as [| |f2|y| | |];
    cbn [numberOrNull]; try discriminate; intros _ [= <-];
    (split; [reflexivity|]); cbn [storedSessions storedCpa]; eauto.
Qed.

Lemma stopsAt_syncFormWithStored (form : list N) (nulled : StoredConfig)
  (b : Browser) :
  (storedSessions nulled = None
   \/ exists x, storedSessions nulled = Some x /\ storedCpa nulled = None) ->
  stopsAt b
    ([(InputElement, lit "#business-name"); (InputElement, lit "#industry");
      (InputElement, lit "#traffic-level")]
     ++ match storedSessions nulled with
        | Some _ => [(InputElement, lit "#goal-cpa")]
        | None => []
        end)
    TypeError (syncFormWithStored form nulled).
Proof.
  intros Hn. unfold syncFormWithStored.
  apply (stopsAt_bind b [_] (_ :: _)); [apply needs_assign_text|].
  intros _ b1 _.
  apply (stopsAt_bind b1 [_] (_ :: _)); [apply needs_assign_text|].
  intros _ b2 _.
  destruct Hn as [->|(x & -> & ->)].
  - apply stopsAt_first, stopsAt_null_number.
  - apply (stopsAt_bind b2 [_] [_]); [apply needs_assign_number|].
    intros _ b3 _. apply stopsAt_first, stopsAt_null_number.
Qed.

Lemma stopsAt_setupAnalysisForm (H : Host) (b : Browser) (v : value)
  (nulled : StoredConfig) :
  fst (loadConfig (view b)) = Normal v ->
  asFunnelConfig v = None -> asStoredConfig v = Some nulled ->
  stopsAt b
    ([(FormElement, analysisForm); (AnyElement, analysisFeedback)]
     ++ [(InputElement, lit "#business-name"); (InputElement, lit "#industry");
         (InputElement, lit "#traffic-level")]
     ++ match storedSessions nulled with
        | Some _ => [(InputElement, lit "#goal-cpa")]
        | None => []
        end)
    TypeError (setupAnalysisForm H).
Proof.
  intros Hv Ha Hs. destruct (asStoredConfig_null v nulled Ha Hs) as [Tv Hn].
  unfold setupAnalysisForm.
  apply (stopsAt_bind b [_] (_ :: _)); [apply needs_query_form|].
  intros form b1 E1.
  assert (Eb : b1 = b).
  { unfold queryElementJS, retJS, throwJS in E1.
    destruct (querySelectorForms _ b); congruence. }
  subst b1. clear E1.
  apply (stopsAt_bind b [_] _); [apply needs_query_html|].
  intros feedback b2 E2.
  assert (Eb : b2 = b).
  { unfold queryElementJS, retJS, throwJS in E2.
    destruct (querySelectorHTML _ b); congruence. }
  subst b2. clear E2.
  apply (stopsAt_bind b [] _).
  { split.
    - intros r. apply (keeps_present_inPage _ r), keepsLists_load.
    - simpl. exists v. now rewrite fst_inPage. }
  intros stored b3 E3.
  assert (stored = v) as ->.
  { apply (f_equal fst) in E3. rewrite fst_inPage, Hv in E3. simpl in E3.
    congruence. }
  rewrite Tv, Ha, Hs.
  apply stopsAt_first, stopsAt_first.
  now apply stopsAt_syncFormWithStored.
Qed.

Lemma stopsAt_bootstrap (H : Host) (b : Browser) (v : value)
  (nulled : StoredConfig) :
  fst (loadConfig (view b)) = Normal v ->
  asFunnelConfig v = None -> asStoredConfig v = Some nulled ->
  stopsAt b (requiredNulled nulled) TypeError (bootstrap H).
Proof.
  intros Hv Ha Hs. unfold bootstrap, requiredNulled.
  change ([(AnyElement, navToggle); (AnyElement, navLinks);
           (FormElement, analysisForm); (AnyElement, analysisFeedback);
           (InputElement, lit "#business-name");
           (InputElement, lit "#industry");
           (InputElement, lit "#traffic-level")]
          ++ match storedSessions nulled with
             | Some _ => [(InputElement, lit "#goal-cpa")]
             | None => []
             end)
    with ([(AnyElement, navToggle); (AnyElement, navLinks)]
          ++ [(FormElement, analysisForm); (AnyElement, analysisFeedback)]
          ++ [(InputElement, lit "#business-name");
              (InputElement, lit "#industry");
              (InputElement, lit "#traffic-level")]
          ++ match storedSessions nulled with
             | Some _ => [(InputElement, lit "#goal-cpa")]
             | None => []
             end).
  apply stopsAt_bind; [apply needs_setupNavigation|].
  intros [] b1 E1. apply stopsAt_first.
  apply (stopsAt_setupAnalysisForm H b1 v nulled); [|exact Ha|exact Hs].
  rewrite <- Hv. apply loadConfig_storage. simpl.
  eapply (keeps_run storageArea); [|exact E1]. keeps_auto.
Qed.







(** ** The download after a submit of a number that is not finite *)





(** ** The last statement of the script *)

(** With nothing usable, a configuration or an object with a [null]
    number in the store, [bootstrap] stays inside the model. *)
Lemma bootstrap_typed (H : Host) (b : Browser) (v : value) :
  fst (loadConfig (view b)) = Normal v ->
  (truthy v = true -> asFunnelConfig v = None -> asStoredConfig v <> None) ->
  fst (bootstrap H b) <> Untyped.
Proof.
  intros Hv Ht.
  destruct (truthy v) eqn:Tv.
  - destruct (asFunnelConfig v) as [config|] eqn:A.
    + destruct (needsAt_bootstrap H b v Hv) as [_ N];
        [rewrite A; discriminate|].
      destruct (firstMissing _ b); [now rewrite N|].
      destruct N as [a ->]. discriminate.
    + destruct (asStoredConfig v) as [nulled|] eqn:S;
        [|now destruct (Ht eq_refl eq_refl)].
      destruct (stopsAt_bootstrap H b v nulled Hv A S) as [_ ->].
      destruct (firstMissing _ b); discriminate.
  - destruct (needsAt_bootstrap H b v Hv) as [_ N];
      [rewrite Tv; discriminate|].
    destruct (firstMissing _ b); [now rewrite N|].
    destruct N as [a ->]. discriminate.
Qed.

Lemma keeps_reported_bootstrap (H : Host) : keeps reportedErrors (bootstrap H).
Proof. keeps_auto. Qed.

(** X21: While the document is still loading the script only waits: it adds
    one listener to the document and touches nothing else.  Once the
    document is parsed that listener runs [bootstrap] once, and an
    error of [bootstrap] is then reported instead of thrown.  On a
    document that has been parsed the script runs [bootstrap] at
    once.  With nothing usable, a configuration or an object with a
    [null] number in the store the deferred run ends normally, with the
    error of [bootstrap], if any, as the one error reported.  (For any
    other stored value that is no configuration the model leaves the
    outcome of [bootstrap], and so of the run, untyped.) *)
Theorem main_defers_while_loading (H : Host) (b : Browser) :
  (readyState b = Loading ->
   main H b
   = (Normal tt,
      withEventListeners
        (eventListeners b ++ [(Document, DOMContentLoaded, Bootstrap)]) b))
  /\ (readyState b <> Loading -> main H b = bootstrap H b)
  /\ (readyState b = Loading -> eventListeners b = [] ->
      let b0 :=
        withCanceled false
          (withReadyState Interactive
             (withEventListeners [(Document, DOMContentLoaded, Bootstrap)] b)) in
      (main H ;;; contentLoaded H)%js b
      = match bootstrap H b0 with
        | (Normal _, b1) => (Normal tt, b1)
        | (Throw e, b1) =>
            (Normal tt, withReportedErrors (reportedErrors b1 ++ [e]) b1)
        | (Untyped, b1) => (Untyped, b1)
        end)
  /\ (readyState b = Loading -> eventListeners b = [] ->
      forall v,
        fst (loadConfig (view b)) = Normal v ->
        (truthy v = true -> asFunnelConfig v = None ->
         asStoredConfig v <> None) ->
        let b0 :=
          withCanceled false
            (withReadyState Interactive
               (withEventListeners [(Document, DOMContentLoaded, Bootstrap)]
                  b)) in
        fst ((main H ;;; contentLoaded H)%js b) = Normal tt
        /\ reportedErrors (snd ((main H ;;; contentLoaded H)%js b))
           = reportedErrors b
               ++ match fst (bootstrap H b0) with
                  | Throw e => [e]
                  | _ => []
                  end).
Proof.
  assert (M3 : readyState b = Loading -> eventListeners b = [] ->
               let b0 :=
                 withCanceled false
                   (withReadyState Interactive
                      (withEventListeners
                         [(Document, DOMContentLoaded, Bootstrap)] b)) in
               (main H ;;; contentLoaded H)%js b
               = match bootstrap H b0 with
                 | (Normal _, b1) => (Normal tt, b1)
                 | (Throw e, b1) =>
                     (Normal tt,
                      withReportedErrors (reportedErrors b1 ++ [e]) b1)
                 | (Untyped, b1) => (Untyped, b1)
                 end).
  { intros E El b0. subst b0. unfold bindJS, main. rewrite E.
    unfold addEventListener, contentLoaded, bindJS. rewrite El.
    rewrite (dispatchEvent_single H _ _ Bootstrap) by (now destruct b).
    cbn [runListener]. unfold defaultAction.
    replace (withCanceled false (withReadyState Interactive
               (withEventListeners ([] ++ [(Document, DOMContentLoaded, Bootstrap)]) b)))
      with (withCanceled false (withReadyState Interactive
              (withEventListeners [(Document, DOMContentLoaded, Bootstrap)] b)))
      by reflexivity.
    destruct (bootstrap H _) as [[[]|e|] b1]; reflexivity. }
  split; [|split; [|split; [exact M3|]]].
  - intros E. unfold main. now rewrite E.
  - intros E. unfold main. destruct (readyState b); congruence.
  - intros E El v Hv Ht b0. rewrite (M3 E El). fold b0.
    assert (Hv0 : fst (loadConfig (view b0)) = Normal v)
      by (rewrite <- Hv; now destruct b).
    pose proof (bootstrap_typed H b0 v Hv0 Ht) as T.
    pose proof (keeps_reported_bootstrap H b0) as K.
    destruct (bootstrap H b0) as [[[]|e|] b1]; cbn [fst snd] in *.
    + split; [reflexivity|]. rewrite K, app_nil_r. now destruct b.
    + split; [reflexivity|]. destruct b1; simpl in *. rewrite K.
      now destruct b.
    + now destruct T.
Qed.

Lemma main_defers_while_loading_witness :
  let b := withReadyState Loading (demoBrowser ∅) in
  main enUS b
  = (Normal tt,
     withEventListeners [(Document, DOMContentLoaded, Bootstrap)] b)
  /\ fst ((main enUS ;;; contentLoaded enUS)%js b) = Normal tt
  /\ main enUS (demoBrowser ∅) = bootstrap enUS (demoBrowser ∅)
  /\ reportedErrors
       (snd ((main enUS ;;; contentLoaded enUS)%js
               (withReadyState Loading
                  (demoBrowser
                     (<[storageKey
                        := JSON_stringify (readFunnelConfig wordForm)]> ∅)))))
     = [TypeError].
Proof.
  intros b.
  destruct (main_defers_while_loading enUS b) as (M1 & _ & M3 & _).
  destruct (main_defers_while_loading enUS (demoBrowser ∅)) as (_ & M2 & _).
  destruct (main_defers_while_loading enUS
              (withReadyState Loading
                 (demoBrowser
                    (<[storageKey
                       := JSON_stringify (readFunnelConfig wordForm)]> ∅))))
    as (_ & _ & _ & M4).
  split; [exact (M1 eq_refl)|]. split; [|split; [apply M2; discriminate|]].
  - rewrite (M3 eq_refl eq_refl). vm_compute. reflexivity.
  - destruct (M4 eq_refl eq_refl (storedValue (readFunnelConfig wordForm)))
      as [_ ->]; vm_compute; try reflexivity. discriminate.
Defined.
